(* ===== verification/_CoqProject ===== *)
-Q . S2P
Prelude.v
Bytes.v
Mem.v
KString.v
Pmm.v
Kallsyms.v
Keyboard.v
Errno.v
Alloc.v
Vfs.v
Ramfs.v
VfsTree.v
RamfsSpec.v
FileSpec.v
FsTheorems.v
Initramfs.v
InitramfsSpec.v
Boot.v
Slab.v
Pages.v
PagedAlloc.v
SlabInv.v
SlabSpec.v
SlabHeap.v
SlabPaged.v
Paging.v
PagingSpec.v
UserCopy.v
UserCopySpec.v
Sched.v
SchedSpec.v
Gdt.v
Smp.v
SchedInit.v
Idt.v
Elf.v
Dynlink.v
DynlinkSpec.v
Apic.v
Madt.v
Font.v
Console.v
ConsoleSpec.v
ConsoleNum.v
Panic.v
PanicSpec.v
Irq.v
IrqSpec.v
Spinlock.v
Ioapic.v
ElfExec.v
Exec.v
Asm.v
AsmSpec.v
IntAsm.v
ExecSpec.v
SpaceSpec.v
SpaceMap.v
LoadSpec.v
StackSpec.v
SpaceFree.v
RelocSpec.v
ReadSpec.v
ImageSpec.v
LaunchSpec.v
SwitchSpec.v
Kernel.v
KernelMem.v
KernelSpec.v
Syscall.v
Dispatch.v
FdSpec.v
SyscallSpec.v
