(* ===== verification/Prelude.v ===== *)
(** * Synx kernel: verification development

    Synx is a small x86-64 kernel written in C++ (src/). This library
    translates its own code into Rocq functions, file by file, and proves what
    makes each part correct.

    ** The program and its parts

    - Memory (mem/): pmm hands out physical pages from a bitmap, slab carves
      them into objects, paging builds the kernel's page tables.
    - File systems (fs/): vfs keeps reference-counted inodes, dentries, files
      and mounts and dispatches to operation tables; ramfs implements them in
      memory; initramfs unpacks a cpio archive into ramfs at boot.
    - Processes (proc/): sched switches kernel tasks, elf_exec loads programs
      into new address spaces, dynlink links position-independent images,
      syscall_* implement the system calls on top of vfs, paging and elf_exec.
    - Machine (src/): gdt and idt descriptor tables, apic, madt and ioapic for
      interrupts and time, ps2_keyboard, the console (ostreamk), the panic
      screen, the C string routines, and kallsyms; kernel_main starts it all.

    ** Conventions

    Integers are [Z] with the conversions of their C width written out ([u8]
    .. [u64], [s32], [s64]). Memory is a function from kernel addresses to
    bytes ([Mem.ram]); the page allocator, the page tables and the loader work
    on it. The file systems keep their objects in maps keyed by address, so a
    dangling or null pointer is a failed lookup. Code runs in the monad [K]:
    state passing with the outcomes [Ret], [Panic] (kernel_panic), [Fault]
    (undefined behaviour: a null, dangling or out-of-bounds access) and
    [Diverge] (fuel ran out). A theorem that says a function returns therefore
    says that it terminates and stays in bounds. Loops bounded by a counter
    recurse on it; other loops carry fuel computed from their input (the number
    of dentries for a sibling list, the length of an archive, the bytes left
    to copy), and the theorems show that the fuel is enough. Loops that wait
    for a device consume its input stream and diverge when it ends. Code that
    is not in the repository is a parameter: the boot loader's memory map, the
    cpuid instruction, what the timer does while the kernel waits, the
    generated symbol table, the callbacks of the dynamic linker's caller.
    Log messages are left out of the components' models; sys_write appends to
    a console log; the console itself is modelled in Console.

    ** Files

    - Prelude, Bytes, Mem, Errno: machine integers, outcomes, byte buffers,
      memory, error pointers (include/syserrno.h).
    - KString: src/klibc_string.cpp. Kallsyms: kallsyms/kallsyms.cpp.
      Keyboard: src/ps2_keyboard.cpp.
    - Pmm: mem/kmemory.cpp. Pages: page numbers in the direct map, shared by
      the next ones. Slab: mem/slab.cpp; SlabInv: the invariant of its lists
      in memory; SlabSpec: alloc and free keep it; SlabHeap: the allocator as
      a heap of disjoint objects. Alloc: the interface [Allocator] with its
      contract [AllocatorSpec], against which the file systems and the
      scheduler's start are proved and which SlabHeap discharges. PagedAlloc:
      the contract [PagedAllocator] of an allocator that shares its pages with
      page tables and programs; SlabPaged discharges it.
    - Paging, PagingSpec: mem/paging.cpp.
    - Vfs, Ramfs, Initramfs: fs/vfs.cpp, fs/ramfs.cpp, fs/initramfs.cpp.
      VfsTree gives the tree invariant and path resolution, RamfsSpec the
      operations on it, FileSpec opening, reading and closing, FsTheorems and
      InitramfsSpec the results.
    - UserCopy, UserCopySpec: proc/syscall_user.cpp.
    - Sched, SchedSpec: proc/sched.cpp and switch_context.S. SchedInit: the
      invariant of the task list and init_all_cpus.
    - Smp: the start of the other processors (kernel_main, ap_entry, ap_main).
    - Boot: init_fs of src/kernel_main.cpp. Kernel: kernel_main, from the
      checks of the boot loader's responses to the entry of the first program.
      KernelMem: the page tables and the slab allocator on one memory.
      KernelSpec: the start.
    - Font, Console: include/font.h, src/ostreamk.cpp, include/kprint.h.
      ConsoleSpec: the frame buffer as a text terminal; ConsoleNum: numbers
      and time stamps. Panic, PanicSpec: src/kernelpanic.cpp.
    - Spinlock: include/proc/spinlock.h. Asm, AsmSpec: syscall_entry.S,
      enter_user.S, switch_context.S and the interrupt stubs of src/idt.cpp,
      instruction by instruction. IntAsm: what an interrupt leaves.
    - Irq, IrqSpec: irqHandler and exceptionHandler of src/idt.cpp.
    - Gdt, Idt: src/gdt.cpp, src/idt.cpp. Apic: src/apic.cpp and
      include/pic_calibrate.h. Madt: src/madt.cpp. Ioapic: src/ioapic.cpp.
    - Elf: the ELF structures. Dynlink, DynlinkSpec: proc/dynlink.cpp.
    - ElfExec: the address-space functions of proc/elf_exec.cpp; Exec:
      load_image, activate, terminate_current, launch_static and
      syscall::init. ExecSpec: validation. SpaceSpec, SpaceMap: the tree of
      page tables as a map from virtual pages to frames; SpaceFree: how it
      is given back. LoadSpec, StackSpec, RelocSpec: the segments, the stack
      and the relocations of the loaded process. ReadSpec, ImageSpec,
      LaunchSpec: reading the file, filling the space, load_image and
      launch_static as a whole. SwitchSpec: activate and terminate_current.
    - Syscall: proc/syscall_fs.cpp, syscall_io.cpp, syscall_info.cpp.
      Dispatch: proc/syscall_process.cpp and the dispatcher of syscall.cpp.
      FdSpec, SyscallSpec: their theorems.

    The components meet where the code meets: slab's contract is the class
    [AllocatorSpec], also for one client among others
    ([SlabHeap.slab_frame_spec]), which is how KernelSpec composes the parts
    that share the allocator; [KernelMem.shared] divides the memory between
    the page tables, the slab allocator and the pages of others, and
    [PagedAllocator] is the same division seen by the loader, which reads a
    file, builds a space and gives both back on one machine; ramfs
    discharges the class [CachedLookup] that path resolution is proved
    against; the loader's and the user-copy routines' page
    tables are those of Paging; the system calls run the models of vfs,
    elf_exec, the keyboard and the timer on one kernel state.

    ** What the theorems show

    - Memory: allocation and release of pages are inverse and touch only the
      bitmap; map_page is a map update on the hardware's view; the slab
      allocator's objects are disjoint, keep their bytes and never corrupt its
      lists.
    - Start: kernel_main comes up with all parts well formed, the interrupt
      controllers mapped and the first program ready to run, or halts or
      panics, without a hang or an invalid access; the other processors get disjoint stacks, and none schedules
      before all are online.
    - Files: path_walk resolves paths as the tree does, with exact reference
      counts; created files read back; archives load safely and exactly.
    - User memory: copies reach only what the process may access.
    - Programs: only well-formed executables are accepted; the process then
      sees exactly the segments of its file and the initial stack of the ABI,
      in an address space disjoint from everything else; relocations patch
      their words and nothing else; a program that cannot be loaded, is
      replaced or ends gives every page of its space back; the dynamic linker
      stays inside its buffers on every file.
    - System calls: descriptors refine a plain table, with exact reference
      counts; lseek keeps offsets in range; a failed execve changes nothing.
    - Scheduling, interrupts, time, keyboard, strings, symbols: round robin is
      fair and resumes tasks unchanged, gates and descriptors decode to what
      was meant, routing programs one entry, the clock counts, decoding inverts
      encoding.
    - Console and panic: the frame buffer always shows the terminal that
      received the characters; nothing outside it changes; a stack trace ends
      and lists the callers.
    - Machine code and interrupts: syscall_entry hands over and restores the
      user's registers, an interrupt leaves the interrupted code as it was,
      switch_context does what the scheduler's model says,
      timer interrupts share the processor and keep the clock, keyboard
      interrupts feed the decoder, exception messages fit; a spin lock
      excludes.
    - Some theorems record defects of the code (PROJECT.json lists them): the
      page allocator's initial fill, mounts on missing paths, the stack of a
      new task, the order of the saved registers.

    ** Bounds

    Physical memory is assumed below 2^52 bytes (2^40 pages) where page-table
    entries are decoded, as the architecture fixes; reference counts below
    2^31. Neither limits a machine the kernel can run on.

    ** Not modelled

    Log lines of the components; the lidt, lgdt and ltr instructions; the
    bytes of the file systems' objects inside the slab allocator's memory (the
    objects are values at their addresses, and the allocator's contract keeps
    the addresses apart); the memory model of several processors: apart from Spinlock and the rendezvous of Smp, whose steps interleave
    sequentially consistently, every theorem is about one processor running
    one call at a time. The boot protocol header and the
    boot loader's installer are third-party code. *)

From stdpp Require Export base numbers list gmap sets option strings.
From Stdlib Require Export ZArith Lia.

#[export] Set Warnings "-clear-no-such-hyp".
#[global] Open Scope Z_scope.

(** ** Machine integers

    Every C integer is a [Z]; [uN] is the conversion to the unsigned N-bit
    type, [sN] the conversion to the signed one (two's complement). *)

Definition u8 (x : Z) : Z := x mod 2 ^ 8.
Definition u16 (x : Z) : Z := x mod 2 ^ 16.
Definition u32 (x : Z) : Z := x mod 2 ^ 32.
Definition u64 (x : Z) : Z := x mod 2 ^ 64.

Definition to_signed (w x : Z) : Z :=
  let y := x mod 2 ^ w in if y <? 2 ^ (w - 1) then y else y - 2 ^ w.
Definition s32 (x : Z) : Z := to_signed 32 x.
Definition s64 (x : Z) : Z := to_signed 64 x.

Definition UINT64_MAX : Z := 2 ^ 64 - 1.
Definition INT64_MAX : Z := 2 ^ 63 - 1.
Definition INT64_MIN : Z := - 2 ^ 63.

(** ** Outcomes of kernel code

    A call returns a value, stops in [kernel_panic], or performs an access
    that C leaves undefined (null or dangling pointer, index outside an
    object); [Diverge] is the result of a loop whose fuel ran out. *)

Inductive outcome (A : Type) : Type :=
| Ret (a : A)
| Panic (why : string)
| Fault
| Diverge.
Arguments Ret {A} a.
Arguments Panic {A} why.
Arguments Fault {A}.
Arguments Diverge {A}.

#[export] Instance outcome_ret : MRet outcome := λ A a, Ret a.
#[export] Instance outcome_bind : MBind outcome := λ A B f m,
  match m with
  | Ret a => f a
  | Panic w => Panic w
  | Fault => Fault
  | Diverge => Diverge
  end.

#[export] Instance outcome_eq_dec A `{EqDecision A} : EqDecision (outcome A).
Proof. solve_decision. Defined.

(** Stateful kernel code: a state passed explicitly. *)
Definition K (S A : Type) : Type := S → outcome (A * S).

#[export] Instance K_ret {S} : MRet (K S) := λ A a s, Ret (a, s).
#[export] Instance K_bind {S} : MBind (K S) := λ A B f m s,
  match m s with
  | Ret (a, s') => f a s'
  | Panic w => Panic w
  | Fault => Fault
  | Diverge => Diverge
  end.

Definition k_get {S} : K S S := λ s, Ret (s, s).
Definition k_gets {S A} (f : S → A) : K S A := λ s, Ret (f s, s).
Definition k_modify {S} (f : S → S) : K S unit := λ s, Ret (tt, f s).
Definition k_panic {S A} (why : string) : K S A := λ _, Panic why.
Definition k_fault {S A} : K S A := λ _, Fault.
Definition k_diverge {S A} : K S A := λ _, Diverge.
(** Dereferencing: [None] is an access the C program must not make. *)
Definition k_deref {S A} (o : option A) : K S A :=
  match o with Some a => mret a | None => k_fault end.

(** The bind rules the proofs use: a step that returns hands its value and
    state to the continuation. *)
Lemma K_bind_ret {S A B} (m : K S A) (f : A → K S B) s a s' :
  m s = Ret (a, s') → (m ≫= f) s = f a s'.
Proof. intros H. unfold mbind, K_bind. by rewrite H. Qed.

Lemma K_bind_inv {S A B} (m : K S A) (f : A → K S B) s b s2 :
  (m ≫= f) s = Ret (b, s2) → ∃ a s1, m s = Ret (a, s1) ∧ f a s1 = Ret (b, s2).
Proof.
  unfold mbind, K_bind. destruct (m s) as [[a s1]| | |] eqn:E; naive_solver.
Qed.

Lemma K_ret_inv {S B} (a b : B) (s s' : S) : (mret a : K S B) s = Ret (b, s') → a = b ∧ s = s'.
Proof. by intros [= -> ->]. Qed.

(** A computation that moves the state along [R] only. *)
Definition stable {S B} (R : S → S → Prop) (m : K S B) : Prop := ∀ s b s', m s = Ret (b, s') → R s s'.
Section Stable.
Context {S : Type} (R : S → S → Prop) `{!PreOrder R}.
Lemma stable_ret {B} (b : B) : stable R (mret b).
Proof. intros s b' s' [= _ <-]. done. Qed.
Lemma stable_gets {B} (f : S → B) : stable R (k_gets f).
Proof. intros s b' s' [= _ <-]. done. Qed.
Lemma stable_modify (f : S → S) : (∀ s, R s (f s)) → stable R (k_modify f).
Proof. intros Hf s b' s' [= _ <-]. apply Hf. Qed.
Lemma stable_bind {B C} (m : K S B) (f : B → K S C) : stable R m → (∀ b, stable R (f b)) → stable R (m ≫= f).
Proof. intros Hm Hf s b' s' (b & s1 & H1%Hm & H2%Hf)%K_bind_inv. by etrans. Qed.
End Stable.

(** [kstep] runs the head of a bind whose result is known. *)
Ltac kstep lem := rewrite (K_bind_ret _ _ _ _ _ lem).
Tactic Notation "kstep" uconstr(lem) := erewrite K_bind_ret by (eapply lem; eauto).

(** [krun] runs the heads that need no hypothesis: reads of a field, updates. *)
Ltac krun := repeat (erewrite K_bind_ret by reflexivity).

(** Split the scrutinee of every [if]/[match] of the goal on a boolean
    comparison and turn it into arithmetic. *)
Ltac zbool :=
  repeat match goal with
  | H : (_ && _) = true |- _ => apply andb_true_iff in H; destruct H
  | H : (_ || _) = false |- _ => apply orb_false_iff in H; destruct H
  | H : (_ <? _) = true |- _ => apply Z.ltb_lt in H
  | H : (_ <? _) = false |- _ => apply Z.ltb_ge in H
  | H : (_ <=? _) = true |- _ => apply Z.leb_le in H
  | H : (_ <=? _) = false |- _ => apply Z.leb_gt in H
  | H : (_ =? _) = true |- _ => apply Z.eqb_eq in H
  | H : (_ =? _) = false |- _ => apply Z.eqb_neq in H
  | H : (_ >? _) = true |- _ => rewrite Z.gtb_ltb in H
  | H : (_ >? _) = false |- _ => rewrite Z.gtb_ltb in H
  | H : (_ >=? _) = true |- _ => rewrite Z.geb_leb in H
  | H : (_ >=? _) = false |- _ => rewrite Z.geb_leb in H
  | H : negb _ = true |- _ => apply negb_true_iff in H
  | H : negb _ = false |- _ => apply negb_false_iff in H
  end.

Ltac zcase :=
  match goal with
  | |- context [?a <? ?b] => destruct (Z.ltb_spec a b)
  | |- context [?a <=? ?b] => destruct (Z.leb_spec a b)
  | |- context [?a =? ?b] => destruct (Z.eqb_spec a b)
  end.

Ltac div_mod := Z.div_mod_to_equations; nia.

(** ** Integer lemmas *)

Lemma u64_small x : 0 ≤ x < 2 ^ 64 → u64 x = x.
Proof. apply Z.mod_small. Qed.
Lemma u32_small x : 0 ≤ x < 2 ^ 32 → u32 x = x.
Proof. apply Z.mod_small. Qed.
Lemma u16_small x : 0 ≤ x < 2 ^ 16 → u16 x = x.
Proof. apply Z.mod_small. Qed.
Lemma u8_small x : 0 ≤ x < 2 ^ 8 → u8 x = x.
Proof. apply Z.mod_small. Qed.
Lemma u64_range x : 0 ≤ u64 x < 2 ^ 64.
Proof. apply Z.mod_pos_bound. lia. Qed.
Lemma u32_range x : 0 ≤ u32 x < 2 ^ 32.
Proof. apply Z.mod_pos_bound. lia. Qed.
Lemma u8_range x : 0 ≤ u8 x < 2 ^ 8.
Proof. apply Z.mod_pos_bound. lia. Qed.

Lemma s32_small x : - 2 ^ 31 ≤ x < 2 ^ 31 → s32 x = x.
Proof.
  intros H. unfold s32, to_signed. change (32 - 1) with 31.
  destruct (decide (0 ≤ x)).
  - rewrite Z.mod_small by lia. by rewrite (proj2 (Z.ltb_lt _ _)) by lia.
  - replace (x mod 2 ^ 32) with (x + 2 ^ 32) by (apply (Z.mod_unique _ _ (-1)); lia).
    rewrite (proj2 (Z.ltb_ge _ _)) by lia. lia.
Qed.

Create HintDb words.
Create Rewrite HintDb words.
#[export] Hint Rewrite u64_small u32_small u16_small u8_small using lia : words.
#[export] Hint Resolve u64_range u32_range u8_range : words.

Lemma testbit_u8 x i : 0 ≤ i → Z.testbit (u8 x) i = (i <? 8) && Z.testbit x i.
Proof.
  intros Hi. unfold u8. zcase; simpl.
  - by rewrite Z.mod_pow2_bits_low by lia.
  - by rewrite Z.mod_pow2_bits_high by lia.
Qed.

(** Rounding up to a power of two by masking, as [(n + k - 1) & ~(k - 1)]. *)
Lemma land_lnot_pow2 x k : 0 ≤ k → Z.land x (Z.lnot (2 ^ k - 1)) = x - x mod 2 ^ k.
Proof.
  intros Hk. replace (2 ^ k - 1) with (Z.ones k) by (rewrite Z.ones_equiv; lia).
  rewrite <- Z.ldiff_land, Z.ldiff_ones_r, Z.shiftl_mul_pow2, Z.shiftr_div_pow2 by lia.
  pose proof (Z.div_mod x (2 ^ k)). nia.
Qed.

Lemma land_ones_mod x k : 0 ≤ k → Z.land x (2 ^ k - 1) = x mod 2 ^ k.
Proof. intros Hk. rewrite <- Z.land_ones by done. f_equal. rewrite Z.ones_equiv. lia. Qed.

(** Bits of a single bit, the shape every flag test has. *)
Lemma testbit_shiftl1 k i : 0 ≤ k → 0 ≤ i → Z.testbit (Z.shiftl 1 k) i = (i =? k).
Proof.
  intros Hk Hi. rewrite Z.shiftl_spec by done.
  zcase.
  - subst. by rewrite Z.sub_diag.
  - destruct (decide (i < k)).
    + apply Z.testbit_neg_r. lia.
    + apply Z.bits_above_log2; simpl; lia.
Qed.

(** Fields side by side: or is addition. *)
Lemma lor_shiftl_add a b k : 0 ≤ k → 0 ≤ b < 2 ^ k → Z.lor (Z.shiftl a k) b = a * 2 ^ k + b.
Proof.
  intros Hk Hb. assert (Hl : Z.land (Z.shiftl a k) b = 0).
  { destruct (decide (b = 0)) as [->|Hb0]; [apply Z.land_0_r|].
    apply Z.bits_inj'. intros i Hi. rewrite Z.land_spec, Z.bits_0.
    destruct (decide (i < k)).
    - by rewrite Z.shiftl_spec_low.
    - rewrite (Z.bits_above_log2 b), andb_false_r; [done|lia|].
      apply Z.log2_lt_pow2; [lia|].
      apply Z.lt_le_trans with (2 ^ k); [lia|]. apply Z.pow_le_mono_r; lia. }
  rewrite <- Z.lxor_lor, <- Z.add_nocarry_lxor by done. by rewrite Z.shiftl_mul_pow2 by lia.
Qed.
Lemma lor_mul_add a b k : 0 ≤ k → 0 ≤ b < 2 ^ k → Z.lor (a * 2 ^ k) b = a * 2 ^ k + b.
Proof. intros Hk Hb. rewrite <- (Z.shiftl_mul_pow2 a k) at 1 by done. by apply lor_shiftl_add. Qed.

(** Masking off the low bits at 64-bit width. *)
Lemma land_lnot_u64 x k : 0 ≤ k ≤ 64 → 0 ≤ x < 2 ^ 64 →
  Z.land x (u64 (Z.lnot (2 ^ k - 1))) = x - x mod 2 ^ k.
Proof.
  intros Hk Hx. unfold u64. rewrite <- land_ones_mod by lia.
  rewrite Z.land_assoc, land_lnot_pow2, land_ones_mod by lia. apply Z.mod_small.
  pose proof (Z.mod_pos_bound x (2 ^ k) ltac:(lia)). pose proof (Z.mod_le x (2 ^ k)). lia.
Qed.

(** A bit field as a quotient and a remainder. *)
Lemma field_mod x k n : 0 ≤ k → 0 ≤ n → Z.land (Z.shiftr x k) (2 ^ n - 1) = (x / 2 ^ k) mod 2 ^ n.
Proof. intros Hk Hn. by rewrite land_ones_mod, Z.shiftr_div_pow2. Qed.
