(* ===== verification/Bytes.v ===== *)
(** * Byte buffers

    A caller-provided buffer (a file read into memory, an image being built)
    is the list of its bytes. An access outside the buffer is a [Fault].
    Structures are read from and written to buffers byte by byte, little
    endian. *)

From S2P Require Import Prelude.

Definition blen (l : list Z) : Z := Z.of_nat (length l).
Definition is_byte (b : Z) : Prop := 0 ≤ b < 256.

(** memcpy from the buffer: [n] bytes at [off]. *)
Definition buf_get (off n : Z) (l : list Z) : outcome (list Z) :=
  if (0 <=? off) && (0 <=? n) && (off + n <=? blen l)
  then Ret (take (Z.to_nat n) (drop (Z.to_nat off) l)) else Fault.
(** memcpy to the buffer. *)
Definition buf_put (off : Z) (bs l : list Z) : outcome (list Z) :=
  if (0 <=? off) && (off + blen bs <=? blen l)
  then Ret (take (Z.to_nat off) l ++ bs ++ drop (Z.to_nat off + length bs) l) else Fault.

Fixpoint le_val (l : list Z) : Z :=
  match l with [] => 0 | b :: l' => b + 256 * le_val l' end.
Fixpoint le_bytes (n : nat) (v : Z) : list Z :=
  match n with O => [] | S n' => v mod 256 :: le_bytes n' (v / 256) end.
(** The [n]-byte field at offset [k] of a structure. *)
Definition field (k n : nat) (b : list Z) : Z := le_val (take n (drop k b)).

Lemma le_bytes_length n v : length (le_bytes n v) = n.
Proof. revert v. induction n; intros; simpl; auto. Qed.
Lemma le_bytes_bytes n v : Forall is_byte (le_bytes n v).
Proof.
  revert v. induction n as [|n IH]; intros v; constructor; [|apply IH].
  apply Z.mod_pos_bound. lia.
Qed.
Lemma le_val_le_bytes n v : le_val (le_bytes n v) = v mod 256 ^ Z.of_nat n.
Proof.
  revert v. induction n as [|n IH]; intros v; [by rewrite Z.mod_1_r|].
  cbn [le_bytes le_val]. rewrite IH, Nat2Z.inj_succ, Z.pow_succ_r, Z.rem_mul_r by lia. lia.
Qed.
Lemma le_val_range l : Forall is_byte l → 0 ≤ le_val l < 256 ^ blen l.
Proof.
  unfold blen, is_byte. induction 1 as [|b l Hb Hl IH]; [done|]. cbn [le_val length].
  rewrite Nat2Z.inj_succ, Z.pow_succ_r by lia. lia.
Qed.

Lemma bytes_of_bool (l : list Z) : forallb (λ b, (0 <=? b) && (b <? 256)) l = true → Forall is_byte l.
Proof.
  intros H. apply List.Forall_forall. intros b Hb. rewrite forallb_forall in H. specialize (H b Hb).
  unfold is_byte. zbool. lia.
Qed.

Lemma field_range k n b : Forall is_byte b → (k + n ≤ length b)%nat → 0 ≤ field k n b < 256 ^ Z.of_nat n.
Proof.
  intros Hb Hn. unfold field. set (t := take n (drop k b)).
  assert (Hlen : blen t = Z.of_nat n) by (unfold t, blen; rewrite length_take, length_drop; lia).
  rewrite <- Hlen. by apply le_val_range, Forall_take, Forall_drop.
Qed.

Lemma buf_get_ok off n l : 0 ≤ off → 0 ≤ n → off + n ≤ blen l →
  buf_get off n l = Ret (take (Z.to_nat n) (drop (Z.to_nat off) l)).
Proof.
  intros. unfold buf_get. by rewrite !(proj2 (Z.leb_le _ _)) by lia.
Qed.
Lemma buf_get_bytes off n l bs : Forall is_byte l → buf_get off n l = Ret bs →
  Forall is_byte bs ∧ blen bs = n.
Proof.
  unfold buf_get, blen. intros Hl. destruct (_ && _) eqn:E; [|done]. intros [= <-]. zbool.
  split; [by apply Forall_take, Forall_drop|]. rewrite length_take, length_drop. lia.
Qed.
Lemma buf_put_ok off bs l : 0 ≤ off → off + blen bs ≤ blen l →
  buf_put off bs l = Ret (take (Z.to_nat off) l ++ bs ++ drop (Z.to_nat off + length bs) l).
Proof. intros. unfold buf_put. by rewrite !(proj2 (Z.leb_le _ _)) by lia. Qed.

(** What a write leaves alone. *)
Definition same_from (n : Z) (l l' : list Z) : Prop :=
  length l' = length l ∧ drop (Z.to_nat n) l' = drop (Z.to_nat n) l.
#[export] Instance same_from_preorder n : PreOrder (same_from n).
Proof.
  split; [by intros l|]. intros a b c [H1 H2] [H3 H4]. split; congruence.
Qed.

Lemma buf_put_spec off bs l n : Forall is_byte l → Forall is_byte bs →
  0 ≤ off → off + blen bs ≤ n → n ≤ blen l →
  ∃ l', buf_put off bs l = Ret l' ∧ same_from n l l' ∧ Forall is_byte l' ∧
    take (length bs) (drop (Z.to_nat off) l') = bs.
Proof.
  unfold blen. intros Hl Hbs Ho Hn Hle. eexists. split; [apply buf_put_ok; unfold blen; lia|].
  assert (Hlt : length (take (Z.to_nat off) l) = Z.to_nat off) by (rewrite length_take; lia).
  split.
  - split; [rewrite !length_app, length_drop, Hlt; lia|].
    rewrite drop_app, Hlt, (drop_ge (take _ _)) by lia. rewrite drop_app, (drop_ge bs) by lia.
    simpl. rewrite drop_drop. f_equal. lia.
  - split; [by repeat apply Forall_app_2; [apply Forall_take| |apply Forall_drop]|].
    rewrite drop_app, Hlt, (drop_ge (take _ _)) by lia. rewrite Nat.sub_diag. simpl. rewrite drop_0.
    by rewrite take_app_length.
Qed.

(** A read or write of a buffer that is not part of the state. *)
Definition k_lift {S A} (o : outcome A) : K S A := λ s,
  match o with Ret a => Ret (a, s) | Panic w => Panic w | Fault => Fault | Diverge => Diverge end.

Lemma stable_lift {S B} (R : S → S → Prop) `{!PreOrder R} (o : outcome B) : stable R (k_lift o).
Proof. intros s b' s' E. unfold k_lift in E. destruct o; by simplify_eq. Qed.

(** *** Buffers byte by byte *)

Definition byte_at (l : list Z) (i : Z) : Z := nth (Z.to_nat i) l 0.

Lemma buf_put_byte off bs l l' i : buf_put off bs l = Ret l' → 0 ≤ i →
  byte_at l' i = if (off <=? i) && (i <? off + blen bs) then byte_at bs (i - off) else byte_at l i.
Proof.
  unfold buf_put, blen, byte_at. destruct (_ && _) eqn:E; [|done]. intros [= <-] Hi. zbool.
  assert (Hlt : length (take (Z.to_nat off) l) = Z.to_nat off) by (rewrite length_take; lia).
  destruct (Z.leb_spec off i); cbn [andb].
  - rewrite app_nth2 by lia. rewrite Hlt. destruct (Z.ltb_spec i (off + Z.of_nat (length bs))).
    + rewrite app_nth1 by lia. f_equal. lia.
    + rewrite app_nth2 by lia. rewrite nth_skipn. f_equal. lia.
  - rewrite app_nth1 by lia. rewrite nth_firstn. by rewrite (proj2 (Nat.ltb_lt _ _)) by lia.
Qed.
Lemma buf_put_length off bs l l' : buf_put off bs l = Ret l' → length l' = length l.
Proof.
  unfold buf_put, blen. destruct (_ && _) eqn:E; [|done]. intros [= <-]. zbool.
  rewrite !length_app, length_take, length_drop. lia.
Qed.

(** Reading is determined by the bytes in the range. *)
Lemma buf_get_agree off n l l' : length l' = length l →
  (∀ i, off ≤ i < off + n → byte_at l' i = byte_at l i) → buf_get off n l' = buf_get off n l.
Proof.
  intros Hlen Hb. unfold buf_get, blen. rewrite Hlen. destruct (_ && _) eqn:E; [|done]. zbool. f_equal.
  apply (nth_ext _ _ 0 0); [rewrite !length_take, !length_drop; lia|].
  intros k Hk. rewrite length_take, length_drop in Hk.
  rewrite !nth_firstn, !nth_skipn. destruct (_ <? _)%nat eqn:Ek; [|done].
  specialize (Hb (off + Z.of_nat k) ltac:(lia)). unfold byte_at in Hb.
  by replace (Z.to_nat (off + Z.of_nat k)) with (Z.to_nat off + k)%nat in Hb by lia.
Qed.
Lemma buf_get_put off bs l l' : buf_put off bs l = Ret l' → buf_get off (blen bs) l' = Ret bs.
Proof.
  intros Hput. pose proof (buf_put_length _ _ _ _ Hput) as Hlen. revert Hput.
  unfold buf_put, blen in *. destruct (_ && _) eqn:E; [|done]. intros [= <-]. zbool.
  rewrite buf_get_ok by (unfold blen; rewrite ?Hlen; lia). f_equal.
  rewrite drop_app, length_take, drop_ge by (rewrite length_take; lia). simpl.
  rewrite Nat2Z.id. replace (Z.to_nat off - Z.to_nat off `min` length l)%nat with 0%nat by lia.
  rewrite drop_0. by rewrite take_app_length.
Qed.
