(* ===== verification/Mem.v ===== *)
(** * Kernel memory

    The kernel reaches all physical memory through the higher-half direct
    map: an object at physical address [p] is accessed at [p + offset]
    ([phys_to_virt] of include/sysdef.h). [ram] is that memory, a byte per
    kernel address. Multi-byte loads and stores are little endian. *)

From S2P Require Import Prelude.

Definition ram : Type := Z → Z.

(** Two memories are the same when they hold the same bytes. *)
Definition ram_eq (m1 m2 : ram) : Prop := ∀ a, m1 a = m2 a.
#[export] Instance ram_eq_equiv : Equivalence ram_eq.
Proof.
  split.
  - by intros m a.
  - intros m1 m2 H a. by rewrite H.
  - intros m1 m2 m3 H1 H2 a. by rewrite H1.
Qed.

Definition load8 (m : ram) (a : Z) : Z := m a.
Definition store8 (m : ram) (a v : Z) : ram := λ x, if x =? a then v else m x.

Fixpoint load_le (m : ram) (a : Z) (n : nat) : Z :=
  match n with
  | O => 0
  | S n' => u8 (m a) + 256 * load_le m (a + 1) n'
  end.

Fixpoint store_le (m : ram) (a v : Z) (n : nat) : ram :=
  match n with
  | O => m
  | S n' => store_le (store8 m a (u8 v)) (a + 1) (v / 256) n'
  end.

Definition load64 m a := load_le m a 8.
Definition load32 m a := load_le m a 4.
Definition load16 m a := load_le m a 2.
Definition store64 m a v := store_le m a v 8.

#[export] Instance store8_proper :
  Proper (ram_eq ==> eq ==> eq ==> ram_eq) store8.
Proof. intros m1 m2 Hm a ? <- v ? <- x. unfold store8. by rewrite Hm. Qed.

Lemma load_le_agree m1 m2 a n :
  (∀ x, a ≤ x < a + Z.of_nat n → m1 x = m2 x) → load_le m1 a n = load_le m2 a n.
Proof.
  revert a. induction n as [|n IH]; intros a H; [done|]. cbn [load_le].
  rewrite (H a) by lia. f_equal. rewrite (IH (a + 1)); [done|].
  intros x Hx. apply H. lia.
Qed.

#[export] Instance load_le_proper : Proper (ram_eq ==> eq ==> eq ==> eq) load_le.
Proof. intros m1 m2 Hm a ? <- n ? <-. apply load_le_agree. auto. Qed.

Lemma load_le_range m a n : 0 ≤ load_le m a n < 256 ^ Z.of_nat n.
Proof.
  revert a. induction n as [|n IH]; intros a; [simpl; lia|].
  cbn [load_le]. rewrite Nat2Z.inj_succ, Z.pow_succ_r by lia.
  specialize (IH (a + 1)). pose proof (u8_range (m a)). lia.
Qed.

Lemma store_le_out m a v n x :
  (x < a ∨ a + Z.of_nat n ≤ x) → store_le m a v n x = m x.
Proof.
  revert m a v. induction n as [|n IH]; intros m a v H; [done|].
  cbn [store_le]. rewrite IH by lia. unfold store8.
  destruct (Z.eqb_spec x a); [lia|done].
Qed.

#[export] Instance store_le_proper :
  Proper (ram_eq ==> eq ==> eq ==> eq ==> ram_eq) store_le.
Proof.
  intros m1 m2 Hm a ? <- v ? <- n ? <-. revert m1 m2 Hm a v.
  induction n as [|n IH]; intros m1 m2 Hm a v; [done|].
  cbn [store_le]. apply IH. by rewrite Hm.
Qed.

Lemma load_store_le_eq m a v n :
  load_le (store_le m a v n) a n = v mod 256 ^ Z.of_nat n.
Proof.
  revert m a v. induction n as [|n IH]; intros m a v.
  { simpl. by rewrite Z.mod_1_r. }
  cbn [load_le store_le].
  rewrite store_le_out by lia. unfold store8 at 1. rewrite Z.eqb_refl.
  rewrite IH, Nat2Z.inj_succ, Z.pow_succ_r by lia.
  rewrite Z.rem_mul_r by lia. unfold u8. change (2 ^ 8) with 256.
  rewrite Z.mod_mod by lia. done.
Qed.

Lemma load_store_le_ne m a v n b k :
  (b + Z.of_nat k ≤ a ∨ a + Z.of_nat n ≤ b) →
  load_le (store_le m a v n) b k = load_le m b k.
Proof. intros H. apply load_le_agree. intros x Hx. apply store_le_out. lia. Qed.

Lemma load64_store64_eq m a v : load64 (store64 m a v) a = u64 v.
Proof. unfold load64, store64. by rewrite load_store_le_eq. Qed.

Lemma load64_store64_ne m a v b :
  (b + 8 ≤ a ∨ a + 8 ≤ b) → load64 (store64 m a v) b = load64 m b.
Proof. intros H. apply load_store_le_ne. lia. Qed.

Lemma load64_range m a : 0 ≤ load64 m a < 2 ^ 64.
Proof. apply (load_le_range m a 8). Qed.

(** Bytes [l] stored from address [a] on. *)
Definition bytes_at (m : ram) (a : Z) (l : list Z) : Prop :=
  ∀ i : nat, (i < length l)%nat → l !! i = Some (m (a + Z.of_nat i)).

Lemma bytes_at_cons m a b l :
  bytes_at m a (b :: l) ↔ m a = b ∧ bytes_at m (a + 1) l.
Proof.
  split.
  - intros H. split.
    + specialize (H 0%nat ltac:(simpl; lia)). simpl in H.
      rewrite Z.add_0_r in H. by inversion H.
    + intros i Hi. specialize (H (S i) ltac:(simpl; lia)). simpl in H.
      rewrite H. f_equal. f_equal. lia.
  - intros [<- H] [|i] Hi; simpl.
    + by rewrite Z.add_0_r.
    + rewrite H by (simpl in Hi; lia). f_equal. f_equal. lia.
Qed.

Lemma bytes_at_nil m a : bytes_at m a [].
Proof. intros i Hi. simpl in Hi. lia. Qed.

Lemma bytes_at_agree m1 m2 a l :
  (∀ x, a ≤ x < a + Z.of_nat (length l) → m1 x = m2 x) →
  bytes_at m1 a l → bytes_at m2 a l.
Proof. intros H Hb i Hi. rewrite Hb, H by lia. done. Qed.

Lemma bytes_at_app m a l1 l2 :
  bytes_at m a (l1 ++ l2) ↔
  bytes_at m a l1 ∧ bytes_at m (a + Z.of_nat (length l1)) l2.
Proof.
  revert a. induction l1 as [|b l1 IH]; intros a; simpl.
  - rewrite Z.add_0_r. split; [|by intros [_ Hl2]]. intros Hl2. split; [apply bytes_at_nil|done].
  - rewrite !bytes_at_cons, IH.
    replace (a + 1 + Z.of_nat (length l1)) with (a + Z.of_nat (S (length l1))) by lia.
    tauto.
Qed.
