(* ===== verification/KString.v ===== *)
(** * The kernel's C library: src/klibc_string.cpp

    The routines on raw memory, one per C function, with the loops of the
    source. A loop bounded by a length argument recurses on it; a loop that
    runs to a terminating NUL carries fuel and the theorems show how much is
    enough. [cstr] says which string a pointer denotes; the file systems
    and the system calls work with those strings ([list Z], no NUL inside),
    and [strcmp_str], [strchr_str], ... are the routines on them. *)

From S2P Require Import Prelude Mem.

(** [cstr m p s]: the NUL-terminated string at [p] is [s]. *)
Definition cstr (m : ram) (p : Z) (s : list Z) : Prop :=
  bytes_at m p (s ++ [0]) ∧ Forall (λ b, 0 < b < 256) s.

(** ** Definitions *)

Fixpoint memcpy_loop (k : nat) (i dest src : Z) (m : ram) : ram :=
  match k with
  | O => m
  | S k' => memcpy_loop k' (i + 1) dest src (store8 m (dest + i) (m (src + i)))
  end.
Definition memcpy (dest src n : Z) (m : ram) : Z * ram :=
  (dest, memcpy_loop (Z.to_nat n) 0 dest src m).

Fixpoint memset_loop (k : nat) (i dest val : Z) (m : ram) : ram :=
  match k with
  | O => m
  | S k' => memset_loop k' (i + 1) dest val (store8 m (dest + i) (u8 val))
  end.
Definition memset (dest val n : Z) (m : ram) : Z * ram :=
  (dest, memset_loop (Z.to_nat n) 0 dest val m).

(** for (i = n; i > 0; i--) pdest[i-1] = psrc[i-1]; *)
Fixpoint memmove_down (i : nat) (dest src : Z) (m : ram) : ram :=
  match i with
  | O => m
  | S i' => memmove_down i' dest src
              (store8 m (dest + Z.of_nat i') (m (src + Z.of_nat i')))
  end.
Definition memmove (dest src n : Z) (m : ram) : Z * ram :=
  (dest,
   if dest <? src then memcpy_loop (Z.to_nat n) 0 dest src m
   else if src <? dest then memmove_down (Z.to_nat n) dest src m
   else m).

Fixpoint memcmp_loop (k : nat) (i s1 s2 : Z) (m : ram) : Z :=
  match k with
  | O => 0
  | S k' =>
      if m (s1 + i) =? m (s2 + i) then memcmp_loop k' (i + 1) s1 s2 m
      else if m (s1 + i) <? m (s2 + i) then -1 else 1
  end.
Definition memcmp (s1 s2 n : Z) (m : ram) : Z := memcmp_loop (Z.to_nat n) 0 s1 s2 m.

Fixpoint strlen_loop (fuel : nat) (str len : Z) (m : ram) : outcome Z :=
  match fuel with
  | O => Diverge
  | S f => if m (str + len) =? 0 then Ret len else strlen_loop f str (len + 1) m
  end.
Definition strlen (fuel : nat) (str : Z) (m : ram) : outcome Z := strlen_loop fuel str 0 m.

(** while ( *dest) dest++; *)
Fixpoint strcat_end (fuel : nat) (dest : Z) (m : ram) : outcome Z :=
  match fuel with
  | O => Diverge
  | S f => if m dest =? 0 then Ret dest else strcat_end f (dest + 1) m
  end.
(** while ( *src) *dest++ = *src++;  *dest = 0; *)
Fixpoint strcat_copy (fuel : nat) (dest src : Z) (m : ram) : outcome ram :=
  match fuel with
  | O => Diverge
  | S f =>
      if m src =? 0 then Ret (store8 m dest 0)
      else strcat_copy f (dest + 1) (src + 1) (store8 m dest (m src))
  end.
Definition strcat (fuel : nat) (dest src : Z) (m : ram) : outcome ram :=
  e ← strcat_end fuel dest m; strcat_copy fuel e src m.

(** The copying loop stops at [n] or at the NUL of [src]; the rest of the
    [n] bytes is cleared. *)
Fixpoint strncpy_fill (k : nat) (i dest : Z) (m : ram) : ram :=
  match k with
  | O => m
  | S k' => strncpy_fill k' (i + 1) dest (store8 m (dest + i) 0)
  end.
Fixpoint strncpy_loop (k : nat) (i dest src : Z) (m : ram) : ram :=
  match k with
  | O => m
  | S k' =>
      if m (src + i) =? 0 then strncpy_fill (S k') i dest m
      else strncpy_loop k' (i + 1) dest src (store8 m (dest + i) (m (src + i)))
  end.
Definition strncpy (dest src n : Z) (m : ram) : Z * ram :=
  if (dest =? 0) || (src =? 0) then (dest, m)
  else (dest, strncpy_loop (Z.to_nat n) 0 dest src m).

(** Null is 0. *)
Fixpoint strchr (fuel : nat) (str c : Z) (m : ram) : outcome Z :=
  match fuel with
  | O => Diverge
  | S f =>
      if m str =? 0 then (if u8 c =? 0 then Ret str else Ret 0)
      else if m str =? u8 c then Ret str
      else strchr f (str + 1) c m
  end.

Fixpoint strrchr_loop (fuel : nat) (str c last : Z) (m : ram) : outcome Z :=
  match fuel with
  | O => Diverge
  | S f =>
      if m str =? 0 then (if u8 c =? 0 then Ret str else Ret last)
      else strrchr_loop f (str + 1) c (if m str =? u8 c then str else last) m
  end.
Definition strrchr (fuel : nat) (str c : Z) (m : ram) : outcome Z :=
  if str =? 0 then Ret 0 else strrchr_loop fuel str c 0 m.

(** while ( *h == *n && *n) {h++; n++;} returns the final [n]. *)
Fixpoint strstr_match (fuel : nat) (h n : Z) (m : ram) : outcome Z :=
  match fuel with
  | O => Diverge
  | S f => if (m h =? m n) && negb (m n =? 0) then strstr_match f (h + 1) (n + 1) m
           else Ret n
  end.
Fixpoint strstr_loop (fuel mfuel : nat) (haystack needle : Z) (m : ram) : outcome Z :=
  match fuel with
  | O => Diverge
  | S f =>
      if m haystack =? 0 then Ret 0
      else n ← strstr_match mfuel haystack needle m;
           if m n =? 0 then Ret haystack
           else strstr_loop f mfuel (haystack + 1) needle m
  end.
Definition strstr (fuel : nat) (haystack needle : Z) (m : ram) : outcome Z :=
  if m needle =? 0 then Ret haystack else strstr_loop fuel fuel haystack needle m.

(** The result type is uint8_t: the difference is reduced modulo 256. *)
Fixpoint strcmp (fuel : nat) (s1 s2 : Z) (m : ram) : outcome Z :=
  match fuel with
  | O => Diverge
  | S f =>
      if negb (m s1 =? 0) && (m s1 =? m s2) then strcmp f (s1 + 1) (s2 + 1) m
      else Ret (u8 (m s1 - m s2))
  end.

(** tmp[20]: writing a 21st digit is outside the buffer. *)
Definition ITOA_TMP : Z := 20.
(** hex_chars = "0123456789abcdef": 16 digits and the terminating NUL. *)
Definition hex_char (d : Z) : Z :=
  if d <? 10 then 48 + d else if d <? 16 then 97 + d - 10 else 0.
Fixpoint itoa_digits (fuel : nat) (val base : Z) (tmp : list Z) : outcome (list Z) :=
  match fuel with
  | O => Diverge
  | S f =>
      if 0 <? val then
        if (Z.of_nat (length tmp) <? ITOA_TMP) && (val mod base <? 17)
        then itoa_digits f (val / base) base (hex_char (val mod base) :: tmp)
        else Fault
      else Ret tmp
  end.
(** The digits come out of [tmp] last first, so the list built with the last
    digit at its head is the order in which they are written. *)
Fixpoint itoa_out (l : list Z) (buf : Z) (m : ram) : ram :=
  match l with
  | [] => store8 m buf 0
  | d :: l' => itoa_out l' (buf + 1) (store8 m buf d)
  end.
Definition itoa (buf val base : Z) (m : ram) : outcome ram :=
  if base =? 0 then (if val =? 0 then Ret (itoa_out [48] buf m) else Fault) else
  l ← itoa_digits 65 val base (if val =? 0 then [48] else []);
  Ret (itoa_out l buf m).

(** ** The routines on string values *)

Fixpoint strcmp_str (s t : list Z) : Z :=
  match s, t with
  | [], [] => 0
  | a :: _, [] => u8 a
  | [], b :: _ => u8 (- b)
  | a :: s', b :: t' => if a =? b then strcmp_str s' t' else u8 (a - b)
  end.
Definition str_eqb (s t : list Z) : bool := strcmp_str s t =? 0.

(** ** Block routines *)

Lemma memcpy_loop_spec k i dest src m x :
  dest ≤ src ∨ src + Z.of_nat k ≤ dest →
  memcpy_loop k i dest src m x =
    if (dest + i <=? x) && (x <? dest + i + Z.of_nat k) then m (src + (x - dest)) else m x.
Proof.
  revert i m. induction k as [|k IH]; intros i m H.
  { simpl. repeat zcase; simpl; try done; lia. }
  cbn [memcpy_loop]. rewrite IH by lia. unfold store8.
  repeat zcase; simpl; try done; try lia; f_equal; lia.
Qed.

Lemma memmove_down_spec k dest src m x :
  src ≤ dest →
  memmove_down k dest src m x =
    if (dest <=? x) && (x <? dest + Z.of_nat k) then m (src + (x - dest)) else m x.
Proof.
  revert m. induction k as [|k IH]; intros m H.
  { simpl. repeat zcase; simpl; try done; lia. }
  cbn [memmove_down]. rewrite IH by lia. unfold store8.
  repeat zcase; simpl; try done; try lia; f_equal; lia.
Qed.

(** memcpy copies between ranges that do not overlap. *)
Lemma memcpy_spec dest src n m x :
  0 ≤ n → (dest + n ≤ src ∨ src + n ≤ dest) →
  (memcpy dest src n m).2 x =
    if (dest <=? x) && (x <? dest + n) then m (src + (x - dest)) else m x.
Proof.
  intros Hn H. unfold memcpy; simpl.
  rewrite memcpy_loop_spec by lia. by rewrite Z2Nat.id, Z.add_0_r by done.
Qed.

(** memmove copies the original source bytes whether or not the two
    ranges overlap, and changes nothing outside the destination. *)
Theorem memmove_correct (dest src n : Z) (m : ram) (x : Z) (Hn : 0 ≤ n) :
  (memmove dest src n m).2 x =
    if (dest <=? x) && (x <? dest + n) then m (src + (x - dest)) else m x.
Proof.
  unfold memmove; simpl.
  destruct (Z.ltb_spec dest src); [|destruct (Z.ltb_spec src dest)].
  - rewrite memcpy_loop_spec by lia. by rewrite Z2Nat.id, Z.add_0_r by done.
  - rewrite memmove_down_spec by lia. by rewrite Z2Nat.id by done.
  - assert (src = dest) as -> by lia.
    replace (dest + (x - dest)) with x by lia. by destruct (_ && _).
Qed.

Lemma memmove_correct_witness :
  (memmove 2 0 4 (λ a, a)).2 5 = 3.
Proof. rewrite memmove_correct; [reflexivity|lia]. Defined.

Lemma memset_loop_spec k i dest val m x :
  memset_loop k i dest val m x =
    if (dest + i <=? x) && (x <? dest + i + Z.of_nat k) then u8 val else m x.
Proof.
  revert i m. induction k as [|k IH]; intros i m.
  { simpl. repeat zcase; simpl; try done; lia. }
  cbn [memset_loop]. rewrite IH. unfold store8.
  repeat zcase; simpl; try done; lia.
Qed.

Lemma memset_spec dest val n m x :
  0 ≤ n →
  (memset dest val n m).2 x = if (dest <=? x) && (x <? dest + n) then u8 val else m x.
Proof.
  intros Hn. unfold memset; simpl. rewrite memset_loop_spec.
  by rewrite Z2Nat.id, Z.add_0_r by done.
Qed.

Lemma memcmp_zero n s1 s2 m :
  memcmp s1 s2 n m = 0 ↔ ∀ i, 0 ≤ i < n → m (s1 + i) = m (s2 + i).
Proof.
  unfold memcmp. enough (Hgen : ∀ k i, memcmp_loop k i s1 s2 m = 0 ↔
    ∀ j, i ≤ j < i + Z.of_nat k → m (s1 + j) = m (s2 + j)).
  { rewrite Hgen. split; intros H i Hi; apply H; lia. }
  induction k as [|k IH]; intros i; simpl.
  { split; [intros _ j Hj; lia|done]. }
  destruct (Z.eqb_spec (m (s1 + i)) (m (s2 + i))) as [E|E].
  - rewrite IH. split; intros H j Hj; [|apply H; lia].
    destruct (decide (j = i)) as [->|]; [done|apply H; lia].
  - split; [zcase; lia|]. intros H. destruct E. apply H. lia.
Qed.

(** ** String routines *)

Lemma cstr_nil m p : cstr m p [] ↔ m p = 0.
Proof.
  unfold cstr; simpl. rewrite bytes_at_cons.
  split; [tauto|]. intros H. repeat split; [done|apply bytes_at_nil|constructor].
Qed.

Lemma cstr_cons m p b s :
  cstr m p (b :: s) ↔ m p = b ∧ 0 < b < 256 ∧ cstr m (p + 1) s.
Proof. unfold cstr; simpl. rewrite bytes_at_cons, Forall_cons. tauto. Qed.

Lemma strlen_spec m p s fuel :
  cstr m p s → (length s < fuel)%nat → strlen fuel p m = Ret (Z.of_nat (length s)).
Proof.
  unfold strlen.
  enough (Hgen : ∀ s fuel len, cstr m (p + len) s → (length s < fuel)%nat →
    strlen_loop fuel p len m = Ret (len + Z.of_nat (length s))).
  { intros Hs Hf. rewrite (Hgen s fuel 0); [done|by rewrite Z.add_0_r|done]. }
  clear s fuel. induction s as [|b s' IH]; intros [|f] len Hs Hf; simpl in *; try lia.
  - apply cstr_nil in Hs as ->. by rewrite Z.add_0_r.
  - apply cstr_cons in Hs as (-> & Hb & Hs). rewrite (proj2 (Z.eqb_neq b 0)) by lia.
    rewrite IH; [f_equal; lia|by rewrite Z.add_assoc|lia].
Qed.

Lemma strcmp_spec m p q s t fuel :
  cstr m p s → cstr m q t → (length s < fuel)%nat →
  strcmp fuel p q m = Ret (strcmp_str s t).
Proof.
  revert p q t fuel. induction s as [|a s IH]; intros p q t [|f] Hs Ht Hf; simpl in *; try lia.
  - apply cstr_nil in Hs as ->. simpl. destruct t as [|b t].
    + by apply cstr_nil in Ht as ->.
    + by apply cstr_cons in Ht as (-> & _).
  - apply cstr_cons in Hs as (-> & Ha & Hs). rewrite (proj2 (Z.eqb_neq a 0)) by lia. simpl.
    destruct t as [|b t].
    + apply cstr_nil in Ht as ->. rewrite (proj2 (Z.eqb_neq a 0)) by lia.
      by rewrite Z.sub_0_r.
    + apply cstr_cons in Ht as (-> & Hb & Ht). zcase; [|done]. apply IH; [done..|lia].
Qed.

Lemma strcmp_str_zero s t :
  Forall (λ b, 0 < b < 256) s → Forall (λ b, 0 < b < 256) t →
  strcmp_str s t = 0 ↔ s = t.
Proof.
  revert t. induction s as [|a s IH]; intros [|b t] Hs Ht;
    repeat match goal with H : Forall _ (_ :: _) |- _ => apply Forall_cons in H as [? ?] end;
    cbn [strcmp_str]; unfold u8.
  - done.
  - split; [|done]. div_mod.
  - split; [|done]. div_mod.
  - destruct (Z.eqb_spec a b) as [->|Hab].
    + rewrite IH by done. naive_solver.
    + split; [div_mod|naive_solver].
Qed.

(** strcmp answers 0 exactly when the two strings are equal: the
    truncation of its result to uint8_t never hides a difference. *)
Theorem strcmp_zero_iff (m : ram) (p q : Z) (s t : list Z) (fuel : nat)
    (Hs : cstr m p s) (Ht : cstr m q t) (Hf : (length s < fuel)%nat) :
  ∃ r, strcmp fuel p q m = Ret r ∧ (r = 0 ↔ s = t).
Proof.
  exists (strcmp_str s t). split; [by apply strcmp_spec|].
  destruct Hs as [_ Hs], Ht as [_ Ht]. by apply strcmp_str_zero.
Qed.

Lemma strcmp_zero_iff_witness :
  ∃ r, strcmp 3 0 10 (λ a, if a =? 0 then 97 else if a =? 10 then 98 else 0) = Ret r ∧
       (r = 0 ↔ [97] = [98]).
Proof.
  apply strcmp_zero_iff; [| |simpl; lia].
  all: apply cstr_cons; split; [done|split; [lia|by apply cstr_nil]].
Defined.

(** Position of the first and of the last [c] in a string. *)
Fixpoint first_index (c : Z) (s : list Z) : option Z :=
  match s with
  | [] => None
  | b :: s' => if b =? c then Some 0 else Z.succ <$> first_index c s'
  end.
Fixpoint last_index (c : Z) (s : list Z) : option Z :=
  match s with
  | [] => None
  | b :: s' =>
      match last_index c s' with
      | Some i => Some (Z.succ i)
      | None => if b =? c then Some 0 else None
      end
  end.

Lemma strchr_spec m p c s fuel :
  cstr m p s → 0 < c < 256 → (length s < fuel)%nat →
  strchr fuel p c m = Ret (match first_index c s with Some i => p + i | None => 0 end).
Proof.
  intros Hs Hc. revert p fuel Hs.
  induction s as [|b s IH]; intros p [|f] Hs Hf; simpl in *; try lia.
  - apply cstr_nil in Hs as ->. simpl. rewrite u8_small by lia.
    by rewrite (proj2 (Z.eqb_neq c 0)) by lia.
  - apply cstr_cons in Hs as (-> & Hb & Hs). rewrite (proj2 (Z.eqb_neq b 0)) by lia.
    rewrite u8_small by lia. zcase; [by rewrite Z.add_0_r|].
    rewrite IH by (done || lia). f_equal.
    destruct (first_index c s); simpl; lia.
Qed.

Lemma strrchr_loop_spec m c s p last fuel :
  cstr m p s → 0 < c < 256 → (length s < fuel)%nat →
  strrchr_loop fuel p c last m =
    Ret (match last_index c s with Some i => p + i | None => last end).
Proof.
  intros Hs Hc. revert p last fuel Hs.
  induction s as [|b s IH]; intros p last [|f] Hs Hf; simpl in *; try lia.
  - apply cstr_nil in Hs as ->. simpl. rewrite u8_small by lia.
    by rewrite (proj2 (Z.eqb_neq c 0)) by lia.
  - apply cstr_cons in Hs as (-> & Hb & Hs). rewrite (proj2 (Z.eqb_neq b 0)) by lia.
    rewrite u8_small, IH by (done || lia). f_equal.
    destruct (last_index c s) as [i|]; [simpl; lia|].
    zcase; [by rewrite Z.add_0_r|done].
Qed.

Lemma strrchr_spec m p c s fuel :
  cstr m p s → p ≠ 0 → 0 < c < 256 → (length s < fuel)%nat →
  strrchr fuel p c m = Ret (match last_index c s with Some i => p + i | None => 0 end).
Proof.
  intros Hs Hp Hc Hf. unfold strrchr. rewrite (proj2 (Z.eqb_neq p 0)) by done.
  by apply strrchr_loop_spec.
Qed.

Lemma cstr_agree m1 m2 p s :
  (∀ x, p ≤ x ≤ p + Z.of_nat (length s) → m1 x = m2 x) → cstr m1 p s → cstr m2 p s.
Proof.
  intros H [Hb Hs]. split; [|done]. apply (bytes_at_agree m1); [|done].
  intros x Hx. apply H. rewrite length_app in Hx. simpl in Hx. lia.
Qed.

Lemma strcat_end_spec m p s fuel :
  cstr m p s → (length s < fuel)%nat →
  strcat_end fuel p m = Ret (p + Z.of_nat (length s)).
Proof.
  revert p fuel. induction s as [|b s IH]; intros p [|f] Hs Hf; simpl in *; try lia.
  - apply cstr_nil in Hs as ->. by rewrite Z.add_0_r.
  - apply cstr_cons in Hs as (-> & Hb & Hs). rewrite (proj2 (Z.eqb_neq b 0)) by lia.
    rewrite IH by (done || lia). f_equal. lia.
Qed.

Lemma strcat_copy_spec m d q t fuel :
  cstr m q t → (length t < fuel)%nat →
  (d + Z.of_nat (length t) < q ∨ q + Z.of_nat (length t) < d) →
  ∃ m', strcat_copy fuel d q m = Ret m' ∧ cstr m' d t ∧
        ∀ x, (x < d ∨ d + Z.of_nat (length t) < x) → m' x = m x.
Proof.
  revert m d q fuel. induction t as [|b t IH]; intros m d q [|f] Ht Hf Hdis; simpl in *; try lia.
  - apply cstr_nil in Ht as ->. simpl. eexists; split; [done|].
    unfold store8. split; [apply cstr_nil; by rewrite Z.eqb_refl|].
    intros x Hx. by rewrite (proj2 (Z.eqb_neq x d)) by lia.
  - apply cstr_cons in Ht as (Hb & Hr & Ht). rewrite Hb.
    rewrite (proj2 (Z.eqb_neq b 0)) by lia.
    destruct (IH (store8 m d b) (d + 1) (q + 1) f) as (m' & -> & Hd & Hout); [|lia..|].
    { apply (cstr_agree m); [|done]. intros x Hx. unfold store8.
      by rewrite (proj2 (Z.eqb_neq x d)) by lia. }
    eexists; split; [done|]. split.
    + apply cstr_cons. rewrite Hout by lia. unfold store8. by rewrite Z.eqb_refl.
    + intros x Hx. rewrite Hout by lia. unfold store8.
      by rewrite (proj2 (Z.eqb_neq x d)) by lia.
Qed.

(** strcat appends the source string to the destination string and
    writes only the bytes from the old terminator to the new one. *)
Theorem strcat_appends (m : ram) (d q : Z) (s t : list Z) (fuel : nat)
    (Hs : cstr m d s) (Ht : cstr m q t)
    (Hf : (length s < fuel)%nat) (Hf' : (length t < fuel)%nat)
    (Hdis : d + Z.of_nat (length s + length t) < q ∨ q + Z.of_nat (length t) < d) :
  ∃ m', strcat fuel d q m = Ret m' ∧ cstr m' d (s ++ t) ∧
    ∀ x, (x < d + Z.of_nat (length s) ∨ d + Z.of_nat (length s + length t) < x) → m' x = m x.
Proof.
  unfold strcat. rewrite (strcat_end_spec m d s) by done. simpl.
  destruct (strcat_copy_spec m (d + Z.of_nat (length s)) q t fuel)
    as (m' & -> & Hc & Hout); [done..|lia|].
  eexists; split; [done|]. split; [|intros x Hx; apply Hout; lia].
  destruct Hs as [Hs Hbs], Hc as [Hc Hbt]. apply bytes_at_app in Hs as [Hs _].
  split; [|by apply Forall_app]. rewrite <- app_assoc. apply bytes_at_app. split; [|done].
  apply (bytes_at_agree m); [|done]. intros x Hx. symmetry. apply Hout. lia.
Qed.

Lemma strcat_appends_witness :
  ∃ m', strcat 3 0 10 (λ a, if a =? 0 then 97 else if a =? 10 then 98 else 0) = Ret m' ∧
        cstr m' 0 ([97] ++ [98]) ∧
        ∀ x, (x < 0 + Z.of_nat (1 + 1 - 1) ∨ 0 + Z.of_nat (1 + 1) < x) →
             m' x = (λ a, if a =? 0 then 97 else if a =? 10 then 98 else 0) x.
Proof.
  apply strcat_appends; [| |simpl; lia..].
  all: apply cstr_cons; split; [done|split; [lia|by apply cstr_nil]].
Defined.

Lemma strncpy_fill_spec k i dest m x :
  strncpy_fill k i dest m x =
    if (dest + i <=? x) && (x <? dest + i + Z.of_nat k) then 0 else m x.
Proof.
  revert i m. induction k as [|k IH]; intros i m.
  { simpl. repeat zcase; simpl; try done; lia. }
  cbn [strncpy_fill]. rewrite IH. unfold store8.
  repeat zcase; simpl; try done; lia.
Qed.

(** strncpy leaves in the [n] bytes of the destination the source string cut
    to [n] bytes and padded with zeros. *)
Lemma strncpy_spec m d q t n x :
  d ≠ 0 → q ≠ 0 → cstr m q t → 0 ≤ n →
  (d + n ≤ q ∨ q + Z.of_nat (length t) < d) →
  (strncpy d q n m).2 x =
    if (d <=? x) && (x <? d + n) then default 0 (t !! Z.to_nat (x - d)) else m x.
Proof.
  intros Hd Hq Ht Hn Hdis. unfold strncpy.
  rewrite (proj2 (Z.eqb_neq d 0)), (proj2 (Z.eqb_neq q 0)) by done. simpl.
  enough (Hgen : ∀ k i t m, cstr m (q + i) t → 0 ≤ i →
    (d + i + Z.of_nat k ≤ q + i ∨ q + i + Z.of_nat (length t) < d + i) →
    strncpy_loop k i d q m x =
      if (d + i <=? x) && (x <? d + i + Z.of_nat k)
      then default 0 (t !! Z.to_nat (x - d - i)) else m x).
  { rewrite (Hgen _ 0 t); [|by rewrite Z.add_0_r|lia|lia].
    by rewrite Z2Nat.id, Z.add_0_r, Z.sub_0_r by done. }
  clear t m n Ht Hn Hdis. induction k as [|k IH]; intros i t m Ht Hi Hdis.
  { simpl. repeat zcase; simpl; try done; lia. }
  cbn [strncpy_loop]. destruct t as [|b t].
  - apply cstr_nil in Ht as ->. simpl (0 =? 0). cbn match.
    rewrite strncpy_fill_spec. destruct (_ && _); [|done]. by rewrite lookup_nil.
  - apply cstr_cons in Ht as (Hb & Hr & Ht). rewrite Hb.
    rewrite (proj2 (Z.eqb_neq b 0)) by lia. simpl in Hdis.
    rewrite (IH (i + 1) t).
    + unfold store8. destruct (Z.eqb_spec x (d + i)) as [->|].
      * replace (d + i - d - i) with 0 by lia. repeat zcase; simpl; try done; lia.
      * repeat zcase; simpl; try done; try lia.
        replace (Z.to_nat (x - d - i)) with (S (Z.to_nat (x - d - (i + 1)))) by lia.
        done.
    + apply (cstr_agree m); [|by rewrite Z.add_assoc]. intros y Hy. unfold store8.
      by rewrite (proj2 (Z.eqb_neq y (d + i))) by lia.
    + lia.
    + lia.
Qed.

(** [needle] starts at the head of [s]. *)
Fixpoint is_prefix (needle s : list Z) : bool :=
  match needle, s with
  | [], _ => true
  | a :: n', b :: s' => (a =? b) && is_prefix n' s'
  | _ :: _, [] => false
  end.
Fixpoint find_sub (needle s : list Z) : option Z :=
  match s with
  | [] => None
  | _ :: s' => if is_prefix needle s then Some 0 else Z.succ <$> find_sub needle s'
  end.

Lemma strstr_match_spec m h n s t fuel :
  cstr m h s → cstr m n t → (length t < fuel)%nat →
  ∃ r, strstr_match fuel h n m = Ret r ∧ (m r = 0 ↔ is_prefix t s = true).
Proof.
  revert h n s fuel. induction t as [|b t IH]; intros h n s [|f] Hs Ht Hf; simpl in *; try lia.
  - apply cstr_nil in Ht. rewrite Ht. simpl. rewrite andb_false_r.
    eexists; split; [done|]. by rewrite Ht.
  - apply cstr_cons in Ht as (Hb & Hr & Ht). rewrite Hb.
    rewrite (proj2 (Z.eqb_neq b 0)) by lia. rewrite andb_true_r.
    destruct s as [|a s].
    + apply cstr_nil in Hs as ->. rewrite (proj2 (Z.eqb_neq 0 b)) by lia.
      eexists; split; [done|]. split; [lia|done].
    + apply cstr_cons in Hs as (Ha & Hra & Hs). rewrite Ha, (Z.eqb_sym a b).
      destruct (Z.eqb_spec b a) as [->|]; simpl; [apply IH; [done..|lia]|].
      eexists; split; [done|]. split; [lia|done].
Qed.

Lemma strstr_loop_spec m h n s t fuel mfuel :
  cstr m h s → cstr m n t → (length s < fuel)%nat → (length t < mfuel)%nat →
  strstr_loop fuel mfuel h n m =
    Ret (match find_sub t s with Some i => h + i | None => 0 end).
Proof.
  intros Hs Ht Hf Hmf. revert h fuel Hs Hf.
  induction s as [|a s IH]; intros h [|f] Hs Hf; cbn [length] in *; try lia;
    cbn [strstr_loop find_sub].
  - by apply cstr_nil in Hs as ->.
  - destruct (strstr_match_spec m h n (a :: s) t mfuel) as (r & -> & Hr); [done..|].
    apply cstr_cons in Hs as (-> & Ha & Hs). rewrite (proj2 (Z.eqb_neq a 0)) by lia.
    simpl mbind. destruct (is_prefix t (a :: s)).
    + rewrite (proj2 Hr) by done. simpl. by rewrite Z.add_0_r.
    + destruct (Z.eqb_spec (m r) 0) as [E|_]; [by apply Hr in E|].
      rewrite IH by (done || lia). f_equal. destruct (find_sub t s); simpl; lia.
Qed.

(** strstr returns the first occurrence of the needle, or null. *)
Theorem strstr_finds_first (m : ram) (h n : Z) (s t : list Z) (fuel : nat)
    (Hs : cstr m h s) (Ht : cstr m n t) (Hne : t ≠ [])
    (Hf : (length s < fuel)%nat) (Hf' : (length t < fuel)%nat) :
  strstr fuel h n m = Ret (match find_sub t s with Some i => h + i | None => 0 end).
Proof.
  unfold strstr. destruct t as [|b t]; [done|].
  rewrite (proj2 (Z.eqb_neq (m n) 0)) by (apply cstr_cons in Ht as (-> & ? & _); lia).
  by apply strstr_loop_spec.
Qed.

(** ** Number formatting *)

(** Value of a digit string in a base, most significant digit first. *)
Definition digit_val (c : Z) : Z := if c <? 58 then c - 48 else c - 97 + 10.
Fixpoint digits_value (base acc : Z) (l : list Z) : Z :=
  match l with
  | [] => acc
  | d :: l' => digits_value base (acc * base + digit_val d) l'
  end.

Lemma digit_val_hex_char d : 0 ≤ d < 16 → digit_val (hex_char d) = d.
Proof. intros H. unfold digit_val, hex_char. repeat zcase; lia. Qed.
Lemma hex_char_range d : 0 ≤ d < 16 → 0 < hex_char d < 256.
Proof. intros H. unfold hex_char. repeat zcase; lia. Qed.

Lemma itoa_digits_spec base k : 2 ≤ base ≤ 16 →
  ∀ fuel val tmp, 0 ≤ val < base ^ Z.of_nat k → (k < fuel)%nat →
  Z.of_nat (length tmp) + Z.of_nat k ≤ ITOA_TMP →
  ∃ l, itoa_digits fuel val base tmp = Ret (l ++ tmp) ∧
       (length l ≤ k)%nat ∧ Forall (λ b, 0 < b < 256) l ∧
       ∀ acc, digits_value base acc (l ++ tmp) =
              digits_value base (acc * base ^ Z.of_nat (length l) + val) tmp.
Proof.
  intros Hb. induction k as [|k IH]; intros [|f] val tmp Hv Hf Hl; try lia; simpl itoa_digits.
  { exists []. simpl in Hv. replace val with 0 by lia. simpl.
    split; [done|]. split; [done|]. split; [done|]. intros. f_equal. lia. }
  destruct (Z.ltb_spec 0 val).
  2: { exists []. replace val with 0 by lia. simpl.
       split; [done|]. split; [lia|]. split; [done|]. intros. f_equal. lia. }
  pose proof (Z.mod_pos_bound val base ltac:(lia)) as Hm.
  unfold ITOA_TMP in *. rewrite (proj2 (Z.ltb_lt _ 20)) by lia.
  rewrite (proj2 (Z.ltb_lt _ 17)) by lia. simpl.
  rewrite Nat2Z.inj_succ, Z.pow_succ_r in Hv by lia.
  destruct (IH f (val / base) (hex_char (val mod base) :: tmp)) as (l & -> & Hlen & Hbs & Hval).
  { split; [apply Z.div_pos; lia|]. apply Z.div_lt_upper_bound; lia. }
  { lia. }
  { simpl length. lia. }
  exists (l ++ [hex_char (val mod base)]). rewrite <- app_assoc. simpl.
  rewrite length_app. simpl. split; [done|]. split; [lia|].
  split; [apply Forall_app; split; [done|]; constructor; [by apply hex_char_range; lia|done]|].
  intros acc. rewrite Hval. simpl. f_equal.
  rewrite digit_val_hex_char by lia.
  rewrite Nat2Z.inj_add, Z.pow_add_r, Z.pow_1_r by lia.
  pose proof (Z.div_mod val base). nia.
Qed.

Lemma itoa_out_spec l buf m :
  Forall (λ b, 0 < b < 256) l →
  cstr (itoa_out l buf m) buf l ∧
  ∀ x, (x < buf ∨ buf + Z.of_nat (length l) < x) → itoa_out l buf m x = m x.
Proof.
  revert buf m. induction l as [|d l IH]; intros buf m Hl; simpl.
  { unfold store8. split; [apply cstr_nil; by rewrite Z.eqb_refl|].
    intros x Hx. by rewrite (proj2 (Z.eqb_neq x buf)) by lia. }
  apply Forall_cons in Hl as [Hd Hl].
  destruct (IH (buf + 1) (store8 m buf d) Hl) as [Hc Hout]. split.
  - apply cstr_cons. rewrite Hout by lia. unfold store8. by rewrite Z.eqb_refl.
  - intros x Hx. rewrite Hout by lia. unfold store8.
    by rewrite (proj2 (Z.eqb_neq x buf)) by lia.
Qed.

(** itoa in a base from 10 to 16 never leaves its 20-byte scratch buffer
    for a 64-bit value, and the string it writes reads back as that value. *)
Theorem itoa_roundtrip (buf val base : Z) (m : ram)
    (Hb : 10 ≤ base ≤ 16) (Hv : 0 ≤ val < 2 ^ 64) :
  ∃ m' l, itoa buf val base m = Ret m' ∧ cstr m' buf l ∧ (0 < length l ≤ 20)%nat ∧
          digits_value base 0 l = val ∧
          ∀ x, (x < buf ∨ buf + Z.of_nat (length l) < x) → m' x = m x.
Proof.
  unfold itoa. rewrite (proj2 (Z.eqb_neq base 0)) by lia.
  destruct (Z.eqb_spec val 0) as [->|Hnz].
  { simpl. destruct (itoa_out_spec [48] buf m) as [Hc Hout]; [repeat constructor; lia|].
    exists (itoa_out [48] buf m), [48]. simpl length in *. repeat split; try lia; apply Hc || apply Hout. }
  destruct (itoa_digits_spec base 20 ltac:(lia) 65 val []) as (l & -> & Hlen & Hbs & Hval).
  { split; [lia|]. apply Z.lt_le_trans with (10 ^ 20); [lia|].
    apply Z.pow_le_mono_l. lia. }
  { lia. } { done. }
  rewrite app_nil_r in *. simpl.
  destruct (itoa_out_spec l buf m Hbs) as [Hc Hout].
  exists (itoa_out l buf m), l. split; [done|]. split; [done|].
  specialize (Hval 0). simpl in Hval. split; [|by split].
  destruct l as [|d l']; [simpl in Hval; lia|simpl in *; lia].
Qed.

Lemma itoa_roundtrip_witness :
  ∃ m' l, itoa 0 255 16 (λ _, 0) = Ret m' ∧ cstr m' 0 l ∧ (0 < length l ≤ 20)%nat ∧
          digits_value 16 0 l = 255 ∧
          ∀ x, (x < 0 ∨ 0 + Z.of_nat (length l) < x) → m' x = 0.
Proof. apply itoa_roundtrip; lia. Defined.

(** In base 2 a value of more than 20 bits runs past the scratch buffer. *)
Lemma itoa_base2_overflow : itoa 0 (2 ^ 20) 2 (λ _, 0) = Fault.
Proof. vm_compute. reflexivity. Qed.
