(* ===== verification/Pmm.v ===== *)
(** * Physical page allocator: mem/kmemory.cpp

    A bitmap in memory, one bit per page, set for a page in use, and a
    counter of free pages. [machine] is the memory together with the
    allocator's static variables; the functions are the ones of namespace
    [pmm], with the loops of the source. The abstract view of a machine is
    the set of free page numbers ([free_set]); [PageAllocator] is what the
    other components rely on. *)

From S2P Require Import Prelude Mem.

Definition PAGE_SIZE : Z := 4096.

(** The memory-map entries the boot loader passes ([limine_memmap_entry]);
    only the usable type is distinguished by the code. *)
Definition LIMINE_MEMMAP_USABLE : Z := 0.
Record memmap_entry := MemmapEntry { base : Z; length_ : Z; type_ : Z }.

Record machine := Machine {
  mem : ram;
  bitmap : Z;          (* physical address of the bitmap *)
  total_pages : Z;
  free_pages : Z
}.

Section Pmm.
(** hhdm_request.response->offset *)
Context (hhdm : Z).

Definition phys_to_virt (phys : Z) : Z := u64 (phys + hhdm).
Definition virt_to_phys (virt : Z) : Z := u64 (virt - hhdm).

Definition set_mem (m : ram) (s : machine) : machine :=
  Machine m (bitmap s) (total_pages s) (free_pages s).
Definition set_free_pages (n : Z) (s : machine) : machine :=
  Machine (mem s) (bitmap s) (total_pages s) n.

(** Address of the bitmap byte of [bit]. *)
Definition bitmap_byte (s : machine) (bit : Z) : Z := phys_to_virt (bitmap s) + bit / 8.

Definition bitmap_get (s : machine) (bit : Z) : bool :=
  negb (Z.land (Z.shiftr (mem s (bitmap_byte s bit)) (bit mod 8)) 1 =? 0).

Definition bitmap_set (bit : Z) (s : machine) : machine :=
  set_mem (store8 (mem s) (bitmap_byte s bit)
             (u8 (Z.lor (mem s (bitmap_byte s bit)) (Z.shiftl 1 (bit mod 8))))) s.

Definition bitmap_clear (bit : Z) (s : machine) : machine :=
  set_mem (store8 (mem s) (bitmap_byte s bit)
             (u8 (Z.land (mem s (bitmap_byte s bit)) (Z.lnot (Z.shiftl 1 (bit mod 8)))))) s.

(** ** pmm::init *)

Definition highest_addr (entries : list memmap_entry) : Z :=
  fold_left (λ h e, let top := u64 (base e + length_ e) in if h <? top then top else h) entries 0.

Definition bitmap_size_of (pages : Z) : Z :=
  Z.land (pages / 8 + PAGE_SIZE - 1) (Z.lnot (PAGE_SIZE - 1)).

Fixpoint find_bitmap (bitmap_size : Z) (entries : list memmap_entry) : Z :=
  match entries with
  | [] => 0
  | e :: es =>
      if (type_ e =? LIMINE_MEMMAP_USABLE) && (bitmap_size <=? length_ e) then base e
      else find_bitmap bitmap_size es
  end.

(** for (i = 0; i < bitmap_size / 8; i++) bitmap_virt[i] = 0xFF; *)
Fixpoint fill_ff (k : nat) (i virt : Z) (m : ram) : ram :=
  match k with
  | O => m
  | S k' => fill_ff k' (i + 1) virt (store8 m (virt + i) 255)
  end.

(** The pages of one usable entry; [k] bounds the number of iterations. *)
Fixpoint release_pages (k : nat) (page last bitmap_phys bitmap_size : Z) (s : machine) : machine :=
  match k with
  | O => s
  | S k' =>
      if page <? last then
        let s' :=
          if (bitmap_phys <=? page) && (page <? bitmap_phys + bitmap_size) then s
          else let s1 := bitmap_clear (page / PAGE_SIZE) s in
               set_free_pages (u64 (free_pages s1 + 1)) s1 in
        release_pages k' (u64 (page + PAGE_SIZE)) last bitmap_phys bitmap_size s'
      else s
  end.

Definition release_entry (bitmap_phys bitmap_size : Z) (s : machine) (e : memmap_entry) : machine :=
  if type_ e =? LIMINE_MEMMAP_USABLE then
    release_pages (Z.to_nat (length_ e / PAGE_SIZE + 1)) (base e) (u64 (base e + length_ e))
      bitmap_phys bitmap_size s
  else s.

Definition pmm_init (entries : list memmap_entry) (m : ram) : outcome machine :=
  let total := highest_addr entries / PAGE_SIZE in
  let bitmap_size := bitmap_size_of total in
  let bitmap_phys := find_bitmap bitmap_size entries in
  if bitmap_phys =? 0 then Panic "pmm: Could not allocate memory for bitmap"
  else
    let m1 := fill_ff (Z.to_nat (bitmap_size / 8)) 0 (phys_to_virt bitmap_phys) m in
    Ret (fold_left (release_entry bitmap_phys bitmap_size) entries
           (Machine m1 bitmap_phys total 0)).

(** ** Allocation *)

Fixpoint allocPage_loop (k : nat) (i : Z) (s : machine) : Z * machine :=
  match k with
  | O => (0, s)
  | S k' =>
      if bitmap_get s i then allocPage_loop k' (i + 1) s
      else let s1 := bitmap_set i s in
           (u64 (i * PAGE_SIZE), set_free_pages (u64 (free_pages s1 - 1)) s1)
  end.
Definition allocPage (s : machine) : Z * machine :=
  allocPage_loop (Z.to_nat (total_pages s)) 0 s.

Definition freePage (phys_addr : Z) (s : machine) : machine :=
  let page := phys_addr / PAGE_SIZE in
  if (page <? total_pages s) && bitmap_get s page then
    let s1 := bitmap_clear page s in set_free_pages (u64 (free_pages s1 + 1)) s1
  else s.

(** for (j = start_page; j <= i; j++) bitmap_set(j); *)
Fixpoint set_range (k : nat) (j : Z) (s : machine) : machine :=
  match k with
  | O => s
  | S k' => set_range k' (j + 1) (bitmap_set j s)
  end.

Fixpoint allocPages_loop (k : nat) (i count consecutive start_page : Z) (s : machine) : Z * machine :=
  match k with
  | O => (0, s)
  | S k' =>
      if bitmap_get s i then allocPages_loop k' (i + 1) count 0 start_page s
      else
        let start_page := if consecutive =? 0 then i else start_page in
        let consecutive := consecutive + 1 in
        if consecutive =? count then
          let s1 := set_range (Z.to_nat (i - start_page + 1)) start_page s in
          (u64 (start_page * PAGE_SIZE), set_free_pages (u64 (free_pages s1 - count)) s1)
        else allocPages_loop k' (i + 1) count consecutive start_page s
  end.
Definition allocPages (count : Z) (s : machine) : Z * machine :=
  if count =? 0 then (0, s)
  else if count =? 1 then allocPage s
  else allocPages_loop (Z.to_nat (total_pages s)) 0 count 0 0 s.

Fixpoint freePages_loop (k : nat) (i page : Z) (s : machine) : machine :=
  match k with
  | O => s
  | S k' =>
      let s' :=
        if (page + i <? total_pages s) && bitmap_get s (page + i) then
          let s1 := bitmap_clear (page + i) s in set_free_pages (u64 (free_pages s1 + 1)) s1
        else s in
      freePages_loop k' (i + 1) page s'
  end.
Definition freePages (phys_addr count : Z) (s : machine) : machine :=
  freePages_loop (Z.to_nat count) 0 (phys_addr / PAGE_SIZE) s.

(** ** The abstract view: the set of free pages *)

Definition free_set (s : machine) : gset Z :=
  list_to_set (filter (λ p, bitmap_get s p = false) (seqZ 0 (total_pages s))).

Definition page_range (n count : Z) : gset Z := list_to_set (seqZ n count).

Definition in_bitmap (s : machine) (a : Z) : Prop :=
  phys_to_virt (bitmap s) ≤ a < phys_to_virt (bitmap s) + (total_pages s + 7) / 8.

(** The counter is the number of free pages; page 0, whose address is the
    failure value, is never free. *)
Record pmm_inv (s : machine) : Prop := {
  inv_count : free_pages s = Z.of_nat (size (free_set s));
  inv_total : 0 ≤ total_pages s ≤ 2 ^ 52;
  inv_zero : 0 ∉ free_set s
}.

(** An operation of the allocator touches no memory but the bitmap. *)
Record only_bitmap (s s' : machine) : Prop := {
  ob_bitmap : bitmap s' = bitmap s;
  ob_total : total_pages s' = total_pages s;
  ob_mem : ∀ a, ¬ in_bitmap s a → mem s' a = mem s a
}.

#[export] Instance only_bitmap_preorder : PreOrder only_bitmap.
Proof.
  split.
  - by intros s.
  - intros s1 s2 s3 [Hb Ht Hm] [Hb' Ht' Hm']. split; [congruence..|].
    intros a Ha. rewrite Hm', Hm; [done..|]. unfold in_bitmap in *. by rewrite Hb, Ht.
Qed.

Lemma elem_of_free_set s p :
  p ∈ free_set s ↔ 0 ≤ p < total_pages s ∧ bitmap_get s p = false.
Proof.
  unfold free_set. rewrite elem_of_list_to_set, list_elem_of_filter, elem_of_seqZ.
  naive_solver lia.
Qed.

Lemma elem_of_page_range n count p : p ∈ page_range n count ↔ n ≤ p < n + count.
Proof. unfold page_range. by rewrite elem_of_list_to_set, elem_of_seqZ. Qed.

Lemma page_range_size n count : 0 ≤ count → size (page_range n count) = Z.to_nat count.
Proof.
  intros Hc. unfold page_range. rewrite size_list_to_set by apply NoDup_seqZ.
  by rewrite length_seqZ.
Qed.

(** *** Bitmap bits *)

Lemma bitmap_get_testbit s i :
  0 ≤ i → bitmap_get s i = Z.testbit (mem s (bitmap_byte s i)) (i mod 8).
Proof.
  intros Hi. unfold bitmap_get. change 1 with (2 ^ 1 - 1). rewrite land_ones_mod by lia.
  rewrite Z.testbit_odd. change (2 ^ 1) with 2. rewrite Zmod_odd. by destruct (Z.odd _).
Qed.

Lemma same_byte i b : 0 ≤ i → 0 ≤ b → i / 8 = b / 8 → (i mod 8 =? b mod 8) = (i =? b).
Proof.
  intros Hi Hb E. pose proof (Z.div_mod i 8). pose proof (Z.div_mod b 8). repeat zcase; lia.
Qed.

Lemma bitmap_get_set s b i :
  0 ≤ b → 0 ≤ i → bitmap_get (bitmap_set b s) i = (i =? b) || bitmap_get s i.
Proof.
  intros Hb Hi. rewrite !bitmap_get_testbit by done.
  change (bitmap_byte (bitmap_set b s) i) with (bitmap_byte s i).
  unfold bitmap_set; cbn [mem set_mem]. unfold store8, bitmap_byte.
  pose proof (Z.mod_pos_bound i 8) as Hm. pose proof (Z.mod_pos_bound b 8) as Hm'.
  destruct (Z.eqb_spec (phys_to_virt (bitmap s) + i / 8) (phys_to_virt (bitmap s) + b / 8)) as [E|E].
  - assert (E' : i / 8 = b / 8) by lia. rewrite testbit_u8 by lia.
    rewrite (proj2 (Z.ltb_lt _ 8)) by lia. simpl.
    rewrite Z.lor_spec, testbit_shiftl1, same_byte, E' by lia. apply orb_comm.
  - destruct (Z.eqb_spec i b); [subst; lia|done].
Qed.

Lemma bitmap_get_clear s b i :
  0 ≤ b → 0 ≤ i → bitmap_get (bitmap_clear b s) i = negb (i =? b) && bitmap_get s i.
Proof.
  intros Hb Hi. rewrite !bitmap_get_testbit by done.
  change (bitmap_byte (bitmap_clear b s) i) with (bitmap_byte s i).
  unfold bitmap_clear; cbn [mem set_mem]. unfold store8, bitmap_byte.
  pose proof (Z.mod_pos_bound i 8) as Hm. pose proof (Z.mod_pos_bound b 8) as Hm'.
  destruct (Z.eqb_spec (phys_to_virt (bitmap s) + i / 8) (phys_to_virt (bitmap s) + b / 8)) as [E|E].
  - assert (E' : i / 8 = b / 8) by lia. rewrite testbit_u8 by lia.
    rewrite (proj2 (Z.ltb_lt _ 8)) by lia. simpl.
    rewrite Z.land_spec, Z.lnot_spec, testbit_shiftl1, same_byte, E' by lia. apply andb_comm.
  - destruct (Z.eqb_spec i b); [subst; lia|done].
Qed.

Lemma bitmap_byte_in s b : 0 ≤ b < total_pages s → in_bitmap s (bitmap_byte s b).
Proof. intros Hb. unfold in_bitmap, bitmap_byte. div_mod. Qed.

Lemma bitmap_set_only s b : 0 ≤ b < total_pages s → only_bitmap s (bitmap_set b s).
Proof.
  intros Hb. split; [done..|]. intros a Ha. unfold bitmap_set; simpl. unfold store8.
  destruct (Z.eqb_spec a (bitmap_byte s b)) as [->|]; [|done].
  destruct Ha. by apply bitmap_byte_in.
Qed.
Lemma bitmap_clear_only s b : 0 ≤ b < total_pages s → only_bitmap s (bitmap_clear b s).
Proof.
  intros Hb. split; [done..|]. intros a Ha. unfold bitmap_clear; simpl. unfold store8.
  destruct (Z.eqb_spec a (bitmap_byte s b)) as [->|]; [|done].
  destruct Ha. by apply bitmap_byte_in.
Qed.
Lemma set_free_pages_only n s s' : only_bitmap s s' → only_bitmap s (set_free_pages n s').
Proof. by intros []. Qed.

Lemma free_set_counter n s : free_set (set_free_pages n s) = free_set s.
Proof. done. Qed.

Lemma free_set_set s b :
  0 ≤ b < total_pages s → free_set (bitmap_set b s) = free_set s ∖ {[b]}.
Proof.
  intros Hb. apply set_eq. intros p.
  rewrite elem_of_difference, elem_of_singleton, !elem_of_free_set. simpl.
  destruct (decide (0 ≤ p)); [|naive_solver lia].
  rewrite bitmap_get_set by lia. destruct (Z.eqb_spec p b); naive_solver.
Qed.

Lemma free_set_clear s b :
  0 ≤ b < total_pages s → free_set (bitmap_clear b s) = free_set s ∪ {[b]}.
Proof.
  intros Hb. apply set_eq. intros p.
  rewrite elem_of_union, elem_of_singleton, !elem_of_free_set. simpl.
  destruct (decide (0 ≤ p)); [|naive_solver lia].
  rewrite bitmap_get_clear by lia. destruct (Z.eqb_spec p b); naive_solver.
Qed.

Lemma free_set_bound s : 0 ≤ total_pages s → (size (free_set s) ≤ Z.to_nat (total_pages s))%nat.
Proof.
  intros Ht. rewrite <- (page_range_size 0) by done. apply subseteq_size. intros p Hp.
  apply elem_of_free_set in Hp as [? _]. apply elem_of_page_range. lia.
Qed.

(** Restoring the counter after [k] pages left or joined the free set. *)
Lemma pmm_inv_remove s s' (X : gset Z) :
  pmm_inv s → X ⊆ free_set s → only_bitmap s s' → free_set s' = free_set s ∖ X →
  free_pages s' = u64 (free_pages s - Z.of_nat (size X)) → pmm_inv s'.
Proof.
  intros Hinv HX Hob Hf Hc. pose proof (inv_total s Hinv).
  pose proof (free_set_bound s ltac:(lia)). pose proof (subseteq_size _ _ HX).
  split.
  - rewrite Hc, Hf, (inv_count s Hinv), size_difference by done.
    rewrite u64_small by lia. lia.
  - by rewrite (ob_total _ _ Hob).
  - rewrite Hf. pose proof (inv_zero s Hinv). set_solver.
Qed.

Lemma pmm_inv_add s s' (X : gset Z) :
  pmm_inv s → X ## free_set s → 0 ∉ X → only_bitmap s s' → free_set s' = free_set s ∪ X →
  free_pages s' = u64 (free_pages s + Z.of_nat (size X)) → pmm_inv s'.
Proof.
  intros Hinv HX H0 Hob Hf Hc. pose proof (inv_total s Hinv).
  pose proof (free_set_bound s' ltac:(rewrite (ob_total _ _ Hob); lia)) as Hb.
  rewrite (ob_total _ _ Hob), Hf, size_union in Hb by set_solver.
  split.
  - rewrite Hc, Hf, (inv_count s Hinv), size_union by set_solver.
    rewrite u64_small by lia. lia.
  - by rewrite (ob_total _ _ Hob).
  - rewrite Hf. pose proof (inv_zero s Hinv). set_solver.
Qed.

(** ** Allocation and release *)

Lemma allocPage_loop_spec k i s :
  pmm_inv s → 0 ≤ i → i + Z.of_nat k = total_pages s →
  (∀ p, p ∈ free_set s → i ≤ p) →
  let '(p, s') := allocPage_loop k i s in
  pmm_inv s' ∧ only_bitmap s s' ∧
  (free_set s = ∅ ∧ p = 0 ∧ s' = s ∨
   ∃ n, p = n * PAGE_SIZE ∧ 0 < n ∧ n ∈ free_set s ∧
        (∀ q, q ∈ free_set s → n ≤ q) ∧ free_set s' = free_set s ∖ {[n]}).
Proof.
  intros Hinv. revert i. induction k as [|k IH]; intros i Hi Hk Hmin; cbn [allocPage_loop].
  - split; [done|]. split; [done|]. left. split; [|done]. apply set_eq. intros p.
    split; [|set_solver]. intros Hp. specialize (Hmin p Hp).
    apply elem_of_free_set in Hp. lia.
  - destruct (bitmap_get s i) eqn:Hg.
    + apply IH; [lia..|]. intros p Hp. specialize (Hmin p Hp).
      destruct (decide (p = i)) as [->|]; [|lia]. apply elem_of_free_set in Hp as [_ ?]. congruence.
    + assert (Hfree : i ∈ free_set s) by (apply elem_of_free_set; split; [lia|done]).
      assert (Hi0 : i ≠ 0) by (intros ->; by apply (inv_zero s Hinv)).
      pose proof (inv_total s Hinv). unfold PAGE_SIZE in *.
      assert (Hob : only_bitmap s (bitmap_set i s)) by (apply bitmap_set_only; lia).
      split; [|split; [by apply set_free_pages_only|]].
      * apply (pmm_inv_remove s _ {[i]}); [done|set_solver|by apply set_free_pages_only| |].
        -- rewrite free_set_counter. apply free_set_set. lia.
        -- cbn [free_pages set_free_pages]. by rewrite size_singleton.
      * right. exists i. rewrite u64_small by lia. rewrite free_set_counter, free_set_set by lia.
        split; [done|]. split; [lia|done].
Qed.

(** allocPage fails exactly when no page is free; otherwise it returns the
    lowest free page, which leaves the free set and is counted. *)
Lemma allocPage_spec (s : machine) (Hinv : pmm_inv s) :
  let '(p, s') := allocPage s in
  pmm_inv s' ∧ only_bitmap s s' ∧
  (free_set s = ∅ ∧ p = 0 ∧ s' = s ∨
   ∃ n, p = n * PAGE_SIZE ∧ 0 < n ∧ n ∈ free_set s ∧
        (∀ q, q ∈ free_set s → n ≤ q) ∧ free_set s' = free_set s ∖ {[n]}).
Proof.
  apply allocPage_loop_spec; [done|lia|pose proof (inv_total s Hinv); lia|].
  intros p Hp. apply elem_of_free_set in Hp. lia.
Qed.

Lemma set_range_spec k j s :
  0 ≤ j → j + Z.of_nat k ≤ total_pages s →
  only_bitmap s (set_range k j s) ∧
  free_pages (set_range k j s) = free_pages s ∧
  free_set (set_range k j s) = free_set s ∖ page_range j (Z.of_nat k).
Proof.
  revert j s. induction k as [|k IH]; intros j s Hj Hk; cbn [set_range].
  { split; [done|]. split; [done|]. unfold page_range. simpl. set_solver. }
  destruct (IH (j + 1) (bitmap_set j s)) as (Hob & Hc & Hf); [lia|simpl; lia|].
  split; [transitivity (bitmap_set j s); [apply bitmap_set_only; lia|done]|]. split; [done|].
  rewrite Hf, free_set_set by lia. apply set_eq. intros p.
  rewrite !elem_of_difference, !elem_of_page_range, elem_of_singleton. naive_solver lia.
Qed.

Definition free_run (s : machine) (n count : Z) : Prop :=
  page_range n count ⊆ free_set s.

(** Loop invariant of allocPages: the [c] pages before [i] are free, that run
    cannot be extended to the left, and no run of [count] pages ends before. *)
Lemma allocPages_loop_spec s count k : pmm_inv s → 1 < count →
  ∀ i c start, 0 ≤ c < count → c ≤ i → i + Z.of_nat k = total_pages s →
  (c ≠ 0 → start = i - c) → free_run s (i - c) c →
  (c < i → i - c - 1 ∉ free_set s) →
  (∀ n, free_run s n count → i < n + count) →
  let '(p, s') := allocPages_loop k i count c start s in
  pmm_inv s' ∧ only_bitmap s s' ∧
  ((∀ n, ¬ free_run s n count) ∧ p = 0 ∧ s' = s ∨
   ∃ n, p = n * PAGE_SIZE ∧ 0 < n ∧ free_run s n count ∧
        (∀ q, free_run s q count → n ≤ q) ∧
        free_set s' = free_set s ∖ page_range n count).
Proof.
  intros Hinv Hcount. pose proof (inv_total s Hinv) as Htot.
  induction k as [|k IH]; intros i c start Hc Hci Hk Hstart Hrun Hmax Hno;
    cbn [allocPages_loop].
  { split; [done|]. split; [done|]. left. split; [|done]. intros n Hn.
    specialize (Hno n Hn). assert (Hl : n + count - 1 ∈ free_set s)
      by (apply Hn, elem_of_page_range; lia).
    apply elem_of_free_set in Hl. lia. }
  destruct (bitmap_get s i) eqn:Hg.
  - apply (IH (i + 1) 0 start); try lia.
    + intros p. rewrite elem_of_page_range. lia.
    + intros _. rewrite elem_of_free_set, Z.sub_0_r, Z.add_simpl_r, Hg. naive_solver.
    + intros n Hn. specialize (Hno n Hn). destruct (decide (i + 1 = n + count)); [|lia].
      assert (Hl : i ∈ free_set s) by (apply Hn, elem_of_page_range; lia).
      apply elem_of_free_set in Hl as [_ ?]. congruence.
  - assert (Hfree : i ∈ free_set s) by (apply elem_of_free_set; split; [lia|done]).
    assert (Hst : (if c =? 0 then i else start) = i - c)
      by (destruct (Z.eqb_spec c 0); [lia|auto]).
    rewrite Hst. clear Hst.
    assert (Hrun' : free_run s (i - c) (c + 1)).
    { intros p Hp. apply elem_of_page_range in Hp.
      destruct (decide (p = i)) as [->|]; [done|]. apply Hrun, elem_of_page_range. lia. }
    destruct (Z.eqb_spec (c + 1) count) as [Hcc|Hcc].
    + assert (Hpos : 0 < i - c).
      { destruct (decide (i - c = 0)) as [E|]; [|lia]. exfalso.
        apply (inv_zero s Hinv). rewrite <- E. apply Hrun', elem_of_page_range. lia. }
      rewrite (u64_small ((i - c) * PAGE_SIZE)) by (unfold PAGE_SIZE; lia).
      destruct (set_range_spec (Z.to_nat (i - (i - c) + 1)) (i - c) s) as (Hob & Hcnt & Hf);
        [lia..|].
      rewrite Z2Nat.id in Hf by lia. replace (i - (i - c) + 1) with count in * by lia.
      split; [|split; [by apply set_free_pages_only|]].
      * apply (pmm_inv_remove s _ (page_range (i - c) count)); [done| |by apply set_free_pages_only|done|].
        -- by replace count with (c + 1) by lia.
        -- cbn [free_pages set_free_pages]. rewrite Hcnt, page_range_size, Z2Nat.id by lia. done.
      * right. exists (i - c). rewrite free_set_counter. subst count.
        split; [done|]. split; [lia|]. split; [done|]. split; [|done].
        intros q Hq. specialize (Hno q Hq). lia.
    + apply (IH (i + 1) (c + 1) (i - c)); try lia.
      * by replace (i + 1 - (c + 1)) with (i - c) by lia.
      * intros Hlt. replace (i + 1 - (c + 1) - 1) with (i - c - 1) by lia. apply Hmax. lia.
      * intros n Hn. specialize (Hno n Hn). destruct (decide (i + 1 = n + count)); [|lia].
        exfalso. assert (Hn0 : n ∈ free_set s) by (apply Hn, elem_of_page_range; lia).
        apply elem_of_free_set in Hn0. apply (Hmax ltac:(lia)).
        apply Hn, elem_of_page_range. lia.
Qed.

(** allocPages finds the lowest run of [count] free pages when there is one
    (first fit, complete) and fails without effect when there is none. *)
Lemma allocPages_spec (s : machine) (count : Z)
    (Hinv : pmm_inv s) (Hcount : 0 < count) :
  let '(p, s') := allocPages count s in
  pmm_inv s' ∧ only_bitmap s s' ∧
  ((∀ n, ¬ free_run s n count) ∧ p = 0 ∧ s' = s ∨
   ∃ n, p = n * PAGE_SIZE ∧ 0 < n ∧ free_run s n count ∧
        (∀ q, free_run s q count → n ≤ q) ∧
        free_set s' = free_set s ∖ page_range n count).
Proof.
  unfold allocPages. rewrite (proj2 (Z.eqb_neq count 0)) by lia.
  assert (H1 : ∀ n, page_range n 1 = {[n]}).
  { intros n. apply set_eq. intros p. rewrite elem_of_page_range, elem_of_singleton. lia. }
  destruct (Z.eqb_spec count 1) as [->|Hc].
  - pose proof (allocPage_spec s Hinv) as H. destruct (allocPage s) as [p s'].
    destruct H as (Hi & Hob & H). split; [done|]. split; [done|]. unfold free_run.
    destruct H as [(He & -> & ->)|(n & -> & Hn & Hf & Hmin & Hs)]; [left|right].
    + split; [|done]. intros n. rewrite H1, He. set_solver.
    + exists n. rewrite H1. split; [done|]. split; [done|]. split; [set_solver|].
      split; [|done]. intros q. rewrite H1. intros Hq. apply Hmin. set_solver.
  - pose proof (inv_total s Hinv).
    apply allocPages_loop_spec; try done; try lia.
    intros n Hn. assert (Hl : n ∈ free_set s) by (apply Hn, elem_of_page_range; lia).
    apply elem_of_free_set in Hl. lia.
Qed.

Lemma freePage_step s page :
  pmm_inv s → 0 < page →
  let s' := if (page <? total_pages s) && bitmap_get s page
            then set_free_pages (u64 (free_pages (bitmap_clear page s) + 1)) (bitmap_clear page s)
            else s in
  pmm_inv s' ∧ only_bitmap s s' ∧
  free_set s' = free_set s ∪ ({[page]} ∩ page_range 0 (total_pages s)).
Proof.
  intros Hinv Hp. destruct (Z.ltb_spec page (total_pages s)) as [Hlt|Hge]; simpl.
  - replace ({[page]} ∩ page_range 0 (total_pages s)) with ({[page]} : gset Z).
    2: { apply set_eq. intros q. rewrite elem_of_intersection, elem_of_page_range, ?elem_of_singleton, ?elem_of_empty. lia. }
    destruct (bitmap_get s page) eqn:Hg.
    + assert (Hob : only_bitmap s (bitmap_clear page s)) by (apply bitmap_clear_only; lia).
      split; [|split; [by apply set_free_pages_only|]].
      * apply (pmm_inv_add s _ {[page]}); [done| |rewrite elem_of_singleton; lia|by apply set_free_pages_only| |].
        -- apply disjoint_singleton_l. rewrite elem_of_free_set. intros [_ ?]; congruence.
        -- rewrite free_set_counter. apply free_set_clear. lia.
        -- cbn [free_pages set_free_pages]. by rewrite size_singleton.
      * rewrite free_set_counter. apply free_set_clear. lia.
    + split; [done|]. split; [done|].
      assert (page ∈ free_set s) by (apply elem_of_free_set; split; [lia|done]). set_solver.
  - split; [done|]. split; [done|].
    replace ({[page]} ∩ page_range 0 (total_pages s)) with (∅ : gset Z); [set_solver|].
    apply set_eq. intros q. rewrite elem_of_intersection, elem_of_page_range, ?elem_of_singleton, ?elem_of_empty. lia.
Qed.

Lemma freePages_loop_spec k i page s :
  pmm_inv s → 0 < page + i →
  pmm_inv (freePages_loop k i page s) ∧ only_bitmap s (freePages_loop k i page s) ∧
  free_set (freePages_loop k i page s) =
    free_set s ∪ (page_range (page + i) (Z.of_nat k) ∩ page_range 0 (total_pages s)).
Proof.
  revert i s. induction k as [|k IH]; intros i s Hinv Hp; cbn [freePages_loop].
  { split; [done|]. split; [done|]. unfold page_range. simpl. set_solver. }
  destruct (freePage_step s (page + i) Hinv Hp) as (Hi1 & Hob1 & Hf1).
  cbn zeta in *.
  destruct (IH (i + 1) _ Hi1 ltac:(lia)) as (Hi2 & Hob2 & Hf2).
  split; [done|]. split; [by etransitivity|].
  rewrite Hf2, Hf1, (ob_total _ _ Hob1). apply set_eq. intros q.
  rewrite !elem_of_union, !elem_of_intersection, !elem_of_page_range, elem_of_singleton.
  naive_solver lia.
Qed.

Lemma freePages_spec s n count :
  pmm_inv s → 0 < n → 0 ≤ count →
  pmm_inv (freePages (n * PAGE_SIZE) count s) ∧
  only_bitmap s (freePages (n * PAGE_SIZE) count s) ∧
  free_set (freePages (n * PAGE_SIZE) count s) =
    free_set s ∪ (page_range n count ∩ page_range 0 (total_pages s)).
Proof.
  intros Hinv Hn Hc. unfold freePages. rewrite Z.div_mul by done.
  pose proof (freePages_loop_spec (Z.to_nat count) 0 n s Hinv ltac:(lia)) as H.
  by rewrite Z.add_0_r, Z2Nat.id in H by done.
Qed.

Lemma freePage_spec s n :
  pmm_inv s → 0 < n →
  pmm_inv (freePage (n * PAGE_SIZE) s) ∧ only_bitmap s (freePage (n * PAGE_SIZE) s) ∧
  free_set (freePage (n * PAGE_SIZE) s) =
    free_set s ∪ ({[n]} ∩ page_range 0 (total_pages s)).
Proof. intros Hinv Hn. unfold freePage. rewrite Z.div_mul by done. by apply freePage_step. Qed.

Lemma free_run_total s n count : 0 < count → free_run s n count →
  page_range n count ⊆ page_range 0 (total_pages s).
Proof.
  intros Hc Hr p Hp. apply Hr, elem_of_free_set in Hp as [? _]. by apply elem_of_page_range.
Qed.

(** C14: the life of a run of pages. A successful allocPages hands out the
    lowest run of [count] pages that were all free, no longer free afterwards,
    and touches only the bitmap; giving the run back restores the free set and
    the counter exactly; a second release of the same run changes nothing. *)
Theorem allocPages_freePages_roundtrip (s : machine) (count : Z)
    (Hinv : pmm_inv s) (Hcount : 0 < count) :
  let '(p, s1) := allocPages count s in
  p ≠ 0 →
  let s2 := freePages p count s1 in
  (∃ n, p = n * PAGE_SIZE ∧ free_run s n count ∧ (∀ q, free_run s q count → n ≤ q) ∧
        page_range n count ## free_set s1) ∧
  only_bitmap s s1 ∧ free_set s2 = free_set s ∧ free_pages s2 = free_pages s ∧
  free_set (freePages p count s2) = free_set s2 ∧
  free_pages (freePages p count s2) = free_pages s2.
Proof.
  pose proof (allocPages_spec s count Hinv Hcount) as H.
  destruct (allocPages count s) as [p s1]. intros Hp.
  destruct H as (Hi1 & Hob1 & [(_ & -> & _)|(n & -> & Hn & Hrun & Hmin & Hf1)]); [done|].
  pose proof (free_run_total s n count Hcount Hrun) as Htot.
  destruct (freePages_spec s1 n count Hi1 Hn ltac:(lia)) as (Hi2 & Hob2 & Hf2).
  destruct (freePages_spec _ n count Hi2 Hn ltac:(lia)) as (Hi3 & Hob3 & Hf3).
  assert (E2 : free_set (freePages (n * PAGE_SIZE) count s1) = free_set s).
  { rewrite Hf2, Hf1, (ob_total _ _ Hob1). apply set_eq. intros q.
    destruct (decide (q ∈ page_range n count)); set_solver. }
  rewrite (ob_total _ _ Hob2), (ob_total _ _ Hob1) in Hf3.
  assert (E3 : free_set (freePages (n * PAGE_SIZE) count
                 (freePages (n * PAGE_SIZE) count s1)) = free_set s) by set_solver.
  cbn zeta. rewrite (inv_count _ Hi3), (inv_count _ Hi2), E3, E2, (inv_count _ Hinv).
  split; [exists n; rewrite Hf1; set_solver|done].
Qed.

(** ** Initialisation *)

Definition entry_ok (e : memmap_entry) : Prop :=
  0 ≤ base e ∧ 0 ≤ length_ e ∧ base e mod PAGE_SIZE = 0 ∧ length_ e mod PAGE_SIZE = 0 ∧
  base e + length_ e ≤ 2 ^ 63.

(** The page numbers a memory-map entry contributes to the free pages. *)
Definition entry_pages (bitmap_phys bitmap_size : Z) (e : memmap_entry) : list Z :=
  if type_ e =? LIMINE_MEMMAP_USABLE then
    filter (λ p, ¬ (bitmap_phys ≤ p * PAGE_SIZE < bitmap_phys + bitmap_size))
      (seqZ (base e / PAGE_SIZE) (length_ e / PAGE_SIZE))
  else [].

(** [s'] is [s] with the pages of [l] released, in order. *)
Record released (s s' : machine) (l : list Z) : Prop := {
  rel_bitmap : bitmap s' = bitmap s;
  rel_total : total_pages s' = total_pages s;
  rel_count : free_pages s' = u64 (free_pages s + Z.of_nat (length l));
  rel_bits : ∀ p, 0 ≤ p → bitmap_get s' p = bitmap_get s p && bool_decide (p ∉ l)
}.

Lemma released_nil s : 0 ≤ free_pages s < 2 ^ 64 → released s s [].
Proof.
  intros H. split; [done..| |].
  - simpl. by rewrite Z.add_0_r, u64_small.
  - intros p Hp. rewrite bool_decide_eq_true_2 by set_solver. by rewrite andb_true_r.
Qed.

Lemma released_app s s1 s2 l1 l2 :
  released s s1 l1 → released s1 s2 l2 → released s s2 (l1 ++ l2).
Proof.
  intros [Hb Ht Hc Hg] [Hb' Ht' Hc' Hg']. split; [congruence..| |].
  - rewrite Hc', Hc, length_app. unfold u64. rewrite Zplus_mod_idemp_l. f_equal. lia.
  - intros p Hp. rewrite Hg', Hg, <- andb_assoc by done. f_equal.
    rewrite <- bool_decide_and. apply bool_decide_ext. rewrite elem_of_app. tauto.
Qed.

Lemma released_one s p :
  0 ≤ p → 0 ≤ free_pages s < 2 ^ 64 →
  released s (set_free_pages (u64 (free_pages (bitmap_clear p s) + 1)) (bitmap_clear p s)) [p].
Proof.
  intros Hp Hc. split; [done..|]. intros q Hq. change (bitmap_get (set_free_pages _ ?t) q) with (bitmap_get t q).
  rewrite bitmap_get_clear, andb_comm by done. f_equal.
  destruct (Z.eqb_spec q p) as [->|]; simpl; symmetry;
    [apply bool_decide_eq_false|apply bool_decide_eq_true]; set_solver.
Qed.

Lemma release_pages_spec k bp bs s n last :
  0 ≤ n → 0 ≤ free_pages s < 2 ^ 64 → last = (n + Z.of_nat k - 1) * PAGE_SIZE → last ≤ 2 ^ 63 →
  released s (release_pages k (n * PAGE_SIZE) last bp bs s)
    (filter (λ p, ¬ (bp ≤ p * PAGE_SIZE < bp + bs)) (seqZ n (Z.of_nat k - 1))).
Proof.
  intros Hn Hc Hlast Hmax. revert n s Hn Hc Hlast.
  induction k as [|k IH]; intros n s Hn Hc Hlast; cbn [release_pages].
  { rewrite seqZ_nil by lia. by apply released_nil. }
  destruct (Z.ltb_spec (n * PAGE_SIZE) last) as [Hlt|Hge]; unfold PAGE_SIZE in *.
  2: { rewrite seqZ_nil by lia. by apply released_nil. }
  rewrite seqZ_cons by lia. rewrite u64_small by lia.
  replace (n * 4096 + 4096) with ((n + 1) * 4096) by lia.
  replace (Z.pred (Z.of_nat (S k) - 1)) with (Z.of_nat k - 1) by lia.
  rewrite filter_cons, Z.div_mul by lia.
  destruct (decide _) as [Hin|Hin].
  - rewrite <- (app_nil_l (filter _ _)), app_comm_cons.
    eapply (released_app _ _ _ [n]); [|apply IH; [lia| |lia]].
    + destruct (_ && _) eqn:E; [zbool; lia|]. apply released_one; lia.
    + destruct (_ && _); [lia|]. apply u64_range.
  - assert (bp ≤ n * 4096 < bp + bs) as [H1 H2] by (apply dec_stable; tauto).
    rewrite (proj2 (Z.leb_le _ _) H1), (proj2 (Z.ltb_lt _ _) H2). simpl andb. cbv iota zeta.
    apply IH; lia.
Qed.

Lemma released_range s s' l : released s s' l → 0 ≤ free_pages s' < 2 ^ 64.
Proof. intros H. rewrite (rel_count _ _ _ H). apply u64_range. Qed.

Lemma release_entry_spec bp bs e s :
  entry_ok e → 0 ≤ free_pages s < 2 ^ 64 →
  released s (release_entry bp bs s e) (entry_pages bp bs e).
Proof.
  intros (Hb & Hl & Hbm & Hlm & Hmax) Hc. unfold release_entry, entry_pages.
  destruct (_ =? _); [|by apply released_nil].
  assert (Eb : base e = base e / PAGE_SIZE * PAGE_SIZE) by (unfold PAGE_SIZE in *; div_mod).
  assert (El : length_ e = length_ e / PAGE_SIZE * PAGE_SIZE) by (unfold PAGE_SIZE in *; div_mod).
  assert (Hp : 0 ≤ length_ e / PAGE_SIZE) by (apply Z.div_pos; done).
  assert (Hp' : 0 ≤ base e / PAGE_SIZE) by (apply Z.div_pos; done).
  rewrite u64_small by lia. rewrite Eb at 1.
  pose proof (release_pages_spec (Z.to_nat (length_ e / PAGE_SIZE + 1)) bp bs s
    (base e / PAGE_SIZE) (base e + length_ e)) as H.
  rewrite Z2Nat.id, Z.add_simpl_r in H by lia. apply H; [done..| |done].
  rewrite Eb at 1. rewrite El at 1. lia.
Qed.

Lemma release_entries_spec bp bs entries s :
  Forall entry_ok entries → 0 ≤ free_pages s < 2 ^ 64 →
  released s (fold_left (release_entry bp bs) entries s)
    (concat (entry_pages bp bs <$> entries)).
Proof.
  intros He. revert s. induction He as [|e es Hok He IH]; intros s Hc.
  { by apply released_nil. }
  simpl. pose proof (release_entry_spec bp bs e s Hok Hc) as H1.
  eapply released_app; [done|]. apply IH. by eapply released_range.
Qed.

Lemma fill_ff_spec k i virt m x :
  fill_ff k i virt m x =
    if (virt + i <=? x) && (x <? virt + i + Z.of_nat k) then 255 else m x.
Proof.
  revert i m. induction k as [|k IH]; intros i m.
  { simpl. repeat zcase; simpl; try done; lia. }
  cbn [fill_ff]. rewrite IH. unfold store8. repeat zcase; simpl; try done; lia.
Qed.

Lemma bitmap_size_nonneg pages : 0 ≤ pages → 0 ≤ bitmap_size_of pages.
Proof.
  intros H. unfold bitmap_size_of, PAGE_SIZE. change (4096 - 1) with (2 ^ 12 - 1).
  rewrite land_lnot_pow2 by lia. pose proof (Z.div_pos pages 8).
  pose proof (Z.mod_le (pages / 8 + 4096 - 1) (2 ^ 12)). lia.
Qed.

Lemma highest_addr_nonneg entries : 0 ≤ highest_addr entries.
Proof.
  unfold highest_addr. cut (∀ h, 0 ≤ h → 0 ≤ fold_left (λ h e,
    let top := u64 (base e + length_ e) in if h <? top then top else h) entries h); [auto with lia|].
  induction entries as [|e es IH]; intros h Hh; simpl; [done|].
  apply IH. pose proof (u64_range (base e + length_ e)). zcase; lia.
Qed.

(** what pmm::init leaves in the bitmap, bit by bit. The pages of the
    usable entries outside the bitmap are free. Any other page is in use if its
    bit lies in the first [bitmap_size / 8] bytes, the part the code fills with
    ones, and otherwise keeps the value the memory happened to hold. *)
Theorem pmm_init_bits (entries : list memmap_entry) (m : ram)
    (Hok : Forall entry_ok entries)
    (Hbm : find_bitmap (bitmap_size_of (highest_addr entries / PAGE_SIZE)) entries ≠ 0) :
  let total := highest_addr entries / PAGE_SIZE in
  let bs := bitmap_size_of total in
  let bp := find_bitmap bs entries in
  let usable := concat (entry_pages bp bs <$> entries) in
  ∃ s, pmm_init entries m = Ret s ∧ total_pages s = total ∧ bitmap s = bp ∧
       free_pages s = u64 (Z.of_nat (length usable)) ∧
       ∀ p, 0 ≤ p →
         bitmap_get s p =
           bool_decide (p ∉ usable) &&
           ((p / 8 <? bs / 8) || Z.testbit (m (phys_to_virt bp + p / 8)) (p mod 8)).
Proof.
  intros total bs bp usable. unfold pmm_init. fold total bs bp.
  rewrite (proj2 (Z.eqb_neq bp 0)) by done.
  set (m1 := fill_ff (Z.to_nat (bs / 8)) 0 (phys_to_virt bp) m).
  pose proof (release_entries_spec bp bs entries (Machine m1 bp total 0) Hok ltac:(simpl; lia)) as H.
  eexists; split; [done|]. split; [apply H|]. split; [apply H|].
  split; [rewrite (rel_count _ _ _ H); simpl; done|].
  intros p Hp. rewrite (rel_bits _ _ _ H) by done. rewrite andb_comm. f_equal.
  rewrite bitmap_get_testbit by done. unfold bitmap_byte. simpl. subst m1.
  rewrite fill_ff_spec. assert (Hbs : 0 ≤ bs).
  { apply bitmap_size_nonneg. apply Z.div_pos; [apply highest_addr_nonneg|done]. }
  pose proof (Z.div_pos bs 8). pose proof (Z.div_pos p 8). pose proof (Z.mod_pos_bound p 8).
  rewrite Z2Nat.id, Z.add_0_r by lia.
  destruct (Z.ltb_spec (p / 8) (bs / 8)); simpl.
  - rewrite (proj2 (Z.leb_le _ _)), (proj2 (Z.ltb_lt _ _)) by lia. simpl.
    change 255 with (Z.ones 8). apply Z.ones_spec_low. lia.
  - by rewrite (proj2 (Z.ltb_ge (_ + p / 8) _)), andb_false_r by lia.
Qed.

End Pmm.

(** ** Witnesses *)

(** A machine with 16 pages of which 3, 5, 6 and 7 are free. *)
Definition sample_machine : machine :=
  Machine (λ a, if a =? 100 then 23 else 255) 100 16 4.

Lemma sample_machine_inv : pmm_inv 0 sample_machine.
Proof.
  split; [vm_compute; reflexivity|simpl; lia|].
  apply (bool_decide_unpack _). vm_compute. exact I.
Qed.

Lemma allocPages_freePages_roundtrip_witness :
  let '(p, s1) := allocPages 0 2 sample_machine in
  p ≠ 0 →
  let s2 := freePages 0 p 2 s1 in
  (∃ n, p = n * PAGE_SIZE ∧ free_run 0 sample_machine n 2 ∧
        (∀ q, free_run 0 sample_machine q 2 → n ≤ q) ∧ page_range n 2 ## free_set 0 s1) ∧
  only_bitmap 0 sample_machine s1 ∧ free_set 0 s2 = free_set 0 sample_machine ∧
  free_pages s2 = free_pages sample_machine ∧
  free_set 0 (freePages 0 p 2 s2) = free_set 0 s2 ∧
  free_pages (freePages 0 p 2 s2) = free_pages s2.
Proof. apply (allocPages_freePages_roundtrip 0 sample_machine 2); [apply sample_machine_inv|lia]. Defined.

Lemma allocPages_sample : (allocPages 0 2 sample_machine).1 = 5 * PAGE_SIZE.
Proof. reflexivity. Qed.

(** A memory map of 32 MiB with two usable pages, [1, 2]. *)
Definition sample_map : list memmap_entry :=
  [MemmapEntry 4096 8192 0; MemmapEntry (8191 * 4096) 4096 1].

Lemma pmm_init_bits_witness :
  let total := highest_addr sample_map / PAGE_SIZE in
  let bs := bitmap_size_of total in
  let bp := find_bitmap bs sample_map in
  let usable := concat (entry_pages bp bs <$> sample_map) in
  ∃ s, pmm_init 0 sample_map (λ _, 0) = Ret s ∧ total_pages s = total ∧ bitmap s = bp ∧
       free_pages s = u64 (Z.of_nat (length usable)) ∧
       ∀ p, 0 ≤ p →
         bitmap_get 0 s p =
           bool_decide (p ∉ usable) &&
           ((p / 8 <? bs / 8) || Z.testbit ((λ _, 0) (phys_to_virt 0 bp + p / 8)) (p mod 8)).
Proof.
  apply pmm_init_bits; [|done].
  repeat constructor; simpl; lia || (vm_compute; done).
Defined.

(** The first two pages handed out after boot. *)
Definition first_two_pages (entries : list memmap_entry) (m : ram) : outcome (Z * Z) :=
  s0 ← pmm_init 0 entries m;
  let '(p1, s1) := allocPage 0 s0 in
  Ret (p1, (allocPage 0 s1).1).

