(* ===== verification/Kallsyms.v ===== *)
(** * Kernel symbol lookup: kallsyms/kallsyms.cpp

    The table is generated at build time (nm -n), so it is a parameter: a
    list of symbols sorted by address. [kallsyms_lookup] is the binary
    search of the source; the specification is the linear scan for the last
    symbol at or below the address. *)

From S2P Require Import Prelude.

Record KSym := { addr : Z; name : list Z }.

Section Kallsyms.
(** kallsyms_syms *)
Context (syms : list KSym).

Definition kallsyms_syms_count : Z := Z.of_nat (length syms).

(** The while loop: [inl sym] when an exact match returns, [inr left] when
    the interval is empty. *)
Fixpoint search (fuel : nat) (left right a : Z) : outcome (KSym + Z) :=
  match fuel with
  | O => Diverge
  | S f =>
      if left <? right then
        let mid := left + (right - left) / 2 in
        match syms !! Z.to_nat mid with
        | None => Fault
        | Some sym =>
            if addr sym =? a then Ret (inl sym)
            else if addr sym <? a then search f (mid + 1) right a
            else search f left mid a
        end
      else Ret (inr left)
  end.

(** The out parameters [name] and [offset] of a successful lookup. *)
Definition kallsyms_lookup (a : Z) : outcome (option (list Z * Z)) :=
  if kallsyms_syms_count =? 0 then Ret None else
  r ← search (S (length syms)) 0 kallsyms_syms_count a;
  match r with
  | inl sym => Ret (Some (name sym, 0))
  | inr l =>
      if 0 <? l then
        match syms !! Z.to_nat (l - 1) with
        | None => Fault
        | Some sym =>
            if addr sym <=? a then Ret (Some (name sym, u64 (a - addr sym)))
            else Ret None
        end
      else Ret None
  end.

(** [nm -n] sorts by address. *)
Definition sorted_table : Prop :=
  ∀ (i j : nat) si sj, (i ≤ j)%nat → syms !! i = Some si → syms !! j = Some sj → addr si ≤ addr sj.

(** Everything left of [left] is below the address, everything from [right]
    on is above it. *)
Definition bracketed (left right a : Z) : Prop :=
  0 ≤ left ≤ right ∧ right ≤ kallsyms_syms_count ∧
  (∀ (i : nat) s, syms !! i = Some s → Z.of_nat i < left → addr s < a) ∧
  (∀ (i : nat) s, syms !! i = Some s → right ≤ Z.of_nat i → a < addr s).

Lemma search_spec fuel left right a :
  sorted_table → bracketed left right a → right - left < Z.of_nat fuel →
  ∃ r, search fuel left right a = Ret r ∧
       match r with
       | inl sym => sym ∈ syms ∧ addr sym = a
       | inr l => bracketed l l a
       end.
Proof.
  intros Hs. revert left right.
  induction fuel as [|f IH]; intros left right (Hlr & Hr & Hlo & Hhi) Hf; [lia|]. cbn [search].
  destruct (Z.ltb_spec left right) as [Hlt|Hge].
  2: { assert (left = right) as -> by lia. eexists; split; [done|]. simpl.
       split; [lia|]. split; [lia|]. by split. }
  set (mid := left + (right - left) / 2).
  assert (Hmid : left ≤ mid < right) by (subst mid; div_mod).
  destruct (lookup_lt_is_Some_2 syms (Z.to_nat mid)) as [sym Hsym].
  { unfold kallsyms_syms_count in Hr. lia. }
  rewrite Hsym. destruct (Z.eqb_spec (addr sym) a) as [E|E].
  { eexists; split; [done|]. split; [by apply list_elem_of_lookup_2 in Hsym|done]. }
  destruct (Z.ltb_spec (addr sym) a).
  - apply IH; [|lia]. repeat split; try lia; [|done]. intros i s Hi Hlt'.
    assert (addr s ≤ addr sym) by (eapply (Hs i (Z.to_nat mid)); [lia|done..]). lia.
  - apply IH; [|lia]. repeat split; try lia; [done|]. intros i s Hi Hge.
    assert (addr sym ≤ addr s) by (eapply (Hs (Z.to_nat mid) i); [lia|done..]). lia.
Qed.

Lemma kallsyms_lookup_spec (a : Z)
    (Hs : sorted_table) (Ha : 0 ≤ a < 2 ^ 64)
    (Hpos : ∀ s, s ∈ syms → 0 ≤ addr s < 2 ^ 64) :
  ∃ r, kallsyms_lookup a = Ret r ∧
       match r with
       | Some (n, off) =>
           ∃ s, s ∈ syms ∧ name s = n ∧ addr s + off = a ∧ 0 ≤ off ∧
                ∀ s', s' ∈ syms → addr s' ≤ a → addr s' ≤ addr s
       | None => ∀ s, s ∈ syms → a < addr s
       end.
Proof.
  unfold kallsyms_lookup. destruct (Z.eqb_spec kallsyms_syms_count 0) as [E|E].
  { exists None. split; [done|]. unfold kallsyms_syms_count in E.
    destruct syms; [set_solver|simpl in E; lia]. }
  destruct (search_spec (S (length syms)) 0 kallsyms_syms_count a) as (r & -> & Hr); [done| |unfold kallsyms_syms_count; lia|].
  { unfold bracketed, kallsyms_syms_count. repeat split; try lia.
    intros i s Hi%lookup_lt_Some Hge. lia. }
  destruct r as [sym|l]; simpl.
  - destruct Hr as [Hin <-]. eexists; split; [done|]. simpl.
    exists sym. split; [done|]. split; [done|]. split; [lia|]. split; [lia|done].
  - destruct Hr as ((Hl0 & _) & Hlc & Hlo & Hhi).
    destruct (Z.ltb_spec 0 l).
    + destruct (lookup_lt_is_Some_2 syms (Z.to_nat (l - 1))) as [sym Hsym].
      { unfold kallsyms_syms_count in Hlc. lia. }
      rewrite Hsym. assert (Hlt : addr sym < a) by (eapply Hlo; [done|lia]).
      rewrite (proj2 (Z.leb_le _ _)) by lia. eexists; split; [done|]. simpl.
      assert (Hin : sym ∈ syms) by (by eapply list_elem_of_lookup_2).
      pose proof (Hpos _ Hin). rewrite u64_small by lia.
      exists sym. split; [done|]. split; [done|]. split; [lia|]. split; [lia|].
      intros s' Hs' Hle. apply list_elem_of_lookup in Hs' as [i Hi].
      destruct (decide (l ≤ Z.of_nat i)); [specialize (Hhi i s' Hi); lia|].
      eapply (Hs i (Z.to_nat (l - 1))); [lia|done..].
    + exists None. split; [done|]. intros s [i Hi]%list_elem_of_lookup. eapply Hhi; [done|lia].
Qed.

(** C34: on a sorted table the binary search terminates without leaving the
    table and answers with a symbol of the greatest address not above the one
    looked up, and the offset to it; it fails only below the first symbol. *)
Theorem kallsyms_lookup_correct (a : Z)
    (Hs : sorted_table) (Ha : 0 ≤ a < 2 ^ 64)
    (Hpos : ∀ s, s ∈ syms → 0 ≤ addr s < 2 ^ 64) :
  ∃ r, kallsyms_lookup a = Ret r ∧
       match r with
       | Some (n, off) =>
           ∃ s, s ∈ syms ∧ name s = n ∧ addr s + off = a ∧ 0 ≤ off ∧
                ∀ s', s' ∈ syms → addr s' ≤ a → addr s' ≤ addr s
       | None => ∀ s, s ∈ syms → a < addr s
       end.
Proof. by apply kallsyms_lookup_spec. Qed.

End Kallsyms.

Definition sample_syms : list KSym :=
  [{| addr := 16; name := [97] |}; {| addr := 32; name := [98] |}; {| addr := 64; name := [99] |}].

Lemma kallsyms_lookup_correct_witness :
  ∃ r, kallsyms_lookup sample_syms 40 = Ret r ∧
       match r with
       | Some (n, off) =>
           ∃ s, s ∈ sample_syms ∧ name s = n ∧ addr s + off = 40 ∧ 0 ≤ off ∧
                ∀ s', s' ∈ sample_syms → addr s' ≤ 40 → addr s' ≤ addr s
       | None => ∀ s, s ∈ sample_syms → 40 < addr s
       end.
Proof.
  apply kallsyms_lookup_correct; [|lia|].
  - intros [|[|[|i]]] [|[|[|j]]] si sj Hij Hi Hj; simpl in *; simplify_eq; simpl; lia.
  - intros s Hs. unfold sample_syms in Hs. set_unfold.
    destruct Hs as [->|[->|[->|[]]]]; simpl; lia.
Defined.

Example kallsyms_sample : kallsyms_lookup sample_syms 40 = Ret (Some ([98], 8)).
Proof. reflexivity. Qed.
