(* ===== verification/Keyboard.v ===== *)
(** * PS/2 keyboard: src/ps2_keyboard.cpp, include/ps2_keyboard.h

    The scan-code decoder is a state machine fed one byte per interrupt;
    decoded events go through a ring buffer of 64 slots to the reader. The
    state is the file's static variables. The controller handshake of
    [ps2::init] runs against a device given by what its ports answer. *)

From S2P Require Import Prelude.

Record KeyEvent := {
  scancode : Z; ascii : Z; pressed : bool;
  shift : bool; ctrl : bool; alt : bool; caps_lock : bool
}.
Definition no_event : KeyEvent :=
  {| scancode := 0; ascii := 0; pressed := false;
     shift := false; ctrl := false; alt := false; caps_lock := false |}.

#[export] Instance KeyEvent_eq_dec : EqDecision KeyEvent.
Proof. solve_decision. Defined.

Inductive DecoderState := NORMAL | GOT_E0 | GOT_F0 | GOT_E0_F0.
#[export] Instance DecoderState_eq_dec : EqDecision DecoderState.
Proof. solve_decision. Defined.

Definition KEY_BUF_SIZE : Z := 64.

Record kbd := Kbd {
  s_shift : bool; s_ctrl : bool; s_alt : bool; s_caps_lock : bool;
  s_key_buf : list KeyEvent; s_head : Z; s_tail : Z;
  s_state : DecoderState
}.

Definition kbd_boot : kbd :=
  Kbd false false false false (replicate 64 no_event) 0 0 NORMAL.

(** ** Translation of scan code set 2 *)

Definition sc2_ascii : list Z :=
  [ (* 0x00 *) 0;   0;   0;   0;   0;   0;   0;   0;
    (* 0x08 *) 0;   0;   0;   0;   0;   9;  96;   0;
    (* 0x10 *) 0;   0;   0;   0;   0; 113;  49;   0;
    (* 0x18 *) 0;   0; 122; 115;  97; 119;  50;   0;
    (* 0x20 *) 0;  99; 120; 100; 101;  52;  51;   0;
    (* 0x28 *) 0;  32; 118; 102; 116; 114;  53;   0;
    (* 0x30 *) 0; 110;  98; 104; 103; 121;  54;   0;
    (* 0x38 *) 0;   0; 109; 106; 117;  55;  56;   0;
    (* 0x40 *) 0;  44; 107; 105; 111;  48;  57;   0;
    (* 0x48 *) 0;  46;  47; 108;  59; 112;  45;   0;
    (* 0x50 *) 0;   0;  39;   0;  91;  61;   0;   0;
    (* 0x58 *) 0;   0;  10;  93;   0;  92;   0;   0;
    (* 0x60 *) 0;   0;   0;   0;   0;   0;   8;   0;
    (* 0x68 *) 0;   0;   0;   0;   0;   0;   0;   0;
    (* 0x70 *) 48; 46;  50;  53;  54;  56;   0;   0;
    (* 0x78 *) 0;  43;  51;  45;  42;  57;   0;   0 ].

(** The shifted character of a non-letter key. *)
Definition shifted (c : Z) : Z :=
  if c =? 49 then 33 else if c =? 50 then 64 else if c =? 51 then 35
  else if c =? 52 then 36 else if c =? 53 then 37 else if c =? 54 then 94
  else if c =? 55 then 38 else if c =? 56 then 42 else if c =? 57 then 40
  else if c =? 48 then 41 else if c =? 45 then 95 else if c =? 61 then 43
  else if c =? 91 then 123 else if c =? 93 then 125 else if c =? 92 then 124
  else if c =? 59 then 58 else if c =? 39 then 34 else if c =? 44 then 60
  else if c =? 46 then 62 else if c =? 47 then 63 else if c =? 96 then 126
  else c.

Definition translate (sc : Z) (sh caps : bool) : Z :=
  match sc2_ascii !! Z.to_nat sc with
  | None => 0
  | Some c =>
      if c =? 0 then 0
      else if (97 <=? c) && (c <=? 122) then (if xorb sh caps then c - 32 else c)
      else if sh then shifted c
      else c
  end.

(** ** Ring buffer *)

Definition push_event (ev : KeyEvent) (s : kbd) : kbd :=
  let next := (s_head s + 1) mod KEY_BUF_SIZE in
  if next =? s_tail s then s
  else Kbd (s_shift s) (s_ctrl s) (s_alt s) (s_caps_lock s)
           (<[Z.to_nat (s_head s) := ev]> (s_key_buf s)) next (s_tail s) (s_state s).

Definition poll (s : kbd) : option KeyEvent * kbd :=
  if s_head s =? s_tail s then (None, s)
  else (s_key_buf s !! Z.to_nat (s_tail s),
        Kbd (s_shift s) (s_ctrl s) (s_alt s) (s_caps_lock s) (s_key_buf s)
            (s_head s) ((s_tail s + 1) mod KEY_BUF_SIZE) (s_state s)).

(** ** Decoder *)

Definition set_state (st : DecoderState) (s : kbd) : kbd :=
  Kbd (s_shift s) (s_ctrl s) (s_alt s) (s_caps_lock s) (s_key_buf s) (s_head s) (s_tail s) st.
Definition set_mods (sh ct al ca : bool) (s : kbd) : kbd :=
  Kbd sh ct al ca (s_key_buf s) (s_head s) (s_tail s) (s_state s).

(** The modifier switches. *)
Definition update_mods (sc : Z) (is_pressed : bool) (s : kbd) : kbd :=
  let base_sc := u8 (Z.land sc 255) in
  let is_extended := negb (Z.land sc 57344 =? 0) in
  if negb is_extended then
    if base_sc =? 18 then set_mods is_pressed (s_ctrl s) (s_alt s) (s_caps_lock s) s
    else if base_sc =? 89 then set_mods is_pressed (s_ctrl s) (s_alt s) (s_caps_lock s) s
    else if base_sc =? 20 then set_mods (s_shift s) is_pressed (s_alt s) (s_caps_lock s) s
    else if base_sc =? 17 then set_mods (s_shift s) (s_ctrl s) is_pressed (s_caps_lock s) s
    else if base_sc =? 88 then
      if is_pressed then set_mods (s_shift s) (s_ctrl s) (s_alt s) (negb (s_caps_lock s)) s else s
    else s
  else
    if base_sc =? 17 then set_mods (s_shift s) (s_ctrl s) is_pressed (s_caps_lock s) s
    else if base_sc =? 20 then set_mods (s_shift s) is_pressed (s_alt s) (s_caps_lock s) s
    else s.

Definition event_of (sc : Z) (is_pressed : bool) (s : kbd) : KeyEvent :=
  {| scancode := sc; pressed := is_pressed;
     shift := s_shift s; ctrl := s_ctrl s; alt := s_alt s; caps_lock := s_caps_lock s;
     ascii := if is_pressed then translate (u8 (Z.land sc 255)) (s_shift s) (s_caps_lock s) else 0 |}.

(** The second half of decode_and_push: a complete scan code. *)
Definition finish (sc : Z) (is_pressed : bool) (s : kbd) : kbd :=
  let s1 := update_mods sc is_pressed s in push_event (event_of sc is_pressed s1) s1.

Definition decode_and_push (raw : Z) (s : kbd) : kbd :=
  match s_state s with
  | NORMAL =>
      if raw =? 224 then set_state GOT_E0 s
      else if raw =? 240 then set_state GOT_F0 s
      else finish raw true s
  | GOT_E0 =>
      if raw =? 240 then set_state GOT_E0_F0 s
      else finish (Z.lor 57344 raw) true (set_state NORMAL s)
  | GOT_F0 => finish raw false (set_state NORMAL s)
  | GOT_E0_F0 => finish (Z.lor 57344 raw) false (set_state NORMAL s)
  end.

(** ** Controller handshake

    [inb] of the status and of the data port answer from two streams; [outb]
    is logged as (port, value). *)

Record ports := Ports { status_in : list Z; data_in : list Z; out_log : list (Z * Z) }.

Definition DATA_PORT : Z := 96.
Definition CMD_PORT : Z := 100.
Definition STATUS_OUTPUT_FULL : Z := 1.
Definition STATUS_INPUT_FULL : Z := 2.
Definition KBD_CMD_ACK : Z := 250.

Definition inb_status : K ports Z := λ p,
  match status_in p with
  | [] => Diverge
  | x :: xs => Ret (x, Ports xs (data_in p) (out_log p))
  end.
Definition inb_data : K ports Z := λ p,
  match data_in p with
  | [] => Diverge
  | x :: xs => Ret (x, Ports (status_in p) xs (out_log p))
  end.
Definition outb (port v : Z) : K ports unit := λ p,
  Ret (tt, Ports (status_in p) (data_in p) (out_log p ++ [(port, v)])).

(** Polling loops; the number of status reads left bounds the iterations. *)
Fixpoint wait_input_clear_loop (fuel : nat) : K ports unit :=
  match fuel with
  | O => k_diverge
  | S f => st ← inb_status;
           if Z.land st STATUS_INPUT_FULL =? 0 then mret tt else wait_input_clear_loop f
  end.
Definition wait_input_clear : K ports unit :=
  λ p, wait_input_clear_loop (S (length (status_in p))) p.

Fixpoint wait_output_full_loop (fuel : nat) : K ports unit :=
  match fuel with
  | O => k_diverge
  | S f => st ← inb_status;
           if Z.land st STATUS_OUTPUT_FULL =? 0 then wait_output_full_loop f else mret tt
  end.
Definition wait_output_full : K ports unit :=
  λ p, wait_output_full_loop (S (length (status_in p))) p.

Fixpoint flush_loop (fuel : nat) : K ports unit :=
  match fuel with
  | O => k_diverge
  | S f => st ← inb_status;
           if Z.land st STATUS_OUTPUT_FULL =? 0 then mret tt
           else _ ← inb_data; flush_loop f
  end.
Definition flush : K ports unit := λ p, flush_loop (S (length (status_in p))) p.

Definition read_data : K ports Z := wait_output_full ≫= λ _, inb_data.
Definition write_cmd (cmd : Z) : K ports unit := wait_input_clear ≫= λ _, outb CMD_PORT cmd.
Definition write_data (d : Z) : K ports unit := wait_input_clear ≫= λ _, outb DATA_PORT d.

Definition ps2_init : K ports bool :=
  write_cmd 173 ≫= λ _,
  write_cmd 167 ≫= λ _,
  flush ≫= λ _,
  write_cmd 32 ≫= λ _,
  cfg ← read_data;
  let cfg := Z.lor cfg 1 in
  let cfg := u8 (Z.land cfg (Z.lnot 64)) in
  write_cmd 96 ≫= λ _,
  write_data cfg ≫= λ _,
  write_cmd 174 ≫= λ _,
  write_data 240 ≫= λ _,
  a1 ← read_data;
  if negb (a1 =? KBD_CMD_ACK) then mret false else
  write_data 2 ≫= λ _,
  a2 ← read_data;
  if negb (a2 =? KBD_CMD_ACK) then mret false else
  write_data 255 ≫= λ _,
  ack ← read_data;
  if negb (ack =? KBD_CMD_ACK) then mret false else
  bat ← read_data;
  if negb (bat =? 170) then mret false else
  mret true.

(** ** The ring buffer is a bounded queue *)

Record kbd_ok (s : kbd) : Prop := {
  ok_buf : length (s_key_buf s) = 64%nat;
  ok_head : 0 ≤ s_head s < KEY_BUF_SIZE;
  ok_tail : 0 ≤ s_tail s < KEY_BUF_SIZE
}.

(** The queued events, oldest first. *)
Definition slot (s : kbd) (i : Z) : KeyEvent :=
  default no_event (s_key_buf s !! Z.to_nat ((s_tail s + i) mod KEY_BUF_SIZE)).
Definition queue_len (s : kbd) : Z := (s_head s - s_tail s) mod KEY_BUF_SIZE.
Definition queue (s : kbd) : list KeyEvent := slot s <$> seqZ 0 (queue_len s).

Lemma queue_len_range s : 0 ≤ queue_len s < KEY_BUF_SIZE.
Proof. apply Z.mod_pos_bound. done. Qed.
Lemma length_queue s : Z.of_nat (length (queue s)) = queue_len s.
Proof.
  unfold queue. rewrite length_fmap, length_seqZ. pose proof (queue_len_range s). lia.
Qed.

Lemma push_event_ok ev s : kbd_ok s → kbd_ok (push_event ev s).
Proof.
  intros [Hb Hh Ht]. unfold push_event. destruct (_ =? _); [done|].
  split; simpl; [by rewrite length_insert|apply Z.mod_pos_bound; done|done].
Qed.

Lemma ring_full s :
  kbd_ok s → ((s_head s + 1) mod KEY_BUF_SIZE =? s_tail s) = (queue_len s =? KEY_BUF_SIZE - 1).
Proof. intros [_ Hh Ht]. unfold queue_len, KEY_BUF_SIZE in *. repeat zcase; div_mod. Qed.

(** Pushing appends unless 63 events are queued, then the event is dropped. *)
Lemma queue_push ev s :
  kbd_ok s →
  queue (push_event ev s) =
    if queue_len s =? KEY_BUF_SIZE - 1 then queue s else queue s ++ [ev].
Proof.
  intros Hok. pose proof Hok as [Hb Hh Ht]. unfold push_event.
  rewrite ring_full by done. destruct (Z.eqb_spec (queue_len s) (KEY_BUF_SIZE - 1)) as [|Hnf]; [done|].
  pose proof (queue_len_range s) as Hl.
  set (s' := Kbd _ _ _ _ _ _ _ _).
  assert (El : queue_len s' = queue_len s + 1).
  { unfold queue_len, KEY_BUF_SIZE in *. simpl. div_mod. }
  unfold queue. rewrite El, seqZ_app by lia. rewrite fmap_app. f_equal.
  - apply list_fmap_ext. intros i x Hx%lookup_seqZ. unfold slot. simpl.
    rewrite list_lookup_insert_ne; [done|]. unfold queue_len, KEY_BUF_SIZE in *. div_mod.
  - rewrite Z.add_0_l. change (seqZ (queue_len s) 1) with [0 + queue_len s].
    rewrite Z.add_0_l. cbn [fmap list_fmap]. unfold slot. cbn [s_tail s_key_buf s'].
    assert (Eh : (s_tail s + queue_len s) mod KEY_BUF_SIZE = s_head s)
      by (unfold queue_len, KEY_BUF_SIZE in *; div_mod).
    rewrite Eh, list_lookup_insert_eq; [done|]. unfold KEY_BUF_SIZE in *. lia.
Qed.

Lemma poll_spec s :
  kbd_ok s →
  kbd_ok (poll s).2 ∧
  match queue s with
  | [] => poll s = (None, s)
  | ev :: evs => (poll s).1 = Some ev ∧ queue (poll s).2 = evs
  end.
Proof.
  intros Hok. pose proof Hok as [Hb Hh Ht]. unfold poll.
  pose proof (queue_len_range s) as Hl.
  destruct (Z.eqb_spec (s_head s) (s_tail s)) as [E|E].
  { split; [done|]. unfold queue, queue_len. by rewrite E, Z.sub_diag. }
  assert (Hne : queue_len s ≠ 0) by (unfold queue_len, KEY_BUF_SIZE in *; div_mod).
  split; [split; simpl; [done..|apply Z.mod_pos_bound; done]|].
  unfold queue at 1. rewrite seqZ_cons by lia. simpl. unfold slot at 1.
  rewrite Z.add_0_r, Z.mod_small by lia.
  destruct (lookup_lt_is_Some_2 (s_key_buf s) (Z.to_nat (s_tail s))) as [ev Hev].
  { unfold KEY_BUF_SIZE in *. lia. }
  rewrite Hev. split; [done|].
  set (s' := Kbd _ _ _ _ _ _ _ _).
  assert (El : queue_len s' = queue_len s - 1).
  { unfold queue_len, KEY_BUF_SIZE in *. simpl. div_mod. }
  unfold queue. rewrite El. change (Z.succ 0) with 1.
  replace (Z.pred (queue_len s)) with (queue_len s - 1) by lia.
  apply list_eq. intros i. rewrite !list_lookup_fmap.
  destruct (decide (Z.of_nat i < queue_len s - 1)).
  - rewrite !lookup_seqZ_lt by lia. simpl. f_equal. unfold slot. simpl. do 3 f_equal.
    unfold KEY_BUF_SIZE in *. rewrite Zplus_mod_idemp_l. f_equal. lia.
  - by rewrite !lookup_seqZ_ge by lia.
Qed.

(** C29: the ring buffer implements a queue of at most 63 key events: a push
    appends when there is room and drops the event when there is none, a poll
    removes the oldest event, and the buffer indices stay in range. *)
Theorem ring_refines_queue (s : kbd) (ev : KeyEvent) (Hok : kbd_ok s) :
  kbd_ok (push_event ev s) ∧ kbd_ok (poll s).2 ∧
  queue (push_event ev s) =
    (if (length (queue s) <? 63)%nat then queue s ++ [ev] else queue s) ∧
  (poll s).1 = head (queue s) ∧ queue (poll s).2 = tail (queue s).
Proof.
  destruct (poll_spec s Hok) as [Hok' Hp].
  split; [by apply push_event_ok|]. split; [done|]. split.
  - rewrite queue_push by done. pose proof (length_queue s). pose proof (queue_len_range s).
    unfold KEY_BUF_SIZE in *.
    destruct (Z.eqb_spec (queue_len s) (64 - 1)), (Nat.ltb_spec (length (queue s)) 63); done || lia.
  - destruct (queue s) eqn:E; [by rewrite Hp|done].
Qed.

Lemma ring_refines_queue_witness :
  kbd_ok (push_event no_event kbd_boot) ∧ kbd_ok (poll kbd_boot).2 ∧
  queue (push_event no_event kbd_boot) =
    (if (length (queue kbd_boot) <? 63)%nat then queue kbd_boot ++ [no_event] else queue kbd_boot) ∧
  (poll kbd_boot).1 = head (queue kbd_boot) ∧ queue (poll kbd_boot).2 = tail (queue kbd_boot).
Proof. apply ring_refines_queue. split; simpl; done. Defined.

(** ** The decoder inverts the scan code encoding *)

(** A key going down or up, as the keyboard reports it in scan code set 2. *)
Record action := { extended : bool; code : Z; down : bool }.
Definition action_ok (a : action) : Prop :=
  0 ≤ code a < 256 ∧ code a ≠ 240 ∧ code a ≠ 224.
Definition encode (a : action) : list Z :=
  (if extended a then [224] else []) ++ (if down a then [] else [240]) ++ [code a].
Definition action_scancode (a : action) : Z :=
  if extended a then Z.lor 57344 (code a) else code a.

Definition feed (bytes : list Z) (s : kbd) : kbd := fold_left (λ s b, decode_and_push b s) bytes s.

Lemma update_mods_frame sc p s :
  s_key_buf (update_mods sc p s) = s_key_buf s ∧ s_head (update_mods sc p s) = s_head s ∧
  s_tail (update_mods sc p s) = s_tail s ∧ s_state (update_mods sc p s) = s_state s.
Proof. unfold update_mods. repeat case_match; done. Qed.

Lemma update_mods_queue sc p s : queue (update_mods sc p s) = queue s.
Proof.
  destruct (update_mods_frame sc p s) as (Eb & Eh & Et & _).
  unfold queue, queue_len. rewrite Eh, Et. apply list_fmap_ext. intros. unfold slot. by rewrite Eb, Et.
Qed.

Lemma update_mods_ok sc p s : kbd_ok s → kbd_ok (update_mods sc p s).
Proof.
  intros [Hb Hh Ht]. destruct (update_mods_frame sc p s) as (Eb & Eh & Et & _).
  split; by rewrite ?Eb, ?Eh, ?Et.
Qed.

Lemma push_event_state ev s : s_state (push_event ev s) = s_state s.
Proof. unfold push_event. by case_match. Qed.

Lemma finish_ok sc p s : kbd_ok s → kbd_ok (finish sc p s).
Proof. intros H. by apply push_event_ok, update_mods_ok. Qed.
Lemma finish_state sc p s : s_state (finish sc p s) = s_state s.
Proof. unfold finish. rewrite push_event_state. apply update_mods_frame. Qed.

Lemma finish_queue sc p s :
  kbd_ok s → queue_len s < KEY_BUF_SIZE - 1 →
  queue (finish sc p s) = queue s ++ [event_of sc p (update_mods sc p s)].
Proof.
  intros Hok Hl. unfold finish. rewrite queue_push by (by apply update_mods_ok).
  rewrite update_mods_queue.
  assert (E : queue_len (update_mods sc p s) = queue_len s).
  { by rewrite <- !length_queue, update_mods_queue. }
  rewrite E, (proj2 (Z.eqb_neq _ _)) by lia. done.
Qed.

Lemma feed_app l1 l2 s : feed (l1 ++ l2) s = feed l2 (feed l1 s).
Proof. apply fold_left_app. Qed.

Lemma feed_encode a s :
  action_ok a → s_state s = NORMAL →
  feed (encode a) s = finish (action_scancode a) (down a) s.
Proof.
  intros (_ & Hf0%Z.eqb_neq & He0%Z.eqb_neq) Hs. destruct s; simpl in Hs; subst.
  destruct a as [[|] c [|]]; cbn [extended code down] in *;
    unfold encode, feed, action_scancode, decode_and_push;
    cbn [app fold_left s_state set_state extended code down];
    rewrite ?Z.eqb_refl, ?Hf0, ?He0; done.
Qed.


Definition sample_actions : list action :=
  [ {| extended := false; code := 18; down := true |};
    {| extended := false; code := 28; down := true |};
    {| extended := true; code := 20; down := false |} ].


(** Shift held, then [a]: the event carries an upper-case letter. *)
Example shift_a : ascii <$> queue (feed [18; 28] kbd_boot) = [0; 65].
Proof. reflexivity. Qed.

(** Whatever arrives, the buffer stays well formed and the decoder is idle
    again after at most three bytes. *)
Lemma decode_ok raw s : kbd_ok s → kbd_ok (decode_and_push raw s).
Proof.
  intros Hok. unfold decode_and_push.
  repeat case_match; try apply finish_ok; destruct Hok; split; done.
Qed.

(** The transition function of the decoder's states. *)
Definition next_state (st : DecoderState) (raw : Z) : DecoderState :=
  match st with
  | NORMAL => if raw =? 224 then GOT_E0 else if raw =? 240 then GOT_F0 else NORMAL
  | GOT_E0 => if raw =? 240 then GOT_E0_F0 else NORMAL
  | GOT_F0 | GOT_E0_F0 => NORMAL
  end.

Lemma decode_state raw s : s_state (decode_and_push raw s) = next_state (s_state s) raw.
Proof.
  unfold decode_and_push. destruct (s_state s) eqn:E; simpl;
    repeat case_match; rewrite ?finish_state; done.
Qed.

(** the decoder never gets stuck: from any state and for any bytes the
    buffer stays well formed, and one of the next three bytes completes a scan
    code (the decoder is idle after it). *)
Theorem decoder_resynchronises (s : kbd) (b1 b2 b3 : Z) (Hok : kbd_ok s) :
  let s1 := decode_and_push b1 s in
  let s2 := decode_and_push b2 s1 in
  let s3 := decode_and_push b3 s2 in
  kbd_ok s3 ∧ (s_state s1 = NORMAL ∨ s_state s2 = NORMAL ∨ s_state s3 = NORMAL).
Proof.
  intros s1 s2 s3. split; [by do 3 apply decode_ok|].
  subst s1 s2 s3. rewrite !decode_state.
  unfold next_state.
  destruct (s_state s), (b1 =? 224), (b1 =? 240), (b2 =? 240); auto.
Qed.

Lemma decoder_resynchronises_witness :
  let s1 := decode_and_push 224 kbd_boot in
  let s2 := decode_and_push 240 s1 in
  let s3 := decode_and_push 17 s2 in
  kbd_ok s3 ∧ (s_state s1 = NORMAL ∨ s_state s2 = NORMAL ∨ s_state s3 = NORMAL).
Proof. apply decoder_resynchronises. split; simpl; done. Defined.

(** The character table ignores the extended prefix: the up arrow (E0 75)
    types the digit 8, as the keypad key with the same code does. *)
Lemma up_arrow_types_digit : ascii <$> queue (feed [224; 117] kbd_boot) = [56].
Proof. reflexivity. Qed.

(** ** The handshake *)

(** A device that answers at once: what the status port returns on each poll
    when the controller is never busy and every reply is ready. *)
Definition prompt_status : list Z := [0; 0; 0; 0; 1; 0; 0; 0; 0; 1; 0; 1; 0; 1; 1].

(** Polling loops that see the awaited status at once. *)
Lemma wait_input_clear_ready st ss d o :
  Z.land st STATUS_INPUT_FULL = 0 →
  wait_input_clear (Ports (st :: ss) d o) = Ret (tt, Ports ss d o).
Proof. intros H. unfold wait_input_clear, mbind, K_bind, inb_status. cbn -[Z.land STATUS_INPUT_FULL].
  unfold mbind, K_bind, inb_status. cbn -[Z.land STATUS_INPUT_FULL]. by rewrite H. Qed.
Lemma wait_output_full_ready st ss d o :
  Z.land st STATUS_OUTPUT_FULL ≠ 0 →
  wait_output_full (Ports (st :: ss) d o) = Ret (tt, Ports ss d o).
Proof. intros H%Z.eqb_neq. unfold wait_output_full. cbn -[Z.land STATUS_OUTPUT_FULL Z.eqb].
  unfold mbind, K_bind, inb_status. cbn -[Z.land STATUS_OUTPUT_FULL Z.eqb]. by rewrite H. Qed.
Lemma flush_empty st ss d o :
  Z.land st STATUS_OUTPUT_FULL = 0 →
  flush (Ports (st :: ss) d o) = Ret (tt, Ports ss d o).
Proof. intros H. unfold flush. cbn -[Z.land STATUS_OUTPUT_FULL].
  unfold mbind, K_bind, inb_status. cbn -[Z.land STATUS_OUTPUT_FULL]. by rewrite H. Qed.

Lemma write_cmd_ready c st ss d o :
  Z.land st STATUS_INPUT_FULL = 0 →
  write_cmd c (Ports (st :: ss) d o) = Ret (tt, Ports ss d (o ++ [(CMD_PORT, c)])).
Proof. intros H. unfold write_cmd. by rewrite (K_bind_ret _ _ _ _ _ (wait_input_clear_ready _ _ _ _ H)). Qed.
Lemma write_data_ready c st ss d o :
  Z.land st STATUS_INPUT_FULL = 0 →
  write_data c (Ports (st :: ss) d o) = Ret (tt, Ports ss d (o ++ [(DATA_PORT, c)])).
Proof. intros H. unfold write_data. by rewrite (K_bind_ret _ _ _ _ _ (wait_input_clear_ready _ _ _ _ H)). Qed.
Lemma read_data_ready st ss x d o :
  Z.land st STATUS_OUTPUT_FULL ≠ 0 →
  read_data (Ports (st :: ss) (x :: d) o) = Ret (x, Ports ss d o).
Proof. intros H. unfold read_data. by rewrite (K_bind_ret _ _ _ _ _ (wait_output_full_ready _ _ _ _ H)). Qed.

Ltac io_step :=
  cbv beta zeta;
  first [ erewrite (K_bind_ret (write_cmd _)) by (apply write_cmd_ready; done)
        | erewrite (K_bind_ret (write_data _)) by (apply write_data_ready; done)
        | erewrite (K_bind_ret flush) by (apply flush_empty; done)
        | erewrite (K_bind_ret read_data) by (apply read_data_ready; done) ];
  cbv beta zeta.

(** against a device that answers at once, ps2::init succeeds exactly
    when the three commands are acknowledged and the self test passes; the
    bytes it sends are the documented sequence, cut at the first bad reply, and
    the configuration byte it writes back has the interrupt bit set and the
    translation bit cleared. *)
Theorem ps2_init_handshake (cfg a1 a2 a3 bat : Z) :
  let cfg' := u8 (Z.land (Z.lor cfg 1) (Z.lnot 64)) in
  let sent0 := [(100, 173); (100, 167); (100, 32); (100, 96); (96, cfg'); (100, 174); (96, 240)] in
  let sent :=
    if negb (a1 =? 250) then sent0
    else if negb (a2 =? 250) then sent0 ++ [(96, 2)]
    else sent0 ++ [(96, 2); (96, 255)] in
  (∃ p, ps2_init (Ports prompt_status [cfg; a1; a2; a3; bat] []) =
        Ret ((a1 =? 250) && (a2 =? 250) && (a3 =? 250) && (bat =? 170), p) ∧
        out_log p = sent) ∧
  Z.testbit cfg' 0 = true ∧ Z.testbit cfg' 6 = false.
Proof.
  cbn zeta. split.
  - unfold ps2_init, KBD_CMD_ACK, prompt_status. do 9 io_step. io_step.
    destruct (a1 =? 250); cbv [negb]; [|eexists; split; reflexivity]. do 2 io_step.
    destruct (a2 =? 250); cbv [negb]; [|eexists; split; reflexivity]. do 2 io_step.
    destruct (a3 =? 250); cbv [negb]; [|eexists; split; reflexivity]. io_step.
    destruct (bat =? 170); eexists; split; reflexivity.
  - rewrite !testbit_u8, !Z.land_spec, !Z.lor_spec, !Z.lnot_spec by lia. simpl.
    by rewrite orb_true_r, andb_false_r.
Qed.
