(* ===== verification/Errno.v ===== *)
(** * Error numbers and error pointers: include/syserrno.h, include/fs/vfs.h

    A function of the file system that returns a pointer reports an error by
    returning a small negative number in the pointer's place. *)

From S2P Require Import Prelude.

Definition EPERM : Z := 1.
Definition ENOENT : Z := 2.
Definition EIO : Z := 5.
Definition ENOMEM : Z := 12.
Definition EACCES : Z := 13.
Definition EEXIST : Z := 17.
Definition ENOTDIR : Z := 20.
Definition EISDIR : Z := 21.
Definition EINVAL : Z := 22.
Definition ENOSPC : Z := 28.
Definition ENAMETOOLONG : Z := 36.
Definition ENOSYS : Z := 38.
Definition MAX_ERRNO : Z := 4095.

(** reinterpret_cast of a long to a pointer, and back. *)
Definition ERR_PTR (error : Z) : Z := u64 error.
Definition PTR_ERR (ptr : Z) : Z := s64 ptr.
Definition IS_ERR_VALUE (x : Z) : bool := u64 (- MAX_ERRNO) <=? u64 x.
Definition IS_ERR (ptr : Z) : bool := IS_ERR_VALUE ptr.

Lemma u64_neg e : 0 < e ≤ MAX_ERRNO → u64 (- e) = 2 ^ 64 - e.
Proof.
  unfold MAX_ERRNO. intros H. unfold u64. symmetry. apply (Z.mod_unique _ _ (-1)); lia.
Qed.

Lemma IS_ERR_ERR_PTR e : 0 < e ≤ MAX_ERRNO → IS_ERR (ERR_PTR (- e)) = true.
Proof.
  intros H. unfold IS_ERR, IS_ERR_VALUE, ERR_PTR. apply Z.leb_le.
  rewrite !u64_neg by (unfold MAX_ERRNO in *; lia).
  rewrite u64_small by (unfold MAX_ERRNO in *; lia). lia.
Qed.

Lemma PTR_ERR_ERR_PTR e : 0 < e ≤ MAX_ERRNO → PTR_ERR (ERR_PTR (- e)) = - e.
Proof.
  intros H. unfold PTR_ERR, ERR_PTR, s64, to_signed. rewrite u64_neg by done.
  unfold MAX_ERRNO in *. rewrite Z.mod_small by lia.
  rewrite (proj2 (Z.ltb_ge _ _)) by lia. lia.
Qed.

(** The addresses of kernel objects: the upper half of the address space,
    below the error values. *)
Definition KERNEL_BASE : Z := 18446603336221196288. (* 0xFFFF800000000000 *)
Definition kernel_ptr (p : Z) : Prop := KERNEL_BASE ≤ p < 2 ^ 64 - MAX_ERRNO.

Lemma kernel_ptr_not_err p : kernel_ptr p → IS_ERR p = false.
Proof.
  unfold kernel_ptr, IS_ERR, IS_ERR_VALUE, MAX_ERRNO, KERNEL_BASE. intros H.
  apply Z.leb_gt. rewrite (u64_small p), u64_neg by (unfold MAX_ERRNO; lia). lia.
Qed.
Lemma kernel_ptr_nonnull p : kernel_ptr p → p ≠ 0.
Proof. unfold kernel_ptr, KERNEL_BASE. lia. Qed.
#[export] Hint Resolve kernel_ptr_nonnull : words.

(** error pointers: encoding an errno as a pointer is recognised by
    IS_ERR and decoded by PTR_ERR, and no kernel object is mistaken for one. *)
Theorem err_ptr_roundtrip (e p : Z) (He : 0 < e ≤ MAX_ERRNO) (Hp : kernel_ptr p) :
  IS_ERR (ERR_PTR (- e)) = true ∧ PTR_ERR (ERR_PTR (- e)) = - e ∧ IS_ERR p = false.
Proof.
  split; [by apply IS_ERR_ERR_PTR|]. split; [by apply PTR_ERR_ERR_PTR|].
  by apply kernel_ptr_not_err.
Qed.

Lemma err_ptr_roundtrip_witness :
  IS_ERR (ERR_PTR (- ENOENT)) = true ∧ PTR_ERR (ERR_PTR (- ENOENT)) = - ENOENT ∧
  IS_ERR KERNEL_BASE = false.
Proof.
  apply err_ptr_roundtrip; unfold ENOENT, MAX_ERRNO, kernel_ptr, KERNEL_BASE, MAX_ERRNO; lia.
Defined.
