(* ===== verification/Alloc.v ===== *)
(** * The object allocator as its clients see it

    The file systems and the loaders get memory from [slab::alloc] and give
    it back with [slab::free]. [Allocator] is that pair of operations;
    [AllocatorSpec] is the contract the clients' theorems are proved against.
    The contract is stated on the live blocks, a map from address to size. *)

From S2P Require Import Prelude Errno Mem Pmm.

Class Allocator (A : Type) := {
  (** null is 0 *)
  slab_alloc : Z → A → outcome (Z * A);
  slab_free : Z → Z → A → outcome A
}.

Class AllocatorSpec (A : Type) `{Allocator A} := {
  live : A → gmap Z Z → Prop;
  alloc_ok : ∀ a L n, live a L → 0 < n < 2 ^ 32 →
    ∃ p a', slab_alloc n a = Ret (p, a') ∧
      (p = 0 ∧ live a' L ∨
       kernel_ptr p ∧ L !! p = None ∧ live a' (<[p := n]> L));
  free_ok : ∀ a L p n, live a L → L !! p = Some n →
    ∃ a', slab_free p n a = Ret a' ∧ live a' (delete p L)
}.

(** The allocator's state contains the machine it takes its pages from. The
    loader and the page tables work on the same machine. *)
Class OnMachine (A : Type) := {
  machine_of : A → machine;
  set_machine : machine → A → A;
  machine_of_set : ∀ M a, machine_of (set_machine M a) = M;
  set_machine_of : ∀ a, set_machine (machine_of a) a = a;
  set_machine_set : ∀ M M' a, set_machine M (set_machine M' a) = set_machine M a
}.

(** A simple allocator that never reuses memory and fails after [cap]
    allocations: an inhabitant of the contract, used to run the models. *)
Record bump := Bump { cap : nat; used : nat }.

#[export] Instance bump_allocator : Allocator bump := {
  slab_alloc n b :=
    if (used b <? cap b)%nat then
      Ret (KERNEL_BASE + 4096 * Z.of_nat (used b), Bump (cap b) (S (used b)))
    else Ret (0, b);
  slab_free p n b := Ret b
}.

#[export] Program Instance bump_spec : AllocatorSpec bump := {
  live b L := Z.of_nat (cap b) ≤ 1000000 ∧
    ∀ p n, L !! p = Some n → p < KERNEL_BASE + 4096 * Z.of_nat (used b)
}.
Next Obligation.
  intros [c u] L n [Hc HL] Hn. simpl. destruct (Nat.ltb_spec u c).
  - eexists _, _. split; [done|]. right. simpl in *.
    split; [unfold kernel_ptr, KERNEL_BASE, MAX_ERRNO; lia|]. split.
    + destruct (L !! _) as [x|] eqn:E; [|done]. apply HL in E. lia.
    + split; [done|]. intros p m. rewrite lookup_insert_Some.
      intros [[<- _]|[_ Hp%HL]]; lia.
  - eexists _, _. split; [done|]. left. done.
Qed.
Next Obligation.
  intros b L p n [Hc HL] Hp. eexists; split; [done|]. split; [done|].
  intros q m Hq. rewrite lookup_delete_Some in Hq. by eapply HL, Hq.
Qed.

(** An allocator beside a machine that it does not use. *)
#[export] Instance beside_allocator {A} `{Allocator A} : Allocator (A * machine) := {
  slab_alloc n b := '(p, a) ← slab_alloc n b.1; Ret (p, (a, b.2));
  slab_free p n b := a ← slab_free p n b.1; Ret (a, b.2)
}.
#[export] Program Instance beside_machine {A} : OnMachine (A * machine) := {
  machine_of b := b.2;
  set_machine M b := (b.1, M)
}.
Solve All Obligations with by intros; destruct a.
#[export] Program Instance beside_spec {A} `{AllocatorSpec A} : AllocatorSpec (A * machine) := {
  live b := live b.1
}.
Next Obligation.
  intros A HA HS [a M] L n Hl Hn. destruct (alloc_ok a L n Hl Hn) as (p & a' & E & Hc). exists p, (a', M).
  cbn [slab_alloc beside_allocator fst]. by rewrite E.
Qed.
Next Obligation.
  intros A HA HS [a M] L p n Hl Hp. destruct (free_ok a L p n Hl Hp) as (a' & E & Hl'). exists (a', M).
  cbn [slab_free beside_allocator fst]. by rewrite E.
Qed.
