(* ===== verification/Vfs.v ===== *)
(** * Virtual file system: fs/vfs.cpp, include/fs/vfs.h

    Inodes, dentries, open files, superblocks and mounts are objects in
    typed stores keyed by their address; the code's pointers are addresses,
    0 is null and error pointers are the values of [ERR_PTR]. The dentry tree
    is the linked structure of the source: parent, first child and next
    sibling pointers, with reference counts. A file system plugs in through
    tables of operations ([InodeOps], [FileOps]); the tables are a parameter
    here, [Ramfs] gives the one of ramfs. Memory comes from an [Allocator]. *)

From S2P Require Import Prelude KString Errno Alloc.

Definition VFS_OK : Z := 0.
Definition VFS_ERR_NOENT : Z := -2.
Definition VFS_ERR_IO : Z := -5.
Definition VFS_ERR_NOMEM : Z := -12.
Definition VFS_ERR_NOTDIR : Z := -20.
Definition VFS_ERR_ISDIR : Z := -21.
Definition VFS_ERR_INVAL : Z := -22.

Definition O_RDONLY : Z := 0.
Definition O_WRONLY : Z := 1.
Definition O_RDWR : Z := 2.
Definition O_EXCL : Z := 8.
Definition O_CREAT : Z := 64.
Definition O_TRUNC : Z := 512.
Definition O_APPEND : Z := 1024.

Inductive FileType := Regular | Directory | CharDev | BlockDev.
#[export] Instance FileType_eq_dec : EqDecision FileType.
Proof. solve_decision. Defined.

Record Inode := MkInode {
  i_ino : Z; i_type : FileType; i_size : Z; i_ref_count : Z;
  i_sb : Z; i_ops : Z; i_f_ops : Z; i_private_data : Z
}.
Record Dentry := MkDentry {
  d_name : list Z; d_inode : Z; d_parent : Z; d_child : Z; d_sibling : Z; d_ref_count : Z
}.
Record File := MkFile {
  f_dentry : Z; f_offset : Z; f_flags : Z; f_ops : Z; f_ref_count : Z
}.
Record SuperBlock := MkSuperBlock {
  sb_magic : Z; sb_block_size : Z; sb_root : Z; sb_s_ops : Z
}.
Record Mount := MkMount { m_sb : Z; m_mount_point : Z; m_next : Z }.
(** ramfs::InodeData and the file contents it points to *)
Record InodeData := MkInodeData { buffer : Z; capacity : Z }.

(** sizeof of the structures on x86-64 *)
Definition sizeof_Inode : Z := 56.
Definition sizeof_Dentry : Z := 296.
Definition sizeof_File : Z := 40.
Definition sizeof_SuperBlock : Z := 32.
Definition sizeof_Mount : Z := 24.
Definition sizeof_InodeData : Z := 16.
Definition NAME_SIZE : Z := 256.

Definition SLASH : Z := 47.
Definition DOT : Z := 46.

Record fs_state (A : Type) := MkFs {
  inodes : gmap Z Inode;
  dentries : gmap Z Dentry;
  files : gmap Z File;
  supers : gmap Z SuperBlock;
  mounts : gmap Z Mount;
  privs : gmap Z InodeData;
  buffers : gmap Z (list Z);
  g_root_mount : Z;
  g_mount_list : Z;
  g_next_ino : Z;
  g_sb : Z;
  heap : A
}.
Arguments MkFs {A}. Arguments inodes {A}. Arguments dentries {A}. Arguments files {A}.
Arguments supers {A}. Arguments mounts {A}. Arguments privs {A}. Arguments buffers {A}.
Arguments g_root_mount {A}. Arguments g_mount_list {A}. Arguments g_next_ino {A}.
Arguments g_sb {A}. Arguments heap {A}.

Section Updates.
Context {A : Type}.
Implicit Types s : fs_state A.
Definition set_inodes v s := MkFs v (dentries s) (files s) (supers s) (mounts s) (privs s)
  (buffers s) (g_root_mount s) (g_mount_list s) (g_next_ino s) (g_sb s) (heap s).
Definition set_dentries v s := MkFs (inodes s) v (files s) (supers s) (mounts s) (privs s)
  (buffers s) (g_root_mount s) (g_mount_list s) (g_next_ino s) (g_sb s) (heap s).
Definition set_files v s := MkFs (inodes s) (dentries s) v (supers s) (mounts s) (privs s)
  (buffers s) (g_root_mount s) (g_mount_list s) (g_next_ino s) (g_sb s) (heap s).
Definition set_supers v s := MkFs (inodes s) (dentries s) (files s) v (mounts s) (privs s)
  (buffers s) (g_root_mount s) (g_mount_list s) (g_next_ino s) (g_sb s) (heap s).
Definition set_mounts v s := MkFs (inodes s) (dentries s) (files s) (supers s) v (privs s)
  (buffers s) (g_root_mount s) (g_mount_list s) (g_next_ino s) (g_sb s) (heap s).
Definition set_privs v s := MkFs (inodes s) (dentries s) (files s) (supers s) (mounts s) v
  (buffers s) (g_root_mount s) (g_mount_list s) (g_next_ino s) (g_sb s) (heap s).
Definition set_buffers v s := MkFs (inodes s) (dentries s) (files s) (supers s) (mounts s)
  (privs s) v (g_root_mount s) (g_mount_list s) (g_next_ino s) (g_sb s) (heap s).
Definition set_root_mount v s := MkFs (inodes s) (dentries s) (files s) (supers s) (mounts s)
  (privs s) (buffers s) v (g_mount_list s) (g_next_ino s) (g_sb s) (heap s).
Definition set_mount_list v s := MkFs (inodes s) (dentries s) (files s) (supers s) (mounts s)
  (privs s) (buffers s) (g_root_mount s) v (g_next_ino s) (g_sb s) (heap s).
Definition set_next_ino v s := MkFs (inodes s) (dentries s) (files s) (supers s) (mounts s)
  (privs s) (buffers s) (g_root_mount s) (g_mount_list s) v (g_sb s) (heap s).
Definition set_g_sb v s := MkFs (inodes s) (dentries s) (files s) (supers s) (mounts s)
  (privs s) (buffers s) (g_root_mount s) (g_mount_list s) (g_next_ino s) v (heap s).
Definition set_heap (v : A) s : fs_state A := MkFs (inodes s) (dentries s) (files s) (supers s) (mounts s)
  (privs s) (buffers s) (g_root_mount s) (g_mount_list s) (g_next_ino s) (g_sb s) v.
End Updates.

Definition with_ref (d : Dentry) (n : Z) : Dentry :=
  MkDentry (d_name d) (d_inode d) (d_parent d) (d_child d) (d_sibling d) n.
Definition with_child (d : Dentry) (c : Z) : Dentry :=
  MkDentry (d_name d) (d_inode d) (d_parent d) c (d_sibling d) (d_ref_count d).
Definition with_sibling (d : Dentry) (c : Z) : Dentry :=
  MkDentry (d_name d) (d_inode d) (d_parent d) (d_child d) c (d_ref_count d).
Definition inode_with_ref (i : Inode) (n : Z) : Inode :=
  MkInode (i_ino i) (i_type i) (i_size i) n (i_sb i) (i_ops i) (i_f_ops i) (i_private_data i).
Definition inode_with_size (i : Inode) (n : Z) : Inode :=
  MkInode (i_ino i) (i_type i) n (i_ref_count i) (i_sb i) (i_ops i) (i_f_ops i) (i_private_data i).
Definition file_with_ref (f : File) (n : Z) : File :=
  MkFile (f_dentry f) (f_offset f) (f_flags f) (f_ops f) n.
Definition file_with_offset (f : File) (n : Z) : File :=
  MkFile (f_dentry f) n (f_flags f) (f_ops f) (f_ref_count f).
Definition file_with_flags (f : File) (n : Z) : File :=
  MkFile (f_dentry f) (f_offset f) n (f_ops f) (f_ref_count f).

(** Operation tables. A null function pointer is [None]; an out buffer is
    part of the result. *)
Record InodeOps (St : Type) := MkInodeOps {
  op_lookup : option (Z → Z → list Z → K St Z);
  op_create : option (Z → Z → Z → K St Z)
}.
Record FileOps (St : Type) := MkFileOps {
  op_read : option (Z → Z → Z → K St (Z * list Z));
  op_write : option (Z → list Z → Z → K St Z);
  op_readdir : option (Z → Z → K St (Z * list (Z * list Z)))
}.
Arguments MkInodeOps {St}. Arguments op_lookup {St}. Arguments op_create {St}.
Arguments MkFileOps {St}. Arguments op_read {St}. Arguments op_write {St}. Arguments op_readdir {St}.

(** The tables in memory, by address; address 0 holds none. *)
Record vtables (St : Type) := MkVt {
  vt_iops : Z → option (InodeOps St);
  vt_fops : Z → option (FileOps St);
  vt_destroy_inode : Z → option (Z → K St unit)
}.
Arguments MkVt {St}. Arguments vt_iops {St}. Arguments vt_fops {St}. Arguments vt_destroy_inode {St}.

(** atomic_inc, atomic_dec_and_test of include/sysdef.h on a 32-bit count:
    the new count, and whether it is zero. *)
Definition atomic_inc (n : Z) : Z := s32 (n + 1).
Definition atomic_dec_and_test (n : Z) : Z * bool := (s32 (n - 1), s32 (n - 1) =? 0).

Section Vfs.
Context {A : Type} `{Allocator A}.
Context (vt : vtables (fs_state A)).
Abbreviation M := (K (fs_state A)).

(** *** Access to the stores; a null or dangling pointer faults. *)
Definition get_inode (p : Z) : M Inode := λ s, k_deref (inodes s !! p) s.
Definition put_inode (p : Z) (i : Inode) : M unit :=
  k_modify (λ s, set_inodes (<[p := i]> (inodes s)) s).
Definition get_dentry (p : Z) : M Dentry := λ s, k_deref (dentries s !! p) s.
Definition put_dentry (p : Z) (d : Dentry) : M unit :=
  k_modify (λ s, set_dentries (<[p := d]> (dentries s)) s).
Definition get_file (p : Z) : M File := λ s, k_deref (files s !! p) s.
Definition put_file (p : Z) (f : File) : M unit :=
  k_modify (λ s, set_files (<[p := f]> (files s)) s).
Definition get_super (p : Z) : M SuperBlock := λ s, k_deref (supers s !! p) s.
Definition get_mount (p : Z) : M Mount := λ s, k_deref (mounts s !! p) s.

Definition alloc (n : Z) : M Z := λ s,
  match slab_alloc n (heap s) with
  | Ret (p, h) => Ret (p, set_heap h s)
  | Panic w => Panic w | Fault => Fault | Diverge => Diverge
  end.
Definition free (p n : Z) : M unit := λ s,
  match slab_free p n (heap s) with
  | Ret h => Ret (tt, set_heap h s)
  | Panic w => Panic w | Fault => Fault | Diverge => Diverge
  end.

(** *** Reference counts *)

Definition iget (inode : Z) : M unit :=
  if inode =? 0 then mret tt else
  i ← get_inode inode;
  put_inode inode (inode_with_ref i (atomic_inc (i_ref_count i))).

Definition iput (inode : Z) : M unit :=
  if inode =? 0 then mret tt else
  i ← get_inode inode;
  let '(n, z) := atomic_dec_and_test (i_ref_count i) in
  put_inode inode (inode_with_ref i n) ≫= λ _,
  if z then
    sb ← get_super (i_sb i);
    destroy ← k_deref (vt_destroy_inode vt (sb_s_ops sb));
    destroy inode ≫= λ _,
    free inode sizeof_Inode ≫= λ _,
    k_modify (λ s, set_inodes (delete inode (inodes s)) s)
  else mret tt.

Definition dget (dentry : Z) : M unit :=
  if dentry =? 0 then mret tt else
  d ← get_dentry dentry;
  put_dentry dentry (with_ref d (atomic_inc (d_ref_count d))).

(** The location [pp] of the unlinking loop: a child or a sibling field. *)
Inductive link := ChildOf (p : Z) | SiblingOf (p : Z).
Definition read_link (l : link) : M Z :=
  match l with
  | ChildOf p => d ← get_dentry p; mret (d_child d)
  | SiblingOf p => d ← get_dentry p; mret (d_sibling d)
  end.
Definition write_link (l : link) (v : Z) : M unit :=
  match l with
  | ChildOf p => d ← get_dentry p; put_dentry p (with_child d v)
  | SiblingOf p => d ← get_dentry p; put_dentry p (with_sibling d v)
  end.
Fixpoint unlink_loop (fuel : nat) (pp : link) (dentry : Z) : M unit :=
  match fuel with
  | O => k_diverge
  | S f =>
      p ← read_link pp;
      if p =? 0 then mret tt
      else if p =? dentry then
        d ← get_dentry dentry;
        write_link pp (d_sibling d)
      else unlink_loop f (SiblingOf p) dentry
  end.

(** Every loop over a sibling list visits a dentry once, so the number of
    dentries bounds it. *)
Definition chain_fuel (s : fs_state A) : nat := S (size (dentries s)).
Definition with_fuel {B} (f : nat → M B) : M B := λ s, f (chain_fuel s) s.

Definition dput (dentry : Z) : M unit :=
  if dentry =? 0 then mret tt else
  d ← get_dentry dentry;
  let '(n, z) := atomic_dec_and_test (d_ref_count d) in
  put_dentry dentry (with_ref d n) ≫= λ _,
  if z then
    (if d_parent d =? 0 then mret tt
     else with_fuel (λ f, unlink_loop f (ChildOf (d_parent d)) dentry)) ≫= λ _,
    (if d_inode d =? 0 then mret tt else iput (d_inode d)) ≫= λ _,
    free dentry sizeof_Dentry ≫= λ _,
    k_modify (λ s, set_dentries (delete dentry (dentries s)) s)
  else mret tt.

(** *** Dentries *)

Definition d_alloc (name : list Z) (inode parent : Z) : M Z :=
  d ← alloc sizeof_Dentry;
  if d =? 0 then mret 0
  else if d <? KERNEL_BASE then k_panic "vfs: bad pointer from slab"
  else
    put_dentry d (MkDentry (take (Z.to_nat (NAME_SIZE - 1)) name) inode parent 0 0 1) ≫= λ _,
    (if parent =? 0 then mret tt
     else
       p ← get_dentry parent;
       dd ← get_dentry d;
       put_dentry d (with_sibling dd (d_child p)) ≫= λ _,
       p ← get_dentry parent;
       put_dentry parent (with_child p d)) ≫= λ _,
    mret d.

Fixpoint d_lookup_loop (fuel : nat) (child : Z) (name : list Z) : M Z :=
  match fuel with
  | O => k_diverge
  | S f =>
      if child =? 0 then mret 0
      else
        c ← get_dentry child;
        if str_eqb (d_name c) name then mret child
        else d_lookup_loop f (d_sibling c) name
  end.
Definition d_lookup (parent : Z) (name : list Z) : M Z :=
  p ← get_dentry parent;
  with_fuel (λ f, d_lookup_loop f (d_child p) name).

(** *** Path resolution *)

Fixpoint skip_slashes (ptr : list Z) : list Z :=
  match ptr with
  | c :: ptr' => if c =? SLASH then skip_slashes ptr' else ptr
  | [] => []
  end.

(** The inner loop copies a component into a buffer of 256 bytes: [None] when
    it does not fit, else the component and the rest of the path. *)
Fixpoint scan_component (ptr : list Z) (len : Z) : option (list Z * list Z) :=
  match ptr with
  | [] => Some ([], [])
  | c :: ptr' =>
      if c =? SLASH then Some ([], ptr)
      else if NAME_SIZE - 1 <=? len then None
      else match scan_component ptr' (len + 1) with
           | Some (comp, rest) => Some (c :: comp, rest)
           | None => None
           end
  end.

(** One component: [inl] the next dentry, or [inr] the error pointer the walk
    returns, with the reference on [current] dropped. *)
Definition walk_component (component : list Z) (current : Z) : M (Z + Z) :=
  if str_eqb component [DOT] then mret (inl current)
  else if str_eqb component [DOT; DOT] then
    c ← get_dentry current;
    if d_parent c =? 0 then mret (inl current)
    else
      dget (d_parent c) ≫= λ _,
      dput current ≫= λ _,
      mret (inl (d_parent c))
  else
    c ← get_dentry current;
    i ← get_inode (d_inode c);
    if negb (bool_decide (i_type i = Directory)) then
      dput current ≫= λ _, mret (inr (ERR_PTR (- ENOTDIR)))
    else
      next ← d_lookup current component;
      next ←
        (if next =? 0 then
           match vt_iops vt (i_ops i) ≫= op_lookup with
           | None => dput current ≫= λ _, mret (inr (ERR_PTR (- ENOENT)))
           | Some lookup =>
               temp_d ← d_alloc component 0 current;
               if temp_d =? 0 then dput current ≫= λ _, mret (inr (ERR_PTR (- ENOMEM)))
               else
                 next ← lookup (d_inode c) temp_d component;
                 if next =? 0 then
                   dput temp_d ≫= λ _, dput current ≫= λ _, mret (inr (ERR_PTR (- ENOENT)))
                 else mret (inl next)
           end
         else mret (inl next));
      match next with
      | inr e => mret (inr e)
      | inl next =>
          dget next ≫= λ _,
          dput current ≫= λ _,
          mret (inl next)
      end.

Fixpoint walk_loop (fuel : nat) (ptr : list Z) (current : Z) : M Z :=
  match fuel with
  | O => k_diverge
  | S f =>
      match ptr with
      | [] => mret current
      | _ =>
          match scan_component ptr 0 with
          | None => dput current ≫= λ _, mret (ERR_PTR (- ENAMETOOLONG))
          | Some (component, rest) =>
              r ← walk_component component current;
              match r with
              | inr e => mret e
              | inl next => walk_loop f (skip_slashes rest) next
              end
          end
      end
  end.

Definition path_walk (path : list Z) : M Z :=
  match path with
  | c :: _ =>
      if negb (c =? SLASH) then mret (ERR_PTR (- EINVAL))
      else
        root ← k_gets g_root_mount;
        if root =? 0 then mret (ERR_PTR (- ENOENT))
        else
          mnt ← get_mount root;
          if m_sb mnt =? 0 then mret (ERR_PTR (- ENOENT))
          else
            sb ← get_super (m_sb mnt);
            if sb_root sb =? 0 then mret (ERR_PTR (- ENOENT))
            else if m_mount_point mnt =? 0 then mret (ERR_PTR (- ENOENT))
            else
              dget (m_mount_point mnt) ≫= λ _,
              walk_loop (S (length path)) (skip_slashes path) (m_mount_point mnt)
  | [] => mret (ERR_PTR (- EINVAL))
  end.

(** *** Mounting *)

Definition mount (sb : Z) (mount_point : list Z) : M Z :=
  if sb =? 0 then mret VFS_ERR_INVAL else
  sbr ← get_super sb;
  if sb_root sbr =? 0 then mret VFS_ERR_INVAL else
  mnt ← alloc sizeof_Mount;
  if mnt =? 0 then mret VFS_ERR_NOMEM else
  root_d ← d_alloc [SLASH] (sb_root sbr) 0;
  root ← k_gets g_root_mount;
  if root =? 0 then
    k_modify (λ s, set_root_mount mnt s) ≫= λ _,
    k_modify (λ s, set_mount_list mnt
      (set_mounts (<[mnt := MkMount sb root_d (g_mount_list s)]> (mounts s)) s)) ≫= λ _,
    mret VFS_OK
  else
    target ← path_walk mount_point;
    if target =? 0 then free mnt sizeof_Mount ≫= λ _, mret VFS_ERR_NOENT
    else
      k_modify (λ s, set_mount_list mnt
        (set_mounts (<[mnt := MkMount sb target (g_mount_list s)]> (mounts s)) s)) ≫= λ _,
      mret VFS_OK.

(** *** Open files *)

(** The path cut at its last slash: the parent's path ("/" when nothing is
    left of the slash) and the file name. *)
Definition split_path (path : list Z) : list Z * list Z :=
  match last_index SLASH path with
  | Some i =>
      let parent := take (Z.to_nat i) path in
      ((if decide (parent = []) then [SLASH] else parent), drop (Z.to_nat (i + 1)) path)
  | None => ([SLASH], path)
  end.

Definition open_file (target_dent flags : Z) : M Z :=
  f ← alloc sizeof_File;
  if f =? 0 then dput target_dent ≫= λ _, mret (ERR_PTR (- ENOMEM))
  else
    d ← get_dentry target_dent;
    i ← get_inode (d_inode d);
    put_file f (MkFile target_dent 0 flags (i_f_ops i) 1) ≫= λ _,
    mret f.

Definition open (path : list Z) (flags : Z) : M Z :=
  match path with
  | c :: _ =>
    if negb (c =? SLASH) then mret (ERR_PTR (- EINVAL))
    else if NAME_SIZE <=? Z.of_nat (length path) then mret (ERR_PTR (- ENAMETOOLONG))
    else
      let '(parent_path, filename) := split_path path in
      parent_dent ← path_walk parent_path;
      if IS_ERR parent_dent then mret parent_dent
      else
        target_dent ← d_lookup parent_dent filename;
        if target_dent =? 0 then
          if Z.land flags O_CREAT =? 0 then
            dput parent_dent ≫= λ _, mret (ERR_PTR (- ENOENT))
          else
            pd ← get_dentry parent_dent;
            pi ← get_inode (d_inode pd);
            match vt_iops vt (i_ops pi) ≫= op_create with
            | None => dput parent_dent ≫= λ _, mret (ERR_PTR (- ENOSYS))
            | Some create =>
                new_dent ← d_alloc filename 0 parent_dent;
                if new_dent =? 0 then dput parent_dent ≫= λ _, mret (ERR_PTR (- ENOMEM))
                else
                  pd ← get_dentry parent_dent;
                  ret ← create (d_inode pd) new_dent 420;
                  if ret <? 0 then
                    dput new_dent ≫= λ _, dput parent_dent ≫= λ _, mret (ERR_PTR ret)
                  else
                    dput parent_dent ≫= λ _, open_file new_dent flags
            end
        else if negb (Z.land flags O_EXCL =? 0) then
          dput parent_dent ≫= λ _, mret (ERR_PTR (- EEXIST))
        else
          dget target_dent ≫= λ _,
          dput parent_dent ≫= λ _,
          open_file target_dent flags
  | [] => mret (ERR_PTR (- EINVAL))
  end.

(** read returns the count and the bytes placed in the buffer. *)
Definition read (file size : Z) : M (Z * list Z) :=
  if file =? 0 then mret (VFS_ERR_INVAL, []) else
  f ← get_file file;
  if negb (Z.land (f_flags f) O_WRONLY =? 0) then mret (VFS_ERR_IO, []) else
  match vt_fops vt (f_ops f) ≫= op_read with
  | None => mret (VFS_ERR_IO, [])
  | Some op =>
      rb ← op file size (f_offset f);
      let '(ret, bytes) := rb in
      (if 0 <? ret then
         f ← get_file file;
         put_file file (file_with_offset f (u64 (f_offset f + ret)))
       else mret tt) ≫= λ _,
      mret (ret, bytes)
  end.

Definition write (file : Z) (bytes : list Z) : M Z :=
  if file =? 0 then mret VFS_ERR_INVAL else
  f ← get_file file;
  if f_flags f =? O_RDONLY then mret VFS_ERR_IO else
  match vt_fops vt (f_ops f) ≫= op_write with
  | None => mret VFS_ERR_IO
  | Some op =>
      off ←
        (if Z.land (f_flags f) O_APPEND =? 0 then mret (f_offset f)
         else d ← get_dentry (f_dentry f); i ← get_inode (d_inode d); mret (i_size i));
      ret ← op file bytes off;
      (if 0 <? ret then
         f ← get_file file;
         put_file file (file_with_offset f (u64 (f_offset f + ret))) ≫= λ _,
         d ← get_dentry (f_dentry f);
         i ← get_inode (d_inode d);
         if i_size i <? u64 (off + ret) then
           put_inode (d_inode d) (inode_with_size i (u64 (off + ret)))
         else mret tt
       else mret tt) ≫= λ _,
      mret ret
  end.

Definition close (file : Z) : M unit :=
  if file =? 0 then mret tt else
  f ← get_file file;
  let '(n, z) := atomic_dec_and_test (f_ref_count f) in
  put_file file (file_with_ref f n) ≫= λ _,
  if z then
    dput (f_dentry f) ≫= λ _,
    free file sizeof_File ≫= λ _,
    k_modify (λ s, set_files (delete file (files s)) s)
  else mret tt.

End Vfs.
