(* ===== verification/Ramfs.v ===== *)
(** * In-memory file system: fs/ramfs.cpp, include/fs/ramfs.h

    ramfs keeps everything in the dentry tree of the VFS; a regular file's
    contents are a buffer reached through the inode's private data. Its
    operation tables are static objects, here two fixed non-null addresses. *)

From S2P Require Import Prelude KString Errno Alloc Vfs.

(** &g_ramfs_inode_ops and &g_ramfs_file_ops *)
Definition RAMFS_INODE_OPS : Z := KERNEL_BASE + 16.
Definition RAMFS_FILE_OPS : Z := KERNEL_BASE + 32.
Definition RAMFS_MAGIC : Z := 1380011334. (* 0x52414D46 *)

Section Ramfs.
Context {A : Type} `{Allocator A}.
Abbreviation M := (K (fs_state A)).

Definition get_priv (p : Z) : M InodeData := λ s, k_deref (privs s !! p) s.
Definition get_buffer (p : Z) : M (list Z) := λ s, k_deref (buffers s !! p) s.

Definition alloc_inode (type : FileType) : M Z :=
  inode ← alloc sizeof_Inode;
  if inode =? 0 then mret 0 else
  ino ← k_gets g_next_ino;
  k_modify (λ s, set_next_ino (u32 (ino + 1)) s) ≫= λ _,
  sb ← k_gets g_sb;
  put_inode inode (MkInode ino type 0 1 sb RAMFS_INODE_OPS RAMFS_FILE_OPS 0) ≫= λ _,
  priv ← alloc sizeof_InodeData;
  if priv =? 0 then
    free inode sizeof_Inode ≫= λ _,
    k_modify (λ s, set_inodes (delete inode (inodes s)) s) ≫= λ _,
    mret 0
  else
    k_modify (λ s, set_privs (<[priv := MkInodeData 0 0]> (privs s)) s) ≫= λ _,
    put_inode inode (MkInode ino type 0 1 sb RAMFS_INODE_OPS RAMFS_FILE_OPS priv) ≫= λ _,
    mret inode.

Fixpoint ramfs_lookup_loop (fuel : nat) (child dentry : Z) (name : list Z) : M Z :=
  match fuel with
  | O => k_diverge
  | S f =>
      if child =? 0 then mret 0
      else
        c ← get_dentry child;
        if negb (child =? dentry) && str_eqb (d_name c) name then
          iget (d_inode c) ≫= λ _, mret child
        else ramfs_lookup_loop f (d_sibling c) dentry name
  end.
Definition ramfs_lookup (dir dentry : Z) (name : list Z) : M Z :=
  i ← get_inode dir;
  if negb (bool_decide (i_type i = Directory)) then mret 0 else
  d ← get_dentry dentry;
  if d_parent d =? 0 then mret 0 else
  p ← get_dentry (d_parent d);
  with_fuel (λ f, ramfs_lookup_loop f (d_child p) dentry name).

(** memcpy out of the contents; reading past the buffer faults. *)
Definition slice (l : list Z) (off n : Z) : option (list Z) :=
  if off + n <=? Z.of_nat (length l)
  then Some (take (Z.to_nat n) (drop (Z.to_nat off) l)) else None.

Definition ramfs_read (file size offset : Z) : M (Z * list Z) :=
  f ← get_file file;
  d ← get_dentry (f_dentry f);
  i ← get_inode (d_inode d);
  if negb (bool_decide (i_type i = Regular)) then mret (VFS_ERR_INVAL, []) else
  if i_private_data i =? 0 then mret (0, []) else
  priv ← get_priv (i_private_data i);
  if buffer priv =? 0 then mret (0, []) else
  if i_size i <=? offset then mret (0, []) else
  let size := if i_size i <? u64 (offset + size) then i_size i - offset else size in
  content ← get_buffer (buffer priv);
  bytes ← k_deref (slice content offset size);
  mret (s64 size, bytes).

(** The entries written to the caller's array: inode number and name. *)
Fixpoint readdir_loop (fuel : nat) (child index offset count : Z) (out : list (Z * list Z))
    : M (Z * list (Z * list Z)) :=
  match fuel with
  | O => k_diverge
  | S f =>
      if negb (child =? 0) && (Z.of_nat (length out) <? count) then
        c ← get_dentry child;
        out ←
          (if offset <=? index then
             i ← get_inode (d_inode c);
             mret (out ++ [(i_ino i, take (Z.to_nat (NAME_SIZE - 1)) (d_name c))])
           else mret out);
        readdir_loop f (d_sibling c) (index + 1) offset count out
      else mret (index, out)
  end.
Definition ramfs_readdir (file count : Z) : M (Z * list (Z * list Z)) :=
  f ← get_file file;
  d ← get_dentry (f_dentry f);
  i ← get_inode (d_inode d);
  if negb (bool_decide (i_type i = Directory)) then mret (VFS_ERR_NOTDIR, []) else
  r ← with_fuel (λ k, readdir_loop k (d_child d) 0 (f_offset f) count []);
  let '(index, out) := r in
  put_file file (file_with_offset f index) ≫= λ _,
  mret (Z.of_nat (length out), out).

Definition ramfs_vt : vtables (fs_state A) :=
  MkVt
    (λ p, if p =? RAMFS_INODE_OPS then Some (MkInodeOps (Some ramfs_lookup) None) else None)
    (λ p, if p =? RAMFS_FILE_OPS
          then Some (MkFileOps (Some ramfs_read) None (Some ramfs_readdir)) else None)
    (λ _, None).

(** ramfs::init; the superblock's operation table is left null. *)
Definition init : M Z :=
  sb ← alloc sizeof_SuperBlock;
  k_modify (λ s, set_g_sb sb s) ≫= λ _,
  if sb =? 0 then mret 0 else
  k_modify (λ s, set_supers (<[sb := MkSuperBlock RAMFS_MAGIC 4096 0 0]> (supers s)) s) ≫= λ _,
  root_inode ← alloc_inode Directory;
  if root_inode =? 0 then
    free sb sizeof_SuperBlock ≫= λ _,
    k_modify (λ s, set_supers (delete sb (supers s)) s) ≫= λ _,
    mret 0
  else
    k_modify (λ s, set_supers (<[sb := MkSuperBlock RAMFS_MAGIC 4096 root_inode 0]> (supers s)) s) ≫= λ _,
    mret sb.

(** Whether [parent_dir] names a directory. *)
Definition is_directory (parent_dir : Z) : M bool :=
  d ← get_dentry parent_dir;
  i ← get_inode (d_inode d);
  mret (bool_decide (i_type i = Directory)).

Definition free_priv (priv : Z) : M unit :=
  free priv sizeof_InodeData ≫= λ _,
  k_modify (λ s, set_privs (delete priv (privs s)) s).
Definition free_inode (inode : Z) : M unit :=
  free inode sizeof_Inode ≫= λ _,
  k_modify (λ s, set_inodes (delete inode (inodes s)) s).
Definition free_buffer (buf size : Z) : M unit :=
  free buf size ≫= λ _,
  k_modify (λ s, set_buffers (delete buf (buffers s)) s).

Definition create_file (parent_dir : Z) (name : list Z) (data : list Z) : M Z :=
  let size := Z.of_nat (length data) in
  if parent_dir =? 0 then mret 0 else
  pd ← get_dentry parent_dir;
  if d_inode pd =? 0 then mret 0 else
  dir ← is_directory parent_dir;
  if negb dir then mret 0 else
  inode ← alloc_inode Regular;
  if inode =? 0 then mret 0 else
  i ← get_inode inode;
  put_inode inode (inode_with_size i size) ≫= λ _,
  let priv := i_private_data i in
  ok ←
    (if 0 <? size then
       buf ← alloc size;
       if buf =? 0 then
         free_priv priv ≫= λ _, free_inode inode ≫= λ _, mret None
       else
         k_modify (λ s, set_privs (<[priv := MkInodeData buf size]> (privs s)) s) ≫= λ _,
         k_modify (λ s, set_buffers (<[buf := data]> (buffers s)) s) ≫= λ _,
         mret (Some buf)
     else mret (Some 0));
  match ok with
  | None => mret 0
  | Some buf =>
      d ← d_alloc name inode parent_dir;
      if d =? 0 then
        (if buf =? 0 then mret tt else free_buffer buf size) ≫= λ _,
        free_priv priv ≫= λ _, free_inode inode ≫= λ _, mret 0
      else mret inode
  end.

Definition create_dir (parent_dir : Z) (name : list Z) : M Z :=
  if parent_dir =? 0 then mret 0 else
  dir ← is_directory parent_dir;
  if negb dir then mret 0 else
  inode ← alloc_inode Directory;
  if inode =? 0 then mret 0 else
  d ← d_alloc name inode parent_dir;
  if d =? 0 then
    i ← get_inode inode;
    free_priv (i_private_data i) ≫= λ _, free_inode inode ≫= λ _, mret 0
  else mret inode.

End Ramfs.

(** ** A file system built from the boot state *)

Definition fs_boot {A} (a : A) : fs_state A :=
  MkFs ∅ ∅ ∅ ∅ ∅ ∅ ∅ 0 0 1 0 a.

(** init_fs of src/kernel_main.cpp up to the archive: ramfs mounted on "/". *)
Definition mount_root {A} `{Allocator A} : K (fs_state A) Z :=
  sb ← init;
  if sb =? 0 then k_panic "vfs: Failed to initialize root filesystem."
  else
    err ← mount ramfs_vt sb [SLASH];
    if negb (err =? VFS_OK) then k_panic "vfs: Failed to mount root filesystem."
    else mret sb.
