(* ===== verification/VfsTree.v ===== *)
(** * The dentry tree: invariant and path resolution

    [fs_wf s kids] says that the linked dentries of [s] form the tree whose
    children lists are [kids]: sibling chains are finite and null-terminated,
    parents agree with them, every dentry is referenced and has an inode. The
    lemmas give each dentry operation its effect on such a state; [resolve]
    is path resolution on the tree, and path_walk implements it. *)

From S2P Require Import Prelude KString Errno Alloc Vfs.

(** The dentries of [l] are linked, in order, from [p] to null. *)
Fixpoint chain (ds : gmap Z Dentry) (p : Z) (l : list Z) : Prop :=
  match l with
  | [] => p = 0
  | x :: l' => p = x ∧ x ≠ 0 ∧ ∃ d, ds !! x = Some d ∧ chain ds (d_sibling d) l'
  end.

Definition good_name (n : list Z) : Prop := Forall (λ b, 0 < b < 256) n.

Lemma str_eqb_eq s t : good_name s → good_name t → str_eqb s t = bool_decide (s = t).
Proof.
  intros Hs Ht. unfold str_eqb. pose proof (strcmp_str_zero s t Hs Ht).
  case_bool_decide; [apply Z.eqb_eq|apply Z.eqb_neq]; tauto.
Qed.

(** The first dentry of [l] with a given name. *)
Fixpoint find_child (ds : gmap Z Dentry) (name : list Z) (l : list Z) : option Z :=
  match l with
  | [] => None
  | c :: l' =>
      if decide (d_name <$> ds !! c = Some name) then Some c else find_child ds name l'
  end.

(** Every object of the stores is a live block of its size. *)
Record accounted {A} (s : fs_state A) (L : gmap Z Z) : Prop := {
  acc_dentry : ∀ p, is_Some (dentries s !! p) → L !! p = Some sizeof_Dentry;
  acc_inode : ∀ p, is_Some (inodes s !! p) → L !! p = Some sizeof_Inode;
  acc_file : ∀ p, is_Some (files s !! p) → L !! p = Some sizeof_File;
  acc_priv : ∀ p, is_Some (privs s !! p) → L !! p = Some sizeof_InodeData;
  acc_buffer : ∀ p b, buffers s !! p = Some b → L !! p = Some (Z.of_nat (length b))
}.

Record fs_wf {A} `{AllocatorSpec A} (s : fs_state A) (kids : Z → list Z) : Prop := {
  wf_chain : ∀ p d, dentries s !! p = Some d → chain (dentries s) (d_child d) (kids p);
  wf_nodup : ∀ p d, dentries s !! p = Some d → NoDup (kids p);
  wf_kid : ∀ p d c, dentries s !! p = Some d → c ∈ kids p →
    ∃ dc, dentries s !! c = Some dc ∧ d_parent dc = p;
  wf_parent : ∀ p d, dentries s !! p = Some d →
    d_parent d = 0 ∨ is_Some (dentries s !! d_parent d) ∧ p ∈ kids (d_parent d);
  wf_ptr : ∀ p d, dentries s !! p = Some d → kernel_ptr p;
  wf_ref : ∀ p d, dentries s !! p = Some d → 1 ≤ d_ref_count d;
  wf_inode : ∀ p d, dentries s !! p = Some d → d_inode d ≠ 0 ∧ is_Some (inodes s !! d_inode d);
  wf_name : ∀ p d, dentries s !! p = Some d → good_name (d_name d);
  wf_heap : ∃ L, live (heap s) L ∧ accounted s L
}.

Definition refs_below {A} (s : fs_state A) (n : Z) : Prop :=
  ∀ p d, dentries s !! p = Some d → d_ref_count d < n.

(** ** Chains *)

Lemma chain_app_inv ds p l1 x l2 :
  chain ds p (l1 ++ x :: l2) → is_Some (ds !! x) ∧ x ≠ 0.
Proof.
  revert p. induction l1 as [|y l1 IH]; intros p; simpl.
  - intros (_ & Hx & d & Hd & _). eauto.
  - intros (_ & _ & d & _ & Hc). eauto.
Qed.

Lemma chain_agree ds1 ds2 p l :
  (∀ x, x ∈ l → ∃ d1 d2, ds1 !! x = Some d1 ∧ ds2 !! x = Some d2 ∧ d_sibling d1 = d_sibling d2) →
  chain ds1 p l → chain ds2 p l.
Proof.
  revert p. induction l as [|x l IH]; intros p Hx; simpl; [done|].
  intros (-> & Hx0 & d & Hd & Hc).
  destruct (Hx x) as (d1 & d2 & E1 & E2 & Es); [set_solver|]. simplify_eq.
  split; [done|]. split; [done|]. exists d2. split; [done|]. rewrite <- Es.
  apply IH; [|done]. intros y Hy. apply Hx. set_solver.
Qed.

Lemma chain_elem ds p l x : chain ds p l → x ∈ l → is_Some (ds !! x).
Proof.
  intros Hc Hx. apply list_elem_of_split in Hx as (l1 & l2 & ->).
  by apply chain_app_inv in Hc as [? _].
Qed.

Lemma chain_length ds p l : chain ds p l → NoDup l → (length l ≤ size ds)%nat.
Proof.
  intros Hc Hnd. rewrite <- (size_dom ds), <- (size_list_to_set (C:=gset Z) l) by done.
  apply subseteq_size. intros x. rewrite elem_of_list_to_set, elem_of_dom. intros Hx.
  by eapply chain_elem.
Qed.

(** ** Reference counts *)

Definition bump {A} (p k : Z) (s : fs_state A) : fs_state A :=
  set_dentries (alter (λ d, with_ref d (d_ref_count d + k)) p (dentries s)) s.

(** Equality of states that differ in their dentry stores, pointwise. *)
Ltac dentries_ext :=
  unfold bump, set_dentries; match goal with s : fs_state _ |- _ => destruct s end; simpl; f_equal;
  apply map_eq; intros i; rewrite ?lookup_alter; repeat case_decide; subst;
  rewrite ?lookup_alter; repeat case_decide; try done;
  try match goal with |- context [?m !! ?k] => is_var m; destruct (m !! k) as [[]|] end;
  simpl; unfold with_ref; simpl; try done; try (f_equal; f_equal; lia).

Lemma bump_bump {A} p j k (s : fs_state A) : bump p k (bump p j s) = bump p (j + k) s.
Proof. dentries_ext. Qed.
Lemma bump_0 {A} p (s : fs_state A) : bump p 0 s = s.
Proof. dentries_ext. Qed.
Lemma bump_comm {A} p q j k (s : fs_state A) : bump p k (bump q j s) = bump q j (bump p k s).
Proof. dentries_ext. Qed.
Lemma bump_heap {A} p k h (s : fs_state A) : bump p k (set_heap h s) = set_heap h (bump p k s).
Proof. done. Qed.

Lemma bump_lookup {A} p k (s : fs_state A) q d :
  dentries s !! q = Some d →
  dentries (bump p k s) !! q =
    Some (with_ref d (d_ref_count d + if decide (p = q) then k else 0)).
Proof.
  intros Hd. unfold bump; simpl. rewrite lookup_alter. case_decide as E.
  - subst. by rewrite Hd.
  - rewrite Hd. destruct d; unfold with_ref; simpl. by rewrite Z.add_0_r.
Qed.
Lemma bump_lookup_inv {A} p k (s : fs_state A) q d :
  dentries (bump p k s) !! q = Some d →
  ∃ d0, dentries s !! q = Some d0 ∧ d = with_ref d0 (d_ref_count d).
Proof.
  unfold bump; simpl. rewrite lookup_alter_Some. intros [(-> & d0 & Hd & ->)|[_ Hd]].
  - eauto.
  - exists d. split; [done|]. by destruct d.
Qed.

Lemma accounted_bump {A} p k (s : fs_state A) L : accounted s L ↔ accounted (bump p k s) L.
Proof.
  split; intros [HD]; split; try done; intros q Hq; apply HD.
  - destruct Hq as [d (d0 & Hd & _)%bump_lookup_inv]. eauto.
  - destruct Hq as [d Hd]. eexists. by apply bump_lookup.
Qed.
Lemma accounted_fresh {A} (s : fs_state A) L t n :
  accounted s L → L !! t = None → accounted s (<[t := n]> L).
Proof.
  intros HA Ht. split; intros p; [pose proof (acc_dentry _ _ HA p) as HH
    |pose proof (acc_inode _ _ HA p) as HH|pose proof (acc_file _ _ HA p) as HH
    |pose proof (acc_priv _ _ HA p) as HH|intros b Hb; pose proof (acc_buffer _ _ HA p b Hb) as HH];
    try (intros Hp; specialize (HH Hp)); by rewrite lookup_insert_ne by congruence.
Qed.

Section Tree.
Context {A : Type} `{AllocatorSpec A}.
Implicit Types s : fs_state A.

(** A state that differs in reference counts only (still positive) or in the
    allocator's bookkeeping is as well formed. *)
Lemma wf_bump_gen s kids p k :
  fs_wf s kids → (∀ d, dentries s !! p = Some d → 1 ≤ d_ref_count d + k) →
  fs_wf (bump p k s) kids.
Proof.
  intros Hwf Hk. pose proof Hwf as [Hch Hnd Hkid Hpar Hptr Href Hino Hnm Hheap].
  assert (Hsib : ∀ x, is_Some (dentries s !! x) → ∃ d1 d2, dentries s !! x = Some d1 ∧
    dentries (bump p k s) !! x = Some d2 ∧ d_sibling d1 = d_sibling d2).
  { intros x [d Hd]. exists d. eexists. split; [done|]. split; [by apply bump_lookup|done]. }
  split.
  - intros q d (d0 & Hd & ->)%bump_lookup_inv. eapply chain_agree; [|exact (Hch q d0 Hd)].
    intros x Hx. apply Hsib. eapply chain_elem; [exact (Hch q d0 Hd)|done].
  - intros q d (d0 & Hd & _)%bump_lookup_inv. eauto.
  - intros q d c (d0 & Hd & _)%bump_lookup_inv Hc. destruct (Hkid q d0 c Hd Hc) as (dc & Hdc & Hp).
    eexists. split; [by apply bump_lookup|done].
  - intros q d (d0 & Hd & ->)%bump_lookup_inv. simpl.
    destruct (Hpar q d0 Hd) as [|[[dp Hdp] ?]]; [by left|right]. split; [|done].
    eexists. by apply bump_lookup.
  - intros q d (d0 & Hd & _)%bump_lookup_inv. eauto.
  - intros q d Hd. destruct (bump_lookup_inv _ _ _ _ _ Hd) as (d0 & Hd0 & _).
    rewrite (bump_lookup _ _ _ _ _ Hd0) in Hd. simplify_eq. simpl.
    pose proof (Href _ _ Hd0). case_decide; [subst; by apply Hk|lia].
  - intros q d (d0 & Hd & ->)%bump_lookup_inv. simpl. eauto.
  - intros q d (d0 & Hd & ->)%bump_lookup_inv. simpl. eauto.
  - destruct Hheap as (L & HL & HA). exists L. split; [done|]. by apply accounted_bump.
Qed.

Lemma wf_bump s kids p k : fs_wf s kids → 0 ≤ k → fs_wf (bump p k s) kids.
Proof.
  intros Hwf Hk. apply wf_bump_gen; [done|]. intros d Hd. pose proof (wf_ref _ _ Hwf _ _ Hd). lia.
Qed.

Lemma wf_set_heap s kids h L :
  fs_wf s kids → live h L →
  accounted s L →
  fs_wf (set_heap h s) kids.
Proof. intros [] ? [?]. split; eauto. exists L. done. Qed.

Lemma refs_bump s n p : refs_below s n → refs_below (bump p 1 s) (n + 1).
Proof.
  intros Hr q d Hd. destruct (bump_lookup_inv _ _ _ _ _ Hd) as (d0 & Hd0 & _).
  rewrite (bump_lookup _ _ _ _ _ Hd0) in Hd. simplify_eq. simpl.
  pose proof (Hr _ _ Hd0). case_decide; lia.
Qed.

Lemma get_dentry_ret s p d : dentries s !! p = Some d → get_dentry p s = Ret (d, s).
Proof. intros Hd. unfold get_dentry. by rewrite Hd. Qed.
Lemma get_inode_ret s p i : inodes s !! p = Some i → get_inode p s = Ret (i, s).
Proof. intros Hi. unfold get_inode. by rewrite Hi. Qed.

Lemma put_dentry_ret s p d : put_dentry p d s = Ret (tt, set_dentries (<[p := d]> (dentries s)) s).
Proof. done. Qed.

Lemma bump_insert s p d k :
  dentries s !! p = Some d →
  set_dentries (<[p := with_ref d (d_ref_count d + k)]> (dentries s)) s = bump p k s.
Proof.
  intros Hd. unfold bump. f_equal. apply map_eq. intros i.
  rewrite lookup_insert, lookup_alter. case_decide; [subst; by rewrite Hd|done].
Qed.

Lemma dget_spec s p d :
  dentries s !! p = Some d → p ≠ 0 → 0 ≤ d_ref_count d < 2 ^ 31 - 1 →
  dget p s = Ret (tt, bump p 1 s).
Proof.
  intros Hd Hp Hr. unfold dget. rewrite (proj2 (Z.eqb_neq p 0)) by done.
  kstep (get_dentry_ret _ _ _ Hd). rewrite put_dentry_ret. unfold atomic_inc.
  rewrite s32_small by lia. by rewrite bump_insert.
Qed.

(** Dropping a reference that is not the last one. *)
Lemma dput_spec vt s p d :
  dentries s !! p = Some d → p ≠ 0 → 1 < d_ref_count d < 2 ^ 31 →
  dput vt p s = Ret (tt, bump p (-1) s).
Proof.
  intros Hd Hp Hr. unfold dput. rewrite (proj2 (Z.eqb_neq p 0)) by done.
  kstep (get_dentry_ret _ _ _ Hd). unfold atomic_dec_and_test.
  rewrite s32_small by lia. rewrite (proj2 (Z.eqb_neq _ 0)) by lia.
  rewrite (K_bind_ret _ _ _ _ _ (put_dentry_ret _ _ _)).
  by rewrite <- (bump_insert s p d (-1)).
Qed.

(** ** Lookup among the children *)

Lemma d_lookup_loop_spec s name l fuel p :
  chain (dentries s) p l → good_name name →
  (∀ x d, x ∈ l → dentries s !! x = Some d → good_name (d_name d)) →
  (length l < fuel)%nat →
  d_lookup_loop fuel p name s = Ret (default 0 (find_child (dentries s) name l), s).
Proof.
  intros Hc Hn Hgn. revert fuel p Hc Hgn.
  induction l as [|x l IH]; intros [|f] p Hc Hgn Hf; simpl in *; try lia.
  { by rewrite Hc. }
  destruct Hc as (-> & Hx & d & Hd & Hc). rewrite (proj2 (Z.eqb_neq x 0)) by done.
  kstep (get_dentry_ret _ _ _ Hd).
  rewrite str_eqb_eq by (done || (eapply Hgn; [|done]; set_solver)).
  rewrite Hd. simpl. case_bool_decide as E; case_decide as E'; try congruence; [done|].
  apply IH; [done| |lia]. intros y dy Hy. apply Hgn. set_solver.
Qed.

Lemma d_lookup_spec s kids p d name :
  fs_wf s kids → dentries s !! p = Some d → good_name name →
  d_lookup p name s = Ret (default 0 (find_child (dentries s) name (kids p)), s).
Proof.
  intros Hwf Hd Hn. unfold d_lookup. kstep (get_dentry_ret _ _ _ Hd).
  unfold with_fuel. apply d_lookup_loop_spec; [by eapply wf_chain|done| |].
  - intros x dx _ Hx. by eapply wf_name.
  - unfold chain_fuel. pose proof (chain_length _ _ _ (wf_chain _ _ Hwf _ _ Hd)
      (wf_nodup _ _ Hwf _ _ Hd)). lia.
Qed.

Lemma find_child_Some ds name l c :
  find_child ds name l = Some c → c ∈ l ∧ d_name <$> ds !! c = Some name.
Proof.
  induction l as [|x l IH]; simpl; [done|]. case_decide; intros; simplify_eq; set_solver.
Qed.
Lemma find_child_None ds name l c :
  find_child ds name l = None → c ∈ l → d_name <$> ds !! c ≠ Some name.
Proof.
  induction l as [|x l IH]; simpl; [set_solver|]. case_decide as E; [done|].
  intros Hf [->|Hc]%elem_of_cons; [done|by apply IH].
Qed.

Lemma find_child_bump p k s name l :
  find_child (dentries (bump p k s)) name l = find_child (dentries s) name l.
Proof.
  induction l as [|x l IH]; cbn [find_child]; [done|].
  assert (E : d_name <$> dentries (bump p k s) !! x = d_name <$> dentries s !! x).
  { unfold bump; simpl. rewrite lookup_alter. case_decide; [subst|done].
    by destruct (_ !! x). }
  rewrite E, IH. done.
Qed.

(** ** The temporary dentry of a lookup that misses *)

(** The state after d_alloc(name, null, cur) returned [t]. *)
Definition linked (t : Z) (name : list Z) (inode cur : Z) (d : Dentry) (s : fs_state A) : fs_state A :=
  set_dentries
    (<[cur := with_child d t]>
       (<[t := MkDentry (take (Z.to_nat (NAME_SIZE - 1)) name) inode cur 0 (d_child d) 1]>
          (dentries s))) s.

Lemma d_alloc_spec s kids name inode cur d L :
  fs_wf s kids → live (heap s) L → accounted s L → dentries s !! cur = Some d →
  ∃ t h, d_alloc name inode cur s = Ret (t, if t =? 0 then set_heap h s
                                        else linked t name inode cur d (set_heap h s)) ∧
      (t = 0 ∧ live h L ∨
       kernel_ptr t ∧ L !! t = None ∧ dentries s !! t = None ∧
       live h (<[t := sizeof_Dentry]> L)).
Proof.
  intros Hwf HL HA Hd.
  destruct (alloc_ok (heap s) L sizeof_Dentry HL) as (t & h & Hal & Hcase); [done|].
  assert (Hcur : cur ≠ 0) by (eapply kernel_ptr_nonnull, wf_ptr; done).
  exists t, h. unfold d_alloc.
  rewrite (K_bind_ret (alloc sizeof_Dentry) _ s t (set_heap h s))
    by (unfold alloc; by rewrite Hal).
  destruct Hcase as [[-> Hl]|(Hk & Hnone & Hl)].
  { split; [done|]. eauto. }
  assert (Hfresh : dentries s !! t = None).
  { apply eq_None_not_Some. intros Hs%(acc_dentry _ _ HA). congruence. }
  rewrite (proj2 (Z.eqb_neq t 0)) by (by apply kernel_ptr_nonnull).
  rewrite (proj2 (Z.ltb_ge t _)) by apply Hk.
  assert (Hne : cur ≠ t) by congruence.
  split; [|eauto 10].
  rewrite (K_bind_ret _ _ _ _ _ (put_dentry_ret _ _ _)).
  rewrite (proj2 (Z.eqb_neq cur 0)) by done.
  set (s1 := set_dentries _ (set_heap h s)).
  assert (H1 : dentries s1 !! cur = Some d) by (unfold s1; simpl; by rewrite lookup_insert_ne).
  assert (H2 : dentries s1 !! t = Some (MkDentry (take (Z.to_nat (NAME_SIZE - 1)) name) inode cur 0 0 1))
    by apply lookup_insert_eq.
  rewrite (K_bind_ret _ _ s1 tt (linked t name inode cur d (set_heap h s))); [done|].
  kstep (get_dentry_ret _ _ _ H1). kstep (get_dentry_ret _ _ _ H2).
  rewrite (K_bind_ret _ _ _ _ _ (put_dentry_ret _ _ _)).
  set (s2 := set_dentries _ s1).
  assert (H3 : dentries s2 !! cur = Some d) by (unfold s2; simpl; by rewrite lookup_insert_ne).
  kstep (get_dentry_ret _ _ _ H3). rewrite put_dentry_ret. f_equal. f_equal.
  unfold linked, s2, s1, set_dentries; simpl. by rewrite insert_insert_eq.
Qed.

(** Dropping the temporary dentry unlinks and frees it: the dentry store is
    what it was. *)
Lemma dput_temp vt s name cur d t h L :
  dentries s !! cur = Some d → cur ≠ 0 → kernel_ptr t → dentries s !! t = None →
  live h (<[t := sizeof_Dentry]> L) → L !! t = None →
  ∃ h', dput vt t (linked t name 0 cur d (set_heap h s)) = Ret (tt, set_heap h' s) ∧ live h' L.
Proof.
  intros Hd Hcur Hk Hfresh Hl HL. assert (Hne : cur ≠ t) by congruence.
  assert (Ht0 : t ≠ 0) by (by apply kernel_ptr_nonnull).
  destruct (free_ok _ _ t sizeof_Dentry Hl) as (h' & Hfree & Hl').
  { apply lookup_insert_eq. }
  rewrite delete_insert_id in Hl' by done.
  exists h'. split; [|done].
  set (s0 := linked t name 0 cur d (set_heap h s)).
  set (td := MkDentry (take (Z.to_nat (NAME_SIZE - 1)) name) 0 cur 0 (d_child d) 1).
  assert (Ht : dentries s0 !! t = Some td).
  { unfold s0, linked; simpl. by rewrite lookup_insert_ne, lookup_insert_eq. }
  unfold dput. rewrite (proj2 (Z.eqb_neq t 0)) by done.
  kstep (get_dentry_ret _ _ _ Ht).
  change (atomic_dec_and_test (d_ref_count td)) with (0, true). cbv beta iota.
  rewrite (K_bind_ret _ _ _ _ _ (put_dentry_ret _ _ _)).
  set (s1 := set_dentries _ s0).
  assert (Ht1 : dentries s1 !! t = Some (with_ref td 0)) by apply lookup_insert_eq.
  assert (Hc1 : dentries s1 !! cur = Some (with_child d t)).
  { unfold s1, s0, linked; simpl. by rewrite lookup_insert_ne, lookup_insert_eq. }
  cbn [d_parent d_inode td]. rewrite (proj2 (Z.eqb_neq cur 0)) by done.
  set (s2 := set_dentries (<[cur := d]> (dentries s1)) s1).
  rewrite (K_bind_ret _ _ s1 tt s2).
  2: { unfold with_fuel, chain_fuel. cbn [unlink_loop read_link].
       rewrite (K_bind_ret _ _ s1 t s1) by (by kstep (get_dentry_ret _ _ _ Hc1)).
       rewrite (proj2 (Z.eqb_neq t 0)), Z.eqb_refl by done.
       kstep (get_dentry_ret _ _ _ Ht1). cbn [write_link].
       kstep (get_dentry_ret _ _ _ Hc1). rewrite put_dentry_ret. unfold s2. repeat f_equal.
       by destruct d. }
  rewrite (K_bind_ret _ _ s2 tt s2) by done.
  rewrite (K_bind_ret (free t sizeof_Dentry) _ s2 tt (set_heap h' s2)).
  2: { unfold free. change (heap s2) with h. by rewrite Hfree. }
  unfold k_modify. f_equal. f_equal. unfold s2, s1, s0, linked, set_dentries, set_heap; simpl.
  destruct s; simpl in *. f_equal. apply map_eq. intros i.
  rewrite lookup_delete. case_decide; [by subst|].
  rewrite !lookup_insert. repeat (case_decide; try congruence).
Qed.

Lemma wf_nonnull s kids p d : fs_wf s kids → dentries s !! p = Some d → p ≠ 0.
Proof. intros Hwf Hd. exact (kernel_ptr_nonnull _ (wf_ptr _ _ Hwf _ _ Hd)). Qed.

(** ** Adding a child *)

Definition add_kid (cur t : Z) (kids : Z → list Z) (p : Z) : list Z :=
  if decide (p = t) then [] else if decide (p = cur) then t :: kids cur else kids p.

Lemma linked_lookup s t name inode cur d p dp :
  dentries s !! cur = Some d → dentries s !! t = None →
  dentries (linked t name inode cur d s) !! p = Some dp →
  p = t ∧ dp = MkDentry (take (Z.to_nat (NAME_SIZE - 1)) name) inode cur 0 (d_child d) 1 ∨
  p ≠ t ∧ ∃ d0, dentries s !! p = Some d0 ∧ dp = (if decide (p = cur) then with_child d0 t else d0).
Proof.
  intros Hd Ht. unfold linked; cbn. rewrite lookup_insert. case_decide as E.
  - subst. intros [= <-]. right. split; [congruence|]. exists d. by rewrite decide_True.
  - rewrite lookup_insert. case_decide as E'; [subst; intros [= <-]; by left|].
    intros Hp. right. split; [done|]. exists dp. by rewrite decide_False by done.
Qed.
Lemma linked_lookup_old s t name inode cur d p d0 :
  dentries s !! cur = Some d → dentries s !! t = None → dentries s !! p = Some d0 →
  dentries (linked t name inode cur d s) !! p =
    Some (if decide (p = cur) then with_child d0 t else d0).
Proof.
  intros Hd Ht Hp. unfold linked; cbn. rewrite lookup_insert. case_decide as E.
  - subst. rewrite decide_True by done. congruence.
  - rewrite decide_False, lookup_insert_ne by congruence. done.
Qed.
Lemma linked_lookup_new s t name inode cur d :
  dentries s !! cur = Some d → dentries s !! t = None →
  dentries (linked t name inode cur d s) !! t =
    Some (MkDentry (take (Z.to_nat (NAME_SIZE - 1)) name) inode cur 0 (d_child d) 1).
Proof.
  intros Hd Ht. unfold linked; cbn. by rewrite lookup_insert_ne, lookup_insert_eq by congruence.
Qed.

Lemma kids_fresh s kids p d t :
  fs_wf s kids → dentries s !! p = Some d → dentries s !! t = None → t ∉ kids p.
Proof.
  intros Hwf Hd Ht Hin. destruct (wf_kid _ _ Hwf _ _ _ Hd Hin) as (? & ? & _). congruence.
Qed.

Lemma linked_tree_wf s kids t name inode cur d L :
  fs_wf s kids → dentries s !! cur = Some d → dentries s !! t = None → kernel_ptr t →
  good_name name → inode ≠ 0 → is_Some (inodes s !! inode) →
  live (heap s) L → accounted s L → L !! t = Some sizeof_Dentry →
  fs_wf (linked t name inode cur d s) (add_kid cur t kids).
Proof.
  intros Hwf Hd Ht Hk Hgn Hi0 Hi HL HA HLt.
  pose proof (λ p dp, linked_lookup s t name inode cur d p dp Hd Ht) as Hinv.
  pose proof (λ p d0, linked_lookup_old s t name inode cur d p d0 Hd Ht) as Hold.
  pose proof (linked_lookup_new s t name inode cur d Hd Ht) as Hnew.
  assert (Hch : ∀ p d0, dentries s !! p = Some d0 →
    chain (dentries (linked t name inode cur d s)) (d_child d0) (kids p)).
  { intros p d0 Hp. eapply chain_agree; [|exact (wf_chain _ _ Hwf _ _ Hp)]. intros x Hx.
    destruct (wf_kid _ _ Hwf _ _ _ Hp Hx) as (dx & Hdx & _). eexists _, _. split; [done|].
    split; [by apply Hold|]. by case_decide. }
  unfold add_kid. split.
  - intros p dp [[-> ->]|[Hpt (d0 & Hp & ->)]]%Hinv; [by rewrite decide_True|].
    rewrite (decide_False (P := p = t)) by done. case_decide as E; [|by apply Hch]. subst.
    split; [done|]. split; [by apply kernel_ptr_nonnull|]. eexists. split; [done|]. simpl.
    by apply Hch.
  - intros p dp [[-> ->]|[Hpt (d0 & Hp & _)]]%Hinv; [rewrite decide_True by done; constructor|].
    rewrite (decide_False (P := p = t)) by done. case_decide as E; [|by eapply wf_nodup]. subst.
    constructor; [by eapply kids_fresh|by eapply wf_nodup].
  - intros p dp c [[-> ->]|[Hpt (d0 & Hp & _)]]%Hinv; [rewrite decide_True by done; set_solver|].
    rewrite (decide_False (P := p = t)) by done. intros Hc.
    assert (c = t ∧ p = cur ∨ c ∈ kids p) as [[-> ->]|Hc'].
    { case_decide; [subst; set_solver|by right]. }
    all: clear Hc.
    + eexists. split; [done|done].
    + destruct (wf_kid _ _ Hwf _ _ _ Hp Hc') as (dc & Hdc & Hpar). eexists. split; [by apply Hold|].
      by case_decide.
  - intros p dp [[-> ->]|[Hpt (d0 & Hp & ->)]]%Hinv.
    + right. cbn [d_parent]. split; [eexists; by apply Hold|].
      rewrite decide_False by congruence. rewrite decide_True by done. set_solver.
    + assert (d_parent (if decide (p = cur) then with_child d0 t else d0) = d_parent d0) as ->
        by (by case_decide).
      destruct (wf_parent _ _ Hwf _ _ Hp) as [?|[[dq Hq] Hin]]; [by left|right].
      split; [eexists; by apply Hold|]. rewrite decide_False by congruence.
      case_decide as E; [rewrite <- E; set_solver|done].
  - intros p dp [[-> ->]|[Hpt (d0 & Hp & _)]]%Hinv; [done|by eapply wf_ptr].
  - intros p dp [[-> ->]|[Hpt (d0 & Hp & ->)]]%Hinv; [done|].
    pose proof (wf_ref _ _ Hwf _ _ Hp). by case_decide.
  - intros p dp [[-> ->]|[Hpt (d0 & Hp & ->)]]%Hinv; [done|].
    pose proof (wf_inode _ _ Hwf _ _ Hp). by case_decide.
  - intros p dp [[-> ->]|[Hpt (d0 & Hp & ->)]]%Hinv; [by apply Forall_take|].
    pose proof (wf_name _ _ Hwf _ _ Hp). by case_decide.
  - exists L. split; [done|]. destruct HA as [HD HI HF HP HB]. split; try done.
    intros p [dp [[-> ->]|[Hpt (d0 & Hp & _)]]%Hinv]; try done. apply HD. eauto.
Qed.

(** The tree after adding a child: resolution of one step changes at the new
    name and nowhere else. *)
Lemma find_child_linked s t name inode cur d comp l :
  dentries s !! cur = Some d → dentries s !! t = None → (∀ x, x ∈ l → is_Some (dentries s !! x)) →
  find_child (dentries (linked t name inode cur d s)) comp l = find_child (dentries s) comp l.
Proof.
  intros Hd Ht Hl. induction l as [|x l IH]; cbn [find_child]; [done|].
  rewrite IH by set_solver. destruct (Hl x) as [dx Hx]; [set_solver|].
  assert (E : d_name <$> dentries (linked t name inode cur d s) !! x = d_name <$> dentries s !! x).
  { rewrite (linked_lookup_old _ _ _ _ _ _ _ _ Hd Ht Hx), Hx. simpl. by case_decide. }
  by rewrite E.
Qed.

(** ** Path resolution on the tree *)

Definition is_dir (s : fs_state A) (p : Z) : bool :=
  match dentries s !! p with
  | Some d => match inodes s !! d_inode d with
              | Some i => bool_decide (i_type i = Directory)
              | None => false
              end
  | None => false
  end.
Definition parent_of (s : fs_state A) (p : Z) : Z :=
  match dentries s !! p with
  | Some d => if d_parent d =? 0 then p else d_parent d
  | None => p
  end.

(** The components of a path: the non-empty pieces between slashes. *)
Fixpoint split_slash (p : list Z) : list (list Z) :=
  match p with
  | [] => [[]]
  | c :: p' =>
      if c =? SLASH then [] :: split_slash p'
      else match split_slash p' with
           | h :: t => (c :: h) :: t
           | [] => [[c]]
           end
  end.
Definition components (p : list Z) : list (list Z) := filter (λ c, c ≠ []) (split_slash p).

(** One component from dentry [cur]: the next dentry or an errno. *)
Definition step (s : fs_state A) (kids : Z → list Z) (comp : list Z) (cur : Z) : Z + Z :=
  if decide (comp = [DOT]) then inl cur
  else if decide (comp = [DOT; DOT]) then inl (parent_of s cur)
  else if is_dir s cur then
    match find_child (dentries s) comp (kids cur) with
    | Some c => inl c
    | None => inr ENOENT
    end
  else inr ENOTDIR.

Fixpoint resolve (s : fs_state A) (kids : Z → list Z) (comps : list (list Z)) (cur : Z) : Z + Z :=
  match comps with
  | [] => inl cur
  | comp :: comps' =>
      if NAME_SIZE <=? Z.of_nat (length comp) then inr ENAMETOOLONG
      else match step s kids comp cur with
           | inl next => resolve s kids comps' next
           | inr e => inr e
           end
  end.

Lemma step_exists s kids comp cur next :
  fs_wf s kids → is_Some (dentries s !! cur) → step s kids comp cur = inl next →
  is_Some (dentries s !! next).
Proof.
  intros Hwf [d Hd]. unfold step, parent_of. rewrite Hd.
  repeat case_decide; [intros [= <-]; eauto| |].
  - zcase; intros [= <-]; [eauto|]. by destruct (wf_parent _ _ Hwf _ _ Hd) as [|[? _]].
  - destruct (is_dir s cur); [|done]. destruct (find_child _ _ _) as [c|] eqn:E; [|done].
    intros [= <-]. apply find_child_Some in E as [Hc _].
    destruct (wf_kid _ _ Hwf _ _ _ Hd Hc) as (dc & ? & _). eauto.
Qed.

Lemma linked_wf s kids h t n L :
  fs_wf s kids → L !! t = None → live h (<[t := n]> L) →
  accounted s L →
  fs_wf (set_heap h s) kids.
Proof.
  intros Hwf Ht Hl HA. eapply wf_set_heap; [done|exact Hl|by apply accounted_fresh].
Qed.

(** What a file system promises to the path walk when its directories are
    wholly cached in the dentry tree: a lookup that finds no sibling of the
    temporary dentry with the wanted name returns null and changes nothing. *)
Class CachedLookup (vt : vtables (fs_state A)) : Prop := cached_lookup :
  ∀ q ops f, vt_iops vt q = Some ops → op_lookup ops = Some f →
  ∀ s dir i t dt dc l name,
    inodes s !! dir = Some i → dentries s !! t = Some dt → d_parent dt ≠ 0 →
    dentries s !! d_parent dt = Some dc → chain (dentries s) (d_child dc) l → NoDup l →
    good_name name → (∀ x d, x ∈ l → dentries s !! x = Some d → good_name (d_name d)) →
    (∀ x, x ∈ l → x ≠ t → d_name <$> dentries s !! x ≠ Some name) →
    f dir t name s = Ret (0, s).

(** [s'] is [s] but for the allocator's bookkeeping. *)
Definition same_fs (s s' : fs_state A) (kids : Z → list Z) : Prop :=
  ∃ h, s' = set_heap h s ∧ fs_wf s' kids.

Lemma same_fs_refl s kids : fs_wf s kids → same_fs s s kids.
Proof. intros Hwf. exists (heap s). split; [by destruct s|done]. Qed.

(** The error a walk reports is the one of the resolution; when the temporary
    dentry of a missing name cannot be allocated it is ENOMEM. *)
Definition reports (e r : Z) : Prop :=
  r = ERR_PTR (- e) ∨ e = ENOENT ∧ r = ERR_PTR (- ENOMEM).

Context (vt : vtables (fs_state A)) `{!CachedLookup vt}.

(** Handing the walk's reference over from [cur] to [next]. *)
Lemma move_ref s kids cur next :
  fs_wf s kids → refs_below s (2 ^ 31 - 2) →
  is_Some (dentries s !! cur) → is_Some (dentries s !! next) →
  (dget next ≫= λ _, dput vt cur ≫= λ _, mret (inl next)) (bump cur 1 s)
    = Ret (inl next : Z + Z, bump next 1 s).
Proof.
  intros Hwf Hr [dc Hc] [dn Hn].
  pose proof (bump_lookup cur 1 s next dn Hn) as Hn1.
  pose proof (wf_ref _ _ Hwf _ _ Hn). pose proof (wf_ref _ _ Hwf _ _ Hc).
  pose proof (Hr _ _ Hn). pose proof (Hr _ _ Hc).
  pose proof (wf_nonnull _ _ _ _ Hwf Hn) as Hn0. pose proof (wf_nonnull _ _ _ _ Hwf Hc) as Hc0.
  rewrite (K_bind_ret _ _ _ _ _ (dget_spec _ _ _ Hn1 Hn0 ltac:(simpl; case_decide; lia))).
  rewrite bump_comm.
  pose proof (bump_lookup next 1 s cur dc Hc) as Hc1.
  pose proof (bump_lookup cur 1 (bump next 1 s) cur _ Hc1) as Hc2.
  rewrite (K_bind_ret _ _ _ _ _ (dput_spec vt _ _ _ Hc2 Hc0
    ltac:(simpl; repeat case_decide; congruence || lia))).
  by rewrite bump_bump, bump_0.
Qed.

Lemma drop_ref s kids cur (r : Z + Z) :
  fs_wf s kids → refs_below s (2 ^ 31 - 2) → is_Some (dentries s !! cur) →
  (dput vt cur ≫= λ _, mret r) (bump cur 1 s) = Ret (r, s).
Proof.
  intros Hwf Hr [dc Hc]. pose proof (bump_lookup cur 1 s cur dc Hc) as Hc1.
  rewrite decide_True in Hc1 by done.
  pose proof (wf_ref _ _ Hwf _ _ Hc). pose proof (Hr _ _ Hc).
  pose proof (wf_nonnull _ _ _ _ Hwf Hc) as Hc0.
  rewrite (K_bind_ret _ _ _ _ _ (dput_spec vt _ _ _ Hc1 Hc0 ltac:(simpl; lia))).
  by rewrite bump_bump, bump_0.
Qed.

(** The lookup operation is called with the temporary dentry linked. *)
Lemma lookup_misses s kids cur d t name q ops f :
  fs_wf s kids → dentries s !! cur = Some d → kernel_ptr t → dentries s !! t = None →
  good_name name → find_child (dentries s) name (kids cur) = None →
  vt_iops vt q = Some ops → op_lookup ops = Some f →
  f (d_inode d) t name (linked t name 0 cur d s) = Ret (0, linked t name 0 cur d s).
Proof.
  intros Hwf Hd Hk Hfresh Hgn Hmiss Hq Hf. assert (Hne : cur ≠ t) by congruence.
  set (s1 := linked t name 0 cur d s).
  set (td := MkDentry (take (Z.to_nat (NAME_SIZE - 1)) name) 0 cur 0 (d_child d) 1).
  assert (Ht : dentries s1 !! t = Some td).
  { unfold s1, linked; simpl. by rewrite lookup_insert_ne, lookup_insert_eq. }
  assert (Hc : dentries s1 !! cur = Some (with_child d t)) by apply lookup_insert_eq.
  assert (Hout : ∀ x dx, x ≠ t → dentries s !! x = Some dx → ∃ dx', dentries s1 !! x = Some dx' ∧
    d_sibling dx' = d_sibling dx ∧ d_name dx' = d_name dx).
  { intros x dx Hxt Hx. unfold s1, linked; simpl. destruct (decide (x = cur)) as [->|].
    - rewrite lookup_insert_eq. simplify_eq. eauto.
    - rewrite !lookup_insert_ne by done. eauto. }
  assert (Hnt : t ∉ kids cur).
  { intros Hin. destruct (chain_elem _ _ _ _ (wf_chain _ _ Hwf _ _ Hd) Hin) as [? ?]. congruence. }
  destruct (wf_inode _ _ Hwf _ _ Hd) as [Hi0 [i Hi]].
  eapply (cached_lookup q ops f Hq Hf s1 (d_inode d) i t td (with_child d t) (t :: kids cur)); try done.
  - simpl. by eapply wf_nonnull.
  - simpl. split; [done|]. split; [by apply kernel_ptr_nonnull|]. exists td. split; [done|]. simpl.
    eapply chain_agree; [|exact (wf_chain _ _ Hwf _ _ Hd)]. intros x Hx.
    destruct (chain_elem _ _ _ _ (wf_chain _ _ Hwf _ _ Hd) Hx) as [dx Hdx].
    destruct (Hout x dx) as (dx' & ? & ? & ?); [set_solver|done|]. eauto 10.
  - constructor; [done|by eapply wf_nodup].
  - intros x dx [->|Hx]%elem_of_cons Hdx.
    + rewrite Ht in Hdx. simplify_eq. simpl. by apply Forall_take.
    + destruct (chain_elem _ _ _ _ (wf_chain _ _ Hwf _ _ Hd) Hx) as [dx0 Hdx0].
      destruct (Hout x dx0) as (dx' & ? & _ & Hnm); [set_solver|done|]. simplify_eq.
      rewrite Hnm. by eapply wf_name.
  - intros x [->|Hx]%elem_of_cons Hxt; [done|].
    destruct (chain_elem _ _ _ _ (wf_chain _ _ Hwf _ _ Hd) Hx) as [dx Hdx].
    destruct (Hout x dx) as (dx' & E & _ & Hnm); [set_solver|done|].
    rewrite E. simpl. rewrite Hnm.
    pose proof (find_child_None _ _ _ _ Hmiss Hx) as Hno. by rewrite Hdx in Hno.
Qed.

(** The part of walk_component that runs when no child has the name. *)
Lemma walk_miss s kids comp cur d (f : Z → Z → list Z → K (fs_state A) Z) q ops :
  fs_wf s kids → refs_below s (2 ^ 31 - 2) → dentries s !! cur = Some d →
  good_name comp → find_child (dentries s) comp (kids cur) = None →
  vt_iops vt q = Some ops → op_lookup ops = Some f →
  ∃ p s', (temp_d ← d_alloc comp 0 cur;
     if temp_d =? 0 then dput vt cur ≫= λ _, mret (inr (ERR_PTR (- ENOMEM)))
     else
       next ← f (d_inode d) temp_d comp;
       if next =? 0 then
         dput vt temp_d ≫= λ _, dput vt cur ≫= λ _, mret (inr (ERR_PTR (- ENOENT)))
       else mret (inl next)) (bump cur 1 s) = Ret (inr p : Z + Z, s') ∧
    reports ENOENT p ∧ same_fs s s' kids.
Proof.
  intros Hwf Hr Hd Hgn Hmiss Hq Hf. set (s1 := bump cur 1 s).
  assert (Hwf1 : fs_wf s1 kids) by (by apply wf_bump).
  pose proof (bump_lookup cur 1 s cur d Hd) as Hd1. rewrite decide_True in Hd1 by done.
  fold s1 in Hd1. set (d1 := with_ref d (d_ref_count d + 1)) in *.
  destruct (wf_heap _ _ Hwf1) as (L & HL & HA).
  destruct (d_alloc_spec s1 kids comp 0 cur d1 L Hwf1 HL HA Hd1) as (t & h & Ha & Hcase).
  rewrite (K_bind_ret _ _ _ _ _ Ha). destruct Hcase as [[-> Hl]|(Hk & HLt & Hfresh & Hl)].
  - exists (ERR_PTR (- ENOMEM)), (set_heap h s).
    assert (Hwf' : fs_wf (set_heap h s) kids).
    { eapply wf_set_heap; [done|exact Hl|by eapply accounted_bump]. }
    rewrite Z.eqb_refl. unfold s1. rewrite <- bump_heap.
    split; [eapply drop_ref; [exact Hwf'|done|eauto]|].
    split; [by right|]. by exists h.
  - rewrite (proj2 (Z.eqb_neq t 0)) by (by apply kernel_ptr_nonnull).
    assert (Hwfh : fs_wf (set_heap h s1) kids) by (eapply linked_wf; eauto).
    rewrite (K_bind_ret (f _ _ _) _ _ 0 (linked t comp 0 cur d1 (set_heap h s1))).
    2: { change (d_inode d) with (d_inode d1).
         eapply (lookup_misses (set_heap h s1) kids); try done.
         change (dentries (set_heap h s1)) with (dentries s1). unfold s1.
         by rewrite find_child_bump. }
    rewrite Z.eqb_refl.
    destruct (dput_temp vt s1 comp cur d1 t h L) as (h' & Hput & Hl'); try done.
    { by eapply wf_nonnull. }
    rewrite (K_bind_ret _ _ _ _ _ Hput).
    assert (Hwf' : fs_wf (set_heap h' s) kids).
    { eapply wf_set_heap; [done|exact Hl'|by eapply accounted_bump]. }
    exists (ERR_PTR (- ENOENT)), (set_heap h' s). unfold s1. rewrite <- bump_heap.
    split; [eapply drop_ref; [exact Hwf'|done|eauto]|].
    split; [by left|]. by exists h'.
Qed.

(** One component of a walk: it moves the walk's reference to the dentry
    [step] names, or drops it and reports the error. *)
Lemma walk_component_spec s kids comp cur :
  fs_wf s kids → refs_below s (2 ^ 31 - 2) → is_Some (dentries s !! cur) → good_name comp →
  ∃ r s', walk_component vt comp cur (bump cur 1 s) = Ret (r, s') ∧
    match step s kids comp cur with
    | inl next => r = inl next ∧ s' = bump next 1 s
    | inr e => ∃ p, r = inr p ∧ reports e p ∧ same_fs s s' kids
    end.
Proof.
  intros Hwf Hr [d Hd] Hgn. pose proof (step_exists s kids comp cur) as Hst.
  unfold walk_component, step in *.
  rewrite !str_eqb_eq by (done || (repeat constructor; unfold DOT; lia)).
  assert (Hwf1 : fs_wf (bump cur 1 s) kids) by (by apply wf_bump).
  pose proof (bump_lookup cur 1 s cur d Hd) as Hd1. rewrite decide_True in Hd1 by done.
  case_decide as E1; [rewrite bool_decide_true by done; eauto|].
  rewrite bool_decide_false by done. case_decide as E2.
  { rewrite bool_decide_true by done. kstep (get_dentry_ret _ _ _ Hd1).
    cbn [d_parent with_ref]. unfold parent_of in *. rewrite Hd in *.
    zcase; [eauto|]. eexists _, _. split; [|done]. eapply move_ref; eauto. }
  rewrite bool_decide_false by done. kstep (get_dentry_ret _ _ _ Hd1).
  destruct (wf_inode _ _ Hwf _ _ Hd) as [_ [i Hi]].
  rewrite (K_bind_ret (get_inode _) _ (bump cur 1 s) i (bump cur 1 s)) by (by apply get_inode_ret).
  unfold is_dir in *. rewrite Hd, Hi in *. case_bool_decide as E3; cbn [negb].
  2: { eexists _, _. split; [eapply drop_ref; eauto|]. eexists. split; [done|].
       split; [by left|by apply same_fs_refl]. }
  rewrite (K_bind_ret _ _ _ _ _ (d_lookup_spec _ _ _ _ _ Hwf1 Hd1 Hgn)), find_child_bump.
  destruct (find_child _ _ _) as [c|] eqn:Ec; cbn [default from_option id].
  - destruct (Hst c Hwf ltac:(eauto) eq_refl) as [dc Hdc].
    rewrite (proj2 (Z.eqb_neq c 0)) by (exact (wf_nonnull _ _ _ _ Hwf Hdc)).
    rewrite (K_bind_ret _ _ (bump cur 1 s) (inl c) (bump cur 1 s)) by done.
    eexists _, _. split; [|done]. eapply move_ref; eauto.
  - cbn [Z.eqb]. destruct (vt_iops vt (i_ops i)) as [ops|] eqn:Eops; cbn [mbind option_bind];
      [destruct (op_lookup ops) as [f|] eqn:Ef|].
    + destruct (walk_miss s kids comp cur d f (i_ops i) ops) as (p & s' & Hrun & Hrep & Hs); try done.
      cbn [d_inode with_ref]. rewrite (K_bind_ret _ _ _ _ _ Hrun). eauto 10.
    + rewrite (K_bind_ret _ _ _ _ _ (drop_ref s kids cur _ Hwf Hr ltac:(eauto))).
      eexists _, _. split; [done|]. eexists. split; [done|]. split; [by left|by apply same_fs_refl].
    + rewrite (K_bind_ret _ _ _ _ _ (drop_ref s kids cur _ Hwf Hr ltac:(eauto))).
      eexists _, _. split; [done|]. eexists. split; [done|]. split; [by left|by apply same_fs_refl].
Qed.

(** ** The whole walk *)

Lemma components_skip p : components (skip_slashes p) = components p.
Proof.
  induction p as [|c p IH]; [done|]. cbn [skip_slashes]. destruct (c =? SLASH) eqn:E; [|done].
  rewrite IH. unfold components. cbn [split_slash]. by rewrite E, filter_cons_False by tauto.
Qed.
Lemma skip_skip p : skip_slashes (skip_slashes p) = skip_slashes p.
Proof.
  induction p as [|c p IH]; [done|]. cbn [skip_slashes]. destruct (c =? SLASH) eqn:E; [done|].
  cbn [skip_slashes]. by rewrite E.
Qed.
Lemma skip_length p : (length (skip_slashes p) ≤ length p)%nat.
Proof. induction p as [|c p IH]; simpl; [done|]. case_match; simpl; lia. Qed.
Lemma good_name_skip p : good_name p → good_name (skip_slashes p).
Proof. induction 1; simpl; [constructor|]. case_match; [done|by constructor]. Qed.

(** scan_component cuts the path at its first slash, unless the piece does not
    fit the component buffer. *)
Lemma scan_spec p len :
  0 ≤ len → ∃ h rest, p = h ++ rest ∧ skip_slashes h = h ∧
    split_slash p = h :: drop 1 (split_slash p) ∧
    components rest = filter (λ c, c ≠ []) (drop 1 (split_slash p)) ∧
    scan_component p len =
      if decide (h ≠ [] ∧ NAME_SIZE ≤ len + Z.of_nat (length h)) then None else Some (h, rest).
Proof.
  revert len. induction p as [|c p IH]; intros len Hlen.
  { exists [], []. cbn. repeat split; try done. }
  cbn [split_slash scan_component]. destruct (c =? SLASH) eqn:E.
  - exists [], (c :: p). repeat split; try done.
    + unfold components. cbn [split_slash drop]. rewrite E, filter_cons_False by tauto. done.
  - destruct (IH (len + 1)) as (h & rest & -> & Hh & Hs & Hc & Hscan); [lia|].
    exists (c :: h), rest. rewrite Hs, Hscan. cbn [drop].
    repeat split; try done.
    + cbn [skip_slashes]. by rewrite E.
    + cbn [length]. zcase.
      * rewrite decide_True; [done|]. split; [done|]. lia.
      * destruct (decide (h = [])) as [->|Hne].
        -- rewrite (decide_False (P := [] ≠ [] ∧ _)) by tauto.
           rewrite decide_False by (intros [_ ?]; cbn in *; unfold NAME_SIZE in *; lia). done.
        -- destruct (decide (NAME_SIZE ≤ len + 1 + Z.of_nat (length h))).
           ++ rewrite !decide_True; [done|split; [done|lia]|split; [done|lia]].
           ++ rewrite !decide_False; [done|intros [_ ?]; lia|intros [_ ?]; lia].
Qed.

Lemma walk_loop_spec s kids fuel p cur :
  fs_wf s kids → refs_below s (2 ^ 31 - 2) → is_Some (dentries s !! cur) → good_name p →
  skip_slashes p = p → (length p < fuel)%nat →
  ∃ r s', walk_loop vt fuel p cur (bump cur 1 s) = Ret (r, s') ∧
    match resolve s kids (components p) cur with
    | inl t => r = t ∧ s' = bump t 1 s
    | inr e => reports e r ∧ same_fs s s' kids
    end.
Proof.
  intros Hwf Hr. revert p cur. induction fuel as [|f IH]; intros p cur Hcur Hgn Hsk Hf; [lia|].
  destruct p as [|c p]; [by exists cur, (bump cur 1 s)|]. cbn [walk_loop].
  destruct (scan_spec (c :: p) 0) as (h & rest & Hp & Hh & Hs & Hc & Hscan); [done|].
  assert (Hne : h ≠ []).
  { intros ->. cbn [split_slash] in Hs. cbn [skip_slashes] in Hsk. destruct (c =? SLASH).
    - pose proof (skip_length p). rewrite Hsk in H1. simpl in *. lia.
    - destruct (split_slash p); simplify_eq. }
  rewrite Hscan. unfold components. rewrite Hs, filter_cons_True, <- Hc by done.
  cbn [resolve]. case_decide as Hlong.
  - rewrite (proj2 (Z.leb_le _ _)) by lia. eexists _, _.
    rewrite Hp in Hgn.
    split; [|split; [by left|by apply same_fs_refl]].
    destruct Hcur as [d Hd]. pose proof (drop_ref s kids cur (inr 0) Hwf Hr ltac:(eauto)) as Hd'.
    apply K_bind_inv in Hd' as (u & s1 & Hput & Heq). injection Heq as ->.
    by rewrite (K_bind_ret _ _ _ _ _ Hput).
  - rewrite (proj2 (Z.leb_gt _ _)) by (destruct (decide (NAME_SIZE ≤ Z.of_nat (length h))); tauto || lia).
    rewrite Hp in Hgn. apply Forall_app in Hgn as [Hgh Hgr].
    destruct (walk_component_spec s kids h cur Hwf Hr Hcur Hgh) as (r & s' & Hrun & Hres).
    rewrite (K_bind_ret _ _ _ _ _ Hrun). destruct (step s kids h cur) as [next|e] eqn:Est.
    + destruct Hres as [-> ->]. rewrite <- (components_skip rest).
      apply IH; [by eapply step_exists|by apply good_name_skip|apply skip_skip|].
      pose proof (skip_length rest). apply (f_equal length) in Hp. rewrite length_app in Hp.
      destruct h; [done|]. simpl in *. lia.
    + destruct Hres as (q & -> & ? & ?). eauto.
Qed.

(** The root mount: a superblock with a root inode, and a dentry. *)
Definition mounted_root (s : fs_state A) (root : Z) : Prop :=
  g_root_mount s ≠ 0 ∧ ∃ m sb, mounts s !! g_root_mount s = Some m ∧ m_mount_point m = root ∧
    m_sb m ≠ 0 ∧ supers s !! m_sb m = Some sb ∧ sb_root sb ≠ 0 ∧ is_Some (dentries s !! root).

Lemma path_walk_spec s kids root p :
  fs_wf s kids → refs_below s (2 ^ 31 - 2) → mounted_root s root → good_name p →
  ∃ r s', path_walk vt (SLASH :: p) s = Ret (r, s') ∧
    match resolve s kids (components p) root with
    | inl t => r = t ∧ s' = bump t 1 s
    | inr e => reports e r ∧ same_fs s s' kids
    end.
Proof.
  intros Hwf Hr (Hg & m & sb & Hm & Hroot & Hsb & Hsuper & Hsr & [d Hd]) Hgn.
  unfold path_walk. rewrite Z.eqb_refl. cbn [negb].
  rewrite (K_bind_ret _ _ s (g_root_mount s) s) by done. rewrite (proj2 (Z.eqb_neq _ _)) by done.
  rewrite (K_bind_ret _ _ s m s) by (unfold get_mount; by rewrite Hm).
  rewrite (proj2 (Z.eqb_neq _ _)) by done.
  rewrite (K_bind_ret _ _ s sb s) by (unfold get_super; by rewrite Hsuper).
  rewrite (proj2 (Z.eqb_neq _ _)) by done. rewrite Hroot.
  pose proof (wf_nonnull _ _ _ _ Hwf Hd) as Hr0. pose proof (wf_ref _ _ Hwf _ _ Hd).
  pose proof (Hr _ _ Hd). rewrite (proj2 (Z.eqb_neq _ _)) by done.
  rewrite (K_bind_ret _ _ _ _ _ (dget_spec _ _ _ Hd Hr0 ltac:(lia))).
  change (skip_slashes (SLASH :: p)) with (skip_slashes p). rewrite <- (components_skip p).
  apply walk_loop_spec; try done; [by apply good_name_skip|apply skip_skip|].
  pose proof (skip_length p). simpl. lia.
Qed.

End Tree.
