(* ===== verification/RamfsSpec.v ===== *)
(** * ramfs on the VFS: lookups, creation, reads

    ramfs keeps its whole tree in the dentry cache, so it discharges
    [CachedLookup] and path resolution on a mounted ramfs is [resolve].
    Creation adds one child to the tree and keeps the invariant; what
    create_file stores is what open and read give back. *)

From S2P Require Import Prelude KString Errno Alloc Vfs Ramfs VfsTree.

Section RamfsSpec.
Context {A : Type} `{AllocatorSpec A}.
Implicit Types s : fs_state A.

(** ** Lookup *)

Lemma ramfs_lookup_loop_misses s t name l fuel p :
  chain (dentries s) p l → good_name name →
  (∀ x d, x ∈ l → dentries s !! x = Some d → good_name (d_name d)) →
  (∀ x, x ∈ l → x ≠ t → d_name <$> dentries s !! x ≠ Some name) →
  (length l < fuel)%nat →
  ramfs_lookup_loop fuel p t name s = Ret (0, s).
Proof.
  intros Hc Hn Hgn Hno. revert fuel p Hc Hgn Hno.
  induction l as [|x l IH]; intros [|f] p Hc Hgn Hno Hf; simpl in *; try lia.
  { by rewrite Hc. }
  destruct Hc as (-> & Hx & d & Hd & Hc). rewrite (proj2 (Z.eqb_neq x 0)) by done.
  kstep (get_dentry_ret _ _ _ Hd).
  rewrite str_eqb_eq by (done || (eapply Hgn; [|done]; set_solver)).
  assert (negb (x =? t) && bool_decide (d_name d = name) = false) as ->.
  { destruct (Z.eqb_spec x t) as [|Hne]; [done|]. simpl. apply bool_decide_false.
    intros <-. eapply (Hno x); [set_solver|done|]. by rewrite Hd. }
  apply IH; [done| | |lia].
  - intros y dy Hy. apply Hgn. set_solver.
  - intros y Hy. apply Hno. set_solver.
Qed.

#[export] Instance ramfs_cached : CachedLookup (A := A) ramfs_vt.
Proof.
  intros q ops f Hq Hf s dir i t dt dc l name Hi Ht Hp Hdc Hc Hnd Hn Hgn Hno.
  unfold ramfs_vt in Hq; simpl in Hq. case_match; simplify_eq. simpl in Hf. simplify_eq.
  unfold ramfs_lookup. kstep (get_inode_ret _ _ _ Hi). case_bool_decide; [|done]. simpl.
  kstep (get_dentry_ret _ _ _ Ht). rewrite (proj2 (Z.eqb_neq _ 0)) by done.
  kstep (get_dentry_ret _ _ _ Hdc). eapply ramfs_lookup_loop_misses; eauto.
  unfold chain_fuel. pose proof (chain_length _ _ _ Hc Hnd). lia.
Qed.

(** ** Changes that keep the dentries *)

Lemma wf_update s s' kids L :
  fs_wf s kids → dentries s' = dentries s →
  (∀ p, is_Some (inodes s !! p) → is_Some (inodes s' !! p)) →
  live (heap s') L → accounted s' L → fs_wf s' kids.
Proof.
  intros [] Hd Hi Hl HA. split; rewrite ?Hd; eauto. intros p d Hp.
  destruct (wf_inode p d Hp); eauto.
Qed.

Lemma alloc_ret s n p h : slab_alloc n (heap s) = Ret (p, h) → alloc n s = Ret (p, set_heap h s).
Proof. intros E. unfold alloc. by rewrite E. Qed.
Lemma free_ret s n p h : slab_free p n (heap s) = Ret h → free p n s = Ret (tt, set_heap h s).
Proof. intros E. unfold free. by rewrite E. Qed.

(** [s'] is [s] but for the allocator and the next inode number. *)
Definition same_tree (s s' : fs_state A) : Prop :=
  ∃ h n, s' = set_heap h (set_next_ino n s).

Lemma accounted_new s L p q i v h n :
  accounted s L → L !! p = None → L !! q = None → p ≠ q →
  accounted (set_privs (<[q := v]> (privs s)) (set_inodes (<[p := i]> (inodes s))
    (set_heap h (set_next_ino n s)))) (<[q := sizeof_InodeData]> (<[p := sizeof_Inode]> L)).
Proof.
  intros HA Hp Hq Hpq.
  assert (HA' : accounted s (<[q := sizeof_InodeData]> (<[p := sizeof_Inode]> L))).
  { apply accounted_fresh; [by apply accounted_fresh|]. by rewrite lookup_insert_ne. }
  destruct HA' as [HD HI HF HP HB]. split; cbn; try done; intros x Hx.
  - apply lookup_insert_is_Some in Hx as [<-|[_ Hx]]; [|by apply HI].
    by rewrite lookup_insert_ne, lookup_insert_eq by done.
  - apply lookup_insert_is_Some in Hx as [<-|[_ Hx]]; [|by apply HP]. by rewrite lookup_insert_eq.
Qed.

(** alloc_inode: null with nothing but the allocator and the inode counter
    changed, or a fresh inode with its private data. *)
Lemma alloc_inode_spec s kids ty L :
  fs_wf s kids → live (heap s) L → accounted s L →
  ∃ p s', alloc_inode ty s = Ret (p, s') ∧ fs_wf s' kids ∧
    (p = 0 ∧ same_tree s s' ∧ live (heap s') L ∨
     ∃ q h n, kernel_ptr p ∧ q ≠ 0 ∧ L !! p = None ∧ L !! q = None ∧ p ≠ q ∧
       live h (<[q := sizeof_InodeData]> (<[p := sizeof_Inode]> L)) ∧
       s' = set_privs (<[q := MkInodeData 0 0]> (privs s))
              (set_inodes (<[p := MkInode (g_next_ino s) ty 0 1 (g_sb s)
                                RAMFS_INODE_OPS RAMFS_FILE_OPS q]> (inodes s))
                 (set_heap h (set_next_ino n s)))).
Proof.
  intros Hwf HL HA. unfold alloc_inode.
  destruct (alloc_ok (heap s) L sizeof_Inode HL) as (p & h & Ep & Hcase); [done|].
  rewrite (K_bind_ret _ _ _ _ _ (alloc_ret _ _ _ _ Ep)).
  destruct Hcase as [[-> Hl]|(Hk & Hnone & Hl)].
  { eexists 0, _. split; [done|]. split; [by eapply wf_set_heap|]. left. split; [done|].
    split; [|done]. exists h, (g_next_ino s). by destruct s. }
  rewrite (proj2 (Z.eqb_neq p 0)) by (by apply kernel_ptr_nonnull).
  krun. cbv beta. destruct (alloc_ok h (<[p := sizeof_Inode]> L) sizeof_InodeData Hl)
    as (q & h' & Eq & Hcase); [done|].
  erewrite K_bind_ret by (apply alloc_ret; exact Eq).
  destruct Hcase as [[-> Hl']|(Hkq & Hnq & Hl')].
  - rewrite Z.eqb_refl. cbn [g_sb set_next_ino set_heap].
    destruct (free_ok h' _ p sizeof_Inode Hl') as (h2 & Ef & Hl2); [apply lookup_insert_eq|].
    rewrite delete_insert_id in Hl2 by done.
    erewrite K_bind_ret by (apply free_ret; exact Ef). krun.
    assert (inodes s !! p = None) as Hip.
    { apply eq_None_not_Some. intros Hs%(acc_inode _ _ HA). congruence. }
    set (s' := set_inodes _ _).
    assert (s' = set_heap h2 (set_next_ino (u32 (g_next_ino s + 1)) s)) as ->.
    { unfold s'. cbn [inodes set_inodes set_heap set_next_ino]. rewrite delete_insert_id by done. by destruct s. }
    eexists 0, _. split; [done|]. split; [|left; split; [done|]; split; [|done]; by eexists _, _].
    eapply wf_update; [done|done|done|exact Hl2|]. by destruct HA.
  - rewrite (proj2 (Z.eqb_neq q 0)) by (by apply kernel_ptr_nonnull). krun.
    apply lookup_insert_None in Hnq as [HLq Hpq].
    assert (Hq0 : q ≠ 0) by (by apply kernel_ptr_nonnull).
    eexists p, _. split; [done|]. cbn [g_sb set_next_ino set_heap].
    set (s' := set_inodes _ _).
    assert (s' = set_privs (<[q := MkInodeData 0 0]> (privs s))
              (set_inodes (<[p := MkInode (g_next_ino s) ty 0 1 (g_sb s)
                                RAMFS_INODE_OPS RAMFS_FILE_OPS q]> (inodes s))
                 (set_heap h' (set_next_ino (u32 (g_next_ino s + 1)) s)))) as ->.
    { unfold s'. cbn [inodes set_inodes set_heap set_next_ino set_privs]. rewrite insert_insert_eq. by destruct s. }
    split.
    + eapply wf_update; [done|done| |exact Hl'|by apply accounted_new].
      intros x Hx. cbn. rewrite !lookup_insert. case_decide; [eauto|done].
    + right. exists q, h', (u32 (g_next_ino s + 1)). by do 6 (split; [done|]).
Qed.

(** ** Contents *)

(** What a regular file holds, through its inode's private data. *)
Definition content (s : fs_state A) (i : Inode) : option (list Z) :=
  if i_private_data i =? 0 then Some [] else
  v ← privs s !! i_private_data i;
  if buffer v =? 0 then Some [] else buffers s !! buffer v.

(** A regular file's size is that of its data; nothing else has a size. *)
Definition inode_good (s : fs_state A) (i : Inode) : Prop :=
  i_f_ops i = RAMFS_FILE_OPS ∧
  if decide (i_type i = Regular) then
    ∃ data, content s i = Some data ∧ i_size i = Z.of_nat (length data) ∧ i_size i < 2 ^ 32 ∧
      Forall (λ b, 0 ≤ b < 256) data
  else i_size i = 0.
Definition contents_ok (s : fs_state A) : Prop := ∀ p i, inodes s !! p = Some i → inode_good s i.

Lemma content_mono s s' i data : privs s ⊆ privs s' → buffers s ⊆ buffers s' →
  content s i = Some data → content s' i = Some data.
Proof.
  intros Hp Hb. unfold content. destruct (_ =? 0); [done|].
  destruct (privs s !! i_private_data i) as [v|] eqn:E; [|done]. rewrite (lookup_weaken _ _ _ _ E Hp).
  cbn [mbind option_bind]. destruct (_ =? 0); [done|]. intros E'. by eapply lookup_weaken.
Qed.
Lemma inode_good_mono s s' i : privs s ⊆ privs s' → buffers s ⊆ buffers s' → inode_good s i → inode_good s' i.
Proof.
  intros Hp Hb [Hf Ht]. split; [done|]. destruct (decide _); [|done]. destruct Ht as (data & Hc & Hr).
  exists data. split; [by eapply content_mono|done].
Qed.
Lemma contents_same s s' : inodes s' = inodes s → privs s' = privs s → buffers s' = buffers s →
  contents_ok s → contents_ok s'.
Proof. intros Ei Ep Eb Hc p i. rewrite Ei. intros Hi. apply (inode_good_mono s); [by rewrite Ep|by rewrite Eb|by eapply Hc]. Qed.

(** ** Creation

    [added s s' kids cur name t inode i]: [s'] is [s] with one new dentry [t],
    called [name], first among the children of [cur], and its inode [i]. *)
Record added (s s' : fs_state A) (kids : Z → list Z) (cur : Z) (name : list Z)
    (t inode : Z) (i : Inode) : Prop := {
  add_wf : fs_wf s' (add_kid cur t kids);
  add_fresh : dentries s !! t = None;
  add_dentries : ∃ d, dentries s !! cur = Some d ∧
    dentries s' = dentries (linked t name inode cur d s);
  add_inodes : inodes s' = <[inode := i]> (inodes s);
  add_inode_fresh : inodes s !! inode = None;
  add_files : files s' = files s;
  add_contents : privs s ⊆ privs s' ∧ buffers s ⊆ buffers s';
  add_mounts : supers s' = supers s ∧ mounts s' = mounts s ∧ g_root_mount s' = g_root_mount s
}.

Lemma added_lookup s s' kids cur name t inode i p d :
  added s s' kids cur name t inode i → dentries s !! p = Some d →
  ∃ d', dentries s' !! p = Some d' ∧ d_name d' = d_name d ∧ d_inode d' = d_inode d ∧
    d_parent d' = d_parent d ∧ d_ref_count d' = d_ref_count d.
Proof.
  intros Hadd Hp. destruct (add_dentries _ _ _ _ _ _ _ _ Hadd) as (dc & Hc & ->).
  eexists. split; [apply linked_lookup_old; [done|by eapply add_fresh|done]|]. by case_decide.
Qed.

Lemma added_is_dir s s' kids cur name t inode i p :
  fs_wf s kids → added s s' kids cur name t inode i → is_Some (dentries s !! p) →
  is_dir s' p = is_dir s p.
Proof.
  intros Hwf Hadd [d Hp]. destruct (added_lookup _ _ _ _ _ _ _ _ _ _ Hadd Hp) as (d' & Hp' & _ & Hi & _).
  unfold is_dir. rewrite Hp, Hp', Hi, (add_inodes _ _ _ _ _ _ _ _ Hadd).
  destruct (wf_inode _ _ Hwf _ _ Hp) as [_ [j Hj]].
  rewrite lookup_insert_ne; [done|]. intros E.
  pose proof (add_inode_fresh _ _ _ _ _ _ _ _ Hadd). simplify_eq.
Qed.

(** The effect on resolution: the new name resolves to the new dentry and
    every other step is as before. *)
Lemma added_step s s' kids cur name t inode i :
  fs_wf s kids → added s s' kids cur name t inode i → is_dir s cur = true →
  Z.of_nat (length name) < NAME_SIZE → name ≠ [DOT] → name ≠ [DOT; DOT] →
  step s' (add_kid cur t kids) name cur = inl t ∧
  ∀ comp p, is_Some (dentries s !! p) → (comp, p) ≠ (name, cur) →
    step s' (add_kid cur t kids) comp p = step s kids comp p.
Proof.
  intros Hwf Hadd Hdir Hlen Hn1 Hn2. pose proof (add_fresh _ _ _ _ _ _ _ _ Hadd) as Ht.
  destruct (add_dentries _ _ _ _ _ _ _ _ Hadd) as (dc & Hc & Hds).
  assert (Hne : cur ≠ t) by congruence.
  assert (Hname : d_name <$> dentries s' !! t = Some name).
  { rewrite Hds, (linked_lookup_new _ _ _ _ _ _ Hc Ht). simpl.
    rewrite take_ge; [done|]. unfold NAME_SIZE in *. lia. }
  assert (Hkids : ∀ comp p, is_Some (dentries s !! p) →
    find_child (dentries s') comp (kids p) = find_child (dentries s) comp (kids p)).
  { intros comp p [dp Hp]. rewrite Hds. apply find_child_linked; [done..|]. intros x Hx.
    destruct (wf_kid _ _ Hwf _ _ _ Hp Hx) as (? & ? & _). eauto. }
  split.
  - unfold step. rewrite !decide_False, (added_is_dir _ _ _ _ _ _ _ _ _ Hwf Hadd), Hdir by eauto.
    unfold add_kid. rewrite decide_False, decide_True by done. cbn [find_child].
    by rewrite decide_True by done.
  - intros comp p [dp Hp] Hneq. unfold step. case_decide; [done|].
    destruct (added_lookup _ _ _ _ _ _ _ _ _ _ Hadd Hp) as (d' & Hp' & _ & _ & Hpar & _).
    unfold parent_of. rewrite Hp, Hp', Hpar. case_decide; [done|].
    rewrite (added_is_dir _ _ _ _ _ _ _ _ _ Hwf Hadd) by eauto.
    destruct (is_dir s p); [|done]. unfold add_kid.
    rewrite (decide_False (P := p = t)) by congruence.
    destruct (decide (p = cur)) as [->|]; [|by rewrite Hkids by eauto].
    cbn [find_child]. rewrite (decide_False (P := _ = Some comp)), Hkids by (eauto || congruence).
    done.
Qed.

(** Linking a new inode's dentry, the common end of create_file and
    create_dir. *)
Lemma link_new s0 s kids cur d name inode i L :
  fs_wf s kids → live (heap s) L → accounted s L → dentries s !! cur = Some d → good_name name → kernel_ptr inode →
  inodes s0 !! inode = None → inodes s = <[inode := i]> (inodes s0) →
  dentries s = dentries s0 → files s = files s0 → supers s = supers s0 → mounts s = mounts s0 →
  g_root_mount s = g_root_mount s0 → privs s0 ⊆ privs s → buffers s0 ⊆ buffers s →
  ∃ t s', d_alloc name inode cur s = Ret (t, s') ∧
    (t = 0 ∧ (∃ h, s' = set_heap h s ∧ live h L) ∨
     kernel_ptr t ∧ added s0 s' kids cur name t inode i ∧ privs s' = privs s ∧ buffers s' = buffers s).
Proof.
  intros Hwf HL HA Hd Hgn Hk Hfr Hin Hds Hfs Hsup Hmo Hrm Hpr Hbu.
  destruct (d_alloc_spec s kids name inode cur d L Hwf HL HA Hd) as (t & h & Ha & Hcase).
  eexists t, _. split; [exact Ha|]. destruct Hcase as [[-> Hl]|(Hkt & HLt & Ht & Hl)].
  { left. eauto. }
  rewrite (proj2 (Z.eqb_neq t 0)) by (by apply kernel_ptr_nonnull). right.
  split; [done|]. split; [|done]. split; try done.
  - eapply (linked_tree_wf (set_heap h s)); try done.
    + by eapply linked_wf.
    + by apply kernel_ptr_nonnull.
    + cbn. rewrite Hin. rewrite lookup_insert_eq. eauto.
    + apply (accounted_fresh _ _ t sizeof_Dentry) in HA; [|done]. by destruct HA.
    + apply lookup_insert_eq.
  - congruence.
  - exists d. split; [congruence|]. unfold linked; cbn. by rewrite Hds.
Qed.

(** Giving a new inode and its private data back. *)
Lemma undo_inode {B} (r : B) s p q h L :
  heap s = h → live h L → L !! q = Some sizeof_InodeData → L !! p = Some sizeof_Inode → p ≠ q →
  ∃ h', (free_priv q ≫= λ _, free_inode p ≫= λ _, mret r) s =
    Ret (r, set_heap h' (set_inodes (delete p (inodes s)) (set_privs (delete q (privs s)) s))) ∧
    live h' (delete p (delete q L)).
Proof.
  intros Hh Hl Hq Hp Hne.
  destruct (free_ok h L q sizeof_InodeData Hl Hq) as (h1 & E1 & Hl1).
  destruct (free_ok h1 _ p sizeof_Inode Hl1) as (h2 & E2 & Hl2); [by rewrite lookup_delete_ne|].
  exists h2. split; [|done]. unfold free_priv, free_inode.
  erewrite (K_bind_ret (free q _ ≫= _)) by
    (erewrite K_bind_ret by (apply free_ret; by rewrite Hh); done).
  erewrite (K_bind_ret (free p _ ≫= _)) by
    (erewrite K_bind_ret by (apply free_ret; exact E2); done). done.
Qed.

Lemma undo_state s p q i v h n h2 h3 :
  inodes s !! p = None → privs s !! q = None →
  let s1 := set_heap h2 (set_privs (<[q := v]> (privs s)) (set_inodes (<[p := i]> (inodes s))
    (set_heap h (set_next_ino n s)))) in
  set_heap h3 (set_inodes (delete p (inodes s1)) (set_privs (delete q (privs s1)) s1))
    = set_heap h3 (set_next_ino n s).
Proof.
  intros Hp Hq s1. assert (Ei : delete p (inodes s1) = inodes s) by exact (delete_insert_id _ _ _ Hp).
  assert (Eq : delete q (privs s1) = privs s) by exact (delete_insert_id _ _ _ Hq).
  rewrite Ei, Eq. reflexivity.
Qed.

Lemma is_directory_spec s kids p d :
  fs_wf s kids → dentries s !! p = Some d → is_directory p s = Ret (is_dir s p, s).
Proof.
  intros Hwf Hd. unfold is_directory, is_dir. kstep (get_dentry_ret _ _ _ Hd). rewrite Hd.
  destruct (wf_inode _ _ Hwf _ _ Hd) as [_ [i Hi]]. kstep (get_inode_ret _ _ _ Hi). by rewrite Hi.
Qed.

Definition new_inode (s : fs_state A) (ty : FileType) (size q : Z) : Inode :=
  MkInode (g_next_ino s) ty size 1 (g_sb s) RAMFS_INODE_OPS RAMFS_FILE_OPS q.

Lemma create_dir_spec s kids cur d name :
  fs_wf s kids → dentries s !! cur = Some d → is_dir s cur = true → good_name name →
  ∃ r s', create_dir cur name s = Ret (r, s') ∧
    (r = 0 ∧ same_tree s s' ∧ fs_wf s' kids ∨
     r ≠ 0 ∧ ∃ t q, added s s' kids cur name t r (new_inode s Directory 0 q)).
Proof.
  intros Hwf Hd Hdir Hgn. unfold create_dir.
  rewrite (proj2 (Z.eqb_neq cur 0)) by (exact (wf_nonnull _ _ _ _ Hwf Hd)).
  rewrite (K_bind_ret _ _ _ _ _ (is_directory_spec _ _ _ _ Hwf Hd)), Hdir. cbn [negb].
  destruct (wf_heap _ _ Hwf) as (L & HL & HA).
  destruct (alloc_inode_spec s kids Directory L Hwf HL HA) as (p & s1 & Ha & Hwf1 & Hcase).
  rewrite (K_bind_ret _ _ _ _ _ Ha).
  destruct Hcase as [(-> & Hst & Hl)|(q & h & n & Hk & Hq & HLp & HLq & Hpq & Hl & Hs1)].
  { eexists 0, s1. split; [done|]. by left. }
  rewrite (proj2 (Z.eqb_neq p 0)) by (by apply kernel_ptr_nonnull).
  assert (Hip : inodes s !! p = None)
    by (apply eq_None_not_Some; intros Hx%(acc_inode _ _ HA); congruence).
  assert (Hqp : privs s !! q = None)
    by (apply eq_None_not_Some; intros Hx%(acc_priv _ _ HA); congruence).
  set (L1 := <[q := sizeof_InodeData]> (<[p := sizeof_Inode]> L)) in *.
  assert (HA1 : accounted s1 L1).
  { subst s1. apply accounted_new; done. }
  destruct (link_new s s1 kids cur d name p (new_inode s Directory 0 q) L1)
    as (t & s2 & Hda & Hcase); try (subst s1; done).
  { subst s1. by apply insert_subseteq. }
  rewrite (K_bind_ret _ _ _ _ _ Hda). destruct Hcase as [(-> & h2 & -> & Hl2)|(Hkt & Hadd & _)].
  - rewrite Z.eqb_refl.
    rewrite (K_bind_ret (get_inode p) _ _ (new_inode s Directory 0 q) (set_heap h2 s1))
      by (apply get_inode_ret; subst s1; cbn; apply lookup_insert_eq).
    destruct (undo_inode 0 (set_heap h2 s1) p q h2 L1) as (h3 & Hundo & Hl3); try done.
    { apply lookup_insert_eq. }
    { unfold L1. by rewrite lookup_insert_ne, lookup_insert_eq. }
    unfold L1 in Hl3. rewrite !delete_insert_id in Hl3 by (by rewrite ?lookup_insert_ne).
    eexists 0, _. split; [exact Hundo|]. left. split; [done|].
    assert (E : set_heap h3 (set_inodes (delete p (inodes (set_heap h2 s1)))
      (set_privs (delete q (privs (set_heap h2 s1))) (set_heap h2 s1)))
      = set_heap h3 (set_next_ino n s)) by (subst s1; by apply undo_state).
    rewrite E. split; [by exists h3, n|].
    eapply (wf_update s _ kids L); [done|done|done|exact Hl3|by destruct HA].
  - rewrite (proj2 (Z.eqb_neq t 0)) by (by apply kernel_ptr_nonnull).
    eexists p, s2. split; [done|]. right. split; [by apply kernel_ptr_nonnull|]. eauto.
Qed.

(** The state of create_file between the creation of the inode and its
    linking into the tree. *)
Definition built (s : fs_state A) (p q : Z) (i : Inode) (v : InodeData) (h : A) (n : Z) : fs_state A :=
  set_privs (<[q := v]> (privs s)) (set_inodes (<[p := i]> (inodes s))
    (set_heap h (set_next_ino n s))).
Definition with_buffer (s : fs_state A) (b : Z) (data : list Z) : fs_state A :=
  set_buffers (<[b := data]> (buffers s)) s.

Lemma built_inode s p q i i' v h n :
  put_inode p i' (built s p q i v h n) = Ret (tt, built s p q i' v h n).
Proof.
  unfold put_inode, k_modify, built. cbn [inodes set_inodes set_privs set_heap set_next_ino].
  rewrite insert_insert_eq. by destruct s.
Qed.
Lemma built_priv s p q i v v' h h' n :
  k_modify (λ s, set_privs (<[q := v']> (privs s)) s) (set_heap h' (built s p q i v h n))
    = Ret (tt, built s p q i v' h' n).
Proof.
  unfold k_modify, built. cbn [privs set_inodes set_privs set_heap set_next_ino].
  rewrite insert_insert_eq. by destruct s.
Qed.

Lemma undo_built {B} (r : B) s kids p q i v h h2 n L :
  fs_wf s kids → accounted s L → L !! p = None → L !! q = None → p ≠ q →
  live h2 (<[q := sizeof_InodeData]> (<[p := sizeof_Inode]> L)) →
  ∃ s', (free_priv q ≫= λ _, free_inode p ≫= λ _, mret r) (set_heap h2 (built s p q i v h n)) =
    Ret (r, s') ∧ same_tree s s' ∧ fs_wf s' kids.
Proof.
  intros Hwf HA HLp HLq Hpq Hl.
  destruct (undo_inode r (set_heap h2 (built s p q i v h n)) p q h2 _ eq_refl Hl)
    as (h3 & Hundo & Hl3); [apply lookup_insert_eq| |done|].
  { by rewrite lookup_insert_ne, lookup_insert_eq. }
  rewrite !delete_insert_id in Hl3 by (by rewrite ?lookup_insert_ne).
  eexists. split; [exact Hundo|]. unfold built. rewrite undo_state.
  - split; [by exists h3, n|]. eapply (wf_update s _ kids L); [done|done|done|exact Hl3|by destruct HA].
  - apply eq_None_not_Some; intros Hx%(acc_inode _ _ HA); congruence.
  - apply eq_None_not_Some; intros Hx%(acc_priv _ _ HA); congruence.
Qed.

Lemma wf_built s0 s kids p q i v h n L :
  fs_wf s0 kids → dentries s = dentries s0 → inodes s = inodes s0 → accounted s L → L !! p = None → L !! q = None → p ≠ q →
  live h (<[q := sizeof_InodeData]> (<[p := sizeof_Inode]> L)) →
  fs_wf (built s p q i v h n) kids ∧
  accounted (built s p q i v h n) (<[q := sizeof_InodeData]> (<[p := sizeof_Inode]> L)).
Proof.
  intros. assert (accounted (built s p q i v h n)
    (<[q := sizeof_InodeData]> (<[p := sizeof_Inode]> L))) by (by apply accounted_new).
  split; [|done]. eapply (wf_update s0); [done|done| |done|done].
  intros x Hx. cbn. replace (inodes s) with (inodes s0). rewrite lookup_insert. case_decide; [eauto|done].
Qed.

(** The end of create_file: link the inode, or give everything back. *)
Lemma create_file_link s kids cur d name p q size v h n L s0 :
  fs_wf s0 kids → live h (<[q := sizeof_InodeData]> (<[p := sizeof_Inode]> L)) → accounted s L →
  dentries s !! cur = Some d → good_name name → kernel_ptr p →
  L !! p = None → L !! q = None → p ≠ q →
  dentries s = dentries s0 → inodes s = inodes s0 → files s = files s0 → supers s = supers s0 →
  mounts s = mounts s0 → g_root_mount s = g_root_mount s0 → privs s0 ⊆ privs s → buffers s0 ⊆ buffers s →
  let i := MkInode (g_next_ino s) Regular size 1 (g_sb s) RAMFS_INODE_OPS RAMFS_FILE_OPS q in
  ∃ t s', d_alloc name p cur (built s p q i v h n) = Ret (t, s') ∧
    (t = 0 ∧ (∃ h', s' = set_heap h' (built s p q i v h n) ∧
              live h' (<[q := sizeof_InodeData]> (<[p := sizeof_Inode]> L))) ∨
     kernel_ptr t ∧ added s0 s' kids cur name t p i ∧
     privs s' = <[q := v]> (privs s) ∧ buffers s' = buffers s).
Proof.
  intros Hwf Hl HA Hd Hgn Hk HLp HLq Hpq E1 E2 E3 E4 E5 E6 E7 E8 i.
  destruct (wf_built s0 s kids p q i v h n L) as [Hwf1 HA1]; try done.
  destruct (link_new s0 (built s p q i v h n) kids cur d name p i
    (<[q := sizeof_InodeData]> (<[p := sizeof_Inode]> L))) as (t & s' & Hda & Hcase); try done.
  - rewrite <- E2. apply eq_None_not_Some; intros Hx%(acc_inode _ _ HA); congruence.
  - cbn [built inodes set_inodes set_privs]. by rewrite E2.
  - etrans; [exact E7|]. apply insert_subseteq. apply eq_None_not_Some; intros Hx%(acc_priv _ _ HA); congruence.
  - exists t, s'. split; [done|]. destruct Hcase as [?|(? & ? & ? & ?)]; [by left|by right].
Qed.

Lemma free_buffer_ret s b n h :
  slab_free b n (heap s) = Ret h →
  free_buffer b n s = Ret (tt, set_buffers (delete b (buffers s)) (set_heap h s)).
Proof. intros E. unfold free_buffer. by erewrite K_bind_ret by (apply free_ret; exact E). Qed.

Lemma accounted_buffer s b data L :
  accounted s L → L !! b = None →
  accounted (with_buffer s b data) (<[b := Z.of_nat (length data)]> L).
Proof.
  intros HA Hb. pose proof (accounted_fresh s L b (Z.of_nat (length data)) HA Hb) as [HD HI HF HP HB].
  split; try done. intros x y. cbn. rewrite lookup_insert. case_decide as E.
  - intros [= <-]. subst. apply lookup_insert_eq.
  - apply HB.
Qed.

Lemma store_data s kids p q i h n L data :
  let size := Z.of_nat (length data) in
  fs_wf s kids → accounted s L → L !! p = None → L !! q = None → p ≠ q →
  live h (<[q := sizeof_InodeData]> (<[p := sizeof_Inode]> L)) → 0 < size < 2 ^ 32 →
  ∃ r s', (buf ← alloc size;
       if buf =? 0 then
         free_priv q ≫= λ _, free_inode p ≫= λ _, mret None
       else
         k_modify (λ s, set_privs (<[q := MkInodeData buf size]> (privs s)) s) ≫= λ _,
         k_modify (λ s, set_buffers (<[buf := data]> (buffers s)) s) ≫= λ _,
         mret (Some buf)) (built s p q i (MkInodeData 0 0) h n) = Ret (r, s') ∧
    match r with
    | None => same_tree s s' ∧ fs_wf s' kids
    | Some b => ∃ h', kernel_ptr b ∧ L !! b = None ∧ b ≠ p ∧ b ≠ q ∧
        s' = built (with_buffer s b data) p q i (MkInodeData b size) h' n ∧
        live h' (<[q := sizeof_InodeData]> (<[p := sizeof_Inode]> (<[b := size]> L)))
    end.
Proof.
  intros size Hwf HA HLp HLq Hpq Hl Hsz.
  destruct (alloc_ok h _ size Hl) as (b & h1 & Eb & Hcase); [lia|].
  erewrite K_bind_ret by (apply alloc_ret; exact Eb).
  destruct Hcase as [[-> Hl1]|(Hk & Hnone & Hl1)].
  - rewrite Z.eqb_refl.
    destruct (undo_built (B := option Z) None s kids p q i (MkInodeData 0 0) h h1 n L)
      as (s' & Hrun & ? & ?); try done. eexists None, s'. by rewrite Hrun.
  - pose proof (kernel_ptr_nonnull b Hk). rewrite (proj2 (Z.eqb_neq b 0)) by done.
    rewrite (K_bind_ret _ _ _ _ _ (built_priv _ _ _ _ _ _ _ _ _)).
    erewrite K_bind_ret by reflexivity.
    rewrite !lookup_insert_None in Hnone. destruct Hnone as [[Hnone Hbp] Hbq].
    eexists (Some b), _. split; [done|]. exists h1. do 4 (split; [done|]). split; [done|].
    rewrite (insert_insert_ne _ p b), (insert_insert_ne _ q b) by done. done.
Qed.

Lemma unstore_data s p q i v h h2 n L b data :
  let size := Z.of_nat (length data) in
  accounted s L → L !! b = None → b ≠ p → b ≠ q →
  live h2 (<[q := sizeof_InodeData]> (<[p := sizeof_Inode]> (<[b := size]> L))) →
  ∃ h3, free_buffer b size (set_heap h2 (built (with_buffer s b data) p q i v h n))
      = Ret (tt, set_heap h3 (built s p q i v h n)) ∧
    live h3 (<[q := sizeof_InodeData]> (<[p := sizeof_Inode]> L)).
Proof.
  intros size HA HLb Hbp Hbq Hl.
  destruct (free_ok h2 _ b size Hl) as (h3 & Ef & Hl3).
  { by rewrite lookup_insert_ne, lookup_insert_ne, lookup_insert_eq by done. }
  assert (Hb : buffers s !! b = None).
  { apply eq_None_not_Some. intros [x Hx%(acc_buffer _ _ HA)]. congruence. }
  exists h3. split.
  - erewrite free_buffer_ret by exact Ef. f_equal. f_equal.
    assert (E : delete b (<[b := data]> (buffers s)) = buffers s) by (by apply delete_insert_id).
    transitivity (set_buffers (delete b (<[b := data]> (buffers s)))
      (set_heap h3 (built (with_buffer s b data) p q i v h n))); [reflexivity|].
    rewrite E. reflexivity.
  - rewrite (insert_insert_ne _ p b), (insert_insert_ne _ q b), delete_insert_id in Hl3; try done.
    by rewrite !lookup_insert_ne by done.
Qed.

Definition created (s s' : fs_state A) (kids : Z → list Z) (cur : Z) (name data : list Z) (r : Z) : Prop :=
  ∃ t q, let i := new_inode s Regular (Z.of_nat (length data)) q in
    added s s' kids cur name t r i ∧ content s' i = Some data.

Lemma created_intro s s' kids cur name data t p q b :
  added s s' kids cur name t p (new_inode s Regular (Z.of_nat (length data)) q) → q ≠ 0 →
  privs s' !! q = Some (MkInodeData b (Z.of_nat (length data))) →
  (b = 0 ∧ data = [] ∨ b ≠ 0 ∧ buffers s' !! b = Some data) → created s s' kids cur name data p.
Proof.
  intros Hadd Hq HP Hb. exists t, q. cbv zeta. split; [done|]. unfold content, new_inode; cbn [i_private_data].
  rewrite (proj2 (Z.eqb_neq q 0)), HP by done. cbn [mbind option_bind buffer].
  destruct Hb as [[-> ->]|[Hb HB]]; [done|]. by rewrite (proj2 (Z.eqb_neq b 0)).
Qed.

Lemma create_file_spec s kids cur d name data :
  fs_wf s kids → dentries s !! cur = Some d → is_dir s cur = true → good_name name →
  Z.of_nat (length data) < 2 ^ 32 →
  ∃ r s', create_file cur name data s = Ret (r, s') ∧
    (r = 0 ∧ same_tree s s' ∧ fs_wf s' kids ∨ r ≠ 0 ∧ created s s' kids cur name data r).
Proof.
  intros Hwf Hd Hdir Hgn Hlen. unfold create_file. set (size := Z.of_nat (length data)) in *.
  rewrite (proj2 (Z.eqb_neq cur 0)) by (exact (wf_nonnull _ _ _ _ Hwf Hd)).
  kstep (get_dentry_ret _ _ _ Hd).
  rewrite (proj2 (Z.eqb_neq _ 0)) by (by apply (wf_inode _ _ Hwf _ _ Hd)).
  rewrite (K_bind_ret _ _ _ _ _ (is_directory_spec _ _ _ _ Hwf Hd)), Hdir. cbn [negb].
  destruct (wf_heap _ _ Hwf) as (L & HL & HA).
  destruct (alloc_inode_spec s kids Regular L Hwf HL HA) as (p & s1 & Ha & Hwf1 & Hcase).
  rewrite (K_bind_ret _ _ _ _ _ Ha).
  destruct Hcase as [(-> & Hst & Hl)|(q & h & n & Hk & Hq & HLp & HLq & Hpq & Hl & Hs1)].
  { eexists 0, s1. split; [done|]. by left. }
  pose proof (kernel_ptr_nonnull p Hk) as Hp0. rewrite (proj2 (Z.eqb_neq p 0)) by done.
  change s1 with s1 in *. fold (new_inode s Regular 0 q) in Hs1.
  fold (built s p q (new_inode s Regular 0 q) (MkInodeData 0 0) h n) in Hs1. subst s1.
  rewrite (K_bind_ret (get_inode p) _ _ (new_inode s Regular 0 q)
    (built s p q (new_inode s Regular 0 q) (MkInodeData 0 0) h n))
    by (apply get_inode_ret; apply lookup_insert_eq).
  rewrite (K_bind_ret _ _ _ _ _ (built_inode _ _ _ _ _ _ _ _)).
  cbv zeta. change (inode_with_size (new_inode s Regular 0 q) size) with (new_inode s Regular size q).
  change (i_private_data (new_inode s Regular 0 q)) with q.
  set (i := new_inode s Regular size q).
  destruct (Z.ltb_spec 0 size) as [Hpos|Hzero].
  - destruct (store_data s kids p q i h n L data Hwf HA HLp HLq Hpq Hl) as (r & s2 & Hrun & Hr); [lia|].
    rewrite (K_bind_ret _ _ _ _ _ Hrun). destruct r as [b|]; [|eexists 0, s2; split; [done|]; left; tauto].
    destruct Hr as (h1 & Hkb & HLb & Hbp & Hbq & -> & Hl1).
    pose proof (kernel_ptr_nonnull b Hkb) as Hb0.
    destruct (create_file_link (with_buffer s b data) kids cur d name p q size
      (MkInodeData b size) h1 n (<[b := size]> L) s) as (t & s3 & Hda & Hcase); try done.
    { by apply accounted_buffer. }
    1,2: by rewrite lookup_insert_ne.
    { apply insert_subseteq, eq_None_not_Some. intros [x Hx%(acc_buffer _ _ HA)]. congruence. }
    rewrite (K_bind_ret _ _ _ _ _ Hda). destruct Hcase as [(-> & h2 & -> & Hl2)|(Hkt & Hadd & HP & HB)].
    + rewrite Z.eqb_refl, (proj2 (Z.eqb_neq b 0)) by done.
      destruct (unstore_data s p q i (MkInodeData b size) h1 h2 n L b data) as (h3 & Hfree & Hl3); try done.
      rewrite (K_bind_ret _ _ _ _ _ Hfree).
      destruct (undo_built 0 s kids p q i (MkInodeData b size) h1 h3 n L)
        as (s' & Hundo & ? & ?); try done. eexists 0, s'. split; [done|]. by left.
    + rewrite (proj2 (Z.eqb_neq t 0)) by (by apply kernel_ptr_nonnull).
      eexists p, s3. split; [done|]. right. split; [done|].
      eapply (created_intro _ _ _ _ _ _ t p q b); [done|done|rewrite HP; apply lookup_insert_eq|right]. split; [done|].
      rewrite HB. apply lookup_insert_eq.
  - assert (data = []) as -> by (destruct data; [done|]; cbn in size; lia).
    rewrite (K_bind_ret _ _ (built s p q i (MkInodeData 0 0) h n) (Some 0)
      (built s p q i (MkInodeData 0 0) h n)) by done.
    destruct (create_file_link s kids cur d name p q size
      (MkInodeData 0 0) h n L s) as (t & s3 & Hda & Hcase); try done.
    rewrite (K_bind_ret _ _ _ _ _ Hda). destruct Hcase as [(-> & h2 & -> & Hl2)|(Hkt & Hadd & HP & HB)].
    + destruct (undo_built 0 s kids p q i (MkInodeData 0 0) h h2 n L)
        as (s' & Hundo & ? & ?); try done. eexists 0, s'. split; [done|]. by left.
    + rewrite (proj2 (Z.eqb_neq t 0)) by (by apply kernel_ptr_nonnull).
      eexists p, s3. split; [done|]. right. split; [done|].
      eapply (created_intro _ _ _ _ _ _ t p q 0); [done|done|rewrite HP; apply lookup_insert_eq|by left].
Qed.

(** ** What creation leaves alone *)

Lemma added_contents s s' kids cur name t inode i : added s s' kids cur name t inode i → contents_ok s →
  inode_good s' i → contents_ok s'.
Proof.
  intros Hadd Hc Hi p j. destruct (add_contents _ _ _ _ _ _ _ _ Hadd) as [Hp Hb].
  rewrite (add_inodes _ _ _ _ _ _ _ _ Hadd). intros [[_ <-]|[_ Hj]]%lookup_insert_Some; [done|].
  eapply inode_good_mono; [done|done|by eapply Hc].
Qed.
Lemma new_dir_good s s' q : inode_good s' (new_inode s Directory 0 q).
Proof. by split. Qed.
Lemma created_contents s s' kids cur name data r : created s s' kids cur name data r → contents_ok s →
  Z.of_nat (length data) < 2 ^ 32 → Forall (λ b, 0 ≤ b < 256) data → contents_ok s'.
Proof.
  intros (t & q & Hadd & Hcont) Hc Hl Hb. eapply added_contents; [done|done|]. split; [done|]. cbn. by exists data.
Qed.

Lemma resolve_added s s' kids cur name t inode i comps x y :
  fs_wf s kids → added s s' kids cur name t inode i → is_dir s cur = true →
  Z.of_nat (length name) < NAME_SIZE → name ≠ [DOT] → name ≠ [DOT; DOT] →
  find_child (dentries s) name (kids cur) = None → is_Some (dentries s !! x) →
  resolve s kids comps x = inl y → resolve s' (add_kid cur t kids) comps x = inl y.
Proof.
  intros Hwf Hadd Hdir Hlen Hn1 Hn2 Hfree.
  destruct (added_step s s' kids cur name t inode i Hwf Hadd Hdir Hlen Hn1 Hn2) as [_ Hstep].
  revert x. induction comps as [|comp comps IH]; intros x Hx; cbn [resolve]; [done|].
  destruct (NAME_SIZE <=? Z.of_nat (length comp)); [done|].
  destruct (step s kids comp x) as [next|e] eqn:E; [|done]. intros Hres.
  rewrite Hstep, E; [|done|].
  - apply IH; [by eapply step_exists|done].
  - intros [= -> ->]. unfold step in E. rewrite !decide_False, Hdir, Hfree in E by done. done.
Qed.

Lemma added_mounted s s' kids cur name t inode i root :
  added s s' kids cur name t inode i → mounted_root s root → mounted_root s' root.
Proof.
  intros Hadd (Hg & m & sb & Hm & Hr & Hs & Hsb & Hsr & [d Hd]).
  destruct (add_mounts _ _ _ _ _ _ _ _ Hadd) as (E1 & E2 & E3).
  destruct (added_lookup _ _ _ _ _ _ _ _ _ _ Hadd Hd) as (d' & Hd' & _).
  unfold mounted_root. rewrite E1, E2, E3. eauto 15.
Qed.

Lemma added_refs s s' kids cur name t inode i n :
  added s s' kids cur name t inode i → 1 < n → refs_below s n → refs_below s' n.
Proof.
  intros Hadd Hn Hr p d. destruct (add_dentries _ _ _ _ _ _ _ _ Hadd) as (dc & Hc & ->).
  intros [[-> ->]|(_ & d0 & Hd0 & ->)]%linked_lookup; [done| |done|by eapply add_fresh].
  pose proof (Hr _ _ Hd0). by case_decide.
Qed.

(** ** Boot: the root file system *)

Lemma boot_wf (a : A) : live a ∅ → fs_wf (fs_boot a) (λ _, []).
Proof.
  intros Ha. split; cbn; try (intros ? ?; rewrite lookup_empty; done);
    try (intros ? ? ?; rewrite lookup_empty; done).
  exists ∅. split; [done|]. split; cbn; intros p; rewrite lookup_empty; try by intros [? ?]. done.
Qed.

(** The dentry of a root: no parent, no children. *)
Lemma d_alloc_root s name inode L :
  fs_wf s (λ _, []) → live (heap s) L → accounted s L → dentries s = ∅ →
  inode ≠ 0 → is_Some (inodes s !! inode) → good_name name →
  ∃ t s', d_alloc name inode 0 s = Ret (t, s') ∧ fs_wf s' (λ _, []) ∧
    ∃ h, (t = 0 ∧ s' = set_heap h s ∨
      kernel_ptr t ∧ s' = set_dentries {[ t := MkDentry (take (Z.to_nat (NAME_SIZE - 1)) name)
                                                 inode 0 0 0 1 ]} (set_heap h s)).
Proof.
  intros Hwf HL HA Hds Hi0 Hi Hgn. unfold d_alloc.
  destruct (alloc_ok (heap s) L sizeof_Dentry HL) as (t & h & Et & Hcase); [done|].
  erewrite K_bind_ret by (apply alloc_ret; exact Et).
  destruct Hcase as [[-> Hl]|(Hk & Hnone & Hl)].
  { eexists 0, _. split; [done|]. split; [by eapply wf_set_heap|]. exists h. by left. }
  rewrite (proj2 (Z.eqb_neq t 0)) by (by apply kernel_ptr_nonnull).
  rewrite (proj2 (Z.ltb_ge t _)) by apply Hk. krun.
  eexists t, _. split; [done|]. rewrite Hds at 1. rewrite insert_empty.
  change (dentries (set_heap h s)) with (dentries s). rewrite Hds, insert_empty.
  split; [|exists h; by right].
  split; cbn; try (intros p d; rewrite lookup_singleton_Some; intros [<- <-]; cbn).
  - done.
  - constructor.
  - set_solver.
  - by left.
  - done.
  - done.
  - done.
  - by apply Forall_take.
  - exists (<[t := sizeof_Dentry]> L). split; [done|].
    destruct (accounted_fresh s L t sizeof_Dentry HA Hnone) as [HD HI HF HP HB]. split; try done.
    cbn. intros p [d Hd]. apply lookup_singleton_Some in Hd as [<- _]. apply lookup_insert_eq.
Qed.

Definition boot_result (s : fs_state A) : Prop :=
  fs_wf s (λ _, []) ∧ refs_below s 2 ∧ contents_ok s ∧
  (∃ m, mounts s !! g_root_mount s = Some m ∧
     (m_mount_point m = 0 ∨
      mounted_root s (m_mount_point m) ∧ is_dir s (m_mount_point m) = true)).

Lemma wf_supers s kids v : fs_wf s kids → fs_wf (set_supers v s) kids.
Proof. intros Hwf. destruct (wf_heap _ _ Hwf) as (L & HL & []). eapply wf_update; eauto. by split. Qed.
Lemma accounted_supers s v L : accounted s L → accounted (set_supers v s) L.
Proof. intros []. by split. Qed.

(** ramfs::init: null, or a superblock whose root is a fresh directory. *)
Lemma init_spec (a : A) :
  live a ∅ →
  ∃ sb s, init (fs_boot a) = Ret (sb, s) ∧
    (sb = 0 ∨
     ∃ r i L n, kernel_ptr sb ∧ r ≠ 0 ∧ supers s !! sb = Some (MkSuperBlock RAMFS_MAGIC n r 0) ∧
       inodes s !! r = Some i ∧ i_type i = Directory ∧ fs_wf s (λ _, []) ∧ dentries s = ∅ ∧
       g_root_mount s = 0 ∧ mounts s = ∅ ∧ live (heap s) L ∧ accounted s L ∧ contents_ok s).
Proof.
  intros Ha. pose proof (boot_wf a Ha) as Hwf. unfold init.
  destruct (alloc_ok a ∅ sizeof_SuperBlock Ha) as (sb & h & Es & Hcase); [done|].
  erewrite K_bind_ret by (apply alloc_ret; exact Es). krun.
  destruct Hcase as [[-> Hl]|(Hk & _ & Hl)].
  { eexists 0, _. split; [done|]. by left. }
  pose proof (kernel_ptr_nonnull sb Hk) as Hsb. rewrite (proj2 (Z.eqb_neq sb 0)) by done. krun.
  set (s1 := set_supers _ _). set (L1 := <[sb := sizeof_SuperBlock]> ∅) in Hl.
  assert (HA1 : accounted s1 L1).
  { split; cbn; intros p; rewrite lookup_empty; try by intros [? ?]. done. }
  assert (Hwf1 : fs_wf s1 (λ _, [])) by (eapply (wf_update (fs_boot a)); eauto).
  destruct (alloc_inode_spec s1 _ Directory L1 Hwf1 Hl HA1) as (r & s2 & Hr & Hwf2 & Hcase).
  rewrite (K_bind_ret _ _ _ _ _ Hr).
  destruct Hcase as [(-> & _ & Hl2)|(q & h2 & n & Hkr & _ & HLr & HLq & Hrq & Hl2 & ->)].
  - rewrite Z.eqb_refl.
    destruct (free_ok _ _ sb sizeof_SuperBlock Hl2) as (h3 & Ef & _); [apply lookup_insert_eq|].
    erewrite K_bind_ret by (apply free_ret; exact Ef). krun. eexists 0, _. split; [done|]. by left.
  - pose proof (kernel_ptr_nonnull r Hkr) as Hr0. rewrite (proj2 (Z.eqb_neq r 0)) by done. krun.
    eexists sb, _. split; [done|]. right. eexists r, _, _, _. split; [done|]. split; [done|].
    split; [apply lookup_insert_eq|]. split; [apply lookup_insert_eq|]. split; [done|].
    split; [by apply wf_supers|]. split; [done|]. split; [done|]. split; [done|].
    split; [exact Hl2|]. split; [apply accounted_supers; by apply accounted_new|].
    intros x j Hj. cbn in Hj. rewrite insert_empty in Hj. apply lookup_singleton_Some in Hj as [_ <-]. by split.
Qed.

Lemma mount_root_spec (a : A) :
  live a ∅ →
  (∃ w, mount_root (fs_boot a) = Panic w) ∨
  ∃ sb s, mount_root (fs_boot a) = Ret (sb, s) ∧ boot_result s.
Proof.
  intros Ha. destruct (init_spec a Ha) as (sb & s & Hinit & Hcase).
  unfold mount_root. rewrite (K_bind_ret _ _ _ _ _ Hinit).
  destruct Hcase as [->|(r & i & L & n & Hk & Hr0 & Hsup & Hi & Hty & Hwf & Hds & Hg & Hms & Hl & HA & Hcont)].
  { left. by eexists. }
  pose proof (kernel_ptr_nonnull sb Hk) as Hsb. rewrite (proj2 (Z.eqb_neq sb 0)) by done.
  unfold mount. rewrite (proj2 (Z.eqb_neq sb 0)) by done.
  destruct (alloc_ok _ L sizeof_Mount Hl) as (m & h & Em & Hcase); [done|].
  destruct Hcase as [[-> Hlm]|(Hkm & HLm & Hlm)].
  { left. eexists. rewrite (K_bind_ret _ _ s VFS_ERR_NOMEM (set_heap h s)); [reflexivity|].
    erewrite K_bind_ret by (unfold get_super; by rewrite Hsup).
    cbn [sb_root]. rewrite (proj2 (Z.eqb_neq r 0)) by done.
    erewrite K_bind_ret by (apply alloc_ret; exact Em). done. }
  pose proof (kernel_ptr_nonnull m Hkm) as Hm0. right.
  assert (Hwf1 : fs_wf (set_heap h s) (λ _, [])) by (by eapply linked_wf).
  destruct (d_alloc_root (set_heap h s) [SLASH] r _ Hwf1 Hlm) as (t & s2 & Hd & Hwf2 & h2 & Hcase).
  { destruct (accounted_fresh s L m sizeof_Mount HA HLm). by split. }
  { done. } { done. } { eauto. } { repeat constructor; unfold SLASH; lia. }
  assert (Hg2 : g_root_mount s2 = 0) by (destruct Hcase as [[_ ->]|[_ ->]]; done).
  eexists sb, _. split.
  - erewrite K_bind_ret.
    2: { erewrite K_bind_ret by (unfold get_super; by rewrite Hsup).
         cbn [sb_root]. rewrite (proj2 (Z.eqb_neq r 0)) by done.
         erewrite K_bind_ret by (apply alloc_ret; exact Em).
         rewrite (proj2 (Z.eqb_neq m 0)) by done.
         rewrite (K_bind_ret _ _ _ _ _ Hd). erewrite K_bind_ret by reflexivity.
         rewrite Hg2. krun. reflexivity. }
    reflexivity.
  - split; [|split; [|split]].
    + destruct (wf_heap _ _ Hwf2) as (L2 & ? & []). eapply (wf_update s2); eauto. by split.
    + intros p d Hp. cbn in Hp. destruct Hcase as [[_ ->]|[_ ->]]; cbn in Hp.
      * rewrite Hds in Hp. done.
      * apply lookup_singleton_Some in Hp as [_ <-]. cbn. lia.
    + destruct Hcase as [[_ ->]|[_ ->]]; by eapply (contents_same s).
    + eexists. split; [apply lookup_insert_eq|]. cbn [m_mount_point].
      destruct Hcase as [[-> _]|[Hkt Hs2]]; [by left|right]. split.
      * split; [done|]. eexists _, _. split; [apply lookup_insert_eq|]. split; [done|].
        split; [done|]. split; [cbn; rewrite Hs2; exact Hsup|]. split; [done|]. cbn. rewrite Hs2; cbn.
        rewrite lookup_singleton_eq. eauto.
      * unfold is_dir; cbn. rewrite Hs2; cbn. rewrite lookup_singleton_eq. cbn. rewrite Hi.
        by apply bool_decide_true.
Qed.

End RamfsSpec.
