(* ===== verification/FileSpec.v ===== *)
(** * Files

    open, read and close on ramfs: opening takes a reference and a file
    object, reading moves the offset over the file's bytes, closing gives both
    back. *)

From S2P Require Import Prelude KString Errno Alloc Vfs Ramfs VfsTree RamfsSpec.

Section FileSpec.
Context {A : Type} {Halloc : Allocator A} {Hspec : AllocatorSpec A}.
Implicit Types s : fs_state A.

(** ** Opening *)

Lemma good_name_split path pp fname :
  good_name path → split_path path = (pp, fname) → good_name pp ∧ good_name fname.
Proof.
  intros Hg. unfold split_path. assert (good_name [SLASH]) by (repeat constructor; unfold SLASH; lia).
  destruct (last_index SLASH path); intros [= <- <-]; [|done].
  split; [case_decide; [done|by apply Forall_take]|by apply Forall_drop].
Qed.

(** A reference given back. *)
Lemma dput_ref s kids p : fs_wf s kids → refs_below s (2 ^ 31 - 2) → is_Some (dentries s !! p) →
  dput ramfs_vt p (bump p 1 s) = Ret (tt, s).
Proof.
  intros Hwf Hr Hp. pose proof (drop_ref ramfs_vt s kids p (inr 0) Hwf Hr Hp) as Hd.
  apply K_bind_inv in Hd as ([] & s1 & Hd & E). by injection E as ->.
Qed.

Definition opened (s : fs_state A) (f t flags fops : Z) (h : A) : fs_state A :=
  set_files (<[f := MkFile t 0 flags fops 1]> (files s)) (set_heap h (bump t 1 s)).

(** open of an existing name, without O_CREAT and O_EXCL: the file, or ENOMEM
    with the file system as it was. *)
Lemma open_spec s kids root path p fname flags dir dd t dt i L :
  fs_wf s kids → refs_below s (2 ^ 31 - 2) → mounted_root s root → good_name path →
  Z.of_nat (length path) < NAME_SIZE → head path = Some SLASH →
  split_path path = (SLASH :: p, fname) → Z.land flags O_EXCL = 0 →
  resolve s kids (components p) root = inl dir → dentries s !! dir = Some dd →
  find_child (dentries s) fname (kids dir) = Some t →
  dentries s !! t = Some dt → inodes s !! d_inode dt = Some i → live (heap s) L → accounted s L →
  ∃ r h, (r = ERR_PTR (- ENOMEM) ∧ live h L ∧ open ramfs_vt path flags s = Ret (r, set_heap h s) ∨
    kernel_ptr r ∧ L !! r = None ∧ live h (<[r := sizeof_File]> L) ∧
    open ramfs_vt path flags s = Ret (r, opened s r t flags (i_f_ops i) h)).
Proof.
  intros Hwf Hr Hm Hgn Hlen Hhd Hsp Hexcl Hres Hdir Hfind Ht Hi HL HA.
  destruct (good_name_split _ _ _ Hgn Hsp) as [Hgp Hgf]. inversion_clear Hgp as [|? ? _ Hgp'].
  destruct path as [|c path]; [done|]. injection Hhd as ->. unfold open.
  rewrite Z.eqb_refl. cbn [negb]. rewrite (proj2 (Z.leb_gt _ _)) by (exact Hlen). rewrite Hsp.
  destruct (path_walk_spec ramfs_vt s kids root p Hwf Hr Hm Hgp') as (r & s1 & Hrun & Hr1).
  rewrite Hres in Hr1. destruct Hr1 as [-> ->]. rewrite (K_bind_ret _ _ _ _ _ Hrun).
  rewrite (kernel_ptr_not_err dir) by (exact (wf_ptr _ _ Hwf _ _ Hdir)).
  assert (Hwf1 : fs_wf (bump dir 1 s) kids) by (by apply wf_bump).
  rewrite (K_bind_ret _ _ _ _ _ (d_lookup_spec _ _ _ _ _ Hwf1 (bump_lookup _ _ _ _ _ Hdir) Hgf)).
  rewrite find_child_bump, Hfind. cbn [default from_option id].
  rewrite (proj2 (Z.eqb_neq t 0)) by (exact (wf_nonnull _ _ _ _ Hwf Ht)).
  rewrite Hexcl. cbn [negb Z.eqb].
  pose proof (move_ref ramfs_vt s kids dir t Hwf Hr ltac:(eauto) ltac:(eauto)) as Hmove.
  apply K_bind_inv in Hmove as (u1 & s1 & Hget & Hmove).
  apply K_bind_inv in Hmove as (u2 & s2 & Hput & Hmove). injection Hmove as ->.
  rewrite (K_bind_ret _ _ _ _ _ Hget), (K_bind_ret _ _ _ _ _ Hput).
  unfold open_file.
  destruct (alloc_ok (heap s) L sizeof_File HL) as (f & h & Ea & Hcase); [done|].
  erewrite K_bind_ret by (apply alloc_ret; exact Ea).
  destruct Hcase as [[-> Hl]|(Hk & Hnone & Hl)].
  - exists (ERR_PTR (- ENOMEM)), h. left. split; [done|]. split; [done|]. rewrite Z.eqb_refl, <- bump_heap.
    assert (Hwfh : fs_wf (set_heap h s) kids) by (by eapply wf_set_heap).
    by rewrite (K_bind_ret _ _ _ _ _ (dput_ref _ kids t Hwfh Hr ltac:(eauto))).
  - exists f, h. right. do 3 (split; [done|]). rewrite (proj2 (Z.eqb_neq f 0)) by (by apply kernel_ptr_nonnull).
    pose proof (bump_lookup t 1 s t dt Ht) as Hbt.
    rewrite (K_bind_ret (get_dentry t) _ _ _ (set_heap h (bump t 1 s))) by (apply get_dentry_ret; exact Hbt).
    rewrite (K_bind_ret (get_inode _) _ _ i (set_heap h (bump t 1 s))) by (apply get_inode_ret; exact Hi).
    reflexivity.
Qed.

Lemma resolve_err s kids comps x e :
  resolve s kids comps x = inr e → e = ENOENT ∨ e = ENOTDIR ∨ e = ENAMETOOLONG.
Proof.
  revert x. induction comps as [|c comps IH]; intros x; cbn [resolve]; [done|].
  destruct (_ <=? _); [intros [= <-]; tauto|]. destruct (step s kids c x) as [y|e'] eqn:E; [apply IH|].
  intros [= <-]. unfold step in E. repeat case_match; naive_solver.
Qed.
Lemma reports_is_err e r :
  e = ENOENT ∨ e = ENOTDIR ∨ e = ENAMETOOLONG → reports e r → IS_ERR r = true.
Proof.
  intros He [->|[_ ->]]; apply IS_ERR_ERR_PTR; unfold MAX_ERRNO, ENOMEM; [|lia].
  unfold ENOENT, ENOTDIR, ENAMETOOLONG in He. lia.
Qed.
Lemma resolve_exists s kids comps x y : fs_wf s kids → is_Some (dentries s !! x) → resolve s kids comps x = inl y →
  is_Some (dentries s !! y).
Proof.
  intros Hwf. revert x. induction comps as [|c l IH]; intros x Hx; cbn [resolve]; [by intros [= <-]|].
  destruct (_ <=? _); [done|]. destruct (step s kids c x) as [z|] eqn:Es; [|done].
  apply IH. by eapply step_exists.
Qed.

(** What open for reading can do: report an error and leave everything as it
    was, or open what the name stands for. *)
Definition open_failed s kids r s' : Prop :=
  ∃ e h, 0 < e ≤ MAX_ERRNO ∧ r = ERR_PTR (- e) ∧ s' = set_heap h s ∧ fs_wf s' kids.
Definition names s kids root p fname t : Prop :=
  ∃ dir, resolve s kids (components p) root = inl dir ∧ find_child (dentries s) fname (kids dir) = Some t.
Definition open_done s kids root p fname L r s' : Prop :=
  ∃ t dt i h, names s kids root p fname t ∧ dentries s !! t = Some dt ∧ inodes s !! d_inode dt = Some i ∧ kernel_ptr r ∧ L !! r = None ∧
    live h (<[r := sizeof_File]> L) ∧ s' = opened s r t O_RDONLY (i_f_ops i) h.

Lemma reports_errno e r : e = ENOENT ∨ e = ENOTDIR ∨ e = ENAMETOOLONG → reports e r →
  ∃ e', 0 < e' ≤ MAX_ERRNO ∧ r = ERR_PTR (- e').
Proof.
  intros He [->|[_ ->]]; eexists; (split; [|done]); unfold MAX_ERRNO, ENOMEM, ENOENT, ENOTDIR, ENAMETOOLONG in *; lia.
Qed.

Lemma open_readonly s kids root path p fname L :
  fs_wf s kids → refs_below s (2 ^ 31 - 2) → mounted_root s root → good_name path →
  Z.of_nat (length path) < NAME_SIZE → head path = Some SLASH → split_path path = (SLASH :: p, fname) →
  live (heap s) L → accounted s L →
  ∃ r s', open ramfs_vt path O_RDONLY s = Ret (r, s') ∧ (open_failed s kids r s' ∨ open_done s kids root p fname L r s').
Proof.
  intros Hwf Hr Hm Hgn Hlen Hhd Hsp HL HA. destruct (good_name_split _ _ _ Hgn Hsp) as [Hgp Hgf].
  inversion_clear Hgp as [|? ? _ Hgp'].
  destruct (path_walk_spec ramfs_vt s kids root p Hwf Hr Hm Hgp') as (r & s1 & Hrun & Hr1).
  destruct (resolve s kids (components p) root) as [dir|e] eqn:Eres.
  2:{ destruct path as [|c path]; [done|]. injection Hhd as ->. unfold open. rewrite Z.eqb_refl. cbn [negb].
      rewrite (proj2 (Z.leb_gt _ _)), Hsp by (exact Hlen). rewrite (K_bind_ret _ _ _ _ _ Hrun).
      destruct Hr1 as [Hrep (h & -> & Hwf')]. pose proof (resolve_err _ _ _ _ _ Eres) as He.
      rewrite (reports_is_err e r He Hrep). exists r, (set_heap h s). split; [done|]. left.
      destruct (reports_errno e r He Hrep) as (e' & He' & ->). by exists e', h. }
  assert (Hdir : is_Some (dentries s !! dir)).
  { destruct Hm as (_ & m & sb & _ & _ & _ & _ & _ & Hroot). by eapply resolve_exists. }
  destruct Hdir as [dd Hdd]. destruct (find_child (dentries s) fname (kids dir)) as [t|] eqn:Ef.
  - apply find_child_Some in Ef as Hc. destruct Hc as [Hc _]. destruct (wf_kid _ _ Hwf _ _ _ Hdd Hc) as (dt & Hdt & _).
    destruct (wf_inode _ _ Hwf _ _ Hdt) as [_ [i Hi]].
    destruct (open_spec s kids root path p fname O_RDONLY dir dd t dt i L) as (r' & h & Hcase); try done.
    destruct Hcase as [(-> & Hl & Ho)|(Hk & Hn & Hl & Ho)]; eexists _, _; (split; [exact Ho|]).
    + left. exists ENOMEM, h. split; [done|]. split; [done|]. split; [done|by eapply wf_set_heap].
    + right. exists t, dt, i, h. split; [by exists dir|done].
  - destruct Hr1 as [-> ->]. destruct path as [|c path]; [done|]. injection Hhd as ->. unfold open.
    rewrite Z.eqb_refl. cbn [negb]. rewrite (proj2 (Z.leb_gt _ _)), Hsp by (exact Hlen). rewrite (K_bind_ret _ _ _ _ _ Hrun).
    rewrite (kernel_ptr_not_err dir) by (exact (wf_ptr _ _ Hwf _ _ Hdd)).
    assert (Hwf1 : fs_wf (bump dir 1 s) kids) by (by apply wf_bump).
    rewrite (K_bind_ret _ _ _ _ _ (d_lookup_spec _ _ _ _ _ Hwf1 (bump_lookup _ _ _ _ _ Hdd) Hgf)).
    rewrite find_child_bump, Ef. cbn [default from_option id]. change (Z.land O_RDONLY O_CREAT =? 0) with true. cbv iota.
    change (0 =? 0) with true. cbv iota. rewrite (K_bind_ret _ _ _ _ _ (dput_ref s kids dir Hwf Hr ltac:(by eexists))).
    eexists _, _. split; [done|]. left. exists ENOENT, (heap s). split; [done|]. split; [done|]. split; [by destruct s|done].
Qed.

(** ** Reading *)

(** [file] is open for reading, at [off], on a regular file holding [data]. *)
Definition readable (s : fs_state A) (file off : Z) (data : list Z) : Prop :=
  ∃ f d i, file ≠ 0 ∧ files s !! file = Some f ∧ f_offset f = off ∧
    Z.land (f_flags f) O_WRONLY = 0 ∧ f_ops f = RAMFS_FILE_OPS ∧
    dentries s !! f_dentry f = Some d ∧ inodes s !! d_inode d = Some i ∧
    i_type i = Regular ∧ content s i = Some data ∧ i_size i = Z.of_nat (length data).

Definition seek (s : fs_state A) (file off : Z) : fs_state A :=
  set_files (alter (λ f, file_with_offset f off) file (files s)) s.

Lemma slice_ok data off n :
  0 ≤ off → 0 ≤ n → off + n ≤ Z.of_nat (length data) →
  slice data off n = Some (take (Z.to_nat n) (drop (Z.to_nat off) data)).
Proof. intros. unfold slice. by rewrite (proj2 (Z.leb_le _ _)) by lia. Qed.

Lemma ramfs_read_spec s file off data n :
  readable s file off data → 0 ≤ off → 0 ≤ n → off + n < 2 ^ 63 → Z.of_nat (length data) < 2 ^ 63 →
  let bytes := take (Z.to_nat n) (drop (Z.to_nat off) data) in
  ramfs_read file n off s = Ret ((Z.of_nat (length bytes), bytes), s).
Proof.
  intros (f & d & i & Hf0 & Hf & Ho & Hfl & Hops & Hd & Hi & Hty & Hc & Hsz) Ho0 Hn Hon Hlen bytes.
  unfold ramfs_read. rewrite (K_bind_ret _ _ s f s) by (unfold get_file; by rewrite Hf).
  kstep (get_dentry_ret _ _ _ Hd). kstep (get_inode_ret _ _ _ Hi).
  rewrite bool_decide_true by done. cbn [negb]. unfold content in Hc.
  assert (Hempty : data = [] → Ret ((0, []), s) = Ret ((Z.of_nat (length bytes), bytes), s)).
  { intros ->. unfold bytes. by rewrite drop_nil, take_nil. }
  destruct (i_private_data i =? 0); [injection Hc as <-; by apply Hempty|].
  destruct (privs s !! i_private_data i) as [v|] eqn:Hv; [|done].
  rewrite (K_bind_ret _ _ s v s) by (unfold get_priv; by rewrite Hv).
  cbn [mbind option_bind] in Hc. destruct (buffer v =? 0); [injection Hc as <-; by apply Hempty|].
  rewrite Hsz. destruct (Z.leb_spec (Z.of_nat (length data)) off) as [Hend|Hmid].
  { unfold bytes. by rewrite drop_ge, take_nil by lia. }
  rewrite u64_small by lia. cbv zeta.
  rewrite (K_bind_ret _ _ s data s) by (unfold get_buffer; by rewrite Hc).
  assert (Hb : bytes = take (Z.to_nat (if Z.of_nat (length data) <? off + n
    then Z.of_nat (length data) - off else n)) (drop (Z.to_nat off) data)).
  { unfold bytes. zcase; [|done]. rewrite !take_ge; [done|rewrite length_drop; lia..]. }
  assert (Hbl : Z.of_nat (length bytes) = if Z.of_nat (length data) <? off + n
    then Z.of_nat (length data) - off else n).
  { unfold bytes. rewrite length_take, length_drop. zcase; lia. }
  rewrite slice_ok by (try zcase; lia). rewrite <- Hb, <- Hbl.
  erewrite K_bind_ret by reflexivity. unfold mret, K_ret. f_equal. f_equal. f_equal.
  assert (Z.of_nat (length bytes) ≤ n) by (rewrite Hbl; zcase; lia).
  unfold s64, to_signed. rewrite Z.mod_small by lia. by rewrite (proj2 (Z.ltb_lt _ _)) by lia.
Qed.

Lemma read_spec s file off data n :
  readable s file off data → 0 ≤ off → 0 ≤ n → off + n < 2 ^ 63 → Z.of_nat (length data) < 2 ^ 63 →
  let bytes := take (Z.to_nat n) (drop (Z.to_nat off) data) in
  let off' := off + Z.of_nat (length bytes) in
  ∃ s', read ramfs_vt file n s = Ret ((Z.of_nat (length bytes), bytes), s') ∧
    readable s' file off' data ∧ s' = seek s file off'.
Proof.
  intros Hread Ho0 Hn Hon Hlen bytes off'.
  pose proof (ramfs_read_spec s file off data n Hread Ho0 Hn Hon Hlen) as Hrun. fold bytes in Hrun.
  pose proof Hread as (f & d & i & Hf0 & Hf & Ho & Hfl & Hops & Hd & Hi & Hty & Hc & Hsz).
  assert (Hseek : readable (seek s file off') file off' data).
  { exists (file_with_offset f off'), d, i. unfold seek; cbn. rewrite lookup_alter_eq, Hf. done. }
  exists (seek s file off'). split; [|done]. unfold read.
  rewrite (proj2 (Z.eqb_neq file 0)) by done.
  rewrite (K_bind_ret _ _ s f s) by (unfold get_file; by rewrite Hf).
  rewrite Hfl. cbn [negb Z.eqb]. rewrite Hops, Ho.
  change (vt_fops ramfs_vt RAMFS_FILE_OPS ≫= op_read) with (Some (ramfs_read (A := A))).
  cbv beta iota. rewrite (K_bind_ret _ _ _ _ _ Hrun). cbv beta iota.
  assert (Hupd : ∀ v, seek s file v = set_files (<[file := file_with_offset f v]> (files s)) s).
  { intros v. unfold seek. f_equal. apply map_eq. intros x. rewrite lookup_alter, lookup_insert.
    case_decide; [subst; by rewrite Hf|done]. }
  assert (length bytes ≤ Z.to_nat n)%nat by (unfold bytes; rewrite length_take; lia).
  destruct (Z.ltb_spec 0 (Z.of_nat (length bytes))) as [Hpos|Hz].
  - rewrite (K_bind_ret _ _ s tt (seek s file off')); [done|].
    rewrite (K_bind_ret _ _ s f s) by (unfold get_file; by rewrite Hf).
    rewrite Ho, u64_small by lia. unfold put_file, k_modify. rewrite Hupd. done.
  - rewrite (K_bind_ret _ _ s tt s) by done. unfold off'.
    replace (off + Z.of_nat (length bytes)) with off by lia. rewrite Hupd.
    replace (file_with_offset f off) with f by (destruct f; cbn in Ho; by subst).
    rewrite insert_id by done. by destruct s.
Qed.

(** Reading in pieces: the sizes asked for, one after the other. *)
Fixpoint read_seq (ns : list Z) (file : Z) : K (fs_state A) (list Z) :=
  match ns with
  | [] => mret []
  | n :: ns' =>
      r ← read ramfs_vt file n;
      rest ← read_seq ns' file;
      mret (snd r ++ rest)
  end.

Lemma read_seq_spec ns s file off data :
  readable s file off data → 0 ≤ off → Forall (λ n, 0 ≤ n) ns →
  off + foldr Z.add 0 ns < 2 ^ 63 → Z.of_nat (length data) < 2 ^ 63 →
  ∃ s', read_seq ns file s =
    Ret (take (Z.to_nat (foldr Z.add 0 ns)) (drop (Z.to_nat off) data), s').
Proof.
  revert s off. induction ns as [|n ns IH]; intros s off Hr Ho Hns Hsum Hlen; [by exists s|].
  inversion_clear Hns as [|? ? Hn Hns']. cbn [foldr] in *.
  assert (Hsum0 : 0 ≤ foldr Z.add 0 ns).
  { clear -Hns'. induction Hns'; cbn in *; lia. }
  destruct (read_spec s file off data n Hr Ho Hn ltac:(lia) Hlen) as (s1 & Hrun & Hr1 & _).
  set (bytes := take (Z.to_nat n) (drop (Z.to_nat off) data)) in *.
  assert (length bytes ≤ Z.to_nat n)%nat by (unfold bytes; rewrite length_take; lia).
  destruct (IH s1 _ Hr1 ltac:(lia) Hns' ltac:(lia) Hlen) as (s2 & Hrest).
  exists s2. cbn [read_seq]. rewrite (K_bind_ret _ _ _ _ _ Hrun), (K_bind_ret _ _ _ _ _ Hrest).
  unfold mret, K_ret. f_equal. f_equal. cbn [snd].
  rewrite Z2Nat.inj_add, Z2Nat.inj_add by lia. rewrite Nat2Z.id.
  rewrite <- drop_drop. unfold bytes. set (l := drop (Z.to_nat off) data).
  set (m := Z.to_nat (foldr Z.add 0 ns)). destruct (decide (Z.to_nat n ≤ length l)%nat).
  - rewrite length_take, Nat.min_l by lia. by rewrite take_take_drop.
  - rewrite length_take, Nat.min_r by lia. rewrite drop_all, take_nil, app_nil_r.
    rewrite !take_ge by lia. done.
Qed.

(** ** Closing *)

Section Close.
Context (vt : vtables (fs_state A)).
Implicit Types fs : fs_state A.

Lemma close_shared fs f F : files fs !! f = Some F → f ≠ 0 → 1 < f_ref_count F < 2 ^ 31 →
  close vt f fs = Ret (tt, set_files (<[f := file_with_ref F (f_ref_count F - 1)]> (files fs)) fs).
Proof.
  intros Hf H0 Hr. unfold close. rewrite (proj2 (Z.eqb_neq f 0)) by done.
  rewrite (K_bind_ret _ _ fs F fs) by (unfold get_file; by rewrite Hf).
  unfold atomic_dec_and_test. rewrite s32_small by lia. rewrite (proj2 (Z.eqb_neq _ 0)) by lia. done.
Qed.

Lemma close_last fs f F d L : files fs !! f = Some F → f ≠ 0 → f_ref_count F = 1 →
  f_dentry F ≠ 0 → dentries fs !! f_dentry F = Some d → 1 < d_ref_count d < 2 ^ 31 →
  live (heap fs) L → L !! f = Some sizeof_File →
  ∃ h, live h (delete f L) ∧
    close vt f fs = Ret (tt, set_files (delete f (files fs)) (set_heap h (bump (f_dentry F) (-1) fs))).
Proof.
  intros Hf H0 Hr Hd0 Hd Hdr Hl HL. unfold close. rewrite (proj2 (Z.eqb_neq f 0)) by done.
  rewrite (K_bind_ret _ _ fs F fs) by (unfold get_file; by rewrite Hf).
  unfold atomic_dec_and_test. rewrite Hr. change (s32 (1 - 1)) with 0. cbv iota.
  erewrite K_bind_ret by reflexivity. cbn [Z.eqb].
  set (fs1 := set_files _ fs). rewrite (K_bind_ret _ _ _ _ _ (dput_spec vt fs1 (f_dentry F) d Hd Hd0 Hdr)).
  destruct (free_ok (heap fs) L f sizeof_File Hl HL) as (h & Hfree & Hl'). exists h. split; [done|].
  rewrite (K_bind_ret _ _ _ tt (set_heap h (bump (f_dentry F) (-1) fs1)))
    by (unfold free; change (heap (bump (f_dentry F) (-1) fs1)) with (heap fs); by rewrite Hfree).
  unfold k_modify, fs1, bump, set_heap, set_files, set_dentries. cbn. by rewrite delete_insert_eq.
Qed.
End Close.
End FileSpec.
