(* ===== verification/FsTheorems.v ===== *)
(** * File system theorems: boot, path resolution, creation, reading, listing

    The results of [VfsTree] and [RamfsSpec] put together for the operations
    the rest of the kernel calls, each with a concrete instance on the root
    file system built at boot. *)

From S2P Require Import Prelude KString Errno Alloc Vfs Ramfs VfsTree RamfsSpec FileSpec.

Section FsTheorems.
Context {A : Type} `{AllocatorSpec A}.
Implicit Types s : fs_state A.

(** C1: path_walk on a mounted ramfs is resolution on the dentry tree: it
    terminates without a fault, returns the dentry the components lead to and
    takes exactly one reference on it; on failure it returns the error as an
    error pointer (ENOTDIR, ENOENT, ENAMETOOLONG, or ENOMEM when the temporary
    dentry of a missing name cannot be allocated) and the file system is as it
    was, whatever temporary dentry and references it used on the way. *)
Theorem path_walk_resolves (s : fs_state A) (kids : Z → list Z) (root : Z) (p : list Z)
    (Hwf : fs_wf s kids) (Hrefs : refs_below s (2 ^ 31 - 2))
    (Hroot : mounted_root s root) (Hp : good_name p) :
  ∃ r s', path_walk ramfs_vt (SLASH :: p) s = Ret (r, s') ∧
    match resolve s kids (components p) root with
    | inl t => r = t ∧ s' = bump t 1 s
    | inr e => reports e r ∧ same_fs s s' kids
    end.
Proof. by apply path_walk_spec; [apply ramfs_cached|..]. Qed.

(** C24: create_dir keeps the tree invariant; when it succeeds the new name
    resolves to the new, empty directory and every other resolution step is
    unchanged, and when it fails the tree is unchanged. *)
Theorem create_dir_updates_tree (s : fs_state A) (kids : Z → list Z) (cur : Z) (name : list Z)
    (Hwf : fs_wf s kids) (Hdir : is_dir s cur = true) (Hname : good_name name)
    (Hlen : Z.of_nat (length name) < NAME_SIZE) (Hdot : name ≠ [DOT]) (Hdots : name ≠ [DOT; DOT]) :
  ∃ r s', create_dir cur name s = Ret (r, s') ∧
    (r = 0 ∧ dentries s' = dentries s ∧ inodes s' = inodes s ∧ fs_wf s' kids ∨
     r ≠ 0 ∧ ∃ t, let kids' := add_kid cur t kids in
       fs_wf s' kids' ∧ dentries s !! t = None ∧ is_dir s' t = true ∧
       step s' kids' name cur = inl t ∧
       ∀ comp p, is_Some (dentries s !! p) → (comp, p) ≠ (name, cur) →
         step s' kids' comp p = step s kids comp p).
Proof.
  destruct (dentries s !! cur) as [d|] eqn:Hd; [|unfold is_dir in Hdir; by rewrite Hd in Hdir].
  destruct (create_dir_spec s kids cur d name Hwf Hd Hdir Hname) as (r & s' & Hrun & Hcase).
  exists r, s'. split; [done|]. destruct Hcase as [(-> & (h & n & ->) & Hwf')|(Hr & t & q & Hadd)].
  - left. done.
  - right. split; [done|]. exists t. cbv zeta.
    destruct (added_step s s' kids cur name t r _ Hwf Hadd Hdir Hlen Hdot Hdots) as [Hst Hoth].
    split; [by eapply add_wf|]. split; [by eapply add_fresh|]. split; [|done].
    destruct (add_dentries _ _ _ _ _ _ _ _ Hadd) as (dc & Hc & Hds). unfold is_dir.
    rewrite Hds, (linked_lookup_new _ _ _ _ _ _ Hc) by (by eapply add_fresh). cbn [d_inode].
    by rewrite (add_inodes _ _ _ _ _ _ _ _ Hadd), lookup_insert_eq.
Qed.

(** Opening a file that create_file has just made. *)
Lemma open_created s s1 kids root cur p name data ino path :
  fs_wf s kids → refs_below s (2 ^ 31 - 2) → mounted_root s root → good_name path →
  Z.of_nat (length path) < NAME_SIZE → head path = Some SLASH →
  split_path path = (SLASH :: p, name) → name ≠ [DOT] → name ≠ [DOT; DOT] →
  resolve s kids (components p) root = inl cur → is_dir s cur = true →
  find_child (dentries s) name (kids cur) = None → created s s1 kids cur name data ino →
  ∃ r h, (r = ERR_PTR (- ENOMEM) ∧ open ramfs_vt path O_RDONLY s1 = Ret (r, set_heap h s1)) ∨
    ∃ t, open ramfs_vt path O_RDONLY s1 = Ret (r, opened s1 r t O_RDONLY RAMFS_FILE_OPS h) ∧
      readable (opened s1 r t O_RDONLY RAMFS_FILE_OPS h) r 0 data.
Proof.
  intros Hwf Hr Hm Hg Hlen Hhd Hsp Hn1 Hn2 Hres Hdir Hfree (t & q & Hadd & Hcont).
  assert (Hlen' : Z.of_nat (length name) < NAME_SIZE).
  { unfold split_path in Hsp. destruct (last_index SLASH path); simplify_eq; [|lia].
    rewrite length_drop. lia. }
  destruct (add_dentries _ _ _ _ _ _ _ _ Hadd) as (dc & Hc & Hds).
  pose proof (add_fresh _ _ _ _ _ _ _ _ Hadd) as Hfr.
  destruct (added_step s s1 kids cur name t ino _ Hwf Hadd Hdir Hlen' Hn1 Hn2) as [Hst _].
  unfold step in Hst. rewrite !decide_False in Hst by done.
  rewrite (added_is_dir _ _ _ _ _ _ _ _ _ Hwf Hadd), Hdir in Hst by eauto.
  destruct (find_child (dentries s1) name _) as [c|] eqn:Hfind; [|done]. injection Hst as ->.
  assert (Ht : dentries s1 !! t = Some (MkDentry (take (Z.to_nat (NAME_SIZE - 1)) name) ino cur 0 (d_child dc) 1))
    by (rewrite Hds; by apply linked_lookup_new).
  destruct (added_lookup _ _ _ _ _ _ _ _ _ _ Hadd Hc) as (dc' & Hc' & _).
  assert (Hi : inodes s1 !! ino = Some (new_inode s Regular (Z.of_nat (length data)) q))
    by (rewrite (add_inodes _ _ _ _ _ _ _ _ Hadd); apply lookup_insert_eq).
  destruct (wf_heap _ _ (add_wf _ _ _ _ _ _ _ _ Hadd)) as (L & HL & HA).
  destruct (open_spec s1 (add_kid cur t kids) root path p name O_RDONLY cur dc' t
    (MkDentry (take (Z.to_nat (NAME_SIZE - 1)) name) ino cur 0 (d_child dc) 1)
    (new_inode s Regular (Z.of_nat (length data)) q) L (add_wf _ _ _ _ _ _ _ _ Hadd))
    as (r & h & Hcase); try done.
  { by eapply added_refs. } { by eapply added_mounted. }
  { eapply resolve_added; try done. by destruct Hm as (_ & m & sb & _ & _ & _ & _ & _ & ?). }
  exists r, h. destruct Hcase as [(-> & _ & Hrun)|(Hk & _ & _ & Hrun)]; [by left|right]. exists t. split; [exact Hrun|].
  eexists (MkFile t 0 O_RDONLY RAMFS_FILE_OPS 1), _, _.
  split; [by apply kernel_ptr_nonnull|]. split; [apply lookup_insert_eq|]. split; [done|].
  split; [done|]. split; [done|]. split; [apply bump_lookup; exact Ht|].
  split; [exact Hi|]. split; [done|]. split; [exact Hcont|done].
Qed.

(** C9: what create_file stores under a new name is what a process reads
    back: open on the path succeeds (or reports ENOMEM), and reading it in
    pieces of any sizes gives the data from its first byte on, in order. *)
Theorem create_open_read (s : fs_state A) (kids : Z → list Z) (root cur : Z)
    (p name data path : list Z) (ns : list Z)
    (Hwf : fs_wf s kids) (Hrefs : refs_below s (2 ^ 31 - 2)) (Hroot : mounted_root s root)
    (Hpath : good_name path) (Hlen : Z.of_nat (length path) < NAME_SIZE)
    (Habs : head path = Some SLASH) (Hsplit : split_path path = (SLASH :: p, name))
    (Hdot : name ≠ [DOT]) (Hdots : name ≠ [DOT; DOT])
    (Hres : resolve s kids (components p) root = inl cur) (Hdir : is_dir s cur = true)
    (Hnew : find_child (dentries s) name (kids cur) = None)
    (Hdata : Z.of_nat (length data) < 2 ^ 32)
    (Hns : Forall (λ n, 0 ≤ n) ns) (Hsum : foldr Z.add 0 ns < 2 ^ 63) :
  ∃ ino s1, create_file cur name data s = Ret (ino, s1) ∧
    (ino ≠ 0 → ∃ f s2, open ramfs_vt path O_RDONLY s1 = Ret (f, s2) ∧
      (f = ERR_PTR (- ENOMEM) ∨
       ∃ s3, read_seq ns f s2 = Ret (take (Z.to_nat (foldr Z.add 0 ns)) data, s3))).
Proof.
  destruct (dentries s !! cur) as [d|] eqn:Hd; [|unfold is_dir in Hdir; by rewrite Hd in Hdir].
  destruct (good_name_split _ _ _ Hpath Hsplit) as [_ Hgn].
  destruct (create_file_spec s kids cur d name data Hwf Hd Hdir Hgn Hdata) as (ino & s1 & Hrun & Hcase).
  exists ino, s1. split; [done|]. intros Hino.
  destruct Hcase as [[-> _]|[_ Hcr]]; [done|].
  destruct (open_created s s1 kids root cur p name data ino path) as (r & h & Hopen); try done.
  destruct Hopen as [[-> Hopen]|(t & Hopen & Hread)].
  - eexists _, _. split; [exact Hopen|by left].
  - eexists _, _. split; [exact Hopen|right].
    eapply read_seq_spec in Hread as (s3 & Hseq); [|done|exact Hns|done|lia]. by exists s3.
Qed.

(** at boot the root file system comes up well formed: init and mount
    either panic or leave a tree with at most the root dentry, which is a
    directory and the root mount's mount point (or null when its dentry could
    not be allocated). *)
Theorem mount_root_boots (a : A) (Ha : live a ∅) :
  (∃ w, mount_root (fs_boot a) = Panic w) ∨
  ∃ sb s, mount_root (fs_boot a) = Ret (sb, s) ∧ boot_result s.
Proof. by apply mount_root_spec. Qed.

(** ramfs is read-only: a write to an open ramfs file, whatever its flags
    and the data, returns VFS_ERR_IO and changes nothing. *)
Theorem ramfs_write_refused (s : fs_state A) (file : Z) (f : File) (bytes : list Z)
    (Hf : files s !! file = Some f) (Hnn : file ≠ 0) (Hops : f_ops f = RAMFS_FILE_OPS) :
  write ramfs_vt file bytes s = Ret (VFS_ERR_IO, s).
Proof.
  unfold write. rewrite (proj2 (Z.eqb_neq file 0)) by done.
  rewrite (K_bind_ret _ _ s f s) by (unfold get_file; by rewrite Hf).
  destruct (f_flags f =? O_RDONLY); [done|]. by rewrite Hops.
Qed.

(** The directory entries of a list of dentries: inode number and name. *)
Definition entry (s : fs_state A) (x : Z) : Z * list Z :=
  match dentries s !! x with
  | Some d => (from_option i_ino 0 (inodes s !! d_inode d), take (Z.to_nat (NAME_SIZE - 1)) (d_name d))
  | None => (0, [])
  end.

Lemma readdir_loop_spec s l fuel p index off count out :
  chain (dentries s) p l → (length l < fuel)%nat → 0 < count →
  (∀ x d, x ∈ l → dentries s !! x = Some d → is_Some (inodes s !! d_inode d)) →
  Z.of_nat (length out) ≤ count →
  let skip := Z.to_nat (off - index) in
  let new := take (Z.to_nat (count - Z.of_nat (length out))) (entry s <$> drop skip l) in
  ∃ index', readdir_loop fuel p index off count out s = Ret ((index', out ++ new), s) ∧
    (index ≤ off ≤ index + Z.of_nat (length l) → 0 < count - Z.of_nat (length out) →
     index' = off + Z.of_nat (length new)) ∧
    (off ≤ index → index' = index + Z.of_nat (length new)).
Proof.
  intros Hc. revert fuel p index out Hc.
  induction l as [|x l IH]; intros [|f] p index out Hc Hf Hpos Hi Hout skip new; simpl in Hf; try lia.
  { cbn in Hc. subst p. exists index. unfold new. cbn [readdir_loop]. rewrite Z.eqb_refl. cbn [negb andb].
    rewrite drop_nil, fmap_nil, take_nil, app_nil_r. cbn [length]. split; [done|]. split; intros; lia. }
  destruct Hc as (-> & Hx & d & Hd & Hc). cbn [readdir_loop].
  rewrite (proj2 (Z.eqb_neq x 0)) by done. cbn [negb andb].
  destruct (Z.ltb_spec (Z.of_nat (length out)) count) as [Hlt|Hge].
  2: { exists index. assert (new = []) as ->.
       { unfold new. by replace (Z.to_nat (count - Z.of_nat (length out))) with O by lia. }
       rewrite app_nil_r. cbn [length]. split; [done|]. split; intros; lia. }
  kstep (get_dentry_ret _ _ _ Hd). destruct (Hi x d ltac:(set_solver) Hd) as [i Hin].
  assert (Hent : entry s x = (i_ino i, take (Z.to_nat (NAME_SIZE - 1)) (d_name d))).
  { unfold entry. by rewrite Hd, Hin. }
  assert (Hi' : ∀ y dy, y ∈ l → dentries s !! y = Some dy → is_Some (inodes s !! d_inode dy)).
  { intros y dy Hy. apply Hi. set_solver. }
  destruct (Z.leb_spec off index) as [Ho|Ho].
  - erewrite K_bind_ret by (kstep (get_inode_ret _ _ _ Hin); reflexivity). rewrite <- Hent.
    destruct (IH f (d_sibling d) (index + 1) (out ++ [entry s x]) Hc) as (j & Hrun & _ & Hj);
      [lia|done|done|rewrite length_app; cbn; lia|].
    exists j. rewrite Hrun. unfold new, skip. rewrite length_app. cbn [length].
    replace (Z.to_nat (off - (index + 1))) with O by lia. replace (Z.to_nat (off - index)) with O by lia.
    rewrite !drop_0. cbn [fmap list_fmap].
    replace (Z.to_nat (count - Z.of_nat (length out))) with
      (S (Z.to_nat (count - Z.of_nat (length out + 1)))) by lia. cbn [take].
    rewrite <- app_assoc. split; [done|].
    rewrite length_app in Hj. replace (Z.to_nat (off - (index + 1))) with O in Hj by lia.
    rewrite drop_0 in Hj. cbn [length] in *. split; lia.
  - rewrite (K_bind_ret _ _ s out s) by done.
    destruct (IH f (d_sibling d) (index + 1) out Hc) as (j & Hrun & Hj & _); [lia|done|done|done|].
    exists j. rewrite Hrun. unfold new, skip.
    replace (Z.to_nat (off - index)) with (S (Z.to_nat (off - (index + 1)))) by lia. cbn [drop].
    split; [done|]. cbn [length] in *. split; [|lia]. intros. apply Hj; lia.
Qed.

(** readdir lists a directory: from an offset within the directory it
    returns the next entries (at most [count]) in order, each child once, and
    moves the offset past them, so that repeated calls enumerate the
    directory. *)
Theorem readdir_lists (s : fs_state A) (kids : Z → list Z) (file count : Z) (f : File) (d : Dentry)
    (Hwf : fs_wf s kids) (Hf : files s !! file = Some f) (Hd : dentries s !! f_dentry f = Some d)
    (Hdir : is_dir s (f_dentry f) = true) (Hcount : 0 < count)
    (Hoff : 0 ≤ f_offset f ≤ Z.of_nat (length (kids (f_dentry f)))) :
  let out := take (Z.to_nat count) (entry s <$> drop (Z.to_nat (f_offset f)) (kids (f_dentry f))) in
  ramfs_readdir file count s = Ret ((Z.of_nat (length out), out),
    set_files (<[file := file_with_offset f (f_offset f + Z.of_nat (length out))]> (files s)) s).
Proof.
  intros out. unfold ramfs_readdir.
  rewrite (K_bind_ret _ _ s f s) by (unfold get_file; by rewrite Hf).
  kstep (get_dentry_ret _ _ _ Hd). unfold is_dir in Hdir. rewrite Hd in Hdir.
  destruct (inodes s !! d_inode d) as [i|] eqn:Hi; [|done].
  kstep (get_inode_ret _ _ _ Hi). rewrite Hdir. cbn [negb].
  pose proof (wf_chain _ _ Hwf _ _ Hd) as Hc.
  pose proof (chain_length _ _ _ Hc (wf_nodup _ _ Hwf _ _ Hd)).
  destruct (readdir_loop_spec s _ (chain_fuel s) _ 0 (f_offset f) count [] Hc)
    as (j & Hrun & Hj & _); [unfold chain_fuel; lia|done| |cbn; lia|].
  { intros x dx _ Hx. by apply (wf_inode _ _ Hwf _ _ Hx). }
  rewrite !Z.sub_0_r in Hrun, Hj. cbn [length app] in Hrun, Hj.
  fold out in Hrun, Hj.
  rewrite (K_bind_ret (with_fuel _) _ _ _ _ Hrun). cbv beta iota. krun. rewrite Hj by lia. done.
Qed.

(** A file opened on a tree without open files. *)
Lemma wf_one_file s kids f x (h : A) :
  fs_wf s kids → (∀ L, live (heap s) L → L !! f = None ∧ live h (<[f := sizeof_File]> L)) →
  fs_wf (set_heap h (set_files {[ f := x ]} s)) kids.
Proof.
  intros Hwf Hh. destruct (wf_heap _ _ Hwf) as (L & HL & HA). destruct (Hh L HL) as [Hfr Hl].
  eapply (wf_update s _ _ (<[f := sizeof_File]> L)); [done|done|done|done|].
  destruct (accounted_fresh s L f sizeof_File HA Hfr) as [HD HI HF HP HB]. split; try done.
  intros p [y Hy]. cbn in Hy. apply lookup_singleton_Some in Hy as [<- _]. apply lookup_insert_eq.
Qed.

End FsTheorems.

(** ** Instances on the root file system of a small machine *)

Definition run {S B} (m : K S B) (s : S) : S :=
  match m s with Ret (_, s') => s' | _ => s end.
Definition result {S B} (m : K S B) (s : S) : outcome B :=
  match m s with Ret (b, _) => Ret b | Panic w => Panic w | Fault => Fault | Diverge => Diverge end.

(** The root mounted, and /bin and /bin/sh made, with 100 allocations to go. *)
Definition s_root : fs_state Alloc.bump := run mount_root (fs_boot (Bump 100 0)).
Definition root_d : Z := KERNEL_BASE + 16384.
Definition bin : list Z := [98; 105; 110].
Definition sh : list Z := [115; 104].
Definition s_bin : fs_state Alloc.bump := run (create_dir root_d bin) s_root.

Lemma root_boots : boot_result s_root ∧ mounted_root s_root root_d ∧ is_dir s_root root_d = true.
Proof.
  assert (Hl : live (Bump 100 0) ∅) by (split; [done|]; intros p n; by rewrite lookup_empty).
  destruct (mount_root_spec (Bump 100 0) Hl) as [[w Hw]|(sb & s & Hs & Hb)].
  { vm_compute in Hw. discriminate. }
  assert (s_root = s) as -> by (unfold s_root, run; by rewrite Hs).
  split; [done|]. destruct Hb as (_ & _ & _ & m & Hm & Hcase).
  assert (m_mount_point m = root_d) as Hmp.
  { unfold s_root, run in *. assert (E : (g_root_mount s, mounts s !! g_root_mount s) =
      (KERNEL_BASE + 12288, Some (MkMount KERNEL_BASE root_d 0))).
    { assert (s = run mount_root (fs_boot (Bump 100 0))) as -> by (unfold run; by rewrite Hs).
      vm_compute. reflexivity. }
    injection E as _ E2. rewrite E2 in Hm. injection Hm as <-. done. }
  rewrite Hmp in Hcase. destruct Hcase as [Hz|?]; [|done]. vm_compute in Hz. discriminate.
Qed.

Lemma bin_made : ∃ t ino q, ino ≠ 0 ∧
  added s_root s_bin (λ _, []) root_d bin t ino (new_inode s_root Directory 0 q).
Proof.
  destruct root_boots as ((Hwf & _ & _) & (_ & m & sb & _ & _ & _ & _ & _ & [d Hd]) & Hdir).
  destruct (create_dir_spec s_root _ root_d d bin Hwf Hd Hdir) as (r & s & Hrun & Hcase).
  { repeat constructor; lia. }
  assert (s_bin = s) as -> by (unfold s_bin, run; by rewrite Hrun).
  destruct Hcase as [(-> & _)|(Hr & t & q & Hadd)]; [|eauto].
  exfalso. assert (E : result (create_dir root_d bin) s_root = Ret 0) by (unfold result; by rewrite Hrun).
  vm_compute in E. discriminate.
Qed.

Lemma path_walk_resolves_witness :
  ∃ kids t r s', resolve s_bin kids (components bin) root_d = inl t ∧
    path_walk ramfs_vt (SLASH :: bin) s_bin = Ret (r, s') ∧ r = t ∧ s' = bump t 1 s_bin.
Proof.
  destruct root_boots as ((Hwf & Hr & _) & Hm & Hdir). destruct bin_made as (t & ino & q & _ & Hadd).
  pose proof (added_step _ _ _ _ _ _ _ _ Hwf Hadd Hdir eq_refl ltac:(done) ltac:(done)) as [Hst _].
  assert (Hres : resolve s_bin (add_kid root_d t (λ _, [])) (components bin) root_d = inl t).
  { change (components bin) with [bin]. cbn [resolve]. by rewrite Hst. }
  assert (Hr1 : refs_below s_root (2 ^ 31 - 2)).
  { intros p d Hd. pose proof (Hr p d Hd). lia. }
  destruct (path_walk_resolves s_bin (add_kid root_d t (λ _, [])) root_d bin
    (add_wf _ _ _ _ _ _ _ _ Hadd) (added_refs _ _ _ _ _ _ _ _ (2 ^ 31 - 2) Hadd ltac:(lia) Hr1)
    (added_mounted _ _ _ _ _ _ _ _ _ Hadd Hm) ltac:(repeat constructor; lia)) as (r & s' & Hrun & Hcase).
  rewrite Hres in Hcase. destruct Hcase as [Hrt Hs]. exists (add_kid root_d t (λ _, [])), t, r, s'.
  split; [exact Hres|]. split; [exact Hrun|]. split; [exact Hrt|exact Hs].
Defined.

Lemma create_dir_updates_tree_witness :
  ∃ r s', create_dir root_d bin s_root = Ret (r, s') ∧ r ≠ 0 ∧
    ∃ t, step s' (add_kid root_d t (λ _, [])) bin root_d = inl t.
Proof.
  destruct root_boots as ((Hwf & _ & _) & _ & Hdir).
  destruct (create_dir_updates_tree s_root (λ _, []) root_d bin Hwf Hdir
    ltac:(repeat constructor; lia) eq_refl ltac:(done) ltac:(done)) as (r & s' & Hrun & Hcase).
  exists r, s'. split; [exact Hrun|]. destruct Hcase as [[-> _]|(Hr & t & _ & _ & _ & Hst & _)].
  - exfalso. assert (E : result (create_dir root_d bin) s_root = Ret 0) by (unfold result; by rewrite Hrun).
    vm_compute in E. discriminate.
  - split; [exact Hr|]. exists t. exact Hst.
Defined.

Lemma create_open_read_witness :
  ∃ ino s1, create_file root_d sh [35; 33; 10] s_root = Ret (ino, s1) ∧ ino ≠ 0 ∧
    ∃ f s2, open ramfs_vt (SLASH :: sh) O_RDONLY s1 = Ret (f, s2) ∧
      (f = ERR_PTR (- ENOMEM) ∨ ∃ s3, read_seq [2; 5] f s2 = Ret ([35; 33; 10], s3)).
Proof.
  destruct root_boots as ((Hwf & Hr & _) & Hm & Hdir).
  assert (Hr1 : refs_below s_root (2 ^ 31 - 2)).
  { intros p d Hd. pose proof (Hr p d Hd). lia. }
  destruct (create_open_read s_root (λ _, []) root_d root_d [] sh [35; 33; 10] (SLASH :: sh) [2; 5]
    Hwf Hr1 Hm ltac:(unfold SLASH; repeat constructor; lia) eq_refl eq_refl eq_refl
    ltac:(done) ltac:(done) eq_refl Hdir eq_refl eq_refl ltac:(repeat constructor; lia) eq_refl)
    as (ino & s1 & Hrun & Hopen).
  exists ino, s1. split; [exact Hrun|].
  assert (Hino : ino ≠ 0).
  { intros ->. assert (E : result (create_file root_d sh [35; 33; 10]) s_root = Ret 0)
      by (unfold result; by rewrite Hrun). vm_compute in E. discriminate. }
  split; [exact Hino|exact (Hopen Hino)].
Defined.

Lemma mount_root_boots_witness : ∃ sb s, mount_root (fs_boot (Bump 100 0)) = Ret (sb, s) ∧ boot_result s.
Proof.
  assert (Hl : live (Bump 100 0) ∅) by (split; [done|]; intros p n; by rewrite lookup_empty).
  destruct (mount_root_boots (Bump 100 0) Hl) as [[w Hw]|Hok]; [|exact Hok].
  exfalso. vm_compute in Hw. discriminate.
Defined.

(** The root directory opened: the file is the next block of the allocator. *)
Definition dir_file : Z := KERNEL_BASE + 4096 * 8.
Definition s_open : fs_state Alloc.bump :=
  set_heap (Bump 100 9)
    (set_files {[ dir_file := MkFile root_d 0 O_WRONLY RAMFS_FILE_OPS 1 ]} s_bin).

Lemma ramfs_write_refused_witness : write ramfs_vt dir_file [7] s_open = Ret (VFS_ERR_IO, s_open).
Proof.
  apply (ramfs_write_refused s_open dir_file (MkFile root_d 0 O_WRONLY RAMFS_FILE_OPS 1) [7]).
  - apply lookup_singleton_eq.
  - done.
  - done.
Defined.

Lemma with_file_same {A} (h : A) fs s p :
  let s' := set_heap h (set_files fs s) in
  is_dir s' p = is_dir s p ∧ dentries s' = dentries s ∧ files s' = fs.
Proof. done. Qed.

Lemma open_root_wf kids : fs_wf s_bin kids → fs_wf s_open kids.
Proof.
  intros Hwf. apply wf_one_file; [exact Hwf|]. intros L [_ HL]. split.
  - apply eq_None_not_Some. intros [n Hn]. apply HL in Hn. vm_compute in Hn. discriminate.
  - split; [vm_compute; discriminate|]. intros p n. rewrite lookup_insert_Some.
    intros [[<- _]|[_ Hp]]; [vm_compute; reflexivity|].
    apply HL in Hp. eapply Z.lt_trans; [exact Hp|]. vm_compute. reflexivity.
Qed.

Lemma readdir_lists_witness :
  ∃ kids, kids root_d ≠ [] ∧ let out := entry s_open <$> kids root_d in
    ramfs_readdir dir_file 8 s_open = Ret ((Z.of_nat (length out), out),
      set_files (<[dir_file := MkFile root_d (Z.of_nat (length out)) O_WRONLY RAMFS_FILE_OPS 1]>
                   (files s_open)) s_open).
Proof.
  destruct root_boots as ((Hwf & _ & _) & _ & Hdir). destruct bin_made as (t & ino & q & _ & Hadd).
  destruct (add_dentries _ _ _ _ _ _ _ _ Hadd) as (dc & Hc & _).
  destruct (added_lookup _ _ _ _ _ _ _ _ _ _ Hadd Hc) as (d & Hd & _).
  assert (Hne : root_d ≠ t). { intros <-. pose proof (add_fresh _ _ _ _ _ _ _ _ Hadd). congruence. }
  set (kids := add_kid root_d t (λ _, [])). exists kids.
  assert (Hk : kids root_d = [t]). { unfold kids, add_kid. by rewrite decide_False, decide_True. }
  destruct (with_file_same (Bump 100 9)
    {[ dir_file := MkFile root_d 0 O_WRONLY RAMFS_FILE_OPS 1 ]} s_bin root_d) as (Ed & Eds & Ef).
  fold s_open in Ed, Eds, Ef.
  pose proof (eq_trans Ed (eq_trans (added_is_dir _ _ _ _ _ _ _ _ root_d Hwf Hadd
    (ex_intro _ dc Hc)) Hdir)) as Hdir'. clear Ed.
  rewrite <- Eds in Hd. split; [rewrite Hk; discriminate|].
  assert (Hf : files s_open !! dir_file = Some (MkFile root_d 0 O_WRONLY RAMFS_FILE_OPS 1))
    by (rewrite Ef; apply lookup_singleton_eq).
  pose proof (readdir_lists s_open kids dir_file 8 (MkFile root_d 0 O_WRONLY RAMFS_FILE_OPS 1) d
    (open_root_wf _ (add_wf _ _ _ _ _ _ _ _ Hadd)) Hf) as Hrun.
  cbn [f_dentry f_offset] in Hrun.
  specialize (Hrun Hd Hdir' eq_refl ltac:(split; [reflexivity|apply Nat2Z.is_nonneg])).
  cbv zeta in Hrun |- *. rewrite Hk in *. exact Hrun.
Defined.

(** a mount on a path that does not exist is accepted: the walk's error
    pointer is not null, so it becomes the mount point. *)
Theorem mount_missing_target :
  result (mount ramfs_vt KERNEL_BASE [SLASH; 120]) s_root = Ret VFS_OK ∧
  let s := run (mount ramfs_vt KERNEL_BASE [SLASH; 120]) s_root in
  m_mount_point <$> mounts s !! g_mount_list s = Some (ERR_PTR (- ENOENT)).
Proof. split; vm_compute; reflexivity. Qed.
