(* ===== verification/Initramfs.v ===== *)
(** * Loading the initial RAM file system: fs/initramfs.cpp

    The archive is a list of bytes in memory; an access outside it is a
    fault. [parse_entry] is the part of the loop of initramfs_load that
    decodes one cpio "newc" header and checks its bounds, [load_entry] the
    part that creates the file; console output is left out. *)

From S2P Require Import Prelude KString Errno Alloc Vfs Ramfs.

Definition CPIO_NEWC_MAGIC : list Z := [48; 55; 48; 55; 48; 49].
Definition CPIO_HEADER_SIZE : Z := 110.
(** "TRAILER!!!" *)
Definition CPIO_TRAILER : list Z := [84; 82; 65; 73; 76; 69; 82; 33; 33; 33].
Definition CPIO_S_IFMT : Z := 61440.  (* 0170000 *)
Definition CPIO_S_IFDIR : Z := 16384. (* 0040000 *)
Definition CPIO_S_IFREG : Z := 32768. (* 0100000 *)
Definition CPIO_S_IFLNK : Z := 40960. (* 0120000 *)
Definition CPIO_OFF_MODE : Z := 14.
Definition CPIO_OFF_FILESIZE : Z := 54.
Definition CPIO_OFF_NAMESIZE : Z := 94.

Definition cpio_align4 (n : Z) : Z := Z.land (u64 (n + 3)) (u64 (Z.lnot 3)).
(** safe_add(a, b, &out): whether no wrap-around happened, and *out. *)
Definition safe_add (a b : Z) : bool * Z := let out := u64 (a + b) in (a <=? out, out).

(** The value of a hexadecimal digit. *)
Definition hex_digit (c : Z) : option Z :=
  if (48 <=? c) && (c <=? 57) then Some (c - 48)
  else if (65 <=? c) && (c <=? 70) then Some (c - 65 + 10)
  else if (97 <=? c) && (c <=? 102) then Some (c - 97 + 10)
  else None.

Section Parse.
Context (archive : list Z).

Definition rd (i : Z) : outcome Z :=
  if i <? 0 then Fault else
  match archive !! Z.to_nat i with Some b => Ret b | None => Fault end.

(** parse_hex at [i]: [None] is the false return. *)
Fixpoint parse_hex (k : nat) (i out : Z) : outcome (option Z) :=
  match k with
  | O => Ret (Some out)
  | S k' =>
      rd i ≫= λ c,
      match hex_digit c with
      | None => Ret None
      | Some nibble => parse_hex k' (i + 1) (Z.lor (u64 (Z.shiftl out 4)) nibble)
      end
  end.
Definition read_hex_field (buf off len : Z) : outcome (option Z) :=
  parse_hex (Z.to_nat len) (buf + off) 0.

(** memcmp with a constant, as an equality test. *)
Fixpoint mem_equal (i : Z) (l : list Z) : outcome bool :=
  match l with
  | [] => Ret true
  | c :: l' => rd i ≫= λ b, if b =? c then mem_equal (i + 1) l' else Ret false
  end.

(** The C string at [i]. *)
Fixpoint read_cstr (k : nat) (i : Z) : outcome (list Z) :=
  match k with
  | O => Fault
  | S k' => rd i ≫= λ b, if b =? 0 then Ret [] else
      read_cstr k' (i + 1) ≫= λ l, Ret (b :: l)
  end.

Fixpoint strip_dots (p : list Z) : list Z :=
  match p with
  | c :: (d :: p') as q => if (c =? DOT) && (d =? SLASH) then strip_dots p' else p
  | _ => p
  end.
Definition normalize_path (raw : list Z) (max_len : Z) : list Z :=
  let p := strip_dots raw in
  let p := match p with c :: p' => if c =? SLASH then p' else p | [] => p end in
  if decide (p = [DOT]) then []
  else take (Z.to_nat (max_len - 1)) p.

Inductive parsed :=
| PError
| PTrailer
| PSkip (next_offset : Z)
| PEntry (name : list Z) (type data_offset filesize next_offset : Z).

Definition parse_entry (offset : Z) : outcome parsed :=
  let size := Z.of_nat (length archive) in
  mem_equal offset CPIO_NEWC_MAGIC ≫= λ magic,
  if negb magic then Ret PError else
  read_hex_field offset CPIO_OFF_NAMESIZE 8 ≫= λ namesize,
  match namesize with
  | None => Ret PError
  | Some namesize =>
  read_hex_field offset CPIO_OFF_FILESIZE 8 ≫= λ filesize,
  match filesize with
  | None => Ret PError
  | Some filesize =>
  let '(ok1, name_offset) := safe_add offset CPIO_HEADER_SIZE in
  let '(ok2, name_end) := safe_add name_offset namesize in
  if negb ok1 || negb ok2 then Ret PError else
  let data_offset_raw := snd (safe_add name_offset namesize) in
  let data_offset := cpio_align4 data_offset_raw in
  if data_offset <? data_offset_raw then Ret PError else
  let data_end := snd (safe_add data_offset filesize) in
  let next_offset := cpio_align4 data_end in
  if next_offset <? data_end then Ret PError else
  if (namesize =? 0) || (size <? name_end) || (size <? data_end) || (size <? next_offset)
  then Ret PError else
  rd (name_offset + namesize - 1) ≫= λ last,
  if negb (last =? 0) then Ret PError else
  read_cstr (length archive) name_offset ≫= λ raw_name,
  if str_eqb raw_name CPIO_TRAILER then Ret PTrailer else
  let name_buf := normalize_path raw_name 256 in
  if decide (name_buf = []) then Ret (PSkip next_offset) else
  read_hex_field offset CPIO_OFF_MODE 8 ≫= λ mode_raw,
  match mode_raw with
  | None => Ret PError
  | Some mode_raw =>
      Ret (PEntry name_buf (Z.land (u32 mode_raw) CPIO_S_IFMT) data_offset filesize next_offset)
  end
  end end.

(** archive + data_offset, [filesize] bytes: what create_file copies. *)
Definition archive_data (data_offset filesize : Z) : outcome (list Z) :=
  match slice archive data_offset filesize with Some l => Ret l | None => Fault end.

End Parse.

Section Load.
Context {A : Type} `{Allocator A}.
Abbreviation M := (K (fs_state A)).

Definition lift {B} (o : outcome B) : M B := λ s,
  match o with Ret b => Ret (b, s) | Panic w => Panic w | Fault => Fault | Diverge => Diverge end.

(** The piece of [token] before its first slash, and what follows the slash
    (null when there is none). *)
Fixpoint next_token (token : list Z) : list Z * option (list Z) :=
  match token with
  | [] => ([], None)
  | c :: t =>
      if c =? SLASH then ([], Some t)
      else let '(name, rest) := next_token t in (c :: name, rest)
  end.

Fixpoint make_dirs (fuel : nat) (token : option (list Z)) (current : Z) : M Z :=
  match fuel with
  | O => k_diverge
  | S f =>
      match token with
      | None | Some [] => mret current
      | Some tok =>
          let '(name, rest) := next_token tok in
          if 256 <=? Z.of_nat (length name) then dput ramfs_vt current ≫= λ _, mret 0 else
          child ← d_lookup current name;
          child ←
            (if negb (child =? 0) then dget child ≫= λ _, mret child
             else
               new_ino ← create_dir current name;
               if new_ino =? 0 then dput ramfs_vt current ≫= λ _, mret 0
               else
                 child ← d_lookup current name;
                 if child =? 0 then dput ramfs_vt current ≫= λ _, mret 0
                 else dget child ≫= λ _, mret child);
          if child =? 0 then mret 0
          else dput ramfs_vt current ≫= λ _, make_dirs f rest child
      end
  end.

Definition ensure_parent_dir (path : list Z) : M Z :=
  let len := Z.of_nat (length path) in
  if (len =? 0) || (256 <=? len) then mret 0 else
  match last_index SLASH path with
  | None => path_walk ramfs_vt [SLASH]
  | Some i =>
      let path_buf := take (Z.to_nat i) path in
      parent ← path_walk ramfs_vt (SLASH :: path_buf);
      if negb (IS_ERR parent) then mret parent
      else
        current ← path_walk ramfs_vt [SLASH];
        if current =? 0 then mret 0
        else make_dirs (S (length path_buf)) (Some path_buf) current
  end.

(** The part of an iteration after the header: the number of entries added. *)
Definition load_entry (archive : list Z) (name_buf : list Z) (type data_offset filesize : Z) : M Z :=
  parent ← ensure_parent_dir name_buf;
  if parent =? 0 then mret 0
  else
    let base_name := match last_index SLASH name_buf with
                     | Some i => drop (Z.to_nat (i + 1)) name_buf
                     | None => name_buf
                     end in
    n ← (if type =? CPIO_S_IFDIR then
           ino ← create_dir parent base_name;
           mret (if ino =? 0 then 0 else 1)
         else if type =? CPIO_S_IFREG then
           data ← lift (archive_data archive data_offset filesize);
           ino ← create_file parent base_name data;
           mret (if ino =? 0 then 0 else 1)
         else mret 0);
    dput ramfs_vt parent ≫= λ _, mret n.

Fixpoint load_loop (fuel : nat) (archive : list Z) (offset count : Z) : M Z :=
  match fuel with
  | O => k_diverge
  | S f =>
      if u64 (offset + CPIO_HEADER_SIZE) <=? Z.of_nat (length archive) then
        p ← lift (parse_entry archive offset);
        match p with
        | PError => mret (-1)
        | PTrailer => mret count
        | PSkip next_offset => load_loop f archive next_offset count
        | PEntry name_buf type data_offset filesize next_offset =>
            n ← load_entry archive name_buf type data_offset filesize;
            load_loop f archive next_offset (s64 (count + n))
        end
      else mret count
  end.

(** Every entry takes at least a header, so the archive's length bounds the
    number of iterations. *)
Definition initramfs_load (archive : option (list Z)) : M Z :=
  match archive with
  | None => mret (-1)
  | Some archive =>
      if Z.of_nat (length archive) <? CPIO_HEADER_SIZE then mret (-1)
      else load_loop (S (length archive)) archive 0 0
  end.

End Load.
