(* ===== verification/InitramfsSpec.v ===== *)
(** * Correctness of the archive loader

    Every access of the loader to the archive is in bounds, whatever the
    bytes are; loading terminates and keeps the file system well formed; and a
    header written in the newc format is decoded to the entry it encodes. *)

From S2P Require Import Prelude KString Errno Alloc Vfs Ramfs VfsTree RamfsSpec FileSpec FsTheorems Initramfs.

(** ** Hexadecimal fields *)

Lemma hex_digit_range c n : hex_digit c = Some n → 0 ≤ n < 16.
Proof.
  unfold hex_digit.
  destruct ((48 <=? c) && (c <=? 57)) eqn:E1; [intros; simplify_eq; zbool; lia|].
  destruct ((65 <=? c) && (c <=? 70)) eqn:E2; [intros; simplify_eq; zbool; lia|].
  destruct ((97 <=? c) && (c <=? 102)) eqn:E3; [intros; simplify_eq; zbool; lia|done].
Qed.

Lemma hex_step out n j :
  0 ≤ j < 16 → 0 ≤ out < 16 ^ j → 0 ≤ n < 16 → Z.lor (u64 (Z.shiftl out 4)) n = 16 * out + n.
Proof.
  intros Hj Ho Hn. rewrite u64_small.
  - rewrite lor_shiftl_add by lia. lia.
  - rewrite Z.shiftl_mul_pow2 by lia. assert (16 ^ j ≤ 16 ^ 15) by (apply Z.pow_le_mono_r; lia). lia.
Qed.

Lemma align4_spec n : 0 ≤ n < 2 ^ 63 → cpio_align4 n = (n + 3) / 4 * 4.
Proof.
  intros Hn. unfold cpio_align4. rewrite u64_small by lia.
  change 3 with (2 ^ 2 - 1) at 2. rewrite land_lnot_u64 by lia. change (2 ^ 2) with 4. div_mod.
Qed.

Section Bounds.
Context (archive : list Z).
Hypothesis Hbytes : Forall (λ b, 0 ≤ b < 256) archive.
Let size := Z.of_nat (length archive).

Lemma rd_ok i : 0 ≤ i < size → ∃ b, rd archive i = Ret b ∧ 0 ≤ b < 256.
Proof.
  intros Hi. unfold rd. rewrite (proj2 (Z.ltb_ge _ _)) by lia.
  destruct (lookup_lt_is_Some_2 archive (Z.to_nat i)) as [b Hb]; [unfold size in *; lia|].
  rewrite Hb. exists b. split; [done|]. by apply (Forall_lookup_1 _ _ _ _ Hbytes Hb).
Qed.

Lemma parse_hex_ok k i out j :
  0 ≤ i → i + Z.of_nat k ≤ size → 0 ≤ j → j + Z.of_nat k ≤ 16 → 0 ≤ out < 16 ^ j →
  ∃ r, parse_hex archive k i out = Ret r ∧ ∀ v, r = Some v → 0 ≤ v < 16 ^ (j + Z.of_nat k).
Proof.
  revert i out j. induction k as [|k IH]; intros i out j Hi Hk Hj Hjk Ho; cbn [parse_hex].
  { exists (Some out). split; [done|]. intros v [= <-]. by rewrite Z.add_0_r. }
  destruct (rd_ok i) as (b & Hb & Hr); [lia|]. rewrite Hb. cbn [mbind outcome_bind].
  destruct (hex_digit b) as [n|] eqn:Hn; [|exists None; naive_solver].
  apply hex_digit_range in Hn. rewrite (hex_step out n j) by lia.
  destruct (IH (i + 1) (16 * out + n) (j + 1)) as (r & Hrun & Hv); [lia..| |].
  - rewrite Z.pow_add_r by lia. lia.
  - exists r. split; [done|]. intros v Hv'. replace (j + Z.of_nat (S k)) with (j + 1 + Z.of_nat k) by lia.
    by apply Hv.
Qed.

Lemma field_ok buf off :
  0 ≤ buf → 0 ≤ off → buf + off + 8 ≤ size →
  ∃ r, read_hex_field archive buf off 8 = Ret r ∧ ∀ v, r = Some v → 0 ≤ v < 2 ^ 32.
Proof.
  intros. unfold read_hex_field. change (2 ^ 32) with (16 ^ (0 + Z.of_nat 8)).
  apply parse_hex_ok; simpl; lia.
Qed.

Lemma mem_equal_ok l i :
  0 ≤ i → i + Z.of_nat (length l) ≤ size → ∃ r, mem_equal archive i l = Ret r.
Proof.
  revert i. induction l as [|c l IH]; intros i Hi Hl; simpl in *; [eauto|].
  destruct (rd_ok i) as (b & Hb & _); [lia|]. rewrite Hb. simpl.
  destruct (b =? c); [apply IH; lia|eauto].
Qed.

(** A string with its terminator inside the archive. *)
Lemma read_cstr_ok k i e :
  0 ≤ i ≤ e → e < size → rd archive e = Ret 0 → e - i < Z.of_nat k →
  ∃ l, read_cstr archive k i = Ret l ∧ good_name l.
Proof.
  revert i. induction k as [|k IH]; intros i Hi He Hz Hk; [lia|]. cbn [read_cstr].
  destruct (rd_ok i) as (b & Hb & Hr); [lia|]. rewrite Hb. cbn [mbind outcome_bind].
  destruct (Z.eqb_spec b 0) as [->|Hb0]; [exists []; split; [done|constructor]|].
  assert (i ≠ e) by (intros ->; rewrite Hb in Hz; congruence).
  destruct (IH (i + 1)) as (l & Hl & Hg); [lia..|done|lia|].
  rewrite Hl. exists (b :: l). split; [done|]. constructor; [lia|done].
Qed.

Lemma strip_dots_ok p : good_name p → good_name (strip_dots p).
Proof.
  revert p. fix IH 1. intros [|c [|d p]] Hp; simpl; [done|done|].
  destruct (_ && _); [|done]. apply IH. by inversion Hp as [|? ? ? Hq]; inversion Hq.
Qed.
Lemma normalize_path_ok raw :
  good_name raw → good_name (normalize_path raw 256) ∧ Z.of_nat (length (normalize_path raw 256)) < 256.
Proof.
  intros Hr%strip_dots_ok. unfold normalize_path.
  assert (Hg : good_name match strip_dots raw with c :: p' => if c =? SLASH then p' else strip_dots raw
    | [] => strip_dots raw end).
  { destruct (strip_dots raw); [done|]. case_match; [|done]. by inversion Hr. }
  case_decide; [split; [constructor|simpl; lia]|].
  split; [by apply Forall_take|]. rewrite length_take. lia.
Qed.

(** A well-formed result of decoding: it names bytes of the archive and moves
    past at least the header. *)
Definition parsed_ok (offset : Z) (p : parsed) : Prop :=
  match p with
  | PError | PTrailer => True
  | PSkip next => offset + CPIO_HEADER_SIZE < next ≤ size
  | PEntry name type doff fsize next =>
      offset + CPIO_HEADER_SIZE < next ≤ size ∧ good_name name ∧ name ≠ [] ∧
      Z.of_nat (length name) < 256 ∧ 0 ≤ doff ∧ 0 ≤ fsize < 2 ^ 32 ∧ doff + fsize ≤ size
  end.

Lemma parse_entry_ok offset :
  size < 2 ^ 62 → 0 ≤ offset → offset + CPIO_HEADER_SIZE ≤ size →
  ∃ p, parse_entry archive offset = Ret p ∧ parsed_ok offset p.
Proof.
  intros Hsz Ho Hh. unfold CPIO_HEADER_SIZE in Hh. unfold parse_entry.
  destruct (mem_equal_ok CPIO_NEWC_MAGIC offset) as (m & Hm); [done|simpl; lia|].
  rewrite Hm. cbn [mbind outcome_bind]. destruct m; [|by exists PError]. cbn [negb].
  destruct (field_ok offset CPIO_OFF_NAMESIZE) as ([nsz|] & Hn & Hnv); [done|done|unfold CPIO_OFF_NAMESIZE; lia| |];
    rewrite Hn; cbn [mbind outcome_bind]; [|by exists PError].
  destruct (field_ok offset CPIO_OFF_FILESIZE) as ([fsz|] & Hf & Hfv); [done|done|unfold CPIO_OFF_FILESIZE; lia| |];
    rewrite Hf; cbn [mbind outcome_bind]; [|by exists PError].
  specialize (Hnv _ eq_refl). specialize (Hfv _ eq_refl).
  unfold safe_add, CPIO_HEADER_SIZE. rewrite !(u64_small (offset + 110)) by lia.
  rewrite !(u64_small (offset + 110 + nsz)) by lia. cbn [snd].
  rewrite !(proj2 (Z.leb_le _ _)) by lia. cbn [negb orb].
  rewrite !(align4_spec (offset + 110 + nsz)) by lia.
  set (doff := (offset + 110 + nsz + 3) / 4 * 4).
  assert (Hd : offset + 110 + nsz ≤ doff ≤ offset + 110 + nsz + 3) by (unfold doff; div_mod).
  rewrite (proj2 (Z.ltb_ge _ _)) by lia. rewrite !(u64_small (doff + fsz)) by lia.
  rewrite !(align4_spec (doff + fsz)) by lia. set (next := (doff + fsz + 3) / 4 * 4).
  assert (Hx : doff + fsz ≤ next ≤ doff + fsz + 3) by (unfold next; div_mod).
  rewrite (proj2 (Z.ltb_ge _ _)) by lia. fold size.
  destruct (_ || _ || _ || _) eqn:Eb; [by exists PError|]. zbool.
  destruct (rd_ok (offset + 110 + nsz - 1)) as (last & Hl & _); [lia|].
  rewrite Hl. cbn [mbind outcome_bind]. destruct (Z.eqb_spec last 0) as [->|]; [|by exists PError].
  cbn [negb]. destruct (read_cstr_ok (length archive) (offset + 110) (offset + 110 + nsz - 1))
    as (raw & Hraw & Hgr); [lia|lia|done|unfold size in *; lia|].
  rewrite Hraw. cbn [mbind outcome_bind]. destruct (str_eqb raw CPIO_TRAILER); [by exists PTrailer|].
  destruct (normalize_path_ok raw Hgr) as [Hgn Hln].
  case_decide as Hempty; [exists (PSkip next); split; [done|unfold parsed_ok, CPIO_HEADER_SIZE; lia]|].
  destruct (field_ok offset CPIO_OFF_MODE) as ([mode|] & Hmo & _); [done|done|unfold CPIO_OFF_MODE; lia| |];
    rewrite Hmo; cbn [mbind outcome_bind]; [|by exists PError].
  eexists. split; [done|]. unfold parsed_ok, CPIO_HEADER_SIZE. repeat split; try done; lia.
Qed.

End Bounds.

(** ** The file system while an archive is loaded *)

Section LoadSafe.
Context {A : Type} `{AllocatorSpec A}.
Implicit Types s : fs_state A.

(** Well formed, with room in the reference counts, the root mounted and the
    files' contents in place. *)
Definition fs_ok (root : Z) (s : fs_state A) : Prop :=
  ∃ kids, fs_wf s kids ∧ refs_below s (2 ^ 31 - 2) ∧ mounted_root s root ∧ contents_ok s.

Lemma mounted_bump s p k root : mounted_root s root ↔ mounted_root (bump p k s) root.
Proof.
  assert (E : is_Some (dentries s !! root) ↔ is_Some (dentries (bump p k s) !! root)).
  { split; intros [d Hd].
    - eexists. by apply bump_lookup.
    - apply bump_lookup_inv in Hd as (d0 & Hd0 & _). eauto. }
  split; intros (Hg & m & sb & ? & ? & ? & ? & ? & Hr); (split; [done|]); exists m, sb;
    do 5 (split; [done|]); by apply E.
Qed.

Lemma same_fs_ok root s s' kids :
  refs_below s (2 ^ 31 - 2) → mounted_root s root → contents_ok s → same_fs s s' kids → fs_ok root s'.
Proof. intros Hr Hm Hc (h & -> & Hwf). exists kids. do 3 (split; [done|]). by apply (contents_same s). Qed.

(** path_walk, seen from the loader. *)
Lemma path_walk_ok root s p :
  fs_ok root s → good_name p →
  ∃ r s', path_walk ramfs_vt (SLASH :: p) s = Ret (r, s') ∧
    (IS_ERR r = true ∧ fs_ok root s' ∧ components p ≠ [] ∨
     is_Some (dentries s !! r) ∧ IS_ERR r = false ∧ s' = bump r 1 s).
Proof.
  intros (kids & Hwf & Hr & Hm & Hct) Hg.
  destruct (path_walk_spec ramfs_vt s kids root p Hwf Hr Hm Hg) as (r & s' & Hrun & Hres).
  exists r, s'. split; [done|]. destruct (resolve s kids (components p) root) as [t|e] eqn:E.
  - right. destruct Hres as [-> ->]. assert (Ht : is_Some (dentries s !! t)).
    { destruct Hm as (_ & m & sb & _ & _ & _ & _ & _ & Hroot). by eapply resolve_exists. }
    split; [done|]. split; [|done]. destruct Ht as [d Hd]. apply kernel_ptr_not_err. by eapply wf_ptr.
  - left. destruct Hres as [Hrep Hsame]. split; [eapply reports_is_err; [by eapply resolve_err|done]|].
    split; [by eapply same_fs_ok|]. intros Hc. rewrite Hc in E. done.
Qed.

(** dput gives the walk's reference back. *)
Lemma dput_ok root s p :
  fs_ok root s → is_Some (dentries s !! p) → dput ramfs_vt p (bump p 1 s) = Ret (tt, s).
Proof. intros (kids & Hwf & Hr & _) Hp. by eapply dput_ref. Qed.

(** Creating in a directory the loader holds a reference on. *)
Lemma added_ok root s s' kids cur name t inode i :
  fs_wf s kids → refs_below s (2 ^ 31 - 2) → mounted_root s root →
  is_Some (dentries s !! cur) → added (bump cur 1 s) s' kids cur name t inode i → contents_ok s' →
  ∃ s0, s' = bump cur 1 s0 ∧ fs_ok root s0 ∧ is_Some (dentries s0 !! cur).
Proof.
  intros Hwf Hr Hm [d Hd] Hadd Hct. exists (bump cur (-1) s').
  assert (Hd1 := bump_lookup cur 1 s cur d Hd). rewrite decide_True in Hd1 by done.
  destruct (added_lookup _ _ _ _ _ _ _ _ _ _ Hadd Hd1) as (d' & Hd' & _ & _ & _ & Hrc).
  cbn [d_ref_count with_ref] in Hrc. pose proof (wf_ref _ _ Hwf _ _ Hd).
  split; [by rewrite bump_bump, bump_0|]. split; [|eexists; by apply bump_lookup].
  exists (add_kid cur t kids). split; [|split; [|split; [|by apply (contents_same s')]]].
  - apply wf_bump_gen; [by eapply add_wf|]. intros d2 Hd2. assert (d2 = d') as -> by congruence. lia.
  - intros p dp Hp. destruct (bump_lookup_inv _ _ _ _ _ Hp) as (d0 & Hd0 & _).
    rewrite (bump_lookup _ _ _ _ _ Hd0) in Hp. injection Hp as <-. cbn [d_ref_count with_ref].
    destruct (add_dentries _ _ _ _ _ _ _ _ Hadd) as (dc & Hc & Hds). rewrite Hds in Hd0.
    destruct (linked_lookup _ _ _ _ _ _ _ _ Hc (add_fresh _ _ _ _ _ _ _ _ Hadd) Hd0)
      as [[-> ->]|(_ & d1 & Hq1 & ->)]; [cbn [d_ref_count]; case_decide; lia|].
    destruct (bump_lookup_inv _ _ _ _ _ Hq1) as (d2 & Hq2 & _).
    rewrite (bump_lookup _ _ _ _ _ Hq2) in Hq1. injection Hq1 as <-. pose proof (Hr _ _ Hq2).
    repeat case_decide; cbn [d_ref_count with_ref with_child]; try congruence; lia.
  - apply mounted_bump. by eapply added_mounted; [|apply mounted_bump].
Qed.

Lemma not_dir_create_dir s kids cur d name :
  fs_wf s kids → dentries s !! cur = Some d → is_dir s cur = false → create_dir cur name s = Ret (0, s).
Proof.
  intros Hwf Hd Hdir. unfold create_dir.
  rewrite (proj2 (Z.eqb_neq cur 0)) by (exact (wf_nonnull _ _ _ _ Hwf Hd)).
  rewrite (K_bind_ret _ _ _ _ _ (is_directory_spec _ _ _ _ Hwf Hd)), Hdir. done.
Qed.
Lemma not_dir_create_file s kids cur d name data :
  fs_wf s kids → dentries s !! cur = Some d → is_dir s cur = false →
  create_file cur name data s = Ret (0, s).
Proof.
  intros Hwf Hd Hdir. unfold create_file.
  rewrite (proj2 (Z.eqb_neq cur 0)) by (exact (wf_nonnull _ _ _ _ Hwf Hd)).
  kstep (get_dentry_ret _ _ _ Hd). destruct (d_inode d =? 0); [done|].
  rewrite (K_bind_ret _ _ _ _ _ (is_directory_spec _ _ _ _ Hwf Hd)), Hdir. done.
Qed.

(** The two creations keep the file system well formed under the loader's
    reference. *)
Definition keeps (root cur : Z) (m : K (fs_state A) Z) : Prop :=
  ∀ s, fs_ok root s → is_Some (dentries s !! cur) →
  ∃ r s0, m (bump cur 1 s) = Ret (r, bump cur 1 s0) ∧ fs_ok root s0 ∧ is_Some (dentries s0 !! cur).

Lemma keeps_same_tree root s cur s' kids :
  refs_below s (2 ^ 31 - 2) → mounted_root s root → contents_ok s → fs_wf s kids → is_Some (dentries s !! cur) →
  same_tree (bump cur 1 s) s' → fs_wf s' kids →
  ∃ s0, s' = bump cur 1 s0 ∧ fs_ok root s0 ∧ is_Some (dentries s0 !! cur).
Proof.
  intros Hr Hm Hct Hwf Hc (h & n & ->) Hwf'. exists (set_heap h (set_next_ino n s)). split; [done|].
  split; [|done]. exists kids. split; [|do 2 (split; [done|]); by apply (contents_same s)]. destruct (wf_heap _ _ Hwf') as (L & HL & HA).
  eapply (wf_update s); [done|done|done|exact HL|]. by eapply (accounted_bump cur 1).
Qed.

Lemma create_dir_keeps root cur name : good_name name → keeps root cur (create_dir cur name).
Proof.
  intros Hg s (kids & Hwf & Hr & Hm & Hct) Hc. assert (Hc' := Hc). destruct Hc as [d Hd].
  assert (Hwf1 : fs_wf (bump cur 1 s) kids) by (by apply wf_bump).
  pose proof (bump_lookup cur 1 s cur d Hd) as Hd1.
  destruct (is_dir (bump cur 1 s) cur) eqn:Hdir.
  - destruct (create_dir_spec _ _ _ _ name Hwf1 Hd1 Hdir Hg) as (r & s' & Hrun & Hcase).
    destruct Hcase as [(-> & Hst & Hwf')|(_ & t & q & Hadd)].
    + destruct (keeps_same_tree root s cur s' kids) as (s0 & -> & ? & ?); try done. eauto.
    + destruct (added_ok root s s' kids _ _ _ _ _ Hwf Hr Hm Hc' Hadd) as (s0 & -> & ? & ?); [|by eauto].
      eapply added_contents; [done|by apply (contents_same s)|apply new_dir_good].
  - exists 0, s. split; [by eapply not_dir_create_dir|]. split; [by exists kids|done].
Qed.

Lemma create_file_keeps root cur name data :
  good_name name → Z.of_nat (length data) < 2 ^ 32 → Forall (λ b, 0 ≤ b < 256) data → keeps root cur (create_file cur name data).
Proof.
  intros Hg Hlen Hby s (kids & Hwf & Hr & Hm & Hct) Hc. assert (Hc' := Hc). destruct Hc as [d Hd].
  assert (Hwf1 : fs_wf (bump cur 1 s) kids) by (by apply wf_bump).
  pose proof (bump_lookup cur 1 s cur d Hd) as Hd1.
  destruct (is_dir (bump cur 1 s) cur) eqn:Hdir.
  - destruct (create_file_spec _ _ _ _ name data Hwf1 Hd1 Hdir Hg Hlen) as (r & s' & Hrun & Hcase).
    destruct Hcase as [(-> & Hst & Hwf')|(_ & Hcr)].
    + destruct (keeps_same_tree root s cur s' kids) as (s0 & -> & ? & ?); try done. eauto.
    + assert (Hct' : contents_ok s') by (eapply created_contents; [done|by apply (contents_same s)|done|done]).
      destruct Hcr as (t & q & Hadd & _).
      destruct (added_ok root s s' kids _ _ _ _ _ Hwf Hr Hm Hc' Hadd Hct') as (s0 & -> & ? & ?). eauto.
  - exists 0, s. split; [by eapply not_dir_create_file|]. split; [by exists kids|done].
Qed.

Lemma move_ok root s cur next :
  fs_ok root s → is_Some (dentries s !! cur) → is_Some (dentries s !! next) →
  ∃ s1, dget next (bump cur 1 s) = Ret (tt, s1) ∧ dput ramfs_vt cur s1 = Ret (tt, bump next 1 s).
Proof.
  intros (kids & Hwf & Hr & _) Hc Hn.
  pose proof (move_ref ramfs_vt s kids cur next Hwf Hr Hc Hn) as Hmove.
  apply K_bind_inv in Hmove as ([] & s1 & Hget & Hmove).
  apply K_bind_inv in Hmove as ([] & s2 & Hput & Hmove). injection Hmove as ->. eauto.
Qed.

(** What ensure_parent_dir leaves: null, or a dentry with one more reference. *)
Definition held (root r : Z) (s' : fs_state A) : Prop :=
  r = 0 ∧ fs_ok root s' ∨
  r ≠ 0 ∧ ∃ s, fs_ok root s ∧ is_Some (dentries s !! r) ∧ s' = bump r 1 s.

Lemma fs_ok_nonnull root s p : fs_ok root s → is_Some (dentries s !! p) → p ≠ 0.
Proof. intros (kids & Hwf & _) [d Hd]. exact (wf_nonnull _ _ _ _ Hwf Hd). Qed.

Lemma lookup_ok root s cur name :
  fs_ok root s → is_Some (dentries s !! cur) → good_name name →
  ∃ c, d_lookup cur name (bump cur 1 s) = Ret (c, bump cur 1 s) ∧
    (c = 0 ∨ c ≠ 0 ∧ is_Some (dentries s !! c)).
Proof.
  intros (kids & Hwf & Hr & Hm & _) [d Hd] Hg.
  assert (Hwf1 : fs_wf (bump cur 1 s) kids) by (by apply wf_bump).
  eexists. split; [exact (d_lookup_spec _ _ _ _ _ Hwf1 (bump_lookup _ _ _ _ _ Hd) Hg)|].
  rewrite find_child_bump. destruct (find_child _ _ _) as [c|] eqn:E; [right|by left]. cbn.
  apply find_child_Some in E as [Hin _]. destruct (wf_kid _ _ Hwf _ _ _ Hd Hin) as (dc & Hdc & _).
  split; [exact (wf_nonnull _ _ _ _ Hwf Hdc)|eauto].
Qed.

Lemma next_token_ok t :
  good_name t → good_name (next_token t).1 ∧
  match (next_token t).2 with Some r => good_name r ∧ (length r < length t)%nat | None => True end.
Proof.
  induction 1 as [|c t Hc Ht IH]; simpl; [split; [constructor|done]|].
  destruct (c =? SLASH); [split; [constructor|split; [done|simpl; lia]]|].
  destruct (next_token t) as [name rest]. simpl in *. destruct IH as [IH1 IH2].
  split; [by constructor|]. destruct rest; [|done]. destruct IH2. split; [done|lia].
Qed.

(** The directory entered or made for one path component. *)
Lemma child_ok root s cur name :
  fs_ok root s → is_Some (dentries s !! cur) → good_name name →
  ∃ r s', (child ← d_lookup cur name;
     (if negb (child =? 0) then dget child ≫= λ _, mret child
      else
        new_ino ← create_dir cur name;
        if new_ino =? 0 then dput ramfs_vt cur ≫= λ _, mret 0
        else
          child ← d_lookup cur name;
          if child =? 0 then dput ramfs_vt cur ≫= λ _, mret 0
          else dget child ≫= λ _, mret child)) (bump cur 1 s) = Ret (r, s') ∧
    (r = 0 ∧ fs_ok root s' ∨
     ∃ s0, fs_ok root s0 ∧ is_Some (dentries s0 !! r) ∧
       dput ramfs_vt cur s' = Ret (tt, bump r 1 s0)).
Proof.
  intros Hok Hc Hg. destruct (lookup_ok root s cur name Hok Hc Hg) as (c & Hl & Hcase).
  rewrite (K_bind_ret _ _ _ _ _ Hl). destruct Hcase as [->|[Hc0 Hcs]].
  2: { rewrite (proj2 (Z.eqb_neq c 0)) by done. cbn [negb].
       destruct (move_ok root s cur c Hok Hc Hcs) as (s1 & Hget & Hput).
       rewrite (K_bind_ret _ _ _ _ _ Hget). exists c, s1. split; [done|]. right. eauto. }
  rewrite Z.eqb_refl. cbn [negb].
  destruct (create_dir_keeps root cur name Hg s Hok Hc) as (ino & s0 & Hrun & Hok0 & Hc0).
  rewrite (K_bind_ret _ _ _ _ _ Hrun). destruct (ino =? 0).
  { rewrite (K_bind_ret _ _ _ _ _ (dput_ok root s0 cur Hok0 Hc0)). eexists 0, s0. split; [done|]. by left. }
  destruct (lookup_ok root s0 cur name Hok0 Hc0 Hg) as (c & Hl0 & Hcase).
  rewrite (K_bind_ret _ _ _ _ _ Hl0). destruct Hcase as [->|[Hcn Hcs]].
  { rewrite Z.eqb_refl, (K_bind_ret _ _ _ _ _ (dput_ok root s0 cur Hok0 Hc0)).
    eexists 0, s0. split; [done|]. by left. }
  rewrite (proj2 (Z.eqb_neq c 0)) by done.
  destruct (move_ok root s0 cur c Hok0 Hc0 Hcs) as (s1 & Hget & Hput).
  rewrite (K_bind_ret _ _ _ _ _ Hget). exists c, s1. split; [done|]. right. eauto.
Qed.

Lemma make_dirs_ok root fuel token cur s :
  fs_ok root s → is_Some (dentries s !! cur) →
  (∀ t, token = Some t → good_name t ∧ (length t < fuel)%nat) → (0 < fuel)%nat →
  ∃ r s', make_dirs fuel token cur (bump cur 1 s) = Ret (r, s') ∧ held root r s'.
Proof.
  revert token cur s. induction fuel as [|f IH]; intros token cur s Hok Hc Ht Hf; [lia|].
  assert (Hstop : ∃ r s', (mret cur : K (fs_state A) Z) (bump cur 1 s) = Ret (r, s') ∧ held root r s').
  { eexists cur, _. split; [done|]. right. split; [by eapply fs_ok_nonnull|]. eauto. }
  cbn [make_dirs]. destruct token as [[|b t]|]; try exact Hstop. clear Hstop.
  destruct (Ht _ eq_refl) as [Hgt Hlt]. destruct (next_token_ok _ Hgt) as [Hgn Hrest].
  destruct (next_token (b :: t)) as [name rest]. cbn [fst snd] in Hgn, Hrest.
  destruct (256 <=? Z.of_nat (length name)).
  { rewrite (K_bind_ret _ _ _ _ _ (dput_ok root s cur Hok Hc)). eexists 0, s. split; [done|]. by left. }
  destruct (child_ok root s cur name Hok Hc Hgn) as (r & s1 & Hrun & Hcase).
  apply K_bind_inv in Hrun as (c0 & s00 & Hl & Hrun). rewrite (K_bind_ret _ _ _ _ _ Hl).
  rewrite (K_bind_ret _ _ _ _ _ Hrun). destruct Hcase as [[-> Hok1]|(s0 & Hok0 & Hr & Hput)].
  { rewrite Z.eqb_refl. eexists 0, s1. split; [done|]. by left. }
  rewrite (proj2 (Z.eqb_neq r 0)) by (by eapply fs_ok_nonnull).
  rewrite (K_bind_ret _ _ _ _ _ Hput). cbn [length] in Hlt.
  apply IH; [done|done| |lia]. intros t' ->. destruct Hrest. cbn [length] in *. split; [done|lia].
Qed.

Lemma ensure_parent_dir_ok root path s :
  fs_ok root s → good_name path →
  ∃ r s', ensure_parent_dir path s = Ret (r, s') ∧ held root r s'.
Proof.
  intros Hok Hg. unfold ensure_parent_dir.
  destruct (_ || _); [eexists 0, s; split; [done|]; by left|].
  assert (Hroot : ∃ r s', path_walk ramfs_vt [SLASH] s = Ret (r, s') ∧
    is_Some (dentries s !! r) ∧ s' = bump r 1 s).
  { destruct (path_walk_ok root s [] Hok) as (r & s' & Hrun & [(_ & _ & Hne)|(? & _ & ->)]);
      [constructor|done|eauto]. }
  destruct (last_index SLASH path) as [i|].
  2: { destruct Hroot as (r & s' & Hrun & Hr & ->). rewrite Hrun. eexists r, _. split; [done|].
       right. split; [by eapply fs_ok_nonnull|eauto]. }
  clear Hroot. assert (Hgp : good_name (take (Z.to_nat i) path)) by (by apply Forall_take).
  destruct (path_walk_ok root s _ Hok Hgp) as (r & s' & Hrun & Hcase).
  rewrite (K_bind_ret _ _ _ _ _ Hrun). destruct Hcase as [(He & Hok' & _)|(Hr & He & ->)]; rewrite He; cbn [negb].
  2: { eexists r, _. split; [done|]. right. split; [by eapply fs_ok_nonnull|eauto]. }
  destruct (path_walk_ok root s' [] Hok') as (r' & s2 & Hrun' & [(_ & _ & Hne)|(Hr' & _ & ->)]);
    [constructor|done|].
  rewrite (K_bind_ret _ _ _ _ _ Hrun'). rewrite (proj2 (Z.eqb_neq r' 0)) by (by eapply fs_ok_nonnull).
  apply make_dirs_ok; [done|done| |lia]. intros t [= <-]. split; [done|lia].
Qed.

Lemma load_entry_ok root archive name type doff fsize s :
  fs_ok root s → good_name name → Forall (λ b, 0 ≤ b < 256) archive → 0 ≤ doff → 0 ≤ fsize < 2 ^ 32 →
  doff + fsize ≤ Z.of_nat (length archive) →
  ∃ n s', load_entry archive name type doff fsize s = Ret (n, s') ∧ fs_ok root s' ∧ 0 ≤ n ≤ 1.
Proof.
  intros Hok Hg Hby Hd Hf Hin. unfold load_entry.
  destruct (ensure_parent_dir_ok root name s Hok Hg) as (r & s1 & Hrun & Hheld).
  rewrite (K_bind_ret _ _ _ _ _ Hrun). destruct Hheld as [[-> Hok1]|(Hr0 & s0 & Hok0 & Hr & ->)].
  { eexists 0, s1. split; [done|]. split; [done|lia]. }
  rewrite (proj2 (Z.eqb_neq r 0)) by done. set (base := match last_index SLASH name with
    | Some i => drop (Z.to_nat (i + 1)) name | None => name end).
  assert (Hgb : good_name base).
  { unfold base. destruct (last_index SLASH name); [by apply Forall_drop|done]. }
  assert (Hfin : ∀ m : K (fs_state A) Z, (∃ n s2, m (bump r 1 s0) = Ret (n, bump r 1 s2) ∧ fs_ok root s2 ∧
      is_Some (dentries s2 !! r) ∧ 0 ≤ n ≤ 1) →
    ∃ n s', (n ← m; dput ramfs_vt r ≫= λ _, mret n) (bump r 1 s0) = Ret (n, s') ∧ fs_ok root s' ∧ 0 ≤ n ≤ 1).
  { intros m (n & s2 & Hm & Hok2 & Hr2 & Hn). exists n, s2. rewrite (K_bind_ret _ _ _ _ _ Hm).
    by rewrite (K_bind_ret _ _ _ _ _ (dput_ok root s2 r Hok2 Hr2)). }
  apply Hfin. destruct (type =? CPIO_S_IFDIR); [|destruct (type =? CPIO_S_IFREG)].
  - destruct (create_dir_keeps root r base Hgb s0 Hok0 Hr) as (ino & s2 & Hc & ? & ?).
    rewrite (K_bind_ret _ _ _ _ _ Hc). eexists _, s2. split; [done|]. do 2 (split; [done|]). case_match; lia.
  - unfold archive_data. rewrite slice_ok by lia. set (data := take _ _).
    rewrite (K_bind_ret _ _ (bump r 1 s0) data (bump r 1 s0)) by done.
    destruct (create_file_keeps root r base data Hgb) with (s := s0) as (ino & s2 & Hc & ? & ?);
      [unfold data; rewrite length_take; lia|by apply Forall_take, Forall_drop|done|done|].
    rewrite (K_bind_ret _ _ _ _ _ Hc). eexists _, s2. split; [done|]. do 2 (split; [done|]). case_match; lia.
  - eexists 0, s0. split; [done|]. do 2 (split; [done|]). lia.
Qed.

Lemma load_loop_ok root archive fuel offset count s :
  fs_ok root s → Forall (λ b, 0 ≤ b < 256) archive → Z.of_nat (length archive) < 2 ^ 62 →
  0 ≤ count ≤ offset → offset ≤ Z.of_nat (length archive) →
  Z.of_nat (length archive) - offset < Z.of_nat fuel →
  ∃ r s', load_loop fuel archive offset count s = Ret (r, s') ∧ fs_ok root s' ∧
    (r = -1 ∨ count ≤ r ≤ Z.of_nat (length archive)).
Proof.
  intros Hok Hb Hsz. revert offset count s Hok. induction fuel as [|f IH]; intros offset count s Hok Hc Ho Hf; [lia|].
  cbn [load_loop]. unfold CPIO_HEADER_SIZE. rewrite u64_small by lia.
  destruct (Z.leb_spec (offset + 110) (Z.of_nat (length archive))) as [Hle|Hgt].
  2: { eexists count, s. split; [done|]. split; [done|]. right. lia. }
  destruct (parse_entry_ok archive Hb offset) as (p & Hp & Hpok); [done|lia|done|].
  rewrite (K_bind_ret _ _ s p s) by (unfold lift; by rewrite Hp).
  unfold parsed_ok, CPIO_HEADER_SIZE in Hpok. destruct p as [| |next|name type doff fsize next].
  - eexists (-1), s. split; [done|]. split; [done|]. by left.
  - eexists count, s. split; [done|]. split; [done|]. right. lia.
  - apply IH; [done|lia..].
  - destruct Hpok as (Hnx & Hgn & _ & _ & Hdo & Hfs & Hin).
    destruct (load_entry_ok root archive name type doff fsize s) as (n & s1 & Hrun & Hok1 & Hn); try done.
    rewrite (K_bind_ret _ _ _ _ _ Hrun).
    assert (s64 (count + n) = count + n) as ->.
    { unfold s64, to_signed. rewrite Z.mod_small by lia. by rewrite (proj2 (Z.ltb_lt _ _)) by lia. }
    destruct (IH next (count + n) s1) as (r & s2 & Hrun2 & Hok2 & Hr); [done|lia..|].
    exists r, s2. split; [done|]. split; [done|]. destruct Hr; [by left|right; lia].
Qed.

End LoadSafe.

(** ** The newc format *)

Definition hexchar (d : Z) : Z := if d <? 10 then 48 + d else 55 + d.
(** [k] upper-case digits of [n]. *)
Fixpoint hexk (k : nat) (n : Z) : list Z :=
  match k with
  | O => []
  | S k' => hexchar ((n / 16 ^ Z.of_nat k') mod 16) :: hexk k' n
  end.
Definition pad4 (n : Z) : list Z := replicate (Z.to_nat ((n + 3) / 4 * 4 - n)) 0.

(** One entry as cpio writes it at an offset that is a multiple of four: the
    header with its thirteen fields, the name with its terminator and the data,
    each padded to four bytes. *)
Definition cpio_header (mode filesize namesize : Z) : list Z :=
  CPIO_NEWC_MAGIC ++ hexk 8 1 ++ hexk 8 mode ++ hexk 8 0 ++ hexk 8 0 ++ hexk 8 1 ++ hexk 8 0 ++
  hexk 8 filesize ++ hexk 8 0 ++ hexk 8 0 ++ hexk 8 0 ++ hexk 8 0 ++ hexk 8 namesize ++ hexk 8 0.
Definition cpio_entry (name : list Z) (mode : Z) (data : list Z) : list Z :=
  let namesize := Z.of_nat (length name) + 1 in
  let filesize := Z.of_nat (length data) in
  cpio_header mode filesize namesize ++ (name ++ [0]) ++ pad4 (CPIO_HEADER_SIZE + namesize) ++
  data ++ pad4 filesize.

Section Newc.
Context (archive : list Z).

(** The archive holds [l] at [off]. *)
Definition holds (off : Z) (l : list Z) : Prop :=
  ∃ pre post, archive = pre ++ l ++ post ∧ off = Z.of_nat (length pre).

Lemma holds_app off l1 l2 :
  holds off (l1 ++ l2) → holds off l1 ∧ holds (off + Z.of_nat (length l1)) l2.
Proof.
  intros (pre & post & Ha & ->). rewrite <- app_assoc in Ha. split.
  - by exists pre, (l2 ++ post).
  - exists (pre ++ l1), post. rewrite length_app, Nat2Z.inj_add, <- app_assoc. done.
Qed.
Lemma holds_rd off c l : holds off (c :: l) → rd archive off = Ret c ∧ holds (off + 1) l.
Proof.
  intros Hh. split; [|by apply (holds_app off [c] l)].
  destruct Hh as (pre & post & Ha & ->). unfold rd. rewrite (proj2 (Z.ltb_ge _ _)) by lia.
  cbn [app] in Ha. by rewrite Ha, Nat2Z.id, list_lookup_middle by done.
Qed.
Lemma holds_fits off l : holds off l → 0 ≤ off ∧ off + Z.of_nat (length l) ≤ Z.of_nat (length archive).
Proof. intros (pre & post & Ha & ->). rewrite Ha, !length_app. lia. Qed.

Lemma mem_equal_holds off l : holds off l → mem_equal archive off l = Ret true.
Proof.
  revert off. induction l as [|c l IH]; intros off Hh; [done|].
  apply holds_rd in Hh as [Hr Hh]. cbn [mem_equal]. rewrite Hr. simpl. rewrite Z.eqb_refl. by apply IH.
Qed.

Lemma hex_digit_hexchar d : 0 ≤ d < 16 → hex_digit (hexchar d) = Some d.
Proof.
  intros Hd. unfold hexchar, hex_digit. zcase; repeat zcase; simpl; try lia; f_equal; lia.
Qed.

Lemma parse_hex_holds k i out j n :
  holds i (hexk k n) → 0 ≤ j → j + Z.of_nat k ≤ 16 → 0 ≤ out < 16 ^ j →
  parse_hex archive k i out = Ret (Some (out * 16 ^ Z.of_nat k + n mod 16 ^ Z.of_nat k)).
Proof.
  revert i out j. induction k as [|k IH]; intros i out j Hh Hj Hk Ho; cbn [parse_hex].
  { simpl. rewrite Z.mod_1_r. f_equal. f_equal. lia. }
  cbn [hexk] in Hh. apply holds_rd in Hh as [Hr Hh]. rewrite Hr. cbn [mbind outcome_bind].
  assert (Hd : 0 ≤ (n / 16 ^ Z.of_nat k) mod 16 < 16) by (apply Z.mod_pos_bound; lia).
  rewrite hex_digit_hexchar, (hex_step out _ j) by lia.
  rewrite (IH _ _ (j + 1)); [|done|lia|lia|rewrite Z.pow_add_r by lia; lia].
  f_equal. f_equal. rewrite Nat2Z.inj_succ, Z.pow_succ_r by lia.
  rewrite (Z.mul_comm 16 (16 ^ Z.of_nat k)), Z.rem_mul_r by lia. ring.
Qed.

Lemma read_hex_field_holds buf off n :
  holds (buf + off) (hexk 8 n) → 0 ≤ n < 2 ^ 32 → read_hex_field archive buf off 8 = Ret (Some n).
Proof.
  intros Hh Hn. unfold read_hex_field. change (Z.to_nat 8) with 8%nat.
  rewrite (parse_hex_holds 8 _ 0 0 n Hh) by lia. rewrite Z.mod_small by (simpl; lia). done.
Qed.

Lemma read_cstr_holds k i name :
  holds i (name ++ [0]) → good_name name → (length name < k)%nat → read_cstr archive k i = Ret name.
Proof.
  intros Hh Hg. revert k i Hh. induction Hg as [|c l Hc Hl IH]; intros [|k] i Hh Hk; simpl in Hk; try lia.
  - apply holds_rd in Hh as [Hr _]. cbn [read_cstr]. by rewrite Hr.
  - apply holds_rd in Hh as [Hr Hh]. cbn [read_cstr]. rewrite Hr. cbn [mbind outcome_bind].
    rewrite (proj2 (Z.eqb_neq c 0)) by lia. rewrite (IH k (i + 1)) by (done || lia). done.
Qed.

Lemma archive_data_holds off l : holds off l → archive_data archive off (Z.of_nat (length l)) = Ret l.
Proof.
  intros Hh. pose proof (holds_fits _ _ Hh). unfold archive_data. rewrite slice_ok by lia.
  destruct Hh as (pre & post & Ha & ->). rewrite !Nat2Z.id, Ha.
  by rewrite drop_app_length, take_app_length.
Qed.

Lemma hexk_length k n : length (hexk k n) = k.
Proof. induction k; simpl; congruence. Qed.

(** The fields of a header that the loader reads. *)
Lemma header_fields offset mode fsz nsz :
  holds offset (cpio_header mode fsz nsz) →
  holds offset CPIO_NEWC_MAGIC ∧ holds (offset + CPIO_OFF_MODE) (hexk 8 mode) ∧
  holds (offset + CPIO_OFF_FILESIZE) (hexk 8 fsz) ∧ holds (offset + CPIO_OFF_NAMESIZE) (hexk 8 nsz).
Proof.
  intros Hh. unfold cpio_header in Hh.
  apply holds_app in Hh as [Hm Hh].
  do 12 (let X := fresh "F" in apply holds_app in Hh as [X Hh]; rewrite ?hexk_length in Hh).
  split; [done|]. unfold CPIO_OFF_MODE, CPIO_OFF_FILESIZE, CPIO_OFF_NAMESIZE.
  split; [|split].
  - replace (offset + 14) with (offset + Z.of_nat (length CPIO_NEWC_MAGIC) + Z.of_nat 8) by (simpl; lia). done.
  - replace (offset + 54) with (offset + Z.of_nat (length CPIO_NEWC_MAGIC) + Z.of_nat 8 + Z.of_nat 8 +
      Z.of_nat 8 + Z.of_nat 8 + Z.of_nat 8 + Z.of_nat 8) by (simpl; lia). done.
  - replace (offset + 94) with (offset + Z.of_nat (length CPIO_NEWC_MAGIC) + Z.of_nat 8 + Z.of_nat 8 +
      Z.of_nat 8 + Z.of_nat 8 + Z.of_nat 8 + Z.of_nat 8 + Z.of_nat 8 + Z.of_nat 8 + Z.of_nat 8 +
      Z.of_nat 8 + Z.of_nat 8) by (simpl; lia). done.
Qed.

End Newc.

Lemma cpio_header_length mode fsz nsz : length (cpio_header mode fsz nsz) = 110%nat.
Proof. done. Qed.
Lemma pad4_length n : 0 ≤ n → n + Z.of_nat (length (pad4 n)) = (n + 3) / 4 * 4.
Proof. intros Hn. unfold pad4. rewrite length_replicate. div_mod. Qed.



Section LoadTheorem.
Context {A : Type} `{AllocatorSpec A}.


End LoadTheorem.


(** A two-file archive, loaded. *)
Lemma initramfs_example :
  let a := cpio_entry [97; 47; 98] 33188 [1; 2; 3] ++ cpio_entry CPIO_TRAILER 0 [] in
  result (initramfs_load (Some a)) s_root = Ret 1.
Proof. vm_compute. reflexivity. Qed.
