(* ===== verification/Boot.v ===== *)
(** * The file system at boot: init_fs of src/kernel_main.cpp

    init_fs mounts the ram file system on "/" and loads the boot loader's
    modules, each a cpio archive, into it. The module response is a
    parameter: [None] is a null response, a module is null or has an archive,
    whose address may be null. Console output is left out. *)

From S2P Require Import Prelude KString Errno Alloc Vfs Ramfs VfsTree RamfsSpec FileSpec FsTheorems Initramfs InitramfsSpec.

Section Boot.
Context {A : Type} `{Allocator A}.
Abbreviation M := (K (fs_state A)).

Fixpoint load_modules (mods : list (option (option (list Z)))) : M unit :=
  match mods with
  | [] => mret tt
  | None :: mods' => load_modules mods'
  | Some archive :: mods' =>
      loaded ← initramfs_load archive;
      if loaded <? 0 then k_panic "initramfs parsing failed." else load_modules mods'
  end.

Definition init_fs (modules : option (list (option (option (list Z))))) : M unit :=
  mount_root ≫= λ _,
  match modules with
  | None => mret tt
  | Some mods => if Z.of_nat (length mods) =? 0 then mret tt else load_modules mods
  end.
End Boot.

Section Safe.
Context {A : Type} `{AllocatorSpec A}.

Definition archive_ok (archive : list Z) : Prop :=
  Forall (λ b, 0 ≤ b < 256) archive ∧ Z.of_nat (length archive) < 2 ^ 62.
Definition modules_ok (mods : list (option (option (list Z)))) : Prop :=
  ∀ archive, Some (Some archive) ∈ mods → archive_ok archive.

Lemma load_archive root archive (s : fs_state A) : fs_ok root s → archive_ok archive →
  ∃ r s', initramfs_load (Some archive) s = Ret (r, s') ∧ fs_ok root s'.
Proof.
  intros Hok [Hb Hl]. unfold initramfs_load. destruct (_ <? _); [by eexists (-1), s|].
  destruct (load_loop_ok root archive (S (length archive)) 0 0 s) as (r & s' & ? & ? & ?); [done|done|done|lia..|eauto].
Qed.

Lemma load_modules_ok root mods (s : fs_state A) : fs_ok root s → modules_ok mods →
  (∃ w, load_modules mods s = Panic w) ∨ ∃ s', load_modules mods s = Ret (tt, s') ∧ fs_ok root s'.
Proof.
  revert s. induction mods as [|[[archive|]|] mods IH]; intros s Hok Hm; cbn [load_modules].
  - right. by exists s.
  - destruct (load_archive root archive s Hok) as (r & s1 & Hr & Hok1); [apply Hm; set_solver|].
    rewrite (K_bind_ret _ _ _ _ _ Hr). destruct (r <? 0); [left; by eexists|].
    apply IH; [done|]. intros b Hb. apply Hm. set_solver.
  - left. by eexists.
  - apply IH; [done|]. intros b Hb. apply Hm. set_solver.
Qed.

(** The root file system comes up safely, whatever the modules hold and
    wherever memory runs out: init_fs panics, or it returns with a
    well-formed tree mounted on "/" (unless the root's own dentry could not
    be allocated, in which case the mount point is null). *)
Lemma init_fs_spec (a : A) (modules : option (list (option (option (list Z)))))
    (Ha : live a ∅) (Hmods : modules_ok (default [] modules)) :
  (∃ w, init_fs modules (fs_boot a) = Panic w) ∨
  (∃ root s, init_fs modules (fs_boot a) = Ret (tt, s) ∧ fs_ok root s) ∨
  (∃ sb s m, mount_root (fs_boot a) = Ret (sb, s) ∧ mounts s !! g_root_mount s = Some m ∧ m_mount_point m = 0).
Proof.
  unfold init_fs. destruct (mount_root_spec a Ha) as [[w Hw]|(sb & s & Hs & Hwf & Hr & Hct & m & Hm & Hcase)].
  { left. exists w. unfold mbind, K_bind. by rewrite Hw. }
  destruct Hcase as [Hz|[Hmr _]]; [right; right; by exists sb, s, m|].
  rewrite (K_bind_ret _ _ _ _ _ Hs).
  assert (Hok : fs_ok (m_mount_point m) s).
  { exists (λ _, []). split; [done|]. split; [|done]. intros p d Hd. pose proof (Hr p d Hd). lia. }
  destruct modules as [mods|]; [|right; left; by eexists _, s].
  destruct (_ =? 0); [right; left; by eexists _, s|].
  destruct (load_modules_ok (m_mount_point m) mods s Hok Hmods) as [?|(s' & ? & ?)]; [by left|].
  right; left. by eexists _, s'.
Qed.
End Safe.
