(* ===== verification/Slab.v ===== *)
(** * Slab allocator: mem/slab.cpp, include/mem/slab.h

    Nine caches of objects of 16 to 4096 bytes; a cache is a list of slabs, a
    slab some pages with a header and a list of free objects threaded through
    them. The state is the physical machine and the nine list heads; headers
    and links are read and written in memory, as the source does. Requests
    above 4096 bytes take whole pages with a small header. *)

From S2P Require Import Prelude Mem KString Pmm.

Definition SLAB_SIZE_MAX : Z := 4096.
Definition NUM_SLAB_CACHES : Z := 9.

(** struct SlabHeader: addresses of the fields *)
Definition h_next (a : Z) : Z := a.
Definition h_free_list (a : Z) : Z := a + 8.
Definition h_obj_size (a : Z) : Z := a + 16.
Definition h_total_objs (a : Z) : Z := a + 24.
Definition h_free_count (a : Z) : Z := a + 32.
Definition sizeof_SlabHeader : Z := 40.
(** struct LargeObjHeader *)
Definition l_pages (a : Z) : Z := a.
Definition l_user_size (a : Z) : Z := a + 8.
Definition LARGE_OBJ_HEADER_SIZE : Z := 16.

Record slab_state := SlabState { mach : machine; slab_caches : list Z }.

Fixpoint size_to_index_loop (fuel : nat) (size s idx : Z) : Z :=
  match fuel with
  | O => idx
  | S f =>
      if (s <? size) && (idx <? NUM_SLAB_CACHES - 1)
      then size_to_index_loop f size (u64 (Z.shiftl s 1)) (idx + 1)
      else idx
  end.
(** The loop stops at the last cache at the latest. *)
Definition size_to_index (size : Z) : Z :=
  if size <=? 16 then 0 else size_to_index_loop (Z.to_nat NUM_SLAB_CACHES) size 16 0.

Definition index_to_size (idx : Z) : Z := u64 (Z.shiftl 16 idx).

(** while (slab_total < sizeof(SlabHeader) + obj_size * 4) ... *)
Fixpoint slab_pages_loop (fuel : nat) (obj_size slab_pages slab_total : Z) : Z :=
  match fuel with
  | O => slab_pages
  | S f =>
      if slab_total <? sizeof_SlabHeader + obj_size * 4
      then slab_pages_loop f obj_size (slab_pages + 1) (slab_total + PAGE_SIZE)
      else slab_pages
  end.
Definition slab_pages_of (obj_size : Z) : Z :=
  slab_pages_loop (Z.to_nat (obj_size * 4 / PAGE_SIZE + 2)) obj_size 1 PAGE_SIZE.

Section Slab.
Context (hhdm : Z).
Abbreviation M := (K slab_state).

Definition peek (a : Z) : M Z := λ s, Ret (load64 (mem (mach s)) a, s).
Definition poke (a v : Z) : M unit :=
  k_modify (λ s, SlabState (set_mem (store64 (mem (mach s)) a v) (mach s)) (slab_caches s)).
Definition zero_fill (a n : Z) : M unit :=
  k_modify (λ s, SlabState (set_mem (memset a 0 n (mem (mach s))).2 (mach s)) (slab_caches s)).
Definition pmm_allocPages (count : Z) : M Z := λ s,
  let '(p, m) := allocPages hhdm count (mach s) in Ret (p, SlabState m (slab_caches s)).
Definition pmm_freePages (phys count : Z) : M unit :=
  k_modify (λ s, SlabState (freePages hhdm phys count (mach s)) (slab_caches s)).
(** slab_caches[idx]; the index comes from size_to_index or the init loop *)
Definition get_cache (idx : Z) : M Z := λ s, k_deref (slab_caches s !! Z.to_nat idx) s.
Definition set_cache (idx v : Z) : M unit :=
  k_modify (λ s, SlabState (mach s) (<[Z.to_nat idx := v]> (slab_caches s))).

(** for (i = 0; i < total_objs; i++) push slot i on the free list *)
Fixpoint thread_slots (k : nat) (i base obj_size header : Z) : M unit :=
  match k with
  | O => mret tt
  | S k' =>
      let slot := base + i * obj_size in
      fl ← peek (h_free_list header);
      poke slot fl ≫= λ _,
      poke (h_free_list header) slot ≫= λ _,
      thread_slots k' (i + 1) base obj_size header
  end.

Definition create_slab (cache_idx : Z) : M Z :=
  let obj_size := index_to_size cache_idx in
  let slab_pages := slab_pages_of obj_size in
  let slab_total := slab_pages * PAGE_SIZE in
  phys ← pmm_allocPages slab_pages;
  if phys =? 0 then mret 0 else
  let header := phys_to_virt hhdm phys in
  zero_fill header slab_total ≫= λ _,
  poke (h_obj_size header) obj_size ≫= λ _,
  poke (h_total_objs header) ((slab_total - sizeof_SlabHeader) / obj_size) ≫= λ _,
  total ← peek (h_total_objs header);
  poke (h_free_count header) total ≫= λ _,
  c ← get_cache cache_idx;
  poke (h_next header) c ≫= λ _,
  poke (h_free_list header) 0 ≫= λ _,
  total ← peek (h_total_objs header);
  thread_slots (Z.to_nat total) 0 (header + sizeof_SlabHeader) obj_size header ≫= λ _,
  set_cache cache_idx header ≫= λ _,
  mret header.

Fixpoint init_loop (k : nat) (i : Z) : M unit :=
  match k with
  | O => mret tt
  | S k' =>
      h ← create_slab i;
      if h =? 0 then k_panic "slab: Failed to create initial cache"
      else init_loop k' (i + 1)
  end.
Definition slab_init : M unit := init_loop (Z.to_nat NUM_SLAB_CACHES) 0.

(** Take the head of a slab's free list. *)
Definition pop_free (slab obj : Z) : M unit :=
  nxt ← peek obj;
  poke (h_free_list slab) nxt ≫= λ _,
  fc ← peek (h_free_count slab);
  poke (h_free_count slab) (u64 (fc - 1)).

(** The walk over the cache's slabs; null when none has a free object. *)
Fixpoint alloc_scan (fuel : nat) (slab : Z) : M Z :=
  match fuel with
  | O => k_diverge
  | S f =>
      if slab =? 0 then mret 0 else
      fc ← peek (h_free_count slab);
      if 0 <? fc then
        obj ← peek (h_free_list slab);
        total ← peek (h_total_objs slab);
        size ← peek (h_obj_size slab);
        let slab_start := slab + sizeof_SlabHeader in
        let slab_end := u64 (slab_start + total * size) in
        if (obj <? slab_start) || (slab_end <=? obj) then k_panic "slab: corrupted free list"
        else pop_free slab obj ≫= λ _, mret obj
      else
        nxt ← peek (h_next slab);
        alloc_scan f nxt
  end.

(** A slab has its own pages, so the pages of the machine bound the lists. *)
Definition list_fuel (s : slab_state) : nat := S (Z.to_nat (total_pages (mach s))).

Definition over_lists {B} (f : nat → M B) : M B := λ s, f (list_fuel s) s.

Definition alloc_large (size : Z) : M Z :=
  let payload_pages := u64 (size + PAGE_SIZE - 1) / PAGE_SIZE in
  let total_pages_needed := payload_pages + 1 in
  phys ← pmm_allocPages total_pages_needed;
  if phys =? 0 then mret 0 else
  let virt := phys_to_virt hhdm phys in
  poke (l_pages virt) total_pages_needed ≫= λ _,
  poke (l_user_size virt) size ≫= λ _,
  mret (u64 (virt + LARGE_OBJ_HEADER_SIZE)).

Definition alloc (size : Z) : M Z :=
  if size =? 0 then mret 0
  else if SLAB_SIZE_MAX <? size then alloc_large size
  else
    let idx := size_to_index size in
    slab ← get_cache idx;
    obj ← over_lists (λ k, alloc_scan k slab);
    if negb (obj =? 0) then mret obj
    else
      slab ← create_slab idx;
      if slab =? 0 then mret 0
      else
        obj ← peek (h_free_list slab);
        pop_free slab obj ≫= λ _, mret obj.

(** The double-free check: panic when [ptr] is in the free list. *)
Fixpoint check_free (fuel : nat) (cur ptr : Z) : M unit :=
  match fuel with
  | O => k_diverge
  | S f =>
      if cur =? 0 then mret tt
      else if cur =? ptr then k_panic "slab: double free"
      else nxt ← peek cur; check_free f nxt ptr
  end.

Fixpoint free_scan (fuel : nat) (slab ptr : Z) : M unit :=
  match fuel with
  | O => k_diverge
  | S f =>
      if slab =? 0 then k_panic "slab: invalid free" else
      total ← peek (h_total_objs slab);
      size ← peek (h_obj_size slab);
      let slab_total := u64 (sizeof_SlabHeader + total * size) in
      if (slab <=? ptr) && (ptr <? u64 (slab + slab_total)) then
        fl ← peek (h_free_list slab);
        check_free (S (Z.to_nat total)) fl ptr ≫= λ _,
        fl ← peek (h_free_list slab);
        poke ptr fl ≫= λ _,
        poke (h_free_list slab) ptr ≫= λ _,
        fc ← peek (h_free_count slab);
        poke (h_free_count slab) (u64 (fc + 1))
      else
        nxt ← peek (h_next slab);
        free_scan f nxt ptr
  end.

Definition free_large (ptr : Z) : M unit :=
  let header := u64 (ptr - LARGE_OBJ_HEADER_SIZE) in
  pages ← peek (l_pages header);
  if (pages =? 0) || (1024 <? pages) then mret tt
  else pmm_freePages (virt_to_phys hhdm header) pages.

Definition free (ptr size : Z) : M unit :=
  if ptr =? 0 then mret tt
  else if (size <=? SLAB_SIZE_MAX) && (0 <? size) then
    slab ← get_cache (size_to_index size);
    over_lists (λ k, free_scan k slab ptr)
  else free_large ptr.

End Slab.

(** ** Size classes *)

(** The class of [n], checked by evaluation. *)
Definition class_ok (n : Z) : bool :=
  let idx := size_to_index n in
  let obj_size := index_to_size idx in
  let total := (slab_pages_of obj_size * PAGE_SIZE - sizeof_SlabHeader) / obj_size in
  (0 <=? idx) && (idx <? NUM_SLAB_CACHES) && (n <=? obj_size) &&
  ((idx =? 0) || (index_to_size (idx - 1) <? n)) && (4 <=? total) &&
  (sizeof_SlabHeader + total * obj_size <=? slab_pages_of obj_size * PAGE_SIZE).

Lemma class_ok_all : forallb class_ok (seqZ 1 4096) = true.
Proof. vm_compute. reflexivity. Qed.

(** the size classes: a request of 1 to 4096 bytes is served from the
    smallest cache whose objects hold it, and the geometry of that cache's
    slabs is sound: at least four objects, none of them over the header or
    past the last page. *)
Theorem size_class (n : Z) (Hn : 0 < n ≤ SLAB_SIZE_MAX) :
  let idx := size_to_index n in
  let obj_size := index_to_size idx in
  let total := (slab_pages_of obj_size * PAGE_SIZE - sizeof_SlabHeader) / obj_size in
  0 ≤ idx < NUM_SLAB_CACHES ∧ n ≤ obj_size ∧ (idx = 0 ∨ index_to_size (idx - 1) < n) ∧
  4 ≤ total ∧ sizeof_SlabHeader + total * obj_size ≤ slab_pages_of obj_size * PAGE_SIZE.
Proof.
  pose proof class_ok_all as Hall. rewrite forallb_forall in Hall.
  assert (Hc : class_ok n = true).
  { apply Hall, list_elem_of_In, elem_of_seqZ. unfold SLAB_SIZE_MAX in Hn. lia. }
  unfold class_ok in Hc. cbv zeta in Hc |- *. zbool.
  assert (Ho : size_to_index n = 0 ∨ index_to_size (size_to_index n - 1) < n).
  { match goal with H : _ || _ = true |- _ => apply orb_true_iff in H as [H|H]; zbool; [left|right]; done end. }
  repeat split; done || lia.
Qed.

Lemma size_class_witness :
  let total := (slab_pages_of (index_to_size (size_to_index 296)) * PAGE_SIZE - sizeof_SlabHeader)
    / index_to_size (size_to_index 296) in
  296 ≤ index_to_size (size_to_index 296) ∧ 4 ≤ total.
Proof. destruct (size_class 296 ltac:(unfold SLAB_SIZE_MAX; lia)) as (_ & ? & _ & ? & _). split; assumption. Defined.
