(* ===== verification/Pages.v ===== *)
(** * Pages in the direct map

    Physical memory is mapped at a fixed offset, so a page number names a
    range of addresses. [phys_ok] says when the page allocator can be used by
    the components that keep data in the pages they get from it: the map does
    not wrap around and no free page holds the bitmap. The lemmas give the
    allocator's effect on the memory of pages. *)

From S2P Require Import Prelude Mem Pmm.

Section Pages.
Context (hhdm : Z).
Implicit Types s : machine.

Definition page_va (p : Z) : Z := hhdm + p * PAGE_SIZE.
Definition in_page (p a : Z) : Prop := page_va p ≤ a < page_va p + PAGE_SIZE.

Lemma in_page_inj p q a : in_page p a → in_page q a → p = q.
Proof. unfold in_page, page_va, PAGE_SIZE. lia. Qed.

(** The page is not used for the bitmap. *)
Definition clear_page (s : machine) (p : Z) : Prop := ∀ a, in_page p a → ¬ in_bitmap hhdm s a.

Record phys_ok (s : machine) : Prop := {
  po_hhdm : 0 ≤ hhdm;
  po_top : hhdm + total_pages s * PAGE_SIZE ≤ 2 ^ 64;
  po_pmm : pmm_inv hhdm s;
  po_bitmap : ∀ p, p ∈ free_set hhdm s → clear_page s p
}.

Lemma phys_to_virt_page s p :
  phys_ok s → 0 ≤ p < total_pages s → phys_to_virt hhdm (p * PAGE_SIZE) = page_va p.
Proof.
  intros [H0 Ht _ _] Hp. unfold phys_to_virt, page_va, PAGE_SIZE in *. rewrite u64_small by lia. lia.
Qed.
Lemma virt_to_phys_page s p :
  phys_ok s → 0 ≤ p < total_pages s → virt_to_phys hhdm (page_va p) = p * PAGE_SIZE.
Proof.
  intros [H0 Ht _ _] Hp. unfold virt_to_phys, page_va, PAGE_SIZE in *. rewrite u64_small by lia. lia.
Qed.

Lemma clear_page_stable s s' p : only_bitmap hhdm s s' → clear_page s p → clear_page s' p.
Proof.
  intros [Hb Ht _] Hc a Ha. unfold in_bitmap. rewrite Hb, Ht. by apply Hc.
Qed.

(** A write outside the bitmap does not change which pages are free. *)
Lemma bitmap_get_frame s m i :
  (∀ a, in_bitmap hhdm s a → m a = mem s a) → 0 ≤ i < total_pages s →
  bitmap_get hhdm (set_mem m s) i = bitmap_get hhdm s i.
Proof.
  intros Hm Hi. unfold bitmap_get. cbn [mem set_mem].
  change (bitmap_byte hhdm (set_mem m s) i) with (bitmap_byte hhdm s i).
  rewrite Hm; [done|]. by apply bitmap_byte_in.
Qed.
Lemma free_set_frame s m :
  (∀ a, in_bitmap hhdm s a → m a = mem s a) → free_set hhdm (set_mem m s) = free_set hhdm s.
Proof.
  intros Hm. apply set_eq. intros p. rewrite !elem_of_free_set.
  change (total_pages (set_mem m s)) with (total_pages s).
  split; intros [Hp Hg]; (split; [done|]); by rewrite bitmap_get_frame in *.
Qed.
Lemma phys_ok_frame s m :
  phys_ok s → (∀ a, in_bitmap hhdm s a → m a = mem s a) → phys_ok (set_mem m s).
Proof.
  intros [H0 Ht [Hc Hi Hz] Hb] Hm. pose proof (free_set_frame s m Hm) as E.
  split; [done|done| |].
  - split; rewrite ?E; done.
  - rewrite E. exact Hb.
Qed.

Lemma allocPages_pages s count p s' :
  phys_ok s → 0 < count → allocPages hhdm count s = (p, s') →
  phys_ok s' ∧ only_bitmap hhdm s s' ∧
  (p = 0 ∧ s' = s ∧ (∀ n, ¬ free_run hhdm s n count) ∨
   ∃ n, p = n * PAGE_SIZE ∧ 0 < n ∧ n + count ≤ total_pages s ∧
     page_range n count ⊆ free_set hhdm s ∧
     free_set hhdm s' = free_set hhdm s ∖ page_range n count).
Proof.
  intros Hok Hc Ha. pose proof (allocPages_spec hhdm s count (po_pmm s Hok) Hc) as Hs.
  rewrite Ha in Hs. destruct Hs as (Hinv & Hob & Hcase).
  assert (Hok' : free_set hhdm s' ⊆ free_set hhdm s → phys_ok s').
  { intros Hsub. destruct Hok as [H0 Ht _ Hb]. split; [done|by rewrite (ob_total _ _ _ Hob)|done|].
    intros q Hq. eapply clear_page_stable; [done|]. by apply Hb, Hsub. }
  destruct Hcase as [(Hno & -> & ->)|(n & -> & Hn & Hrun & _ & Hf)].
  - split; [by apply Hok'|]. split; [done|]. by left.
  - split; [apply Hok'; rewrite Hf; set_solver|]. split; [done|]. right. exists n.
    assert (Hin : n + count - 1 ∈ free_set hhdm s) by (apply Hrun, elem_of_page_range; lia).
    apply elem_of_free_set in Hin as [Hr _]. repeat split; try done; lia.
Qed.

Lemma freePages_pages s n count :
  phys_ok s → 0 < n → 0 ≤ count → n + count ≤ total_pages s →
  (∀ p, p ∈ page_range n count → clear_page s p) →
  let s' := freePages hhdm (n * PAGE_SIZE) count s in
  phys_ok s' ∧ only_bitmap hhdm s s' ∧
  free_set hhdm s' = free_set hhdm s ∪ page_range n count.
Proof.
  intros Hok Hn Hc Ht Hcl s'. destruct (freePages_spec hhdm s n count (po_pmm s Hok) Hn Hc) as (Hi & Hob & Hf).
  assert (E : page_range n count ∩ page_range 0 (total_pages s) = page_range n count).
  { apply set_eq. intros q. rewrite elem_of_intersection, !elem_of_page_range. lia. }
  rewrite E in Hf. split; [|done]. destruct Hok as [H0 Htop _ Hb].
  split; [done|unfold s'; by rewrite (ob_total _ _ _ Hob)|done|].
  intros q Hq. eapply clear_page_stable; [exact Hob|]. unfold s' in Hq. rewrite Hf in Hq.
  apply elem_of_union in Hq as [Hq|Hq]; [by apply Hb|by apply Hcl].
Qed.

(** Loads and stores of a word inside a page. *)
Lemma load64_frame (m m' : ram) a :
  (∀ x, a ≤ x < a + 8 → m' x = m x) → load64 m' a = load64 m a.
Proof. intros Hx. apply load_le_agree. intros x Hx'. apply Hx. lia. Qed.

Lemma store64_out m a v x : ¬ (a ≤ x < a + 8) → store64 m a v x = m x.
Proof. intros Hx. apply store_le_out. lia. Qed.

End Pages.
