(* ===== verification/PagedAlloc.v ===== *)
(** * An allocator that shares its pages with others

    The object allocator, the page tables and the program loader take their
    pages from one page allocator. [PagedAllocator] is the contract between
    them: [owns P a L] says that in the state [a] the objects [L] are live and
    the pages [P] belong to others. The allocator's operations leave those
    pages alone ([keeps]); the others may take free pages, give pages of
    theirs back and write to them ([moved]). *)

From S2P Require Import Prelude Errno Mem Pmm Pages Alloc.

(** A page that is in use and not part of the bitmap. *)
Record page_in_use (hhdm : Z) (M : machine) (p : Z) : Prop := {
  pu_range : 0 < p < total_pages M;
  pu_used : p ∉ free_set hhdm M;
  pu_clear : clear_page hhdm M p
}.

(** The others went from the pages [P] of [M] to the pages [P'] of [M']. *)
Record moved (hhdm : Z) (P : gset Z) (M : machine) (P' : gset Z) (M' : machine) : Prop := {
  mv_phys : phys_ok hhdm M';
  mv_total : total_pages M' = total_pages M;
  mv_bitmap : bitmap M' = bitmap M;
  mv_others : ∀ p, p ∈ P' → page_in_use hhdm M' p ∧ (p ∈ P ∨ p ∈ free_set hhdm M);
  mv_used : ∀ p, p ∈ free_set hhdm M' → p ∈ free_set hhdm M ∨ p ∈ P;
  mv_mem : ∀ p a, p ∉ free_set hhdm M → p ∉ P → clear_page hhdm M p → in_page hhdm p a → mem M' a = mem M a
}.

Section Keeps.
Context (hhdm : Z) {A : Type} `{OnMachine A}.

(** The others' pages hold what they held. *)
Definition keeps (P : gset Z) (a a' : A) : Prop :=
  ∀ p x, p ∈ P → in_page hhdm p x → mem (machine_of a') x = mem (machine_of a) x.
#[export] Instance keeps_preorder P : PreOrder (keeps P).
Proof. split; [done|]. intros a b c H1 H2 p x Hp Hx. rewrite (H2 p x), (H1 p x); done. Qed.
End Keeps.

Class PagedAllocator (hhdm : Z) (A : Type) `{Allocator A} `{OnMachine A} := {
  owns : gset Z → A → gmap Z Z → Prop;
  owns_phys : ∀ P a L, owns P a L → phys_ok hhdm (machine_of a) ∧ total_pages (machine_of a) ≤ 2 ^ 40;
  owns_others : ∀ P a L p, owns P a L → p ∈ P → page_in_use hhdm (machine_of a) p;
  owns_alloc : ∀ P a L n, owns P a L → 0 < n < 2 ^ 32 →
    ∃ p a', slab_alloc n a = Ret (p, a') ∧ keeps hhdm P a a' ∧
      (p = 0 ∧ owns P a' L ∨ kernel_ptr p ∧ L !! p = None ∧ owns P a' (<[p := n]> L));
  owns_free : ∀ P a L p n, owns P a L → L !! p = Some n →
    ∃ a', slab_free p n a = Ret a' ∧ keeps hhdm P a a' ∧ owns P a' (delete p L) ∧
      free_set hhdm (machine_of a) ⊆ free_set hhdm (machine_of a');
  owns_moved : ∀ P a L P' M', owns P a L → moved hhdm P (machine_of a) P' M' → owns P' (set_machine M' a) L
}.

(** The contract of a client that started in the state [a0], while the pages
    [P] are the others'. *)
Section Spec.
Context (hhdm : Z) {A : Type} `{PagedAllocator hhdm A}.

#[program] Definition paged_spec (a0 : A) (P : gset Z) : AllocatorSpec A :=
  {| live a L := owns P a L ∧ keeps hhdm P a0 a |}.
Next Obligation.
  intros a0 P a L n [Ho Hk] Hn. destruct (owns_alloc P a L n Ho Hn) as (p & a' & E & Hk' & Hc). exists p, a'.
  split; [done|]. assert (keeps hhdm P a0 a') by (by etrans).
  destruct Hc as [[-> Hl]|(Hp & Hn' & Hl)]; [by left|by right].
Qed.
Next Obligation.
  intros a0 P a L p n [Ho Hk] Hp. destruct (owns_free P a L p n Ho Hp) as (a' & E & Hk' & Hl & _). exists a'.
  split; [done|]. split; [done|by etrans].
Qed.
End Spec.

(** An allocator that takes nothing from the machine beside it meets the
    contract with the machine's pages. *)
#[program] Definition beside_paged (hhdm : Z) {A} `{AllocatorSpec A} : PagedAllocator hhdm (A * machine) :=
  {| owns P b L := live b.1 L ∧ phys_ok hhdm b.2 ∧ total_pages b.2 ≤ 2 ^ 40 ∧ ∀ p, p ∈ P → page_in_use hhdm b.2 p |}.
Next Obligation. by intros hhdm A HA HS P b L (_ & ? & ? & _). Qed.
Next Obligation. intros hhdm A HA HS P b L p (_ & _ & _ & HP) Hp. by apply HP. Qed.
Next Obligation.
  intros hhdm A HA HS P [a M] L n (Hl & Hrest) Hn. destruct (alloc_ok a L n Hl Hn) as (p & a' & E & Hc). exists p, (a', M).
  cbn [slab_alloc beside_allocator fst snd]. rewrite E. split; [done|]. split; [done|].
  destruct Hc as [[-> Hl']|(Hp & Hf & Hl')]; [by left|by right].
Qed.
Next Obligation.
  intros hhdm A HA HS P [a M] L p n (Hl & Hrest) Hp. destruct (free_ok a L p n Hl Hp) as (a' & E & Hl'). exists (a', M).
  cbn [slab_free beside_allocator fst snd]. by rewrite E.
Qed.
Next Obligation.
  intros hhdm A HA HS P [a M] L P' M' (Hl & Hph & Hs & HP) Hm. split; [done|].
  split; [apply (mv_phys _ _ _ _ _ Hm)|]. split; [cbn; by rewrite (mv_total _ _ _ _ _ Hm)|].
  intros p Hp. by apply (mv_others _ _ _ _ _ Hm).
Qed.
