(* ===== verification/SlabInv.v ===== *)
(** * The invariant of the slab allocator

    The state in memory is described by ghost blocks: a block is the run of
    pages of one slab, with the indices of its free slots in list order, or
    of one large object. [slab_inv] ties them to the headers and free lists in
    memory, to the caches' lists and to the live objects. Live objects share
    no byte, and writes into live objects never touch the allocator's own
    data ([inv_client]). Pages that belong to others ([foreign]) are in no
    block and keep what they hold. *)

From S2P Require Import Prelude Mem KString Errno Alloc Pmm Pages Slab.

(** ** Geometry of the size classes *)

Definition osz (i : Z) : Z := index_to_size i.
Definition npg (i : Z) : Z := slab_pages_of (osz i).
Definition tot (i : Z) : Z := (npg i * PAGE_SIZE - sizeof_SlabHeader) / osz i.

Definition geometry_ok (i : Z) : bool :=
  (16 <=? osz i) && (osz i <=? 4096) && (1 <=? npg i) && (npg i <=? 16) && (4 <=? tot i) && (tot i <=? 1000) &&
  (40 + tot i * osz i <=? npg i * 4096).
Lemma geometry i : 0 ≤ i < 9 →
  16 ≤ osz i ≤ 4096 ∧ 1 ≤ npg i ≤ 16 ∧ 4 ≤ tot i ≤ 1000 ∧ 40 + tot i * osz i ≤ npg i * 4096.
Proof.
  intros Hi. assert (Hall : forallb geometry_ok (seqZ 0 9) = true) by (vm_compute; reflexivity).
  rewrite forallb_forall in Hall. specialize (Hall i). unfold geometry_ok in Hall.
  assert (Hin : In i (seqZ 0 9)) by (apply list_elem_of_In, elem_of_seqZ; lia).
  specialize (Hall Hin). zbool. lia.
Qed.
Lemma class_of z : 0 < z ≤ SLAB_SIZE_MAX → 0 ≤ size_to_index z < 9 ∧ z ≤ osz (size_to_index z).
Proof.
  intros Hz. pose proof class_ok_all as Hall. rewrite forallb_forall in Hall.
  assert (Hc : class_ok z = true) by (apply Hall, list_elem_of_In, elem_of_seqZ; unfold SLAB_SIZE_MAX in Hz; lia).
  unfold class_ok in Hc. cbv zeta in Hc. zbool. unfold osz. unfold NUM_SLAB_CACHES in *. lia.
Qed.

Lemma NoDup_range_length (l : list Z) t : 0 ≤ t → NoDup l → Forall (λ k, 0 ≤ k < t) l → Z.of_nat (length l) ≤ t.
Proof.
  intros Ht Hnd Hr.
  assert (Hsub : l ⊆ seqZ 0 t) by (intros k Hk; apply elem_of_seqZ; rewrite Forall_forall in Hr; specialize (Hr k Hk); cbn beta in Hr; lia).
  apply (NoDup_submseteq l) in Hsub; [|done]. apply submseteq_length in Hsub. rewrite length_seqZ in Hsub. lia.
Qed.

(** ** Ghost blocks *)

Inductive block := BSlab (i : Z) (free : list Z) | BLarge (count : Z).
Definition pages_of (b : block) : Z := match b with BSlab i _ => npg i | BLarge c => c end.

(** Pages that belong to others, such as the page tables, and what they hold. *)
Record foreign := Foreign { fg_pages : gset Z; fg_mem : ram }.

Section Spec.
Context (hhdm : Z) (fg : foreign).
Abbreviation va := (page_va hhdm).
Implicit Types (s : slab_state) (m : ram) (G : gmap Z block) (L : gmap Z Z) (cs : list (list Z)).

Definition slot (n i k : Z) : Z := va n + 40 + k * osz i.

(** A null-terminated chain of words. *)
Fixpoint chain (m : ram) (p : Z) (l : list Z) : Prop :=
  match l with [] => p = 0 | a :: l' => p = a ∧ a ≠ 0 ∧ chain m (load64 m a) l' end.

Record slab_ok (m : ram) (n i : Z) (fr : list Z) : Prop := {
  sk_class : 0 ≤ i < 9;
  sk_size : load64 m (h_obj_size (va n)) = osz i;
  sk_total : load64 m (h_total_objs (va n)) = tot i;
  sk_count : load64 m (h_free_count (va n)) = Z.of_nat (length fr);
  sk_list : chain m (load64 m (h_free_list (va n))) (slot n i <$> fr);
  sk_nodup : NoDup fr;
  sk_range : Forall (λ k, 0 ≤ k < tot i) fr
}.
Definition block_ok (m : ram) (n : Z) (b : block) : Prop :=
  match b with
  | BSlab i fr => slab_ok m n i fr
  | BLarge c => 2 ≤ c ∧ load64 m (l_pages (va n)) = c
  end.

(** The bytes of a block that belong to the allocator. *)
Definition meta (n : Z) (b : block) (a : Z) : Prop :=
  match b with
  | BSlab i fr => va n ≤ a < va n + 40 ∨ ∃ k, k ∈ fr ∧ slot n i k ≤ a < slot n i k + 8
  | BLarge _ => va n ≤ a < va n + 16
  end.
Definition in_block (n : Z) (b : block) (a : Z) : Prop := va n ≤ a < va n + pages_of b * PAGE_SIZE.

Lemma chain_frame m m' p l : (∀ x, x ∈ l → load64 m' x = load64 m x) → chain m p l → chain m' p l.
Proof.
  revert p. induction l as [|a l IH]; intros p Hx; cbn [chain]; [done|]. intros (-> & Ha & Hc).
  split; [done|]. split; [done|]. rewrite Hx by set_solver. apply IH; [set_solver|done].
Qed.

Lemma block_ok_frame m m' n b : (∀ a, meta n b a → m' a = m a) → block_ok m n b → block_ok m' n b.
Proof.
  destruct b as [i fr|c]; cbn [block_ok meta]; intros Hm.
  - assert (Hw : ∀ k, 0 ≤ k ≤ 32 → load64 m' (va n + k) = load64 m (va n + k)).
    { intros k Hk. apply load64_frame. intros x Hx. apply Hm. left. lia. }
    unfold h_obj_size, h_total_objs, h_free_count, h_free_list in *. intros [Hc Hs Ht Hf Hl Hnd Hr].
    split; unfold h_obj_size, h_total_objs, h_free_count, h_free_list in *; rewrite ?Hw by lia; try done.
    eapply chain_frame; [|exact Hl]. intros x (k & -> & Hk)%list_elem_of_fmap. apply load64_frame.
    intros y Hy. apply Hm. right. by exists k.
  - intros [Hc Hl]. split; [done|]. rewrite <- Hl. apply load64_frame. intros x Hx. apply Hm. unfold l_pages in Hx. lia.
Qed.

(** ** The invariant *)

(** A live object of [z] bytes at [p]. *)
Definition object (G : gmap Z block) (p z : Z) : Prop :=
  (0 < z ≤ SLAB_SIZE_MAX ∧ (∃ n k fr, G !! n = Some (BSlab (size_to_index z) fr) ∧
     0 ≤ k < tot (size_to_index z) ∧ (k ∉ fr) ∧ p = slot n (size_to_index z) k)) ∨
  (SLAB_SIZE_MAX < z ∧ (∃ n c, G !! n = Some (BLarge c) ∧ p = va n + LARGE_OBJ_HEADER_SIZE ∧ z + 16 ≤ c * PAGE_SIZE)).

Record placed (s : slab_state) (n : Z) (b : block) : Prop := {
  pl_pos : 0 < n ∧ 0 < pages_of b;
  pl_end : n + pages_of b ≤ total_pages (mach s);
  pl_used : page_range n (pages_of b) ## free_set hhdm (mach s);
  pl_clear : ∀ p, p ∈ page_range n (pages_of b) → clear_page hhdm (mach s) p;
  pl_ok : block_ok (mem (mach s)) n b
}.
(** A page of the others is in use, in no block, and holds what it held. *)
Record untouched (s : slab_state) (G : gmap Z block) (p : Z) : Prop := {
  ut_range : 0 < p < total_pages (mach s);
  ut_used : p ∉ free_set hhdm (mach s);
  ut_clear : clear_page hhdm (mach s) p;
  ut_block : ∀ n b, G !! n = Some b → p ∉ page_range n (pages_of b);
  ut_mem : ∀ a, in_page hhdm p a → mem (mach s) a = fg_mem fg a
}.
Record slab_inv (s : slab_state) (G : gmap Z block) (cs : list (list Z)) (L : gmap Z Z) : Prop := {
  si_phys : phys_ok hhdm (mach s);
  si_range : KERNEL_BASE ≤ hhdm ∧ hhdm + total_pages (mach s) * PAGE_SIZE ≤ 2 ^ 64 - PAGE_SIZE;
  si_block : ∀ n b, G !! n = Some b → placed s n b;
  si_apart : ∀ n n' b b', G !! n = Some b → G !! n' = Some b' → n ≠ n' → n + pages_of b ≤ n' ∨ n' + pages_of b' ≤ n;
  si_nine : length (slab_caches s) = 9%nat ∧ length cs = 9%nat;
  si_cache : ∀ i pages, cs !! i = Some pages → ∃ p, slab_caches s !! i = Some p ∧
    chain (mem (mach s)) p (va <$> pages) ∧ NoDup pages ∧ ∀ n, n ∈ pages → ∃ fr, G !! n = Some (BSlab (Z.of_nat i) fr);
  si_member : ∀ n i fr, G !! n = Some (BSlab i fr) → ∃ pages, cs !! Z.to_nat i = Some pages ∧ n ∈ pages;
  si_live : ∀ p z, L !! p = Some z → object G p z;
  si_foreign : ∀ p, p ∈ fg_pages fg → untouched s G p
}.

Definition with_mem (m : ram) (s : slab_state) : slab_state := SlabState (set_mem m (mach s)) (slab_caches s).

Lemma block_page n b a : in_block n b a → ∃ p, p ∈ page_range n (pages_of b) ∧ in_page hhdm p a.
Proof.
  unfold in_block, in_page, page_va, PAGE_SIZE. intros Ha. exists ((a - hhdm) / 4096).
  rewrite elem_of_page_range. Z.div_mod_to_equations; lia.
Qed.
Lemma meta_in_block m n b a : block_ok m n b → 0 < pages_of b → meta n b a → in_block n b a.
Proof.
  unfold in_block, meta, PAGE_SIZE. destruct b as [i fr|c]; cbn [block_ok pages_of].
  - intros [Hc _ _ _ _ _ Hr] Hp Hm. pose proof (geometry i Hc) as (Hsz & Hn & Ht & Hg).
    destruct Hm as [Hm|(k & Hk & Hm)]; [nia|]. rewrite Forall_forall in Hr. specialize (Hr k Hk). unfold slot in Hm. nia.
  - intros [Hc _] _ Hm. lia.
Qed.
Lemma blocks_apart s G cs L n n' b b' a : slab_inv s G cs L → G !! n = Some b → G !! n' = Some b' →
  in_block n b a → in_block n' b' a → n = n'.
Proof.
  intros Hi Hn Hn' Ha Ha'. destruct (decide (n = n')) as [|Hne]; [done|].
  pose proof (si_apart _ _ _ _ Hi n n' b b' Hn Hn' Hne). unfold in_block, page_va, PAGE_SIZE in *. lia.
Qed.
(** No block reaches into a page of the others. *)
Lemma foreign_apart s G cs L n b p a : slab_inv s G cs L → G !! n = Some b → in_block n b a → p ∈ fg_pages fg → ¬ in_page hhdm p a.
Proof.
  intros Hi Hn (q & Hq & Hin)%block_page Hp Hpa. apply (ut_block _ _ _ (si_foreign _ _ _ _ Hi p Hp) n b Hn).
  by rewrite (in_page_inj hhdm p q a Hpa Hin).
Qed.
Lemma block_bitmap s n b a : placed s n b → in_block n b a → ¬ in_bitmap hhdm (mach s) a.
Proof. intros Hp (p & Hpr & Hin)%block_page. by eapply (pl_clear _ _ _ Hp). Qed.

(** An object lies in its block, off the allocator's own bytes. *)
Lemma object_bytes s G cs L p z a : slab_inv s G cs L → object G p z → p ≤ a < p + z →
  ∃ n b, G !! n = Some b ∧ in_block n b a ∧ ¬ meta n b a.
Proof.
  intros Hi [(Hz & n & k & fr & HG & Hk & Hnk & ->)|(Hz & n & c & HG & -> & Hc)] Ha.
  - exists n, (BSlab (size_to_index z) fr). split; [done|]. pose proof (class_of z Hz) as [Hci Hle].
    pose proof (geometry _ Hci) as (Hsz & Hn & Ht & Hg). unfold slot in Ha. unfold in_block, PAGE_SIZE. cbn [pages_of].
    split; [nia|]. cbn [meta]. intros [Hm|(k' & Hk' & Hm)]; [nia|]. unfold slot in Hm.
    assert (k ≠ k') by (by intros ->). nia.
  - exists n, (BLarge c). split; [done|]. unfold in_block, PAGE_SIZE, LARGE_OBJ_HEADER_SIZE in *. cbn [pages_of meta]. lia.
Qed.

(** Where in its block an object begins, and how far its bytes may reach. *)
Definition at_slot (n : Z) (b : block) (p a : Z) : Prop :=
  match b with
  | BSlab i fr => ∃ k, p = slot n i k ∧ 0 ≤ k < tot i ∧ (k ∉ fr) ∧ slot n i k ≤ a < slot n i k + osz i
  | BLarge _ => p = va n + LARGE_OBJ_HEADER_SIZE
  end.
Lemma object_block s G cs L p z a : slab_inv s G cs L → object G p z → p ≤ a < p + z →
  ∃ n b, G !! n = Some b ∧ in_block n b a ∧ at_slot n b p a.
Proof.
  intros Hi Ho Ha. destruct (object_bytes s G cs L p z a Hi Ho Ha) as (n0 & b0 & HG0 & Hb0 & _).
  destruct Ho as [(Hz & n & k & fr & HG & Hk & Hnk & ->)|(Hz & n & c & HG & -> & Hc)].
  - exists n, (BSlab (size_to_index z) fr). split; [done|]. pose proof (class_of z Hz) as [Hci Hle].
    pose proof (geometry _ Hci) as (Hsz & Hn & Ht & Hg). unfold in_block, PAGE_SIZE. cbn [pages_of at_slot].
    split; [unfold slot in Ha; nia|]. exists k. split_and!; try done; lia.
  - exists n, (BLarge c). split; [done|]. unfold in_block, PAGE_SIZE, LARGE_OBJ_HEADER_SIZE in *. cbn [pages_of at_slot].
    split; [lia|done].
Qed.

(** ** Changes of memory *)

Definition same_shape (b b' : block) : Prop :=
  match b, b' with
  | BSlab i _, BSlab j _ => i = j
  | BLarge c, BLarge c' => c = c'
  | _, _ => False
  end.
Lemma same_shape_pages b b' : same_shape b b' → pages_of b' = pages_of b.
Proof. destruct b, b'; cbn; congruence || done. Qed.

Lemma placed_remem s m n b b' : placed s n b → (∀ a, in_bitmap hhdm (mach s) a → m a = mem (mach s) a) →
  same_shape b b' → block_ok m n b' → placed (with_mem m s) n b'.
Proof.
  intros [Hp He Hu Hc Hok] Hbm Hsh Hok'. pose proof (same_shape_pages _ _ Hsh) as E.
  split; rewrite ?E; cbn [mach with_mem]; try done. by rewrite free_set_frame.
Qed.

Lemma inv_remem s G cs L m G' L' : slab_inv s G cs L →
  (∀ a, in_bitmap hhdm (mach s) a → m a = mem (mach s) a) →
  (∀ n b', G' !! n = Some b' → ∃ b, G !! n = Some b ∧ same_shape b b' ∧ block_ok m n b') →
  (∀ n b, G !! n = Some b → ∃ b', G' !! n = Some b' ∧ same_shape b b') →
  (∀ n, is_Some (G !! n) → load64 m (va n) = load64 (mem (mach s)) (va n)) →
  (∀ p z, L' !! p = Some z → object G' p z) →
  (∀ p a, p ∈ fg_pages fg → in_page hhdm p a → m a = mem (mach s) a) →
  slab_inv (with_mem m s) G' cs L'.
Proof.
  intros [Hph Hrg Hbl Hap Hni Hca Hme Hli Hfg] Hbm HG HG' Hnx HL Hfm. split; cbn [mach with_mem slab_caches set_mem total_pages mem]; try done.
  - by apply phys_ok_frame.
  - intros n b' Hn. destruct (HG n b' Hn) as (b & Hb & Hsh & Hok). by apply (placed_remem s m n b); [apply Hbl| | |].
  - intros n n' b b' Hn Hn' Hne. destruct (HG n b Hn) as (b0 & Hb0 & Hs0 & _). destruct (HG n' b' Hn') as (b1 & Hb1 & Hs1 & _).
    rewrite (same_shape_pages _ _ Hs0), (same_shape_pages _ _ Hs1). by eapply Hap.
  - intros i pages Hi. destruct (Hca i pages Hi) as (p & Hp & Hch & Hnd & Hin). exists p. split; [done|]. split_and!; [|done|].
    + eapply chain_frame; [|exact Hch]. intros x (n & -> & Hn)%list_elem_of_fmap. apply Hnx. destruct (Hin n Hn) as [fr Hf]. by eexists.
    + intros n Hn. destruct (Hin n Hn) as [fr Hf]. destruct (HG' n _ Hf) as ([j fr'|] & Hb' & Hsh); [|done].
      cbn in Hsh. subst j. by eexists.
  - intros n i fr Hn. destruct (HG n _ Hn) as ([j fr'|] & Hb & Hsh & _); [|done]. cbn in Hsh. subst j. by eapply Hme.
  - intros p Hp. destruct (Hfg p Hp) as [Hr Hu Hc Hb Hm]. split; cbn [mach with_mem set_mem mem total_pages]; try done.
    + by rewrite free_set_frame.
    + intros n b Hn. destruct (HG n b Hn) as (b0 & Hb0 & Hs0 & _). rewrite (same_shape_pages _ _ Hs0). by apply Hb.
    + intros a Ha. rewrite (Hfm p a Hp Ha). by apply Hm.
Qed.

Lemma same_shape_refl b : same_shape b b.
Proof. by destruct b. Qed.

(** Clients may write into their objects. *)
Lemma inv_client s G cs L m : slab_inv s G cs L →
  (∀ a, m a ≠ mem (mach s) a → ∃ p z, L !! p = Some z ∧ p ≤ a < p + z) → slab_inv (with_mem m s) G cs L.
Proof.
  intros Hi Hm.
  assert (Hkeep : ∀ a, (in_bitmap hhdm (mach s) a ∨ ∃ n b, G !! n = Some b ∧ meta n b a) → m a = mem (mach s) a).
  { intros a Ha. destruct (decide (m a = mem (mach s) a)) as [|Hne]; [done|]. exfalso.
    destruct (Hm a Hne) as (p & z & Hp & Hpa).
    destruct (object_bytes s G cs L p z a Hi (si_live _ _ _ _ Hi p z Hp) Hpa) as (n & b & Hn & Hb & Hnm).
    destruct Ha as [Ha|(n' & b' & Hn' & Hm')].
    - by apply (block_bitmap s n b a (si_block _ _ _ _ Hi n b Hn)).
    - pose proof (si_block _ _ _ _ Hi n' b' Hn') as Hpl.
      pose proof (meta_in_block _ n' b' a (pl_ok _ _ _ Hpl) (proj2 (pl_pos _ _ _ Hpl)) Hm') as Hb'.
      assert (n = n') as <- by (by eapply blocks_apart). congruence. }
  eapply inv_remem; [exact Hi| | | | |apply Hi|].
  - intros a Ha. apply Hkeep. by left.
  - intros n b Hn. exists b. split; [done|]. split; [apply same_shape_refl|].
    eapply block_ok_frame; [|apply (si_block _ _ _ _ Hi n b Hn)]. intros a Ha. apply Hkeep. right. by exists n, b.
  - intros n b Hn. exists b. split; [done|apply same_shape_refl].
  - intros n [b Hn]. apply load64_frame. intros x Hx. apply Hkeep. right. exists n, b. split; [done|].
    destruct b; cbn [meta]; lia.
  - intros p a Hp Hpa. destruct (decide (m a = mem (mach s) a)) as [|Hne]; [done|]. destruct (Hm a Hne) as (q & z & Hq & Hqa).
    destruct (object_bytes s G cs L q z a Hi (si_live _ _ _ _ Hi q z Hq) Hqa) as (n & b & Hn & Hb & _).
    by destruct (foreign_apart s G cs L n b p a Hi Hn Hb Hp).
Qed.

(** A change inside one slab, which keeps its place in the list of its cache. *)
Lemma inv_slab s G cs L m n i fr fr' L' : slab_inv s G cs L → G !! n = Some (BSlab i fr) →
  (∀ a, ¬ in_block n (BSlab i fr) a → m a = mem (mach s) a) → block_ok m n (BSlab i fr') →
  load64 m (va n) = load64 (mem (mach s)) (va n) →
  (∀ p z, L' !! p = Some z → object (<[n := BSlab i fr']> G) p z) →
  slab_inv (with_mem m s) (<[n := BSlab i fr']> G) cs L'.
Proof.
  intros Hi Hn Hm Hok Hnx HL.
  assert (Hother : ∀ n' b a, G !! n' = Some b → n' ≠ n → meta n' b a → m a = mem (mach s) a).
  { intros n' b a Hn' Hne Hme. apply Hm. intros Hb. apply Hne. pose proof (si_block _ _ _ _ Hi n' b Hn') as Hpl.
    eapply blocks_apart; [done|done|exact Hn|exact (meta_in_block _ n' b a (pl_ok _ _ _ Hpl) (proj2 (pl_pos _ _ _ Hpl)) Hme)|done]. }
  eapply inv_remem; [exact Hi| | | | |exact HL|].
  - intros a Ha. apply Hm. intros Hb. by apply (block_bitmap s n (BSlab i fr) a (si_block _ _ _ _ Hi _ _ Hn)).
  - intros n' b [[<- <-]|[Hne Hn']]%lookup_insert_Some; [by exists (BSlab i fr)|].
    exists b. split; [done|]. split; [apply same_shape_refl|].
    eapply block_ok_frame; [|apply (si_block _ _ _ _ Hi n' b Hn')]. intros a Ha. by eapply Hother.
  - intros n' b Hn'. destruct (decide (n' = n)) as [->|Hne].
    + rewrite lookup_insert_eq. rewrite Hn in Hn'. injection Hn' as <-. by eexists.
    + rewrite lookup_insert_ne by done. exists b. split; [done|apply same_shape_refl].
  - intros n' [b Hn']. destruct (decide (n' = n)) as [->|Hne]; [done|].
    apply load64_frame. intros x Hx. eapply Hother; [done|done|]. destruct b; cbn [meta]; lia.
  - intros p a Hp Hpa. apply Hm. intros Hb. by apply (foreign_apart s G cs L n (BSlab i fr) p a Hi Hn Hb Hp).
Qed.
(** ** Facts of the invariant *)

(** Two live objects share no byte. *)
Lemma live_apart s G cs L p z p' z' : slab_inv s G cs L → L !! p = Some z → L !! p' = Some z' → p ≠ p' →
  p + z ≤ p' ∨ p' + z' ≤ p.
Proof.
  intros Hi Hp Hp' Hne. destruct (decide (p + z ≤ p' ∨ p' + z' ≤ p)) as [|Hov]; [done|]. exfalso. apply Hne.
  pose proof (si_live _ _ _ _ Hi p z Hp) as Ho. pose proof (si_live _ _ _ _ Hi p' z' Hp') as Ho'.
  assert (Hpos : ∀ q y, object G q y → 0 < y) by (unfold object, SLAB_SIZE_MAX; intros ?? [[? _]|[? _]]; lia).
  pose proof (Hpos _ _ Ho). pose proof (Hpos _ _ Ho'). set (a := Z.max p p').
  assert (Ha : p ≤ a < p + z) by lia. assert (Ha' : p' ≤ a < p' + z') by lia.
  destruct (object_block s G cs L p z a Hi Ho Ha) as (n & b & Hn & Hb & Hat).
  destruct (object_block s G cs L p' z' a Hi Ho' Ha') as (n' & b' & Hn' & Hb' & Hat').
  assert (n = n') as <- by (by eapply blocks_apart). rewrite Hn in Hn'. injection Hn' as <-.
  destruct b as [i fr|c]; cbn [at_slot] in *; [|congruence].
  pose proof (geometry i (sk_class _ _ _ _ (pl_ok _ _ _ (si_block _ _ _ _ Hi n _ Hn)))) as (Hsz & _).
  destruct Hat as (k & -> & _ & _ & Hk), Hat' as (k' & -> & _ & _ & Hk'). f_equal. unfold slot in *. clear - Hk Hk' Hsz. nia.
Qed.

Lemma va_facts s G cs L n b : slab_inv s G cs L → G !! n = Some b →
  KERNEL_BASE ≤ va n ∧ va n + pages_of b * PAGE_SIZE ≤ 2 ^ 64 - PAGE_SIZE.
Proof.
  intros Hi Hn. destruct (si_range _ _ _ _ Hi) as [Hk Ht]. destruct (si_block _ _ _ _ Hi n b Hn) as [[Hp Hb] He _ _ _].
  unfold page_va, PAGE_SIZE in *. lia.
Qed.
Lemma live_top s G cs L p z : slab_inv s G cs L → L !! p = Some z → p + z ≤ 2 ^ 64 - PAGE_SIZE.
Proof.
  intros Hi Hp. pose proof (si_live _ _ _ _ Hi p z Hp) as Ho.
  assert (Hz : 0 < z) by (unfold object, SLAB_SIZE_MAX in Ho; destruct Ho as [[? _]|[? _]]; lia).
  destruct (object_bytes s G cs L p z (p + z - 1) Hi Ho ltac:(lia)) as (n & b & Hn & Hb & _).
  destruct (va_facts s G cs L n b Hi Hn) as [_ Ht]. unfold in_block in Hb. lia.
Qed.
End Spec.
