(* ===== verification/SlabSpec.v ===== *)
(** * The slab allocator implements the allocator's contract

    alloc and free keep [slab_inv] of SlabInv: an object handed out is fresh,
    lies in the kernel's half of the address space and is disjoint from every
    live object, whose bytes stay as they are; so the slab allocator is an
    instance of [AllocatorSpec]. slab_init establishes the invariant. *)

From S2P Require Import Prelude Mem KString Errno Alloc Pmm Pages Slab SlabInv.

Section Ops.
Context (hhdm : Z) (fg : foreign).
Abbreviation va := (page_va hhdm).
Abbreviation slot := (slot hhdm).
Abbreviation inv := (slab_inv hhdm fg).
Implicit Types (s : slab_state) (m : ram) (G : gmap Z block) (L : gmap Z Z) (cs : list (list Z)).

(** The bytes of live objects are the same in the two states. *)
Definition kept s s' L : Prop := ∀ p z a, L !! p = Some z → p ≤ a < p + z → mem (mach s') a = mem (mach s) a.

Lemma slot_facts s G cs L n i fr k : inv s G cs L → G !! n = Some (BSlab i fr) → 0 ≤ k < tot i →
  kernel_ptr (slot n i k) ∧ (k ∈ fr → L !! slot n i k = None).
Proof.
  intros Hi Hn Hk. pose proof (pl_ok _ _ _ _ (si_block _ _ _ _ _ _ Hi n _ Hn)) as [Hc _ _ _ _ _ _].
  pose proof (geometry i Hc) as (Hsz & Hp & Ht & Hg). destruct (va_facts _ _ _ _ _ _ _ _ Hi Hn) as [Hlo Hhi].
  cbn [pages_of] in Hhi. split.
  - unfold kernel_ptr, SlabInv.slot, PAGE_SIZE, MAX_ERRNO in *. nia.
  - intros Hin. destruct (L !! slot n i k) as [z|] eqn:E; [|done]. exfalso.
    pose proof (si_live _ _ _ _ _ _ Hi _ _ E) as Ho.
    assert (Hz : 0 < z) by (unfold object, SLAB_SIZE_MAX in Ho; destruct Ho as [[? _]|[? _]]; lia).
    destruct (object_bytes _ _ _ _ _ _ _ z (slot n i k) Hi Ho ltac:(lia)) as (n' & b' & Hn' & Hb' & Hm).
    assert (Hm' : meta hhdm n (BSlab i fr) (slot n i k)) by (right; exists k; split; [done|lia]).
    assert (n = n') as <-.
    { eapply (blocks_apart hhdm fg s G cs L); [done|exact Hn|exact Hn'| |exact Hb'].
      eapply meta_in_block; [apply (si_block _ _ _ _ _ _ Hi n _ Hn)|cbn; lia|done]. }
    rewrite Hn in Hn'. injection Hn' as <-. done.
Qed.

(** ** Taking and giving back a slot *)

Definition popped m n i k : ram :=
  let m1 := store64 m (h_free_list (va n)) (load64 m (slot n i k)) in
  store64 m1 (h_free_count (va n)) (u64 (load64 m1 (h_free_count (va n)) - 1)).
Lemma pop_free_eq s n i k : pop_free (va n) (slot n i k) s = Ret (tt, with_mem (popped (mem (mach s)) n i k) s).
Proof. by destruct s as [[] c]. Qed.

Ltac hdr := unfold h_next, h_free_list, h_obj_size, h_total_objs, h_free_count, l_pages, l_user_size in *.

(** The words of a header and of the slots are apart. *)
Lemma popped_ok m n i k fr : slab_ok hhdm m n i (k :: fr) → slab_ok hhdm (popped m n i k) n i fr.
Proof.
  intros [Hc Hs Ht Hf Hl Hnd Hr]. pose proof (geometry i Hc) as (Hsz & _ & Hti & _). apply Forall_cons in Hr as [Hk Hr].
  apply NoDup_cons in Hnd as [Hkf Hnd]. cbn [fmap list_fmap chain] in Hl. destruct Hl as (_ & _ & Hl).
  cbn [length] in Hf.
  assert (Hw : Z.of_nat (length fr) < 2 ^ 32) by (pose proof (NoDup_range_length fr (tot i) ltac:(lia) Hnd Hr); lia).
  unfold popped. set (m1 := store64 m _ _). assert (E1 : load64 m1 (h_free_count (va n)) = Z.of_nat (S (length fr))).
  { unfold m1. hdr. rewrite load64_store64_ne by lia. done. }
  rewrite E1. split; try done; hdr; rewrite ?load64_store64_ne by lia; unfold m1; rewrite ?load64_store64_eq, ?load64_store64_ne by lia; try done.
  - rewrite (u64_small (_ - 1)), u64_small by lia. lia.
  - rewrite (u64_small (load64 _ _)) by apply load64_range. eapply chain_frame; [|exact Hl].
    intros x (j & -> & Hj)%list_elem_of_fmap. rewrite Forall_forall in Hr. specialize (Hr j Hj).
    unfold SlabInv.slot. rewrite !load64_store64_ne by nia. done.
Qed.

Lemma kept_meta s G cs L m : inv s G cs L →
  (∀ a, m a ≠ mem (mach s) a → ∃ n b, G !! n = Some b ∧ meta hhdm n b a) → kept s (with_mem m s) L.
Proof.
  intros Hi Hm p z a Hp Ha. cbn [with_mem mach set_mem mem]. destruct (decide (m a = mem (mach s) a)) as [|Hne]; [done|].
  exfalso. destruct (Hm a Hne) as (n & b & Hn & Hb).
  destruct (object_bytes _ _ _ _ _ _ _ z a Hi (si_live _ _ _ _ _ _ Hi _ _ Hp) Ha) as (n' & b' & Hn' & Hb' & Hnm).
  pose proof (si_block _ _ _ _ _ _ Hi n b Hn) as Hpl.
  pose proof (meta_in_block _ _ n b a (pl_ok _ _ _ _ Hpl) (proj2 (pl_pos _ _ _ _ Hpl)) Hb) as Hin.
  assert (n = n') as <- by (by eapply (blocks_apart hhdm fg s)). congruence.
Qed.

Lemma object_shrink G n i fr fr' p z : G !! n = Some (BSlab i fr) → fr' ⊆ fr → object hhdm G p z →
  object hhdm (<[n := BSlab i fr']> G) p z.
Proof.
  intros Hn Hsub [(Hz & n' & k & f & HG & Hk & Hnk & ->)|(Hz & n' & c & HG & -> & Hc)].
  - left. split; [done|]. exists n', k. destruct (decide (n' = n)) as [->|Hne].
    + rewrite Hn in HG. injection HG as -> <-. exists fr'. rewrite lookup_insert_eq. split; [done|]. split; [done|]. split; [set_solver|done].
    + exists f. by rewrite lookup_insert_ne.
  - right. split; [done|]. exists n', c. rewrite lookup_insert_ne; [done|]. intros <-. congruence.
Qed.

Lemma popped_out m n i k a : ¬ (va n ≤ a < va n + 40) → popped m n i k a = m a.
Proof. intros Ha. unfold popped. hdr. rewrite !store64_out by lia. done. Qed.

Lemma pop_inv s G cs L n k fr z : inv s G cs L → 0 < z ≤ SLAB_SIZE_MAX → G !! n = Some (BSlab (size_to_index z) (k :: fr)) →
  let p := slot n (size_to_index z) k in
  let s' := with_mem (popped (mem (mach s)) n (size_to_index z) k) s in
  inv s' (<[n := BSlab (size_to_index z) fr]> G) cs (<[p := z]> L) ∧ kept s s' L ∧ kernel_ptr p ∧ L !! p = None.
Proof.
  intros Hi Hz Hn. set (i := size_to_index z). pose proof (pl_ok _ _ _ _ (si_block _ _ _ _ _ _ Hi n _ Hn)) as Hok.
  cbn [block_ok] in Hok. pose proof (sk_range _ _ _ _ _ Hok) as Hr. apply Forall_cons in Hr as [Hk _].
  pose proof (sk_nodup _ _ _ _ _ Hok) as Hnd. apply NoDup_cons in Hnd as [Hnd _].
  pose proof (geometry i (sk_class _ _ _ _ _ Hok)) as (Hsz & Hpg & _).
  destruct (slot_facts _ _ _ _ n i (k :: fr) k Hi Hn Hk) as [Hptr Hnone]. split_and!; [| |done|apply Hnone; set_solver].
  - eapply inv_slab; [done|exact Hn| | | |].
    + intros a Ha. apply popped_out. unfold in_block, PAGE_SIZE in Ha. cbn [pages_of] in Ha. lia.
    + by apply popped_ok.
    + apply load64_frame. intros x Hx. unfold popped. hdr. rewrite !store64_out by lia. done.
    + intros p y. rewrite lookup_insert_Some. intros [[<- <-]|[_ Hp]].
      * left. split; [done|]. exists n, k, fr. rewrite lookup_insert_eq. done.
      * eapply object_shrink; [exact Hn|set_solver|by apply (si_live _ _ _ _ _ _ Hi)].
  - eapply kept_meta; [done|]. intros a Ha. exists n, (BSlab i (k :: fr)). split; [done|]. left.
    destruct (decide (va n ≤ a < va n + 40)); [done|]. rewrite popped_out in Ha; done.
Qed.

Definition pushed m n i k : ram :=
  let m1 := store64 m (slot n i k) (load64 m (h_free_list (va n))) in
  let m2 := store64 m1 (h_free_list (va n)) (slot n i k) in
  store64 m2 (h_free_count (va n)) (u64 (load64 m2 (h_free_count (va n)) + 1)).

Lemma push_free_eq s n i k :
  (fl ← peek (h_free_list (va n));
   poke (slot n i k) fl ≫= λ _,
   poke (h_free_list (va n)) (slot n i k) ≫= λ _,
   fc ← peek (h_free_count (va n));
   poke (h_free_count (va n)) (u64 (fc + 1))) s = Ret (tt, with_mem (pushed (mem (mach s)) n i k) s).
Proof. destruct s as [[] c]. reflexivity. Qed.

Lemma pushed_ok m n i k fr : slab_ok hhdm m n i fr → 0 ≤ k < tot i → k ∉ fr → 0 < slot n i k < 2 ^ 64 →
  slab_ok hhdm (pushed m n i k) n i (k :: fr).
Proof.
  intros [Hc Hs Ht Hf Hl Hnd Hr] Hk Hkf Hrg. pose proof (geometry i Hc) as (Hsz & _ & Hti & _).
  assert (Hw : Z.of_nat (length fr) < 2 ^ 32) by (pose proof (NoDup_range_length fr (tot i) ltac:(lia) Hnd Hr); lia).
  unfold pushed. set (m2 := store64 (store64 m _ _) _ _). unfold SlabInv.slot in Hrg.
  assert (E2 : load64 m2 (h_free_count (va n)) = Z.of_nat (length fr)).
  { unfold m2. hdr. unfold SlabInv.slot. rewrite !load64_store64_ne by nia. done. }
  rewrite E2. split; try done; hdr; rewrite ?load64_store64_ne by lia; unfold m2;
    rewrite ?load64_store64_eq; rewrite ?load64_store64_ne by (unfold SlabInv.slot; nia); try done.
  - cbn [length]. rewrite (u64_small (_ + 1)), u64_small by lia. lia.
  - cbn [fmap list_fmap chain]. rewrite (u64_small (slot n i k)) by (unfold SlabInv.slot; lia).
    split; [done|]. split; [unfold SlabInv.slot; lia|].
    rewrite !load64_store64_ne by (unfold SlabInv.slot; nia). rewrite load64_store64_eq, (u64_small (load64 _ _)) by apply load64_range.
    eapply chain_frame; [|exact Hl]. intros x (j & -> & Hj)%list_elem_of_fmap. rewrite Forall_forall in Hr. specialize (Hr j Hj).
    assert (j ≠ k) by (by intros ->). unfold SlabInv.slot. rewrite !load64_store64_ne by nia. done.
  - by apply NoDup_cons.
  - by apply Forall_cons.
Qed.

Lemma pushed_out m n i k a : ¬ (va n ≤ a < va n + 40) → ¬ (slot n i k ≤ a < slot n i k + 8) → pushed m n i k a = m a.
Proof. intros Ha Hs. unfold pushed. hdr. rewrite !store64_out by lia. done. Qed.

Lemma push_inv s G cs L n k fr z : inv s G cs L → 0 < z ≤ SLAB_SIZE_MAX → G !! n = Some (BSlab (size_to_index z) fr) →
  0 ≤ k < tot (size_to_index z) → k ∉ fr →
  let p := slot n (size_to_index z) k in
  let s' := with_mem (pushed (mem (mach s)) n (size_to_index z) k) s in
  inv s' (<[n := BSlab (size_to_index z) (k :: fr)]> G) cs (delete p L) ∧ kept s s' (delete p L).
Proof.
  intros Hi Hz Hn Hk Hkf p s'. set (i := size_to_index z) in *. pose proof (pl_ok _ _ _ _ (si_block _ _ _ _ _ _ Hi n _ Hn)) as Hok.
  cbn [block_ok] in Hok. pose proof (geometry i (sk_class _ _ _ _ _ Hok)) as (Hsz & Hpg & Ht & Hg).
  destruct (slot_facts _ _ _ _ n i fr k Hi Hn Hk) as [Hptr _].
  assert (Hinv : inv s' (<[n := BSlab i (k :: fr)]> G) cs (delete p L)).
  { eapply inv_slab; [done|exact Hn| | | |].
    - intros a Ha. unfold in_block, PAGE_SIZE in Ha. cbn [pages_of] in Ha. apply pushed_out; unfold SlabInv.slot; nia.
    - apply pushed_ok; try done. unfold kernel_ptr, KERNEL_BASE, MAX_ERRNO in Hptr. lia.
    - apply load64_frame. intros x Hx. unfold pushed, SlabInv.slot. hdr. rewrite !store64_out by nia. done.
    - intros q y. rewrite lookup_delete_Some. intros [Hne Hq]. pose proof (si_live _ _ _ _ _ _ Hi q y Hq) as Ho.
      destruct Ho as [(Hy & n' & k' & f & HG & Hk' & Hnk & ->)|(Hy & n' & c & HG & -> & Hc)].
      + left. split; [done|]. exists n', k'. destruct (decide (n' = n)) as [->|Hnn].
        * rewrite Hn in HG. injection HG as Ei <-. rewrite <- Ei in *. exists (k :: fr). rewrite lookup_insert_eq.
          split; [done|]. split; [done|]. split; [|done]. apply not_elem_of_cons. split; [|done]. intros ->. by apply Hne.
        * exists f. by rewrite lookup_insert_ne.
      + right. split; [done|]. exists n', c. rewrite lookup_insert_ne; [done|]. intros <-. congruence. }
  split; [done|]. assert (Hkr : kept s' (with_mem (mem (mach s)) s') (delete p L)).
  { eapply kept_meta; [exact Hinv|]. intros a Ha. exists n, (BSlab i (k :: fr)). rewrite lookup_insert_eq. split; [done|].
    destruct (decide (va n ≤ a < va n + 40)); [by left|]. destruct (decide (slot n i k ≤ a < slot n i k + 8)).
    { right. exists k. split; [set_solver|done]. }
    exfalso. apply Ha. symmetry. by apply pushed_out. }
  intros q y a Hq Ha. symmetry. by apply (Hkr q y a).
Qed.

(** Slab objects come and go without the page allocator. *)
Lemma push_free_set s G cs L n i fr k : inv s G cs L → G !! n = Some (BSlab i fr) → 0 ≤ k < tot i →
  free_set hhdm (mach (with_mem (pushed (mem (mach s)) n i k) s)) = free_set hhdm (mach s).
Proof.
  intros Hi Hn Hk. pose proof (si_block _ _ _ _ _ _ Hi n _ Hn) as Hpl. pose proof (pl_ok _ _ _ _ Hpl) as Hok.
  cbn [block_ok] in Hok. pose proof (geometry i (sk_class _ _ _ _ _ Hok)) as (Hsz & Hpg & Ht & Hg).
  apply free_set_frame. intros a Ha. assert (Hnb : ¬ in_block hhdm n (BSlab i fr) a) by (intros Hb; by eapply block_bitmap).
  unfold in_block, PAGE_SIZE in Hnb. cbn [pages_of] in Hnb. apply pushed_out; unfold SlabInv.slot; nia.
Qed.

(** ** The walks over the lists *)

Lemma alloc_scan_spec s G cs L i pages fuel p : inv s G cs L →
  chain (mem (mach s)) p (va <$> pages) → (∀ n, n ∈ pages → ∃ fr, G !! n = Some (BSlab i fr)) → (length pages < fuel)%nat →
  (∃ n k fr, G !! n = Some (BSlab i (k :: fr)) ∧
     alloc_scan fuel p s = Ret (slot n i k, with_mem (popped (mem (mach s)) n i k) s)) ∨
  alloc_scan fuel p s = Ret (0, s).
Proof.
  intros Hi. revert p fuel. induction pages as [|n pages IH]; intros p [|fuel] Hch Hin Hlen; cbn [length] in Hlen; try lia.
  { cbn [fmap list_fmap chain] in Hch. subst p. by right. }
  cbn [fmap list_fmap chain] in Hch. destruct Hch as (-> & Hnz & Hch). destruct (Hin n ltac:(set_solver)) as [fr Hn].
  pose proof (pl_ok _ _ _ _ (si_block _ _ _ _ _ _ Hi n _ Hn)) as [Hc Hs Ht Hf Hl Hnd Hr]. cbn [alloc_scan].
  destruct (Z.eqb_spec (va n) 0) as [|_]; [done|]. erewrite K_bind_ret by reflexivity. cbv beta. rewrite Hf.
  destruct fr as [|k fr].
  - cbn [length]. change (0 <? Z.of_nat 0) with false. cbv iota. erewrite K_bind_ret by reflexivity.
    apply IH; [done|set_solver|lia].
  - left. exists n, k, fr. split; [done|]. zcase; [|cbn [length] in *; lia]. krun. rewrite Hs, Ht.
    cbn [fmap list_fmap chain] in Hl. destruct Hl as (Hl & _ & _). rewrite Hl.
    pose proof (geometry i Hc) as (Hsz & Hpg & Hti & Hg). destruct (va_facts _ _ _ _ _ _ _ _ Hi Hn) as [Hlo Hhi].
    cbn [pages_of] in Hhi. apply Forall_cons in Hr as [Hk _]. unfold sizeof_SlabHeader, PAGE_SIZE, KERNEL_BASE in *.
    rewrite u64_small by nia. unfold SlabInv.slot at 1 2.
    destruct (Z.ltb_spec (va n + 40 + k * osz i) (va n + 40)) as [|_]; [nia|].
    destruct (Z.leb_spec (va n + 40 + tot i * osz i) (va n + 40 + k * osz i)) as [|_]; [nia|]. cbn [orb]. cbv iota.
    erewrite K_bind_ret by apply pop_free_eq. done.
Qed.

Lemma check_free_spec s fuel q p l : chain (mem (mach s)) q l → p ∉ l → (length l < fuel)%nat → check_free fuel q p s = Ret (tt, s).
Proof.
  revert q fuel. induction l as [|a l IH]; intros q [|fuel] Hch Hnin Hlen; cbn [length] in Hlen; try lia.
  { cbn [chain] in Hch. by subst q. }
  destruct Hch as (-> & Hnz & Hch). apply not_elem_of_cons in Hnin as [Hne Hnin]. cbn [check_free].
  destruct (Z.eqb_spec a 0); [done|]. destruct (Z.eqb_spec a p); [by subst|]. erewrite K_bind_ret by reflexivity.
  apply IH; [done|done|lia].
Qed.

Lemma free_scan_spec s G cs L i pages fuel q n k fr : inv s G cs L →
  chain (mem (mach s)) q (va <$> pages) → (∀ n, n ∈ pages → ∃ fr, G !! n = Some (BSlab i fr)) → (length pages < fuel)%nat →
  n ∈ pages → G !! n = Some (BSlab i fr) → 0 ≤ k < tot i → k ∉ fr →
  free_scan fuel q (slot n i k) s = Ret (tt, with_mem (pushed (mem (mach s)) n i k) s).
Proof.
  intros Hi. revert q fuel. induction pages as [|n' pages IH]; intros q [|fuel] Hch Hin Hlen Hnp Hn Hk Hkf; cbn [length] in Hlen; try lia.
  { set_solver. }
  cbn [fmap list_fmap chain] in Hch. destruct Hch as (-> & Hnz & Hch). destruct (Hin n' ltac:(set_solver)) as [fr' Hn'].
  pose proof (pl_ok _ _ _ _ (si_block _ _ _ _ _ _ Hi n' _ Hn')) as [Hc Hs Ht Hf Hl Hnd Hr]. cbn [free_scan].
  destruct (Z.eqb_spec (va n') 0) as [|_]; [done|]. krun. rewrite Hs, Ht. unfold sizeof_SlabHeader.
  pose proof (geometry i Hc) as (Hsz & Hpg & Hti & Hg). destruct (va_facts _ _ _ _ _ _ _ _ Hi Hn') as [Hlo Hhi].
  cbn [pages_of] in Hhi. unfold PAGE_SIZE, KERNEL_BASE in *. rewrite (u64_small (40 + _)), u64_small by nia.
  destruct (decide (n' = n)) as [->|Hne].
  - rewrite Hn in Hn'. injection Hn' as <-. destruct (Z.leb_spec (va n) (slot n i k)) as [_|]; [|unfold SlabInv.slot in *; nia].
    destruct (Z.ltb_spec (slot n i k) (va n + (40 + tot i * osz i))) as [_|]; [|unfold SlabInv.slot in *; nia]. cbn [andb]. cbv iota.
    krun. erewrite K_bind_ret; [apply push_free_eq|]. eapply check_free_spec; [exact Hl| |].
    + intros (j & Ej & Hj)%list_elem_of_fmap. assert (j = k) as -> by (unfold SlabInv.slot in Ej; nia). done.
    + rewrite length_fmap. pose proof (NoDup_range_length fr (tot i) ltac:(lia) Hnd Hr). lia.
  - assert (Hout : (va n' <=? slot n i k) && (slot n i k <? va n' + (40 + tot i * osz i)) = false).
    { pose proof (si_apart _ _ _ _ _ _ Hi n n' _ _ Hn Hn' ltac:(congruence)) as Hap. cbn [pages_of] in Hap.
      apply andb_false_iff. rewrite Z.leb_gt, Z.ltb_ge. unfold SlabInv.slot, page_va, PAGE_SIZE in *. nia. }
    rewrite Hout. cbv iota. erewrite K_bind_ret by reflexivity. apply IH; try done; [set_solver|lia|set_solver].
Qed.
(** ** New blocks *)

Lemma fresh_apart s G cs L n c n0 b0 : inv s G cs L → page_range n c ⊆ free_set hhdm (mach s) → 0 < c → G !! n0 = Some b0 →
  n + c ≤ n0 ∨ n0 + pages_of b0 ≤ n.
Proof.
  intros Hi Hsub Hc Hn0. destruct (si_block _ _ _ _ _ _ Hi n0 b0 Hn0) as [[_ Hp] _ Hu _ _].
  destruct (decide (n + c ≤ n0 ∨ n0 + pages_of b0 ≤ n)) as [|Hov]; [done|]. exfalso.
  apply (Hu (Z.max n n0)); [|apply Hsub]; apply elem_of_page_range; lia.
Qed.

(** A run of free pages was taken for block [b] and only these pages were written. *)
Record added s (n : Z) (b : block) (M : machine) (m : ram) : Prop := {
  ad_phys : phys_ok hhdm M;
  ad_only : only_bitmap hhdm (mach s) M;
  ad_pos : 0 < n ∧ 0 < pages_of b;
  ad_end : n + pages_of b ≤ total_pages (mach s);
  ad_sub : page_range n (pages_of b) ⊆ free_set hhdm (mach s);
  ad_free : free_set hhdm M = free_set hhdm (mach s) ∖ page_range n (pages_of b);
  ad_out : ∀ a, ¬ in_block hhdm n b a → m a = mem M a;
  ad_ok : block_ok hhdm m n b
}.

Section Added.
Context s G cs L n b M m (Hi : inv s G cs L) (Ha : added s n b M m).

Lemma added_fresh : G !! n = None.
Proof.
  destruct (G !! n) as [b0|] eqn:E; [|done]. destruct (ad_pos _ _ _ _ _ Ha) as [_ Hp].
  pose proof (fresh_apart _ _ _ _ n _ n b0 Hi (ad_sub _ _ _ _ _ Ha) Hp E).
  destruct (si_block _ _ _ _ _ _ Hi n b0 E) as [[_ ?] _ _ _ _]. lia.
Qed.
Lemma added_bitmap a : in_block hhdm n b a → ¬ in_bitmap hhdm M a.
Proof.
  intros (p & Hp & Hin)%block_page. apply (ad_sub _ _ _ _ _ Ha) in Hp.
  apply (clear_page_stable hhdm _ _ p (ad_only _ _ _ _ _ Ha)); [|done]. by apply (po_bitmap _ _ (si_phys _ _ _ _ _ _ Hi)).
Qed.
(** The blocks that were there keep their bytes. *)
Lemma added_old n0 b0 a : G !! n0 = Some b0 → in_block hhdm n0 b0 a → m a = mem (mach s) a ∧ ¬ in_block hhdm n b a.
Proof.
  intros Hn0 Hin. assert (Hnb : ¬ in_block hhdm n b a).
  { pose proof (fresh_apart _ _ _ _ n _ n0 b0 Hi (ad_sub _ _ _ _ _ Ha) (proj2 (ad_pos _ _ _ _ _ Ha)) Hn0).
    unfold in_block, page_va, PAGE_SIZE in *. lia. }
  split; [|done]. rewrite (ad_out _ _ _ _ _ Ha) by done. apply (ob_mem _ _ _ (ad_only _ _ _ _ _ Ha)).
  by apply (block_bitmap hhdm s n0 b0 a (si_block _ _ _ _ _ _ Hi n0 b0 Hn0)).
Qed.
Lemma added_frame n0 b0 a : G !! n0 = Some b0 → meta hhdm n0 b0 a → m a = mem (mach s) a.
Proof.
  intros Hn0 Hm. pose proof (si_block _ _ _ _ _ _ Hi n0 b0 Hn0) as Hpl. apply (added_old n0 b0 a Hn0).
  exact (meta_in_block _ _ n0 b0 a (pl_ok _ _ _ _ Hpl) (proj2 (pl_pos _ _ _ _ Hpl)) Hm).
Qed.
Lemma added_free : free_set hhdm (set_mem m M) = free_set hhdm (mach s) ∖ page_range n (pages_of b).
Proof.
  rewrite free_set_frame; [apply (ad_free _ _ _ _ _ Ha)|]. intros a Hbm. apply (ad_out _ _ _ _ _ Ha).
  intros Hin. by apply (added_bitmap a).
Qed.
Lemma added_phys : phys_ok hhdm (set_mem m M).
Proof.
  apply phys_ok_frame; [apply (ad_phys _ _ _ _ _ Ha)|]. intros a Hbm. apply (ad_out _ _ _ _ _ Ha).
  intros Hin. by apply (added_bitmap a).
Qed.
Lemma added_placed caches n0 b0 : <[n := b]> G !! n0 = Some b0 → placed hhdm (SlabState (set_mem m M) caches) n0 b0.
Proof.
  pose proof (ad_only _ _ _ _ _ Ha) as Hob. rewrite lookup_insert_Some. intros [[<- <-]|[Hne Hn0]].
  - destruct Ha as [Hph _ Hp He Hsub Hf Ho Hok]. split; cbn [mach set_mem total_pages mem]; try done.
    + rewrite (ob_total _ _ _ Hob). done.
    + rewrite added_free. set_solver.
    + intros p Hp0 a Hin. apply (clear_page_stable hhdm _ _ p Hob); [|done]. apply (po_bitmap _ _ (si_phys _ _ _ _ _ _ Hi)). by apply Hsub.
  - destruct (si_block _ _ _ _ _ _ Hi n0 b0 Hn0) as [Hp He Hu Hc Hok]. split; cbn [mach set_mem total_pages mem]; try done.
    + rewrite (ob_total _ _ _ Hob). done.
    + rewrite added_free. set_solver.
    + intros p Hp0. apply (clear_page_stable hhdm _ _ p Hob). by apply Hc.
    + eapply block_ok_frame; [|exact Hok]. intros a Hm. by eapply added_frame.
Qed.
Lemma added_apart n1 n2 b1 b2 : <[n := b]> G !! n1 = Some b1 → <[n := b]> G !! n2 = Some b2 → n1 ≠ n2 →
  n1 + pages_of b1 ≤ n2 ∨ n2 + pages_of b2 ≤ n1.
Proof.
  pose proof (λ n0 b0, fresh_apart _ _ _ _ n _ n0 b0 Hi (ad_sub _ _ _ _ _ Ha) (proj2 (ad_pos _ _ _ _ _ Ha))) as Hf.
  rewrite !lookup_insert_Some. intros [[<- <-]|[Hne1 H1]] [[<- <-]|[Hne2 H2]] Hne; [done| | |].
  - by apply Hf.
  - specialize (Hf _ _ H1). lia.
  - by eapply (si_apart _ _ _ _ _ _ Hi).
Qed.
Lemma added_object p z : object hhdm G p z → object hhdm (<[n := b]> G) p z.
Proof.
  pose proof added_fresh as Hn. intros [(Hz & n' & k & f & HG & H)|(Hz & n' & c & HG & H)]; [left|right]; (split; [done|]).
  - exists n', k, f. rewrite lookup_insert_ne; [done|]. intros <-. congruence.
  - exists n', c. rewrite lookup_insert_ne; [done|]. intros <-. congruence.
Qed.
Lemma added_kept caches : kept s (SlabState (set_mem m M) caches) L.
Proof.
  intros p z a Hp Hin. cbn [mach set_mem mem].
  destruct (object_bytes _ _ _ _ _ _ _ z a Hi (si_live _ _ _ _ _ _ Hi p z Hp) Hin) as (n0 & b0 & Hn0 & Hb0 & _).
  by apply (added_old n0 b0 a).
Qed.
Lemma added_not_live p : in_block hhdm n b p → L !! p = None.
Proof.
  intros Hin. destruct (L !! p) as [z|] eqn:E; [|done]. exfalso. pose proof (si_live _ _ _ _ _ _ Hi _ _ E) as Ho.
  assert (Hz : 0 < z) by (unfold object, SLAB_SIZE_MAX in Ho; destruct Ho as [[? _]|[? _]]; lia).
  destruct (object_bytes _ _ _ _ _ _ _ z p Hi Ho ltac:(lia)) as (n' & b' & Hn' & Hb' & _).
  by apply (added_old n' b' p Hn' Hb').
Qed.
Lemma added_range : KERNEL_BASE ≤ hhdm ∧ hhdm + total_pages (set_mem m M) * PAGE_SIZE ≤ 2 ^ 64 - PAGE_SIZE.
Proof. cbn [set_mem total_pages]. rewrite (ob_total _ _ _ (ad_only _ _ _ _ _ Ha)). apply (si_range _ _ _ _ _ _ Hi). Qed.
Lemma added_untouched caches p : p ∈ fg_pages fg → untouched hhdm fg (SlabState (set_mem m M) caches) (<[n := b]> G) p.
Proof.
  intros Hp. destruct (si_foreign _ _ _ _ _ _ Hi p Hp) as [Hr Hu Hc Hb Hm]. pose proof (ad_only _ _ _ _ _ Ha) as Hob.
  assert (Hpb : p ∉ page_range n (pages_of b)) by (intros Hin; by apply Hu, (ad_sub _ _ _ _ _ Ha)).
  split; cbn [mach set_mem total_pages mem].
  - by rewrite (ob_total _ _ _ Hob).
  - rewrite added_free. set_solver.
  - intros a Hin. by apply (clear_page_stable hhdm _ _ p Hob Hc).
  - intros n0 b0. rewrite lookup_insert_Some. intros [[<- <-]|[_ Hn0]]; [done|by apply (Hb n0)].
  - intros a Hin. rewrite <- (Hm a Hin), (ad_out _ _ _ _ _ Ha), (ob_mem _ _ _ Hob); [done|by apply Hc|].
    intros (q & Hq & Hqa)%block_page. apply Hpb. by rewrite (in_page_inj hhdm p q a Hin Hqa).
Qed.
End Added.
Lemma added_chain s G cs L n b M m p pages i : inv s G cs L → added s n b M m →
  (∀ n0, n0 ∈ pages → ∃ fr, G !! n0 = Some (BSlab i fr)) → chain (mem (mach s)) p (va <$> pages) → chain m p (va <$> pages).
Proof.
  intros Hi Ha Hin. apply chain_frame. intros x (n0 & -> & Hn0)%list_elem_of_fmap. destruct (Hin n0 Hn0) as [fr Hf].
  apply load64_frame. intros x Hx. eapply added_frame; [done|done|exact Hf|]. cbn [meta]. lia.
Qed.

Lemma inv_live_insert s G cs L p z : inv s G cs L → object hhdm G p z → inv s G cs (<[p := z]> L).
Proof.
  intros [? ? ? ? ? ? ? Hl ?] Ho. split; try done. intros q y. rewrite lookup_insert_Some. intros [[<- <-]|[_ Hq]]; [done|by apply Hl].
Qed.

Lemma inv_add_large s G cs L n c M m : inv s G cs L → added s n (BLarge c) M m →
  inv (SlabState (set_mem m M) (slab_caches s)) (<[n := BLarge c]> G) cs L.
Proof.
  intros Hi Ha. pose proof (added_fresh _ _ _ _ _ _ _ _ Hi Ha) as Hfr. destruct (added_range _ _ _ _ _ _ _ _ Hi Ha).
  split; cbn [mach slab_caches]; try done.
  - eapply added_phys; done.
  - intros n0 b0. eapply added_placed; done.
  - intros n1 n2 b1 b2. eapply added_apart; done.
  - apply (si_nine _ _ _ _ _ _ Hi).
  - intros i pages Hp. destruct (si_cache _ _ _ _ _ _ Hi i pages Hp) as (p & Hc & Hch & Hnd & Hin). exists p. split_and!; try done.
    + by eapply added_chain.
    + intros n0 Hn0. destruct (Hin n0 Hn0) as [fr Hf]. exists fr. rewrite lookup_insert_ne; [done|]. intros <-. congruence.
  - intros n0 i fr. rewrite lookup_insert_Some. intros [[_ ?]|[_ Hn0]]; [done|]. by eapply (si_member _ _ _ _ _ _ Hi).
  - intros p z Hp. eapply added_object; [done|done|]. by apply (si_live _ _ _ _ _ _ Hi).
  - intros p Hp. by eapply added_untouched.
Qed.

Lemma inv_add_slab s G cs L n i fr M m pages : inv s G cs L → added s n (BSlab i fr) M m →
  cs !! Z.to_nat i = Some pages → slab_caches s !! Z.to_nat i = Some (load64 m (va n)) →
  inv (SlabState (set_mem m M) (<[Z.to_nat i := va n]> (slab_caches s))) (<[n := BSlab i fr]> G) (<[Z.to_nat i := n :: pages]> cs) L.
Proof.
  intros Hi Ha Hcs Hcache. pose proof (added_fresh _ _ _ _ _ _ _ _ Hi Ha) as Hfr. destruct (added_range _ _ _ _ _ _ _ _ Hi Ha) as [Hkb Htop].
  pose proof (ad_ok _ _ _ _ _ Ha) as Hok. cbn [block_ok] in Hok. pose proof (sk_class _ _ _ _ _ Hok) as Hci.
  destruct (si_nine _ _ _ _ _ _ Hi) as [Hn1 Hn2].
  assert (Hkeep : ∀ j n0, (∃ fr, G !! n0 = Some (BSlab j fr)) → ∃ fr0, <[n := BSlab i fr]> G !! n0 = Some (BSlab j fr0)).
  { intros j n0 [f Hf]. exists f. rewrite lookup_insert_ne; [done|]. intros <-. congruence. }
  split; cbn [mach slab_caches]; try done.
  - eapply added_phys; done.
  - intros n0 b0. eapply added_placed; done.
  - intros n1 n2 b1 b2. eapply added_apart; done.
  - by rewrite !length_insert.
  - intros j pages0. rewrite list_lookup_insert_Some. intros [(<- & <- & _)|[Hne Hp]].
    + destruct (si_cache _ _ _ _ _ _ Hi _ pages Hcs) as (p & Hc & Hch & Hnd & Hin). rewrite Hcache in Hc. injection Hc as <-.
      exists (va n). rewrite list_lookup_insert_eq by lia. rewrite Z2Nat.id in * by lia. split_and!; [done| | |].
      * cbn [fmap list_fmap chain mem set_mem]. split; [done|]. split; [|by eapply added_chain].
        destruct Ha as [_ _ [? _] _ _ _ _ _]. unfold page_va, KERNEL_BASE, PAGE_SIZE in *. lia.
      * apply NoDup_cons. split; [|done]. intros Hnp. destruct (Hin n Hnp). congruence.
      * intros n0 [->|Hn0]%elem_of_cons; [exists fr; by rewrite lookup_insert_eq|by apply Hkeep, Hin].
    + destruct (si_cache _ _ _ _ _ _ Hi _ pages0 Hp) as (p & Hc & Hch & Hnd & Hin). exists p. rewrite list_lookup_insert_ne by done.
      split_and!; [done|by eapply added_chain|done|]. intros n0 Hn0. by apply Hkeep, Hin.
  - intros n0 j f. rewrite lookup_insert_Some. intros [[<- [= <- <-]]|[_ Hn0]].
    + exists (n :: pages). rewrite list_lookup_insert_eq by lia. split; [done|set_solver].
    + destruct (si_member _ _ _ _ _ _ Hi n0 j f Hn0) as (pg & Hpg & Hin). destruct (decide (Z.to_nat i = Z.to_nat j)) as [E|Hne].
      * exists (n :: pages). rewrite <- E in *. rewrite list_lookup_insert_eq by lia. split; [done|]. assert (pg = pages) as -> by congruence. set_solver.
      * exists pg. by rewrite list_lookup_insert_ne.
  - intros p z Hp. eapply added_object; [done|done|]. by apply (si_live _ _ _ _ _ _ Hi).
  - intros p Hp. by eapply added_untouched.
Qed.
(** ** Large objects *)

(** What alloc promises: null and nothing changed for the client, or a fresh object. *)
Definition alloc_post s L (z p : Z) s' : Prop :=
  kept s s' L ∧
  ((p = 0 ∧ ∃ G cs, inv s' G cs L) ∨ (kernel_ptr p ∧ L !! p = None ∧ ∃ G cs, inv s' G cs (<[p := z]> L))).

(** First fit: a run is found when there is one, the lowest. *)
Lemma pmm_alloc_spec s count : phys_ok hhdm (mach s) → 0 < count →
  (pmm_allocPages hhdm count s = Ret (0, s) ∧ ∀ q, ¬ free_run hhdm (mach s) q count) ∨
  ∃ n M, pmm_allocPages hhdm count s = Ret (n * PAGE_SIZE, SlabState M (slab_caches s)) ∧ phys_ok hhdm M ∧ only_bitmap hhdm (mach s) M ∧
    0 < n ∧ n + count ≤ total_pages (mach s) ∧ page_range n count ⊆ free_set hhdm (mach s) ∧
    free_set hhdm M = free_set hhdm (mach s) ∖ page_range n count ∧ (∀ q, free_run hhdm (mach s) q count → n ≤ q).
Proof.
  intros Hok Hc. unfold pmm_allocPages. pose proof (allocPages_spec hhdm (mach s) count (po_pmm _ _ Hok) Hc) as Hsp.
  destruct (allocPages hhdm count (mach s)) as [p M] eqn:E. destruct Hsp as (_ & _ & Hsp).
  destruct (allocPages_pages hhdm _ _ _ _ Hok Hc E) as (HM & Hob & [(-> & -> & Hno)|(n & -> & Hn & He & Hsub & Hf)]).
  - left. split; [by destruct s|done].
  - right. exists n, M. split_and!; try done.
    destruct Hsp as [(_ & E0 & _)|(n' & E0 & _ & _ & Hmin & _)]; unfold PAGE_SIZE in E0; [lia|]. replace n with n' by lia. done.
Qed.

Lemma kept_refl s L : kept s s L.
Proof. by intros p z a _ _. Qed.

Lemma alloc_large_spec s G cs L z : inv s G cs L → SLAB_SIZE_MAX < z < 2 ^ 32 →
  ∃ p s', alloc_large hhdm z s = Ret (p, s') ∧ alloc_post s L z p s'.
Proof.
  intros Hi Hz. unfold SLAB_SIZE_MAX in Hz. set (c := u64 (z + PAGE_SIZE - 1) / PAGE_SIZE + 1).
  assert (Hcz : 2 ≤ c < 2 ^ 32 ∧ z + 16 ≤ c * PAGE_SIZE).
  { unfold c, PAGE_SIZE. rewrite u64_small by lia. Z.div_mod_to_equations. lia. }
  unfold alloc_large. fold c. destruct (pmm_alloc_spec s c (si_phys _ _ _ _ _ _ Hi) ltac:(lia))
    as [[E _]|(n & M & E & HM & Hob & Hn & He & Hsub & Hf & _)]; rewrite (K_bind_ret _ _ _ _ _ E).
  { exists 0, s. split; [done|]. split; [apply kept_refl|]. left. split; [done|]. by exists G, cs. }
  destruct (Z.eqb_spec (n * PAGE_SIZE) 0) as [|_]; [unfold PAGE_SIZE in *; lia|].
  rewrite (phys_to_virt_page hhdm (mach s)) by (apply Hi || lia). destruct (si_range _ _ _ _ _ _ Hi) as [Hlo Hhi].
  set (m := store64 (store64 (mem M) (l_pages (va n)) c) (l_user_size (va n)) z).
  assert (Hadd : added s n (BLarge c) M m).
  { split; cbn [pages_of block_ok]; try done; try lia.
    - unfold in_block, m, PAGE_SIZE. cbn [pages_of]. hdr. intros a Ha. rewrite !store64_out by lia. done.
    - split; [lia|]. unfold m. hdr. rewrite load64_store64_ne, load64_store64_eq, u64_small by lia. done. }
  exists (va n + 16), (SlabState (set_mem m M) (slab_caches s)). unfold LARGE_OBJ_HEADER_SIZE.
  rewrite (u64_small (va n + 16)) by (unfold page_va, KERNEL_BASE, PAGE_SIZE in *; lia). split; [by destruct M|].
  split; [by eapply added_kept|]. right. split_and!.
  - unfold kernel_ptr, page_va, KERNEL_BASE, PAGE_SIZE, MAX_ERRNO in *. lia.
  - eapply added_not_live; [done|done|]. unfold in_block, PAGE_SIZE. cbn [pages_of]. lia.
  - exists (<[n := BLarge c]> G), cs. apply inv_live_insert; [by apply inv_add_large|].
    right. split; [unfold SLAB_SIZE_MAX; lia|]. exists n, c. rewrite lookup_insert_eq. split; [done|]. split; [done|apply Hcz].
Qed.
(** ** New slabs *)

Definition slots (j : nat) : list Z := reverse (seqZ 0 (Z.of_nat j)).
Lemma slots_S j : slots (S j) = Z.of_nat j :: slots j.
Proof. unfold slots. rewrite seqZ_S, reverse_app. done. Qed.
Lemma elem_of_slots k j : k ∈ slots j ↔ 0 ≤ k < Z.of_nat j.
Proof. unfold slots. rewrite elem_of_reverse, elem_of_seqZ. lia. Qed.
Lemma slots_length j : length (slots j) = j.
Proof. unfold slots. rewrite length_reverse, length_seqZ. lia. Qed.
Lemma slots_NoDup j : NoDup (slots j).
Proof. unfold slots. rewrite reverse_Permutation. apply NoDup_seqZ. Qed.

(** After [j] rounds the list holds the first [j] slots, the last one first. *)
Lemma thread_slots_spec n i k j s : 16 ≤ osz i → 0 < va n → slot n i (Z.of_nat (j + k)) ≤ 2 ^ 64 →
  chain (mem (mach s)) (load64 (mem (mach s)) (h_free_list (va n))) (slot n i <$> slots j) →
  ∃ m, thread_slots k (Z.of_nat j) (va n + 40) (osz i) (va n) s = Ret (tt, with_mem m s) ∧
    chain m (load64 m (h_free_list (va n))) (slot n i <$> slots (j + k)) ∧
    (∀ a, ¬ (va n + 8 ≤ a < va n + 16) → ¬ (va n + 40 ≤ a < slot n i (Z.of_nat (j + k))) → m a = mem (mach s) a).
Proof.
  intros Hsz Hn. revert j s. induction k as [|k IH]; intros j s Htop Hch.
  { exists (mem (mach s)). rewrite Nat.add_0_r. split; [by destruct s as [[] ?]|done]. }
  cbn [thread_slots]. erewrite K_bind_ret by reflexivity.
  set (m1 := store64 (store64 (mem (mach s)) (slot n i (Z.of_nat j)) (load64 (mem (mach s)) (h_free_list (va n)))) (h_free_list (va n)) (slot n i (Z.of_nat j))).
  change (va n + 40 + Z.of_nat j * osz i) with (slot n i (Z.of_nat j)).
  erewrite K_bind_ret by reflexivity. erewrite K_bind_ret by reflexivity.
  assert (Hj : slot n i (Z.of_nat j) + osz i ≤ slot n i (Z.of_nat (j + S k))) by (unfold SlabInv.slot; nia).
  assert (Hj0 : va n + 40 ≤ slot n i (Z.of_nat j)) by (unfold SlabInv.slot; nia).
  replace (Z.of_nat j + 1) with (Z.of_nat (S j)) by lia.
  destruct (IH (S j) (with_mem m1 s)) as (m & Hrun & Hc & Hout).
  - replace (S j + k)%nat with (j + S k)%nat by lia. done.
  - rewrite slots_S. cbn [fmap list_fmap chain with_mem mach set_mem mem]. unfold m1 at 1 3. hdr.
    rewrite load64_store64_eq, u64_small by lia. split; [done|]. split; [lia|].
    rewrite load64_store64_ne, load64_store64_eq, u64_small by (apply load64_range || lia). eapply chain_frame; [|exact Hch].
    intros x (y & -> & Hy%elem_of_slots)%list_elem_of_fmap. unfold m1. hdr. unfold SlabInv.slot in *. rewrite !load64_store64_ne by nia. done.
  - replace (j + S k)%nat with (S j + k)%nat in * by lia. exists m. split; [|split; [done|]].
    + destruct s as [[] ?]. exact Hrun.
    + intros a H1 H2. rewrite Hout by done. cbn [with_mem mach set_mem mem]. unfold m1. hdr. rewrite !store64_out by lia. done.
Qed.
(** The new slab before its slots are threaded: [c] was the head of the list. *)
Definition blank m n i c : ram :=
  let m0 := (memset (va n) 0 (npg i * PAGE_SIZE) m).2 in
  let m1 := store64 m0 (h_obj_size (va n)) (osz i) in
  let m2 := store64 m1 (h_total_objs (va n)) (tot i) in
  let m3 := store64 m2 (h_free_count (va n)) (tot i) in
  let m4 := store64 m3 (h_next (va n)) c in
  store64 m4 (h_free_list (va n)) 0.

Lemma blank_words m n i c : 0 ≤ i < 9 → 0 ≤ c < 2 ^ 64 →
  let b := blank m n i c in
  load64 b (h_obj_size (va n)) = osz i ∧ load64 b (h_total_objs (va n)) = tot i ∧ load64 b (h_free_count (va n)) = tot i ∧
  load64 b (h_free_list (va n)) = 0 ∧ load64 b (va n) = c.
Proof.
  intros Hi Hc b. pose proof (geometry i Hi) as (Hsz & _ & Ht & _). unfold b, blank. cbv zeta. hdr.
  split_and!; repeat (rewrite load64_store64_eq || rewrite load64_store64_ne by lia); rewrite u64_small by lia; done.
Qed.
Lemma blank_out m n i c a : 0 ≤ i < 9 → ¬ (va n ≤ a < va n + npg i * PAGE_SIZE) → blank m n i c a = m a.
Proof.
  intros Hi Ha. pose proof (geometry i Hi) as (_ & Hp & _ & _). unfold PAGE_SIZE in *. unfold blank. hdr.
  rewrite !store64_out by lia. rewrite memset_spec by (unfold PAGE_SIZE; lia). unfold PAGE_SIZE. repeat zcase; cbn; done || lia.
Qed.

Lemma create_slab_run n i M caches c : 0 ≤ i < 9 → caches !! Z.to_nat i = Some c →
  let s := SlabState M caches in
  (zero_fill (va n) (npg i * PAGE_SIZE) ≫= λ _,
   poke (h_obj_size (va n)) (osz i) ≫= λ _,
   poke (h_total_objs (va n)) ((npg i * PAGE_SIZE - sizeof_SlabHeader) / osz i) ≫= λ _,
   total ← peek (h_total_objs (va n));
   poke (h_free_count (va n)) total ≫= λ _,
   c ← get_cache i;
   poke (h_next (va n)) c ≫= λ _,
   poke (h_free_list (va n)) 0 ≫= λ _,
   total ← peek (h_total_objs (va n));
   thread_slots (Z.to_nat total) 0 (va n + sizeof_SlabHeader) (osz i) (va n) ≫= λ _,
   set_cache i (va n) ≫= λ _,
   mret (va n)) s =
  (thread_slots (Z.to_nat (tot i)) 0 (va n + 40) (osz i) (va n) ≫= λ _,
   set_cache i (va n) ≫= λ _,
   mret (va n)) (with_mem (blank (mem M) n i c) s).
Proof.
  intros Hi Hc s. subst s. pose proof (geometry i Hi) as (_ & _ & Ht & _). change ((npg i * PAGE_SIZE - sizeof_SlabHeader) / osz i) with (tot i).
  assert (E : ∀ m, load64 (store64 m (h_total_objs (va n)) (tot i)) (h_total_objs (va n)) = tot i).
  { intros m. rewrite load64_store64_eq, u64_small by lia. done. }
  do 4 (erewrite K_bind_ret by reflexivity). cbn [mach slab_caches mem set_mem]. rewrite E. erewrite K_bind_ret by reflexivity.
  erewrite K_bind_ret by (unfold get_cache; cbn [slab_caches]; rewrite Hc; reflexivity).
  do 2 (erewrite K_bind_ret by reflexivity). erewrite K_bind_ret by reflexivity. cbn [mach slab_caches mem set_mem].
  set (m3 := store64 (store64 _ (h_total_objs (va n)) (tot i)) (h_free_count (va n)) (tot i)).
  assert (E' : load64 (store64 (store64 m3 (h_next (va n)) c) (h_free_list (va n)) 0) (h_total_objs (va n)) = tot i).
  { unfold m3. hdr. rewrite !load64_store64_ne by lia. apply E. }
  rewrite E'. by destruct M.
Qed.
Lemma cache_head s G cs L i : inv s G cs L → 0 ≤ i < 9 →
  ∃ pages p, cs !! Z.to_nat i = Some pages ∧ slab_caches s !! Z.to_nat i = Some p ∧ chain (mem (mach s)) p (va <$> pages) ∧
    (∀ n, n ∈ pages → ∃ fr, G !! n = Some (BSlab i fr)) ∧ 0 ≤ p < 2 ^ 64 ∧ (length pages < list_fuel s)%nat.
Proof.
  intros Hi Hr. destruct (si_nine _ _ _ _ _ _ Hi) as [_ Hn2].
  destruct (lookup_lt_is_Some_2 cs (Z.to_nat i)) as [pages Hp]; [lia|].
  destruct (si_cache _ _ _ _ _ _ Hi _ pages Hp) as (p & Hc & Hch & Hnd & Hin). rewrite Z2Nat.id in Hin by lia.
  exists pages, p. split_and!; try done.
  - destruct pages as [|n pages]; cbn [fmap list_fmap chain] in Hch; [lia|]. destruct Hch as (-> & _ & _).
    destruct (Hin n ltac:(set_solver)) as [fr Hf]. pose proof (va_facts _ _ _ _ _ _ _ _ Hi Hf). unfold KERNEL_BASE in *. lia.
  - destruct pages as [|n pages]; cbn [fmap list_fmap chain] in Hch; [lia|]. destruct Hch as (-> & _ & _).
    destruct (Hin n ltac:(set_solver)) as [fr Hf]. pose proof (va_facts _ _ _ _ _ _ _ _ Hi Hf).
    destruct (si_block _ _ _ _ _ _ Hi n _ Hf) as [[_ ?] _ _ _ _]. unfold PAGE_SIZE in *. lia.
  - assert (Hfa : Forall (λ n, 0 ≤ n < total_pages (mach s)) pages).
    { apply Forall_forall. intros n Hn. destruct (Hin n Hn) as [fr Hf]. destruct (si_block _ _ _ _ _ _ Hi n _ Hf) as [[? ?] ? _ _ _]. lia. }
    pose proof (inv_total _ _ (po_pmm _ _ (si_phys _ _ _ _ _ _ Hi))).
    pose proof (NoDup_range_length pages (total_pages (mach s)) ltac:(lia) Hnd Hfa). unfold list_fuel. lia.
Qed.

Lemma create_slab_spec s G cs L i : inv s G cs L → 0 ≤ i < 9 →
  (create_slab hhdm i s = Ret (0, s) ∧ ∀ q, ¬ free_run hhdm (mach s) q (npg i)) ∨
  ∃ n s' cs', create_slab hhdm i s = Ret (va n, s') ∧
    inv s' (<[n := BSlab i (slots (Z.to_nat (tot i)))]> G) cs' L ∧ kept s s' L ∧
    free_set hhdm (mach s') = free_set hhdm (mach s) ∖ page_range n (npg i) ∧ (∀ q, free_run hhdm (mach s) q (npg i) → n ≤ q).
Proof.
  intros Hi Hr. pose proof (geometry i Hr) as (Hsz & Hpg & Ht & Hg). set (fr := slots (Z.to_nat (tot i))).
  destruct (cache_head _ _ _ _ _ Hi Hr) as (pages & c & Hcs & Hc & _ & _ & Hcr & _).
  destruct (si_range _ _ _ _ _ _ Hi) as [Hlo Hhi].
  unfold create_slab. cbv zeta. change (index_to_size i) with (osz i). change (slab_pages_of (osz i)) with (npg i).
  destruct (pmm_alloc_spec s (npg i) (si_phys _ _ _ _ _ _ Hi) ltac:(lia)) as [[E Hno]|(n & M & E & HM & Hob & Hn & He & Hsub & Hf & Hmin)];
    rewrite (K_bind_ret _ _ _ _ _ E); [by left|]. right.
  destruct (Z.eqb_spec (n * PAGE_SIZE) 0) as [|_]; [unfold PAGE_SIZE in *; lia|].
  rewrite (phys_to_virt_page hhdm (mach s)) by (apply Hi || lia). rewrite (create_slab_run n i M (slab_caches s) c Hr Hc).
  destruct (blank_words (mem M) n i c Hr Hcr) as (B1 & B2 & B3 & B4 & B5). set (b := blank (mem M) n i c) in *.
  destruct (thread_slots_spec n i (Z.to_nat (tot i)) 0 (with_mem b (SlabState M (slab_caches s)))) as (m & Hrun & Hch & Hout).
  { lia. } { unfold page_va, KERNEL_BASE, PAGE_SIZE in *. lia. }
  { unfold SlabInv.slot, page_va, PAGE_SIZE in *. rewrite Nat.add_0_l, Z2Nat.id by lia. nia. }
  { exact B4. }
  rewrite Nat.add_0_l in Hch, Hout. rewrite Z2Nat.id in Hout by lia. fold fr in Hch. cbn [with_mem mach set_mem mem] in Hout.
  assert (Hadd : added s n (BSlab i fr) M m).
  { split; cbn [pages_of]; [exact HM|exact Hob|lia|lia|exact Hsub|exact Hf| |].
    - intros a Ha. unfold in_block, PAGE_SIZE in Ha. cbn [pages_of] in Ha. unfold SlabInv.slot in Hout.
      rewrite Hout by nia. apply blank_out; [exact Hr|unfold PAGE_SIZE; lia].
    - assert (Hw : ∀ k, 0 ≤ k ≤ 32 → k ≠ 8 → k mod 8 = 0 → load64 m (va n + k) = load64 b (va n + k)).
      { intros k Hk H8 Hm. apply load64_frame. intros x Hx. Z.div_mod_to_equations. apply Hout; lia. }
      split; hdr; [exact Hr|rewrite Hw by (lia || reflexivity); exact B1|rewrite Hw by (lia || reflexivity); exact B2| |exact Hch|apply slots_NoDup|].
      + rewrite Hw by (lia || reflexivity). rewrite B3. unfold fr. rewrite slots_length. lia.
      + apply Forall_forall. intros k Hk%elem_of_slots. lia. }
  exists n, (SlabState (set_mem m M) (<[Z.to_nat i := va n]> (slab_caches s))), (<[Z.to_nat i := n :: pages]> cs).
  split; [|split; [|split; [by eapply added_kept|split; [by eapply (added_free _ _ _ _ n (BSlab i fr))|done]]]].
  - change 0 with (Z.of_nat 0). rewrite (K_bind_ret _ _ _ _ _ Hrun). done.
  - apply inv_add_slab; [done|done|done|]. rewrite Hc, <- B5. f_equal. symmetry. apply load64_frame. intros x Hx. apply Hout; lia.
Qed.
(** ** alloc *)

Lemma alloc_spec s G cs L z : inv s G cs L → 0 < z < 2 ^ 32 →
  ∃ p s', alloc hhdm z s = Ret (p, s') ∧ alloc_post s L z p s'.
Proof.
  intros Hi Hz. unfold alloc. destruct (Z.eqb_spec z 0) as [|_]; [lia|].
  destruct (Z.ltb_spec SLAB_SIZE_MAX z) as [Hl|Hs]; [apply (alloc_large_spec s G cs); [done|lia]|].
  destruct (class_of z ltac:(lia)) as [Hc _]. destruct (cache_head _ _ _ _ _ Hi Hc) as (pages & q & _ & Hq & Hch & Hin & _ & Hlen).
  cbv zeta. erewrite K_bind_ret by (unfold get_cache; rewrite Hq; reflexivity).
  destruct (alloc_scan_spec _ _ _ _ _ pages (list_fuel s) q Hi Hch Hin Hlen) as [(n & k & fr & Hn & E)|E];
    (erewrite K_bind_ret by (exact E)).
  - destruct (pop_inv _ _ _ _ n k fr z Hi ltac:(lia) Hn) as (Hi' & Hk & Hp & Hnone). eexists _, _.
    destruct (Z.eqb_spec (slot n (size_to_index z) k) 0) as [E0|_]; [apply kernel_ptr_nonnull in Hp; done|].
    cbn [negb]. split; [reflexivity|]. split; [exact Hk|]. right. split; [exact Hp|]. split; [exact Hnone|]. by eexists _, _.
  - change (negb (0 =? 0)) with false. cbv iota.
    destruct (create_slab_spec _ _ _ _ _ Hi Hc) as [[Ec _]|(n & s1 & cs1 & Ec & Hi1 & Hk1 & _)]; rewrite (K_bind_ret _ _ _ _ _ Ec).
    { eexists _, _. split; [reflexivity|]. split; [apply kept_refl|]. left. split; [done|]. by eexists _, _. }
    set (G1 := <[n := _]> G) in Hi1.
    assert (Hn : ∃ k fr, G1 !! n = Some (BSlab (size_to_index z) (k :: fr))).
    { unfold G1. rewrite lookup_insert_eq. pose proof (geometry _ Hc) as (_ & _ & Ht & _).
      destruct (Z.to_nat (tot (size_to_index z))) as [|j] eqn:Ej; [lia|]. rewrite slots_S. by eexists _, _. }
    destruct Hn as (k & fr & Hn). destruct (va_facts _ _ _ _ _ _ _ _ Hi1 Hn) as [Hlo _].
    destruct (Z.eqb_spec (va n) 0) as [|_]; [unfold KERNEL_BASE in *; lia|]. erewrite K_bind_ret by reflexivity.
    pose proof (pl_ok _ _ _ _ (si_block _ _ _ _ _ _ Hi1 n _ Hn)) as [_ _ _ _ Hl _ _].
    cbn [fmap list_fmap chain] in Hl. destruct Hl as (Hl & _ & _). rewrite Hl. erewrite K_bind_ret by apply pop_free_eq.
    destruct (pop_inv _ _ _ _ n k fr z Hi1 ltac:(lia) Hn) as (Hi' & Hk & Hp & Hnone). eexists _, _.
    split; [reflexivity|]. split.
    { intros p y a Hy Ha. rewrite (Hk p y a Hy Ha). by apply (Hk1 p y a). }
    right. split; [exact Hp|]. split; [exact Hnone|]. by eexists _, _.
Qed.

(** ** free *)

Lemma inv_live_delete s G cs L p : inv s G cs L → inv s G cs (delete p L).
Proof. intros [? ? ? ? ? ? ? Hl ?]. split; try done. intros q y. rewrite lookup_delete_Some. intros [_ Hq]. by apply Hl. Qed.

Lemma inv_drop_large s G cs L n c : inv s G cs L → G !! n = Some (BLarge c) →
  let s' := SlabState (freePages hhdm (n * PAGE_SIZE) c (mach s)) (slab_caches s) in
  let L' := delete (va n + LARGE_OBJ_HEADER_SIZE) L in
  inv s' (delete n G) cs L' ∧ kept s s' L' ∧ free_set hhdm (mach s) ⊆ free_set hhdm (mach s').
Proof.
  intros Hi Hn s' L'. destruct (si_block _ _ _ _ _ _ Hi n _ Hn) as [[Hp Hc] He Hu Hcl _]. cbn [pages_of] in *.
  destruct (freePages_pages hhdm (mach s) n c (si_phys _ _ _ _ _ _ Hi) Hp ltac:(lia) He Hcl) as (Hph & Hob & Hf).
  assert (Hold : ∀ n0 b0 a, G !! n0 = Some b0 → in_block hhdm n0 b0 a → mem (mach s') a = mem (mach s) a).
  { intros n0 b0 a Hn0 Hin. apply (ob_mem _ _ _ Hob). by apply (block_bitmap hhdm s n0 b0 a (si_block _ _ _ _ _ _ Hi n0 b0 Hn0)). }
  assert (Hmeta : ∀ n0 b0 a, G !! n0 = Some b0 → meta hhdm n0 b0 a → mem (mach s') a = mem (mach s) a).
  { intros n0 b0 a Hn0 Hm. pose proof (si_block _ _ _ _ _ _ Hi n0 b0 Hn0) as Hpl. eapply Hold; [exact Hn0|].
    exact (meta_in_block _ _ n0 b0 a (pl_ok _ _ _ _ Hpl) (proj2 (pl_pos _ _ _ _ Hpl)) Hm). }
  destruct Hi as [Hph0 Hrg Hbl Hap Hni Hca Hme Hli Hfg]. split; [split; cbn [mach s' slab_caches]; try done|split; [|unfold s'; cbn [mach]; rewrite Hf; set_solver]].
  - by rewrite (ob_total _ _ _ Hob).
  - intros n0 b0 [Hne Hn0]%lookup_delete_Some. destruct (Hbl n0 b0 Hn0) as [Hp0 He0 Hu0 Hcl0 Hok0].
    split; cbn [mach s']; [done|by rewrite (ob_total _ _ _ Hob)| | |].
    + rewrite Hf. pose proof (Hap n0 n _ _ Hn0 Hn ltac:(congruence)) as Hd. cbn [pages_of] in Hd.
      apply disjoint_union_r. split; [done|]. intros q. rewrite !elem_of_page_range. lia.
    + intros q Hq. eapply clear_page_stable; [exact Hob|by apply Hcl0].
    + eapply block_ok_frame; [|exact Hok0]. intros a Ha. by apply (Hmeta n0 b0).
  - intros n1 n2 b1 b2 [_ H1]%lookup_delete_Some [_ H2]%lookup_delete_Some. by apply Hap.
  - intros i pages Hpg. destruct (Hca i pages Hpg) as (p & Hc0 & Hch & Hnd & Hin). exists p. split_and!; try done.
    + eapply chain_frame; [|exact Hch]. intros x (n0 & -> & Hn0)%list_elem_of_fmap. destruct (Hin n0 Hn0) as [fr Hfr].
      apply load64_frame. intros x Hx. eapply Hmeta; [exact Hfr|]. cbn [meta]. lia.
    + intros n0 Hn0. destruct (Hin n0 Hn0) as [fr Hfr]. exists fr. rewrite lookup_delete_ne; [done|]. intros <-. congruence.
  - intros n0 i fr [_ Hn0]%lookup_delete_Some. by apply (Hme n0 i fr).
  - intros p z [Hne Hp0]%lookup_delete_Some.
    destruct (Hli p z Hp0) as [(Hz & n' & k & f & HG & H)|(Hz & n' & c' & HG & -> & H)]; [left|right]; (split; [done|]).
    + exists n', k, f. rewrite lookup_delete_ne; [done|]. intros <-. congruence.
    + exists n', c'. rewrite lookup_delete_ne; [done|]. by intros <-.
  - intros p Hpf. destruct (Hfg p Hpf) as [Hr Hu0 Hcp Hb Hm]. split; cbn [mach s'].
    + by rewrite (ob_total _ _ _ Hob).
    + rewrite Hf, not_elem_of_union. split; [done|]. by apply (Hb n (BLarge c)).
    + by apply (clear_page_stable hhdm _ _ p Hob).
    + intros n0 b0 [_ Hn0]%lookup_delete_Some. by apply (Hb n0).
    + intros a Ha. rewrite (ob_mem _ _ _ Hob) by (by apply Hcp). by apply Hm.
  - intros p z a [Hne Hp0]%lookup_delete_Some Ha.
    destruct (object_bytes hhdm fg s G cs L p z a ltac:(by split) (Hli p z Hp0) Ha) as (n' & b' & Hn' & Hb' & _). by apply (Hold n' b').
Qed.

Lemma free_large_spec s G cs L p z : inv s G cs L → L !! p = Some z → SLAB_SIZE_MAX < z →
  ∃ s', free_large hhdm p s = Ret (tt, s') ∧ kept s s' (delete p L) ∧
    free_set hhdm (mach s) ⊆ free_set hhdm (mach s') ∧ ∃ G' cs', inv s' G' cs' (delete p L).
Proof.
  intros Hi Hp Hz. destruct (si_live _ _ _ _ _ _ Hi p z Hp) as [[? _]|(_ & n & c & Hn & -> & Hc)]; [lia|].
  destruct (va_facts _ _ _ _ _ _ _ _ Hi Hn) as [Hlo Hhi]. destruct (si_block _ _ _ _ _ _ Hi n _ Hn) as [Hpos He _ _ [Hc2 Hl]].
  unfold free_large. cbv zeta.
  replace (u64 (va n + LARGE_OBJ_HEADER_SIZE - LARGE_OBJ_HEADER_SIZE)) with (va n)
    by (rewrite Z.add_simpl_r, u64_small by (unfold KERNEL_BASE, PAGE_SIZE in *; cbn [pages_of] in *; lia); done).
  erewrite K_bind_ret by reflexivity. rewrite Hl. destruct (Z.eqb_spec c 0) as [|_]; [lia|]. cbn [orb].
  destruct (Z.ltb_spec 1024 c) as [Hbig|Hsm].
  - exists s. split; [done|]. split; [apply kept_refl|]. split; [done|]. exists G, cs. by apply inv_live_delete.
  - destruct (inv_drop_large _ _ _ _ _ _ Hi Hn) as (Hi' & Hk & Hfr). eexists. split; [|split; [exact Hk|split; [exact Hfr|by eexists _, _]]].
    rewrite (virt_to_phys_page hhdm (mach s)); [done|apply Hi|cbn [pages_of] in *; lia].
Qed.

Lemma free_spec s G cs L p z : inv s G cs L → L !! p = Some z →
  ∃ s', free hhdm p z s = Ret (tt, s') ∧ kept s s' (delete p L) ∧
    free_set hhdm (mach s) ⊆ free_set hhdm (mach s') ∧ ∃ G' cs', inv s' G' cs' (delete p L).
Proof.
  intros Hi Hp. pose proof (si_live _ _ _ _ _ _ Hi p z Hp) as Ho. unfold free.
  assert (Hp0 : p ≠ 0).
  { destruct Ho as [(Hz & n & k & fr & Hn & Hk & Hkf & ->)|(_ & n & c & Hn & -> & Hc)].
    - apply kernel_ptr_nonnull. by eapply slot_facts.
    - destruct (va_facts _ _ _ _ _ _ _ _ Hi Hn). unfold KERNEL_BASE, LARGE_OBJ_HEADER_SIZE in *. lia. }
  destruct (Z.eqb_spec p 0) as [|_]; [done|].
  destruct Ho as [(Hz & n & k & fr & Hn & Hk & Hkf & ->)|(Hz & _)].
  - destruct (Z.leb_spec z SLAB_SIZE_MAX) as [_|]; [|lia]. destruct (Z.ltb_spec 0 z) as [_|]; [|lia]. cbn [andb].
    destruct (class_of z ltac:(lia)) as [Hc _]. destruct (cache_head _ _ _ _ _ Hi Hc) as (pages & q & Hpg & Hq & Hch & Hin & _ & Hlen).
    erewrite K_bind_ret by (unfold get_cache; rewrite Hq; reflexivity). unfold over_lists.
    destruct (si_member _ _ _ _ _ _ Hi n _ fr Hn) as (pg & Hpg' & Hnp). rewrite Hpg in Hpg'. injection Hpg' as <-.
    rewrite (free_scan_spec _ _ _ _ _ pages _ q n k fr Hi Hch Hin Hlen Hnp Hn Hk Hkf).
    destruct (push_inv _ _ _ _ n k fr z Hi Hz Hn Hk Hkf) as [Hi' Hk']. eexists. split; [reflexivity|]. split; [exact Hk'|].
    split; [by erewrite push_free_set|]. by eexists _, _.
  - replace ((z <=? SLAB_SIZE_MAX) && (0 <? z)) with false by (destruct (Z.leb_spec z SLAB_SIZE_MAX); [lia|done]).
    by eapply free_large_spec.
Qed.
End Ops.
