(* ===== verification/SlabHeap.v ===== *)
(** * The slab allocator as a heap

    slab_init establishes the allocator's invariant, alloc and free keep it:
    the slab allocator is an instance of [AllocatorSpec], the contract the
    file systems are verified against. Seen by a client, the allocator and
    the memory of its objects refine a heap of byte strings: a client that
    frees and accesses only objects it holds never makes the allocator panic,
    and what it wrote is what it reads, whatever else is allocated and freed
    in between. *)

From S2P Require Import Prelude Mem KString Errno Alloc Pmm Pages Slab SlabInv SlabSpec.

(** ** Initialisation *)

(** The state at boot: no cache has a slab. *)
Definition slab_boot (M : machine) : slab_state := SlabState M (replicate 9 0).

Section Heap.
Context (hhdm : Z) (fg : foreign).
Implicit Types (s : slab_state) (L : gmap Z Z).

Definition slab_live s L : Prop := ∃ G cs, slab_inv hhdm fg s G cs L.
(** The direct map lies in the kernel's half of the address space. *)
Definition map_ok (M : machine) : Prop :=
  phys_ok hhdm M ∧ KERNEL_BASE ≤ hhdm ∧ hhdm + total_pages M * PAGE_SIZE ≤ 2 ^ 64 - PAGE_SIZE.

(** The pages of the others are in use. *)
Definition others_ok (M : machine) : Prop := ∀ p, p ∈ fg_pages fg → untouched hhdm fg (slab_boot M) ∅ p.

Lemma boot_inv M : map_ok M → others_ok M → slab_inv hhdm fg (slab_boot M) ∅ (replicate 9 []) ∅.
Proof.
  intros (Hp & Hk & Ht) Ho. split; cbn [slab_boot mach slab_caches]; try done.
  - intros i pages [-> Hi]%lookup_replicate. exists 0. split; [by apply lookup_replicate|].
    split; [done|]. split; [constructor|]. set_solver.
Qed.

(** The pages the slabs of the caches [i], [i + 1], ... take. *)
Fixpoint pages_from (k : nat) (i : Z) : Z := match k with O => 0 | S k' => npg i + pages_from k' (i + 1) end.
Lemma pages_from_nonneg k i : 0 ≤ i → i + Z.of_nat k ≤ 9 → 0 ≤ pages_from k i.
Proof.
  revert i. induction k as [|k IH]; intros i H0 Hk; cbn [pages_from]; [lia|].
  pose proof (geometry i ltac:(lia)) as (_ & ? & _). specialize (IH (i + 1)). lia.
Qed.

(** Pages are taken first fit, so what is left of a long enough run serves
    the slabs that are still to come. *)
Lemma init_loop_spec k i s L q : slab_live s L → 0 ≤ i → i + Z.of_nat k ≤ 9 → free_run hhdm (mach s) q (pages_from k i) →
  ∃ s', init_loop hhdm k i s = Ret (tt, s') ∧ slab_live s' L ∧ free_pages (mach s) - pages_from k i ≤ free_pages (mach s').
Proof.
  revert i s q. induction k as [|k IH]; intros i s q Hl H0 Hk Hq; cbn [init_loop].
  { exists s. split; [done|]. split; [done|]. cbn [pages_from]. lia. }
  cbn [pages_from] in Hq |- *. pose proof (pages_from_nonneg k (i + 1) ltac:(lia) ltac:(lia)) as Hpn.
  assert (Hqi : free_run hhdm (mach s) q (npg i)) by (intros p Hp; apply Hq; rewrite elem_of_page_range in *; lia).
  destruct Hl as (G & cs & Hi). destruct (create_slab_spec hhdm fg _ _ _ _ i Hi ltac:(lia)) as [[_ Hno]|(n & s1 & cs1 & E & Hi1 & _ & Hf & Hmin)].
  { destruct (Hno q Hqi). }
  rewrite (K_bind_ret _ _ _ _ _ E). destruct (va_facts hhdm fg _ _ _ _ n _ Hi1 (lookup_insert_eq _ _ _)) as [Hlo _].
  destruct (Z.eqb_spec (page_va hhdm n) 0) as [|_]; [unfold KERNEL_BASE in *; lia|].
  assert (Hfree : free_pages (mach s) - npg i ≤ free_pages (mach s1)).
  { rewrite (inv_count _ _ (po_pmm _ _ (si_phys _ _ _ _ _ _ Hi))), (inv_count _ _ (po_pmm _ _ (si_phys _ _ _ _ _ _ Hi1))), Hf.
    pose proof (geometry i ltac:(lia)) as (_ & Hpg & _). pose proof (page_range_size n (npg i) ltac:(lia)) as Hsz.
    pose proof (size_difference_alt (free_set hhdm (mach s)) (page_range n (npg i))).
    pose proof (subseteq_size (free_set hhdm (mach s) ∩ page_range n (npg i)) (page_range n (npg i)) ltac:(set_solver)). lia. }
  destruct (IH (i + 1) s1 (q + npg i)) as (s2 & E2 & Hl2 & Hf2); [by eexists _, _|lia|lia| |exists s2; split; [done|split; [done|lia]]].
  specialize (Hmin q Hqi). intros p. rewrite Hf, elem_of_difference, !elem_of_page_range. intros Hp. split; [|lia].
  apply Hq, elem_of_page_range. pose proof (geometry i ltac:(lia)). lia.
Qed.

(** slab_init needs sixteen free pages in a row, and leaves an allocator with
    no live object. *)
Lemma slab_init_spec M q : map_ok M → others_ok M → free_run hhdm M q 16 →
  ∃ s, slab_init hhdm (slab_boot M) = Ret (tt, s) ∧ slab_live s ∅ ∧ free_pages M - 16 ≤ free_pages (mach s).
Proof.
  intros HM Ho Hq. pose proof (boot_inv M HM Ho) as Hi.
  assert (E : pages_from (Z.to_nat NUM_SLAB_CACHES) 0 = 16) by (vm_compute; reflexivity). rewrite <- E in Hq |- *.
  apply (init_loop_spec (Z.to_nat NUM_SLAB_CACHES) 0 (slab_boot M) ∅ q); [by eexists _, _|done|done|done].
Qed.

(** ** The contract *)

Definition slab_allocator : Allocator slab_state := {|
  slab_alloc n s := alloc hhdm n s;
  slab_free p n s := '(_, s') ← free hhdm p n s; Ret s'
|}.

#[program] Definition slab_spec : @AllocatorSpec slab_state slab_allocator := {| live := slab_live |}.
Next Obligation.
  intros s L n (G & cs & Hi) Hn. destruct (alloc_spec hhdm fg _ _ _ _ n Hi Hn) as (p & s' & E & _ & H).
  exists p, s'. split; [exact E|]. exact H.
Qed.
Next Obligation.
  intros s L p n (G & cs & Hi) Hp. destruct (free_spec hhdm fg _ _ _ _ p n Hi Hp) as (s' & E & _ & _ & H).
  exists s'. split; [|exact H]. cbn. by rewrite E.
Qed.

(** The contract for one client among others: besides its objects those of
    [F] are live, and they hold what they held in the state [h]. *)
Definition slab_live_with (h : slab_state) (F : gmap Z Z) s L : Prop := L ##ₘ F ∧ slab_live s (L ∪ F) ∧ kept h s F.
#[program] Definition slab_frame_spec (h : slab_state) (F : gmap Z Z) : @AllocatorSpec slab_state slab_allocator :=
  {| live := slab_live_with h F |}.
Next Obligation.
  intros h F s L n (Hd & (G & cs & Hi) & Hk) Hn. destruct (alloc_spec hhdm fg _ _ _ _ n Hi Hn) as (p & s' & E & Hk' & Hc).
  assert (HkF : kept h s' F).
  { intros q z a Hq Ha. rewrite (Hk' q z a) by (done || by apply lookup_union_Some_r). by apply (Hk q z a). }
  exists p, s'. split; [exact E|]. destruct Hc as [[-> Hl]|(Hp & Hnone & Hl)]; [left; done|right].
  apply lookup_union_None in Hnone as [HL HF]. split; [done|]. split; [done|].
  split; [by apply map_disjoint_insert_l_2|]. by rewrite <- insert_union_l.
Qed.
Next Obligation.
  intros h F s L p n (Hd & (G & cs & Hi) & Hk) Hp.
  assert (HF : F !! p = None) by (by eapply map_disjoint_Some_l).
  assert (E : delete p (L ∪ F) = delete p L ∪ F) by (rewrite delete_union, (delete_id F) by done; done).
  destruct (free_spec hhdm fg _ _ _ _ p n Hi) as (s' & Er & Hk' & _ & Hl); [by apply lookup_union_Some_l|]. rewrite E in Hk', Hl.
  assert (Hd' : delete p L ##ₘ F) by (by apply map_disjoint_delete_l).
  exists s'. split; [cbn; by rewrite Er|]. split; [done|]. split; [done|].
  intros q z a Hq Ha. rewrite (Hk' q z a) by (done || by apply lookup_union_Some_r). by apply (Hk q z a).
Qed.

(** What kernel code that keeps data in its objects uses. *)
Lemma live_client s L m : slab_live s L →
  (∀ a, m a ≠ mem (mach s) a → ∃ p z, L !! p = Some z ∧ p ≤ a < p + z) → slab_live (with_mem m s) L.
Proof. intros (G & cs & Hi) Hm. exists G, cs. by apply (inv_client hhdm fg s G cs L m). Qed.
Lemma live_disjoint s L p z p' z' : slab_live s L → L !! p = Some z → L !! p' = Some z' → p ≠ p' → p + z ≤ p' ∨ p' + z' ≤ p.
Proof. intros (G & cs & Hi). by apply (live_apart hhdm fg s G cs L). Qed.
Lemma live_bound s L p z : slab_live s L → L !! p = Some z → p + z < 2 ^ 64.
Proof. intros (G & cs & Hi) Hp. pose proof (live_top hhdm fg s G cs L p z Hi Hp). unfold PAGE_SIZE in *. lia. Qed.

Lemma live_foreign s L : slab_live s L → ∀ p, p ∈ fg_pages fg → ∀ a, in_page hhdm p a → mem (mach s) a = fg_mem fg a.
Proof. intros (G & cs & Hi) p Hp. apply (ut_mem _ _ _ _ _ (si_foreign _ _ _ _ _ _ Hi p Hp)). Qed.

(** ** Clients *)

Abbreviation heap := (gmap Z (list Z)).

(** What a client does: get and give back objects, write and read bytes. *)
Inductive op := OAlloc (z : Z) | OFree (p z : Z) | OWrite (p i v : Z) | ORead (p i : Z).

Definition run_op (o : op) : K slab_state Z :=
  match o with
  | OAlloc z => alloc hhdm z
  | OFree p z => free hhdm p z ≫= λ _, mret 0
  | OWrite p i v => λ s, Ret (0, with_mem (store8 (mem (mach s)) (p + i) v) s)
  | ORead p i => λ s, Ret (load8 (mem (mach s)) (p + i), s)
  end.

(** A client program: each step may depend on the results before it. *)
Inductive prog := Done | Do (o : op) (k : Z → prog).
Fixpoint exec (c : prog) : K slab_state unit :=
  match c with Done => mret tt | Do o k => r ← run_op o; exec (k r) end.

(** The heap the client has in mind. *)
Definition enabled (o : op) (H : heap) : Prop :=
  match o with
  | OAlloc z => 0 < z < 2 ^ 32
  | OFree p z => ∃ l, H !! p = Some l ∧ Z.of_nat (length l) = z
  | OWrite p i _ | ORead p i => ∃ l, H !! p = Some l ∧ 0 ≤ i < Z.of_nat (length l)
  end.
Inductive hstep (H : heap) : op → Z → heap → Prop :=
  | hs_null z : hstep H (OAlloc z) 0 H
  | hs_alloc z p l : kernel_ptr p → H !! p = None → Z.of_nat (length l) = z →
      (∀ q l', H !! q = Some l' → p + z ≤ q ∨ q + Z.of_nat (length l') ≤ p) →
      hstep H (OAlloc z) p (<[p := l]> H)
  | hs_free p z : hstep H (OFree p z) 0 (delete p H)
  | hs_write p i v l : H !! p = Some l → hstep H (OWrite p i v) 0 (<[p := <[Z.to_nat i := v]> l]> H)
  | hs_read p i l v : H !! p = Some l → l !! Z.to_nat i = Some v → hstep H (ORead p i) v H.

(** The client keeps to objects it holds, whatever the allocator answers. *)
Fixpoint safe (c : prog) (H : heap) : Prop :=
  match c with Done => True | Do o k => enabled o H ∧ ∀ r H', hstep H o r H' → safe (k r) H' end.
Inductive hexec : prog → heap → heap → Prop :=
  | he_done H : hexec Done H H
  | he_do o k H r H1 H2 : hstep H o r H1 → hexec (k r) H1 H2 → hexec (Do o k) H H2.

(** The concrete state represents the heap [H]. *)
Definition represents s (H : heap) : Prop :=
  slab_live s ((λ l, Z.of_nat (length l)) <$> H) ∧ ∀ p l, H !! p = Some l → bytes_at (mem (mach s)) p l.

Lemma sizes_lookup (H : heap) p l : H !! p = Some l → ((λ l, Z.of_nat (length l)) <$> H) !! p = Some (Z.of_nat (length l)).
Proof. intros E. by rewrite lookup_fmap, E. Qed.

Lemma kept_bytes s s' (H : heap) p l : kept s s' ((λ l, Z.of_nat (length l)) <$> H) → H !! p = Some l →
  bytes_at (mem (mach s)) p l → bytes_at (mem (mach s')) p l.
Proof. intros Hk Hp. apply bytes_at_agree. intros x Hx. symmetry. eapply Hk; [by apply sizes_lookup|lia]. Qed.

(** The bytes a fresh object happens to hold. *)
Definition held (m : ram) (p z : Z) : list Z := (λ i, m (p + i)) <$> seqZ 0 z.
Lemma held_length m p z : 0 ≤ z → Z.of_nat (length (held m p z)) = z.
Proof. intros Hz. unfold held. rewrite length_fmap, length_seqZ. lia. Qed.
Lemma held_bytes m p z : 0 ≤ z → bytes_at m p (held m p z).
Proof.
  intros Hz i Hi. pose proof (held_length m p z Hz). unfold held. rewrite list_lookup_fmap, lookup_seqZ_lt by lia. cbn.
  do 2 f_equal.
Qed.
(** ** One step *)

Lemma alloc_sim s H z : represents s H → 0 < z < 2 ^ 32 →
  ∃ p s' H', alloc hhdm z s = Ret (p, s') ∧ hstep H (OAlloc z) p H' ∧ represents s' H'.
Proof.
  intros [(G & cs & Hi) Hb] Hz. destruct (alloc_spec hhdm fg _ _ _ _ z Hi Hz) as (p & s' & E & Hk & Hcase). exists p, s'.
  destruct Hcase as [[-> Hl]|(Hp & Hnone & Hl)].
  - exists H. split; [done|]. split; [constructor|]. split; [done|]. intros q l Hq. eapply kept_bytes; [done|done|by apply Hb].
  - assert (HN : H !! p = None) by (rewrite lookup_fmap in Hnone; by destruct (H !! p)).
    pose proof (held_length (mem (mach s')) p z ltac:(lia)) as Hlen.
    exists (<[p := held (mem (mach s')) p z]> H). split; [done|]. split.
    + constructor; try done. intros q l Hq. destruct Hl as (G' & cs' & Hi').
      assert (q ≠ p) by congruence.
      eapply (live_apart hhdm fg); [exact Hi'|by rewrite lookup_insert_eq|rewrite lookup_insert_ne by done; by apply sizes_lookup|done].
    + split; [by rewrite fmap_insert, Hlen|]. intros q l. rewrite lookup_insert_Some. intros [[<- <-]|[_ Hq]].
      * apply held_bytes. lia.
      * eapply kept_bytes; [done|done|by apply Hb].
Qed.

Lemma free_sim s H p l : represents s H → H !! p = Some l →
  ∃ s', free hhdm p (Z.of_nat (length l)) s = Ret (tt, s') ∧ represents s' (delete p H).
Proof.
  intros [(G & cs & Hi) Hb] Hp. destruct (free_spec hhdm fg _ _ _ _ p _ Hi (sizes_lookup H p l Hp)) as (s' & E & Hk & _ & Hl).
  rewrite <- fmap_delete in Hk, Hl. exists s'. split; [done|]. split; [done|].
  intros q l' Hq. eapply kept_bytes; [done|done|]. apply lookup_delete_Some in Hq as [_ Hq]. by apply Hb.
Qed.

Lemma write_sim s H p i v l : represents s H → H !! p = Some l → 0 ≤ i < Z.of_nat (length l) →
  represents (with_mem (store8 (mem (mach s)) (p + i) v) s) (<[p := <[Z.to_nat i := v]> l]> H).
Proof.
  intros [(G & cs & Hi) Hb] Hp Hr. split.
  - exists G, cs. rewrite fmap_insert, length_insert, insert_id by (by apply sizes_lookup). eapply inv_client; [done|].
    intros a Ha. exists p, (Z.of_nat (length l)). split; [by apply sizes_lookup|]. unfold store8 in Ha.
    destruct (Z.eqb_spec a (p + i)); [lia|done].
  - cbn [with_mem mach set_mem mem]. intros q l'. rewrite lookup_insert_Some. intros [[<- <-]|[Hne Hq]] j Hj.
    + rewrite length_insert in Hj. unfold store8. destruct (Z.eqb_spec (p + Z.of_nat j) (p + i)) as [Ej|Ej].
      * replace j with (Z.to_nat i) by lia. apply list_lookup_insert_eq. lia.
      * rewrite list_lookup_insert_ne by lia. by apply (Hb p l Hp).
    + rewrite (Hb q l' Hq j Hj). f_equal. unfold store8. destruct (Z.eqb_spec (q + Z.of_nat j) (p + i)) as [Ej|]; [|done]. exfalso.
      destruct (live_apart hhdm fg _ _ _ _ p _ q _ Hi (sizes_lookup H p l Hp) (sizes_lookup H q l' Hq) ltac:(done)); lia.
Qed.

Lemma step_sim s H o : represents s H → enabled o H →
  ∃ r s' H', run_op o s = Ret (r, s') ∧ hstep H o r H' ∧ represents s' H'.
Proof.
  intros HR. destruct o as [z|p z|p i v|p i]; cbn [enabled run_op].
  - by apply alloc_sim.
  - intros (l & Hp & <-). destruct (free_sim s H p l HR Hp) as (s' & E & HR'). exists 0, s', (delete p H).
    rewrite (K_bind_ret _ _ _ _ _ E). split; [done|]. split; [constructor|done].
  - intros (l & Hp & Hi). eexists _, _, _. split; [reflexivity|]. split; [by econstructor|]. by apply write_sim.
  - intros (l & Hp & Hi). eexists _, _, _. split; [reflexivity|]. split; [|exact HR]. econstructor; [exact Hp|].
    destruct HR as [_ Hb]. rewrite (Hb p l Hp) by lia. unfold load8. do 2 f_equal. lia.
Qed.

Lemma exec_sim c s H : represents s H → safe c H →
  ∃ s' H', exec c s = Ret (tt, s') ∧ hexec c H H' ∧ represents s' H'.
Proof.
  revert s H. induction c as [|o k IH]; intros s H HR Hs; cbn [exec].
  { exists s, H. split; [done|]. split; [constructor|done]. }
  destruct Hs as [Hen Hs]. destruct (step_sim s H o HR Hen) as (r & s1 & H1 & E & Hst & HR1).
  rewrite (K_bind_ret _ _ _ _ _ E). destruct (IH r s1 H1 HR1 (Hs r H1 Hst)) as (s2 & H2 & E2 & Hx & HR2).
  exists s2, H2. split; [done|]. split; [by econstructor|done].
Qed.
End Heap.

(** C3: The allocator refines a heap of byte strings. On a machine with sixteen
    free pages in a row slab_init succeeds; then any client that frees and
    accesses only objects it holds runs to its end, without a panic and
    without a corrupted list, and every step of it is a step of the abstract
    heap: null or a fresh object disjoint from all others, the bytes of the
    objects those last written. Pages the allocator was not given, those of
    [fg], keep what they held. *)
Theorem slab_heap (hhdm : Z) (fg : foreign) (M : machine) (q : Z) (c : prog)
    (HM : map_ok hhdm M) (Hfg : others_ok hhdm fg M) (Hq : free_run hhdm M q 16) (Hc : safe c ∅) :
  ∃ s s' H', slab_init hhdm (slab_boot M) = Ret (tt, s) ∧ exec hhdm c s = Ret (tt, s') ∧
    hexec c ∅ H' ∧ represents hhdm fg s' H' ∧
    ∀ p a, p ∈ fg_pages fg → in_page hhdm p a → mem (mach s') a = fg_mem fg a.
Proof.
  destruct (slab_init_spec hhdm fg M q HM Hfg Hq) as (s & E & Hl & _).
  destruct (exec_sim hhdm fg c s ∅) as (s' & H' & Ex & Hx & HR); [|done|].
  { split; [by rewrite fmap_empty|]. intros p l. by rewrite lookup_empty. }
  exists s, s', H'. split_and!; try done. destruct HR as [Hl' _]. intros p a Hp. by apply (live_foreign hhdm fg s' _ Hl').
Qed.

(** A machine of 32 pages whose direct map begins at 0xFFFF800000000000; page
    1 holds the bitmap, the first three pages are in use. *)
Definition heap_machine : machine := Machine (λ a, if a =? KERNEL_BASE + 4096 then 7 else 0) 4096 32 29.
(** Two objects; the first is written and read back around the second's life. *)
Definition heap_client : prog :=
  Do (OAlloc 24) (λ p, if p =? 0 then Done else
  Do (OWrite p 3 77) (λ _,
  Do (OAlloc 5000) (λ q, if q =? 0 then Done else
  Do (OFree q 5000) (λ _, Do (ORead p 3) (λ v, if v =? 77 then Do (OFree p 24) (λ _, Done) else Do (OFree 0 0) (λ _, Done)))))).

Lemma heap_machine_ok : map_ok KERNEL_BASE heap_machine ∧ free_run KERNEL_BASE heap_machine 3 16.
Proof.
  assert (Hfs : free_set KERNEL_BASE heap_machine = list_to_set (seqZ 3 29)) by (vm_compute; reflexivity).
  split; [split|].
  - split; [done|done| |].
    + split; [rewrite Hfs; vm_compute; reflexivity|cbn; lia|rewrite Hfs; vm_compute; done].
    + intros p Hp a Ha Hb. rewrite Hfs, elem_of_list_to_set, elem_of_seqZ in Hp.
      change (phys_to_virt KERNEL_BASE 4096) with (KERNEL_BASE + 4096) in Hb. unfold in_bitmap in Hb.
      change (phys_to_virt KERNEL_BASE (bitmap heap_machine)) with (KERNEL_BASE + 4096) in Hb.
      change ((total_pages heap_machine + 7) / 8) with 4 in Hb. unfold in_page, page_va, PAGE_SIZE in Ha. lia.
  - cbn [heap_machine total_pages]. unfold KERNEL_BASE, PAGE_SIZE. lia.
  - intros p. rewrite Hfs, elem_of_list_to_set, elem_of_seqZ, elem_of_page_range. lia.
Qed.

(** The third page, empty, belongs to somebody else. *)
Definition heap_foreign : foreign := Foreign {[ 2 ]} (λ _, 0).
Lemma heap_foreign_ok : others_ok KERNEL_BASE heap_foreign heap_machine.
Proof.
  intros p Hp. cbn [heap_foreign fg_pages] in Hp. apply elem_of_singleton in Hp as ->. split; cbn [slab_boot mach heap_machine total_pages mem fg_mem heap_foreign]; try (done || lia).
  - intros a Ha Hb. unfold in_bitmap in Hb. change (phys_to_virt KERNEL_BASE (bitmap heap_machine)) with (KERNEL_BASE + 4096) in Hb.
    change ((total_pages heap_machine + 7) / 8) with 4 in Hb. unfold in_page, page_va, PAGE_SIZE in Ha. lia.
  - intros a Ha. unfold in_page, page_va, PAGE_SIZE in Ha. destruct (Z.eqb_spec a (KERNEL_BASE + 4096)); [lia|done].
Qed.

Lemma heap_client_safe : safe heap_client ∅.
Proof.
  split; [cbn; lia|]. intros p H1 Hs1. inversion Hs1 as [|z p' l Hp _ Hl _| | |]; subst; [done|].
  destruct (Z.eqb_spec p 0) as [|Hp0]; [done|]. rewrite insert_empty.
  split; [exists l; rewrite lookup_singleton_eq; split; [done|lia]|].
  intros r H2 Hs2. inversion Hs2 as [| | |p' i v l' Hl'|]; subst. rewrite lookup_singleton_eq in Hl'. injection Hl' as <-.
  set (l3 := <[Z.to_nat 3 := 77]> l). assert (Hl3 : l3 !! 3%nat = Some 77) by (apply list_lookup_insert_eq; lia).
  assert (Hlen : Z.of_nat (length l3) = 24) by (unfold l3; by rewrite length_insert).
  rewrite insert_singleton_eq. clearbody l3. clear l Hl Hs1 Hs2. split; [cbn; lia|].
  intros q H3 Hs3. inversion Hs3 as [|z q' l Hq Hn Hl _| | |]; subst; [done|].
  destruct (Z.eqb_spec q 0) as [|Hq0]; [done|]. split; [exists l; by rewrite lookup_insert_eq|].
  intros r H4 Hs4. inversion Hs4; subst. rewrite delete_insert_id by done.
  split; [exists l3; rewrite lookup_singleton_eq; split; [done|lia]|].
  intros v H5 Hs5. inversion Hs5 as [| | | |p' i l' v' Hl' Hv]; subst. rewrite lookup_singleton_eq in Hl'. injection Hl' as <-.
  change (Z.to_nat 3) with 3%nat in Hv. rewrite Hl3 in Hv. injection Hv as <-. rewrite Z.eqb_refl. split; [exists l3; by rewrite lookup_singleton_eq|].
  by intros.
Qed.

Lemma slab_heap_witness : ∃ s s' H', slab_init KERNEL_BASE (slab_boot heap_machine) = Ret (tt, s) ∧
  exec KERNEL_BASE heap_client s = Ret (tt, s') ∧ hexec heap_client ∅ H' ∧ represents KERNEL_BASE heap_foreign s' H' ∧
  ∀ p a, p ∈ fg_pages heap_foreign → in_page KERNEL_BASE p a → mem (mach s') a = 0.
Proof.
  apply (slab_heap KERNEL_BASE heap_foreign heap_machine 3 heap_client);
    [apply heap_machine_ok|apply heap_foreign_ok|apply heap_machine_ok|apply heap_client_safe].
Defined.
