(* ===== verification/SlabPaged.v ===== *)
(** * The slab allocator beside other users of pages

    The slab allocator keeps to its blocks, so it fulfils the contract
    [PagedAllocator]: what others do with free pages and pages of their own
    leaves its lists and objects alone, and the other way round. *)

From S2P Require Import Prelude Mem KString Errno Alloc Pmm Pages PagedAlloc Slab SlabInv SlabSpec SlabHeap.

Section SlabPaged.
Context (hhdm : Z).
Implicit Types (P : gset Z) (M : machine) (L : gmap Z Z).

(** The others' pages with what the memory holds. *)
Definition foreign_now P M : foreign := Foreign P (mem M).

(** The invariant does not depend on when the others' pages are looked at. *)
Lemma foreign_renew P M s L : slab_live hhdm (foreign_now P M) s L → slab_live hhdm (foreign_now P (mach s)) s L.
Proof.
  intros (G & cs & [? ? ? ? ? ? ? ? Hf]). exists G, cs. split; try done. intros p Hp. by destruct (Hf p Hp).
Qed.

Lemma foreign_in_use P M s L p : slab_live hhdm (foreign_now P M) s L → p ∈ P → page_in_use hhdm (mach s) p.
Proof. intros (G & cs & Hi) Hp. by destruct (si_foreign _ _ _ _ _ _ Hi p Hp). Qed.

(** A machine in the kernel's half of the address space is small. *)
Lemma slab_small fg s L : slab_live hhdm fg s L → total_pages (mach s) ≤ 2 ^ 40.
Proof. intros (G & cs & Hi). destruct (si_range _ _ _ _ _ _ Hi). unfold KERNEL_BASE, PAGE_SIZE in *. lia. Qed.

Section Moved.
Context P M P' M' (caches : list Z) (G : gmap Z block) (cs : list (list Z)) L.
Context (Hi : slab_inv hhdm (foreign_now P M) (SlabState M caches) G cs L) (Hmv : moved hhdm P M P' M').

Lemma block_not_other n b p : G !! n = Some b → p ∈ page_range n (pages_of b) → (p ∉ free_set hhdm M) ∧ (p ∉ P) ∧ clear_page hhdm M p.
Proof.
  intros Hn Hp. destruct (si_block _ _ _ _ _ _ Hi n b Hn) as [_ _ Hu Hc _]. cbn [mach] in *.
  split; [set_solver|]. split; [|by apply Hc]. intros HP.
  by apply (ut_block _ _ _ _ _ (si_foreign _ _ _ _ _ _ Hi p HP) n b).
Qed.
Lemma moved_block n b a : G !! n = Some b → in_block hhdm n b a → mem M' a = mem M a.
Proof.
  intros Hn (p & Hp & Ha)%block_page. destruct (block_not_other n b p Hn Hp) as (Hu & HP & Hc).
  by apply (mv_mem _ _ _ _ _ Hmv p).
Qed.
Lemma moved_meta n b a : G !! n = Some b → meta hhdm n b a → mem M' a = mem M a.
Proof.
  intros Hn Ha. eapply moved_block; [done|]. destruct (si_block _ _ _ _ _ _ Hi n b Hn) as [[_ ?] _ _ _ Hok].
  by eapply meta_in_block.
Qed.
Lemma moved_clear p : clear_page hhdm M p → clear_page hhdm M' p.
Proof. intros Hp a Ha. unfold in_bitmap. rewrite (mv_bitmap _ _ _ _ _ Hmv), (mv_total _ _ _ _ _ Hmv). by apply Hp. Qed.

Lemma moved_inv : slab_inv hhdm (foreign_now P' M') (SlabState M' caches) G cs L.
Proof.
  pose proof Hi as [Hph Hrg Hbl Hap Hni Hca Hme Hli Hfg]. pose proof (mv_total _ _ _ _ _ Hmv) as Ht.
  split; cbn [mach slab_caches] in *; try done.
  - apply (mv_phys _ _ _ _ _ Hmv).
  - by rewrite Ht.
  - intros n b Hn. destruct (Hbl n b Hn) as [Hp He Hu Hc Hok]. split; cbn [mach] in *; [done|by rewrite Ht| | |].
    + intros p Hp' Hf. destruct (block_not_other n b p Hn Hp') as (? & ? & _).
      by destruct (mv_used _ _ _ _ _ Hmv p Hf).
    + intros p Hp'. by apply moved_clear, Hc.
    + eapply block_ok_frame; [|exact Hok]. intros a Ha. by eapply moved_meta.
  - intros i pages Hpg. destruct (Hca i pages Hpg) as (p & Hp & Hch & Hnd & Hin). exists p. split_and!; try done.
    eapply chain_frame; [|exact Hch]. intros y (n & -> & Hn)%list_elem_of_fmap. destruct (Hin n Hn) as [fr Hf].
    apply load64_frame. intros y Hy. eapply moved_meta; [exact Hf|]. cbn [meta]. lia.
  - intros p Hp. destruct (mv_others _ _ _ _ _ Hmv p Hp) as [[? ? ?] Hfrom]. split; try done. intros n b Hn Hin.
    destruct (block_not_other n b p Hn Hin) as (? & ? & _). by destruct Hfrom.
Qed.
Lemma moved_kept : kept (SlabState M caches) (SlabState M' caches) L.
Proof.
  intros p z a Hp Ha. destruct (object_bytes hhdm _ _ G cs L p z a Hi (si_live _ _ _ _ _ _ Hi p z Hp) Ha) as (n & b & Hn & Hb & _).
  by eapply moved_block.
Qed.
End Moved.

(** ** The contract *)

#[global, program] Instance slab_machine : OnMachine slab_state :=
  {| machine_of s := mach s; set_machine M s := SlabState M (slab_caches s) |}.
Solve All Obligations with by intros; destruct a.

(** The objects [F] of other clients hold what they held in the state [h]. *)
Definition slab_owns (h : slab_state) (F : gmap Z Z) P s L : Prop :=
  L ##ₘ F ∧ slab_live hhdm (foreign_now P (mach s)) s (L ∪ F) ∧ kept h s F.

Lemma slab_live_owns h F P M s L : @live _ _ (slab_frame_spec hhdm (foreign_now P M) h F) s L → slab_owns h F P s L.
Proof. intros (Hd & Hl & Hk). split; [done|]. split; [by apply foreign_renew in Hl|done]. Qed.
Lemma slab_owns_live h F P s L : slab_owns h F P s L → @live _ _ (slab_frame_spec hhdm (foreign_now P (mach s)) h F) s L.
Proof. done. Qed.
Lemma live_keeps h F P s s' L : @live _ _ (slab_frame_spec hhdm (foreign_now P (mach s)) h F) s' L → keeps hhdm P s s'.
Proof. intros (_ & Hl & _) p x Hp Hx. by apply (live_foreign _ _ _ _ Hl p Hp x). Qed.

#[program] Definition slab_paged (h : slab_state) (F : gmap Z Z) : @PagedAllocator hhdm slab_state (slab_allocator hhdm) slab_machine :=
  {| owns := slab_owns h F |}.
Next Obligation. intros h F P s L (_ & Hl & _). split; [by destruct Hl as (G & cs & Hi); apply Hi|by eapply slab_small]. Qed.
Next Obligation. intros h F P s L p (_ & Hl & _) Hp. by eapply foreign_in_use. Qed.
Next Obligation.
  intros h F P s L n Ho%slab_owns_live Hn.
  destruct (@alloc_ok _ _ (slab_frame_spec hhdm (foreign_now P (mach s)) h F) s L n Ho Hn) as (p & s' & E & Hc).
  exists p, s'. split; [done|]. destruct Hc as [[-> Hl]|(Hp & Hf & Hl)].
  - split; [by eapply live_keeps|]. left. split; [done|by eapply slab_live_owns].
  - split; [by eapply live_keeps|]. right. split; [done|]. split; [done|by eapply slab_live_owns].
Qed.
Next Obligation.
  intros h F P s L p n Ho Hp.
  destruct (@free_ok _ _ (slab_frame_spec hhdm (foreign_now P (mach s)) h F) s L p n (slab_owns_live _ _ _ _ _ Ho) Hp) as (s' & E & Hl).
  exists s'. split; [done|]. split; [by eapply live_keeps|]. split; [by eapply slab_live_owns|].
  destruct Ho as (Hd & (G & cs & Hi) & _). destruct (free_spec hhdm _ _ _ _ _ p n Hi) as (s2 & E2 & _ & Hf & _); [by apply lookup_union_Some_l|].
  cbn in E. rewrite E2 in E. by injection E as <-.
Qed.
Next Obligation.
  intros h F P [M caches] L P' M' (Hd & (G & cs & Hi) & Hk) Hmv. cbn in *. split; [done|]. split.
  - exists G, cs. by eapply moved_inv.
  - intros p z a Hp Ha. rewrite (moved_kept _ _ _ _ _ _ _ _ Hi Hmv p z a); [by apply (Hk p z a)| |done].
    by apply lookup_union_Some_r.
Qed.
End SlabPaged.
