(* ===== verification/Paging.v ===== *)
(** * Page tables: mem/paging.cpp, include/mem/paging.h

    Four-level tables in memory. [map_page] walks them from the root, making
    the missing tables, and writes the last entry; the tables of
    [translate_user] (proc/syscall_user.cpp), which the kernel uses to reach
    user memory, are the same. *)

From S2P Require Import Prelude Mem KString Pmm.

Definition PTE_PRESENT : Z := 1.
Definition PTE_WRITABLE : Z := 2.
Definition PTE_USER : Z := 4.
Definition PTE_PWT : Z := 8.
Definition PTE_PCD : Z := 16.
Definition PTE_UNCACHEABLE : Z := Z.lor PTE_PWT PTE_PCD.
Definition PTE_ACCESS : Z := 32.
Definition PTE_DIRTY : Z := 64.
Definition PTE_NX : Z := Z.shiftl 1 63.
Definition PAGE_TABLE_ENTRIES : Z := 512.
Definition LAPIC_VIRT_BASE : Z := 18446744071563116544.  (* 0xFFFFFFFF80100000 *)
Definition IOAPIC_VIRT_BASE : Z := 18446744071564165120. (* 0xFFFFFFFF80200000 *)

Definition PGD_INDEX (va : Z) : Z := Z.land (Z.shiftr va 39) 511.
Definition PUD_INDEX (va : Z) : Z := Z.land (Z.shiftr va 30) 511.
Definition PMD_INDEX (va : Z) : Z := Z.land (Z.shiftr va 21) 511.
Definition PTE_INDEX (va : Z) : Z := Z.land (Z.shiftr va 12) 511.

(** x & ~0xFFF: the constant is a negative int, so it extends with ones. *)
Definition clear_low12 (x : Z) : Z := Z.land x (u64 (Z.lnot 4095)).

(** &table->entries[idx] *)
Definition entry_at (table idx : Z) : Z := table + 8 * idx.

Record paging_state := PagingState { pg_mach : machine; pml4_base : Z }.

Section Paging.
Context (hhdm : Z).
Abbreviation M := (K paging_state).

Definition peek (a : Z) : M Z := λ s, Ret (load64 (mem (pg_mach s)) a, s).
Definition poke (a v : Z) : M unit :=
  k_modify (λ s, PagingState (set_mem (store64 (mem (pg_mach s)) a v) (pg_mach s)) (pml4_base s)).
Definition pmm_allocPage : M Z := λ s,
  let '(p, m) := allocPage hhdm (pg_mach s) in Ret (p, PagingState m (pml4_base s)).
Definition zero_page (a : Z) : M unit :=
  k_modify (λ s, PagingState (set_mem (memset a 0 4096 (mem (pg_mach s))).2 (pg_mach s)) (pml4_base s)).

(** paging::init, with the value of cr3. *)
Definition paging_init (cr3 : Z) : M unit :=
  k_modify (λ s, PagingState (pg_mach s) (phys_to_virt hhdm (clear_low12 cr3))).

(** The result of allocPage is used without a test. *)
Definition ensure_table_entry (entry : Z) (user_accessible : bool) : M unit :=
  e ← peek entry;
  if Z.land e PTE_PRESENT =? 0 then
    new_phys ← pmm_allocPage;
    zero_page (phys_to_virt hhdm new_phys) ≫= λ _,
    let flags := Z.lor PTE_PRESENT PTE_WRITABLE in
    let flags := if user_accessible then Z.lor flags PTE_USER else flags in
    poke entry (Z.lor new_phys flags)
  else mret tt.

(** Make sure the entry is there and follow it. *)
Definition next_table (table idx : Z) (user : bool) : M Z :=
  ensure_table_entry (entry_at table idx) user ≫= λ _,
  e ← peek (entry_at table idx);
  mret (phys_to_virt hhdm (clear_low12 e)).

Definition map_page (virt phys flags : Z) : M unit :=
  base ← k_gets pml4_base;
  if base =? 0 then k_panic "paging: `pml4_base' is not initialized yet!" else
  let user := negb (Z.land flags PTE_USER =? 0) in
  pud ← next_table base (PGD_INDEX virt) user;
  pmd ← next_table pud (PUD_INDEX virt) user;
  pt ← next_table pmd (PMD_INDEX virt) user;
  poke (entry_at pt (PTE_INDEX virt)) (Z.lor phys flags).

Definition map_lapic (phys_base : Z) : M unit :=
  map_page LAPIC_VIRT_BASE (clear_low12 phys_base)
    (Z.lor (Z.lor PTE_PRESENT PTE_WRITABLE) PTE_UNCACHEABLE).
Definition map_ioapic (phys_base virt_base : Z) : M unit :=
  map_page virt_base (clear_low12 phys_base)
    (Z.lor (Z.lor PTE_PRESENT PTE_WRITABLE) PTE_UNCACHEABLE).

End Paging.
