(* ===== verification/PagingSpec.v ===== *)
(** * Page tables implement a map from virtual pages to entries

    [pt_inv s root own]: the tables form a tree. [own] gives each table page
    its level and the address prefix it serves; every present entry of an
    upper table leads to the table of the next prefix. [pte_of] is the entry
    the hardware walk finds for an address; map_page updates it at one page
    and nowhere else. *)

From S2P Require Import Prelude Mem KString Pmm Pages Paging.

Definition present (e : Z) : bool := negb (Z.land e PTE_PRESENT =? 0).

(** The page number an address is translated by. *)
Definition vpn (va : Z) : Z := (va / 4096) mod 2 ^ 36.
Definition indices (va : Z) : list Z := [PGD_INDEX va; PUD_INDEX va; PMD_INDEX va; PTE_INDEX va].
Definition compose (x : Z) (ix : list Z) : Z := foldl (λ acc i, acc * 512 + i) x ix.

Lemma index_mod va k : 0 ≤ k → Z.land (Z.shiftr va k) 511 = (va / 2 ^ k) mod 512.
Proof. intros Hk. rewrite Z.shiftr_div_pow2 by done. apply (land_ones_mod _ 9). lia. Qed.
Lemma index_range va k : 0 ≤ Z.land (Z.shiftr va k) 511 < 512.
Proof.
  change 511 with (2 ^ 9 - 1). rewrite land_ones_mod by lia. apply Z.mod_pos_bound. lia.
Qed.
Lemma indices_range va : Forall (λ i, 0 ≤ i < 512) (indices va).
Proof. repeat constructor; apply index_range. Qed.

Lemma vpn_compose va : vpn va = compose 0 (indices va).
Proof.
  unfold indices, compose, vpn, PGD_INDEX, PUD_INDEX, PMD_INDEX, PTE_INDEX. cbn [foldl].
  rewrite !index_mod by lia. set (b := va / 4096).
  replace (va / 2 ^ 39) with (b / 512 / 512 / 512)
    by (unfold b; rewrite !Z.div_div by lia; done).
  replace (va / 2 ^ 30) with (b / 512 / 512) by (unfold b; rewrite !Z.div_div by lia; done).
  replace (va / 2 ^ 21) with (b / 512) by (unfold b; rewrite !Z.div_div by lia; done).
  change (va / 2 ^ 12) with b.
  change (2 ^ 36) with (512 * (512 * (512 * 512))). rewrite !Z.rem_mul_r by lia. ring.
Qed.

Section Spec.
Context (hhdm : Z).
Implicit Types (s : paging_state) (m : ram) (own : gmap Z (Z * Z)).
Abbreviation page_va := (page_va hhdm).

Fixpoint walk (m : ram) (table : Z) (ix : list Z) : option Z :=
  match ix with
  | [] => None
  | i :: ix' =>
      let e := load64 m (entry_at table i) in
      if present e then
        match ix' with
        | [] => Some e
        | _ => walk m (phys_to_virt hhdm (clear_low12 e)) ix'
        end
      else None
  end.
Definition pte_of (s : paging_state) (va : Z) : option Z :=
  walk (mem (pg_mach s)) (pml4_base s) (indices va).

Record pt_inv (s : paging_state) (root : Z) (own : gmap Z (Z * Z)) : Prop := {
  pi_phys : phys_ok hhdm (pg_mach s);
  pi_base : pml4_base s = page_va root;
  pi_root : own !! root = Some (0, 0);
  pi_used : ∀ p l x, own !! p = Some (l, x) →
    (0 < p < total_pages (pg_mach s)) ∧ (p ∉ free_set hhdm (pg_mach s)) ∧
    clear_page hhdm (pg_mach s) p;
  pi_entry : ∀ p l x i, own !! p = Some (l, x) → 0 ≤ l < 3 → 0 ≤ i < 512 →
    let e := load64 (mem (pg_mach s)) (entry_at (page_va p) i) in
    present e = true → ∃ q, own !! q = Some (l + 1, x * 512 + i) ∧ clear_low12 e = q * PAGE_SIZE
}.

(** Entry [i] of table page [p] leads to table page [q]. *)
Definition points m p i q : Prop :=
  let e := load64 m (entry_at (page_va p) i) in present e = true ∧ clear_low12 e = q * PAGE_SIZE.

Lemma entry_in_page p i x : 0 ≤ i < 512 → entry_at (page_va p) i ≤ x < entry_at (page_va p) i + 8 →
  in_page hhdm p x.
Proof. unfold entry_at, in_page, PAGE_SIZE. lia. Qed.

(** Entries of different tables or slots are different words. *)
Lemma entry_disjoint p i q j :
  0 ≤ i < 512 → 0 ≤ j < 512 → (p, i) ≠ (q, j) →
  entry_at (page_va p) i + 8 ≤ entry_at (page_va q) j ∨ entry_at (page_va q) j + 8 ≤ entry_at (page_va p) i.
Proof.
  intros Hi Hj Hne. unfold entry_at, Pages.page_va, PAGE_SIZE.
  destruct (decide (p = q)) as [->|]; [|lia]. assert (i ≠ j) by congruence. lia.
Qed.

Lemma walk_points m (mc : machine) p i q ix :
  phys_ok hhdm mc → 0 ≤ q < total_pages mc → points m p i q → ix ≠ [] →
  walk m (page_va p) (i :: ix) = walk m (page_va q) ix.
Proof.
  intros Hok Hq [Hp Hc] His. cbn [walk]. rewrite Hp, Hc. erewrite phys_to_virt_page by done.
  by destruct ix.
Qed.

(** A walk from an owned table, when one entry (t, j) of the owned tables
    changes: it is the same if it is the same from that entry on. *)
Lemma walk_frame s root own m' t lt xt j ix p l x :
  pt_inv s root own → own !! t = Some (lt, xt) →
  (∀ p' l' x' i', own !! p' = Some (l', x') → 0 ≤ i' < 512 → (p', i') ≠ (t, j) →
     load64 m' (entry_at (page_va p') i') = load64 (mem (pg_mach s)) (entry_at (page_va p') i')) →
  (∀ rest, lt + Z.of_nat (length rest) = 3 → Forall (λ i, 0 ≤ i < 512) rest →
     compose xt (j :: rest) = compose x ix →
     walk m' (page_va t) (j :: rest) = walk (mem (pg_mach s)) (page_va t) (j :: rest)) →
  own !! p = Some (l, x) → 0 ≤ l → l + Z.of_nat (length ix) = 4 → Forall (λ i, 0 ≤ i < 512) ix →
  walk m' (page_va p) ix = walk (mem (pg_mach s)) (page_va p) ix.
Proof.
  intros Hinv Ht Hsame Hat Hown Hl Hlen Hr. revert p l x Hown Hl Hlen Hat.
  induction Hr as [|i ix Hi Hr IH]; intros p l x Hown Hl Hlen Hat; [done|]. cbn [length] in Hlen.
  destruct (decide ((p, i) = (t, j))) as [E|Hne].
  { injection E as -> ->. rewrite Ht in Hown. injection Hown as -> ->. apply Hat; [lia|done|done]. }
  cbn [walk]. rewrite (Hsame p l x i Hown Hi Hne). destruct (present _) eqn:Hp; [|done].
  destruct ix as [|k ix]; [done|]. cbn [length] in Hlen.
  destruct (pi_entry _ _ _ Hinv p l x i Hown ltac:(lia) Hi Hp) as (q & Hq & Hc). rewrite Hc.
  pose proof (pi_used _ _ _ Hinv _ _ _ Hq) as (Hqr & _).
  rewrite (phys_to_virt_page hhdm (pg_mach s)) by (try apply Hinv; lia).
  eapply (IH q (l + 1) (x * 512 + i)); [done|lia|cbn [length]; lia|exact Hat].
Qed.

Lemma clear_low12_spec x : 0 ≤ x < 2 ^ 64 → clear_low12 x = x - x mod 4096.
Proof. intros Hx. unfold clear_low12. change 4095 with (2 ^ 12 - 1). by rewrite land_lnot_u64 by lia. Qed.
Lemma present_odd e : present e = true ↔ e mod 2 = 1.
Proof.
  unfold present, PTE_PRESENT. change 1 with (2 ^ 1 - 1) at 1. rewrite land_ones_mod by lia.
  pose proof (Z.mod_pos_bound e 2 ltac:(lia)). change (2 ^ 1) with 2.
  rewrite negb_true_iff, Z.eqb_neq. lia.
Qed.

(** The entry of a new table. *)
Definition table_flags (user : bool) : Z :=
  let flags := Z.lor PTE_PRESENT PTE_WRITABLE in if user then Z.lor flags PTE_USER else flags.
Lemma table_entry n user :
  0 ≤ n < 2 ^ 52 → let e := Z.lor (n * PAGE_SIZE) (table_flags user) in
  0 ≤ e < 2 ^ 64 ∧ present e = true ∧ clear_low12 e = n * PAGE_SIZE.
Proof.
  intros Hn e. assert (He : e = n * 4096 + table_flags user).
  { unfold e, PAGE_SIZE. change 4096 with (2 ^ 12). apply lor_mul_add; [lia|]. by destruct user. }
  assert (Hf : table_flags user = 3 ∨ table_flags user = 7) by (destruct user; auto).
  split; [lia|]. split; [apply present_odd; rewrite He; destruct Hf as [->| ->]; div_mod|].
  rewrite clear_low12_spec by lia. unfold PAGE_SIZE. rewrite He. destruct Hf as [->| ->]; div_mod.
Qed.

(** The memory after a table page [n] is taken, cleared and entered at slot
    [i] of page [p]. *)
Definition new_table (m : ram) (p i n e : Z) : ram :=
  store64 (memset (page_va n) 0 4096 m).2 (entry_at (page_va p) i) e.

Lemma new_table_out m p i n e x :
  0 ≤ i < 512 → ¬ in_page hhdm n x → ¬ in_page hhdm p x → new_table m p i n e x = m x.
Proof.
  intros Hi Hn Hp. unfold new_table. rewrite store64_out.
  - rewrite memset_spec by lia. unfold in_page, PAGE_SIZE in Hn.
    destruct (Z.leb_spec (page_va n) x), (Z.ltb_spec x (page_va n + 4096)); simpl; lia || done.
  - intros Hx. apply Hp. by eapply entry_in_page.
Qed.
Lemma new_table_other m p i n e q j :
  0 ≤ i < 512 → 0 ≤ j < 512 → q ≠ n → (q, j) ≠ (p, i) →
  load64 (new_table m p i n e) (entry_at (page_va q) j) = load64 m (entry_at (page_va q) j).
Proof.
  intros Hi Hj Hq Hne. unfold new_table. rewrite load64_store64_ne by (by apply entry_disjoint).
  apply load64_frame. intros x Hx. rewrite memset_spec by lia.
  assert (Hin : in_page hhdm q x) by (by eapply entry_in_page).
  destruct (Z.leb_spec (page_va n) x), (Z.ltb_spec x (page_va n + 4096)); simpl; try done.
  destruct Hq. eapply in_page_inj; [done|]. unfold in_page, PAGE_SIZE. lia.
Qed.
Lemma new_table_zero m p i n e j :
  0 ≤ i < 512 → 0 ≤ j < 512 → p ≠ n → load64 (new_table m p i n e) (entry_at (page_va n) j) = 0.
Proof.
  intros Hi Hj Hp. unfold new_table.
  rewrite load64_store64_ne by (apply entry_disjoint; [done|done|congruence]).
  rewrite (load64_frame (λ _, 0)); [done|]. intros x Hx. rewrite memset_spec by lia.
  assert (Hin : in_page hhdm n x) by (by eapply entry_in_page). unfold in_page, PAGE_SIZE in Hin.
  by rewrite (proj2 (Z.leb_le _ _)), (proj2 (Z.ltb_lt _ _)) by lia.
Qed.
Lemma new_table_entry m p i n e :
  0 ≤ e < 2 ^ 64 → load64 (new_table m p i n e) (entry_at (page_va p) i) = e.
Proof. intros He. unfold new_table. rewrite load64_store64_eq. by apply u64_small. Qed.

(** Tables were added: pages were only taken, and what is neither free nor a
    table is as it was. *)
Record extended (mc mc' : machine) (own own' : gmap Z (Z * Z)) : Prop := {
  ex_total : total_pages mc' = total_pages mc;
  ex_bitmap : bitmap mc' = bitmap mc;
  ex_free : free_set hhdm mc' ⊆ free_set hhdm mc;
  ex_sub : own ⊆ own';
  ex_own : ∀ q, is_Some (own' !! q) → is_Some (own !! q) ∨ q ∈ free_set hhdm mc;
  ex_mem : ∀ p a, p ∉ free_set hhdm mc → own !! p = None → clear_page hhdm mc p → in_page hhdm p a → mem mc' a = mem mc a
}.
Lemma extended_refl mc own : extended mc mc own own.
Proof. split; try done. by left. Qed.
Lemma extended_trans mc1 mc2 mc3 own1 own2 own3 :
  extended mc1 mc2 own1 own2 → extended mc2 mc3 own2 own3 → extended mc1 mc3 own1 own3.
Proof.
  intros [T1 B1 F1 S1 O1 M1] [T2 B2 F2 S2 O2 M2]. split; [congruence..|set_solver|by etrans| |].
  - intros q Hq. destruct (O2 q Hq) as [Hq'|Hq']; [by apply O1|right; set_solver].
  - intros p a Hf Ho Hc Ha. rewrite (M2 p a), (M1 p a); try done; [set_solver| |].
    + destruct (own2 !! p) eqn:E; [|done]. destruct (O1 p) as [[x ?]|?]; [by eexists|congruence|done].
    + intros b Hb. unfold in_bitmap. rewrite B1, T1. by apply Hc.
Qed.

(** What one step of map_page's descent guarantees. *)
Record descends (s s' : paging_state) (root : Z) (own own' : gmap Z (Z * Z)) (p l x i q : Z) : Prop := {
  ds_inv : pt_inv s' root own';
  ds_own : own' !! q = Some (l + 1, x * 512 + i);
  ds_ext : extended (pg_mach s) (pg_mach s') own own';
  ds_free : free_pages (pg_mach s) - 1 ≤ free_pages (pg_mach s');
  ds_points : points (mem (pg_mach s')) p i q;
  ds_same : ∀ va, pte_of s' va = pte_of s va;
  ds_kept : ∀ p' i' q', is_Some (own !! p') → 0 ≤ i' < 512 →
    points (mem (pg_mach s)) p' i' q' → points (mem (pg_mach s')) p' i' q'
}.

(** Taking a free page. *)
Lemma allocPage_pages (s : machine) p (m' : machine) :
  phys_ok hhdm s → 1 ≤ free_pages s → allocPage hhdm s = (p, m') →
  ∃ n, p = n * PAGE_SIZE ∧ 0 < n < total_pages s ∧ n ∈ free_set hhdm s ∧
    phys_ok hhdm m' ∧ only_bitmap hhdm s m' ∧ free_set hhdm m' = free_set hhdm s ∖ {[n]} ∧
    free_pages m' = free_pages s - 1.
Proof.
  intros Hok Hf Ha. assert (Ha' : allocPages hhdm 1 s = (p, m')) by exact Ha.
  destruct (allocPages_pages hhdm s 1 p m' Hok ltac:(lia) Ha') as (Hok' & Hob & Hcase).
  assert (H1 : ∀ n, page_range n 1 = {[n]}).
  { intros n. apply set_eq. intros k. rewrite elem_of_page_range, elem_of_singleton. lia. }
  destruct Hcase as [(_ & _ & Hno)|(n & -> & Hn & Htot & Hsub & Hfs)].
  - exfalso. rewrite (inv_count _ _ (po_pmm _ _ Hok)) in Hf.
    destruct (set_choose_L (free_set hhdm s)) as [n Hn].
    { intros E. rewrite E, size_empty in Hf. lia. }
    apply (Hno n). unfold free_run. rewrite H1. set_solver.
  - rewrite H1 in Hsub, Hfs. exists n. split; [done|]. split; [lia|].
    assert (Hin : n ∈ free_set hhdm s) by set_solver. do 4 (split; [done|]).
    rewrite (inv_count _ _ (po_pmm _ _ Hok)), (inv_count _ _ (po_pmm _ _ Hok')), Hfs.
    rewrite size_difference, size_singleton by set_solver.
    assert (size (free_set hhdm s) ≠ 0)%nat; [|lia].
    intros E%size_empty_inv. set_solver.
Qed.

(** Page [n] was free; it is cleared and entered at slot [i] of table [p],
    which was empty. *)
Section Linked.
Context (s : paging_state) (root : Z) (own : gmap Z (Z * Z)) (p l x i n e : Z) (mc : machine).
Context (Hinv : pt_inv s root own) (Hown : own !! p = Some (l, x)) (Hl : 0 ≤ l < 3) (Hi : 0 ≤ i < 512).
Context (Hn : 0 < n < total_pages (pg_mach s)) (Hnf : n ∈ free_set hhdm (pg_mach s)).
Context (Hok1 : phys_ok hhdm mc) (Hob : only_bitmap hhdm (pg_mach s) mc).
Context (Hfs : free_set hhdm mc = free_set hhdm (pg_mach s) ∖ {[n]}).
Context (He : 0 ≤ e < 2 ^ 64) (Hep : present e = true) (Hec : clear_low12 e = n * PAGE_SIZE).
Let s' : paging_state := PagingState (set_mem (new_table (mem mc) p i n e) mc) (pml4_base s).
Let own' : gmap Z (Z * Z) := <[n := (l + 1, x * 512 + i)]> own.

Lemma linked_fresh q lx : own !! q = Some lx → q ≠ n.
Proof. destruct lx as [ql qx]. intros Hq ->. by apply (pi_used _ _ _ Hinv _ _ _ Hq). Qed.
Lemma linked_keep q lx j : own !! q = Some lx → 0 ≤ j < 512 → (q, j) ≠ (p, i) →
  load64 (mem (pg_mach s')) (entry_at (page_va q) j) = load64 (mem (pg_mach s)) (entry_at (page_va q) j).
Proof.
  destruct lx as [ql qx]. intros Hq Hj Hne. cbn [s' pg_mach mem set_mem].
  rewrite new_table_other by (done || by eapply linked_fresh). apply load64_frame. intros a Ha'.
  apply (ob_mem _ _ _ Hob). apply (pi_used _ _ _ Hinv _ _ _ Hq). by eapply entry_in_page.
Qed.
Lemma linked_entry : load64 (mem (pg_mach s')) (entry_at (page_va p) i) = e.
Proof using He. by apply new_table_entry. Qed.
Lemma linked_zero j : 0 ≤ j < 512 → load64 (mem (pg_mach s')) (entry_at (page_va n) j) = 0.
Proof. intros Hj. apply new_table_zero; [done|done|by eapply linked_fresh]. Qed.
Lemma linked_bitmap a : in_bitmap hhdm mc a → new_table (mem mc) p i n e a = mem mc a.
Proof.
  destruct (pi_used _ _ _ Hinv _ _ _ Hown) as (_ & _ & Hpc). intros Hbm. apply new_table_out; [done| |].
  - intros Hin. eapply (clear_page_stable hhdm (pg_mach s) mc n); eauto. by apply (po_bitmap _ _ (pi_phys _ _ _ Hinv)).
  - intros Hin. eapply (clear_page_stable hhdm (pg_mach s) mc p); eauto.
Qed.
Lemma linked_used q ql qx : own' !! q = Some (ql, qx) →
  (0 < q < total_pages (pg_mach s')) ∧ (q ∉ free_set hhdm (pg_mach s')) ∧ clear_page hhdm (pg_mach s') q.
Proof.
  assert (Hfs' : free_set hhdm (pg_mach s') = free_set hhdm (pg_mach s) ∖ {[n]}).
  { cbn [s' pg_mach]. rewrite free_set_frame by apply linked_bitmap. exact Hfs. }
  assert (Hcl : ∀ r, clear_page hhdm (pg_mach s) r → clear_page hhdm (pg_mach s') r).
  { intros r Hr. exact (clear_page_stable hhdm _ _ r Hob Hr). }
  intros Hq. rewrite Hfs'. change (total_pages (pg_mach s')) with (total_pages mc). rewrite (ob_total _ _ _ Hob).
  apply lookup_insert_Some in Hq as [[<- _]|[_ Hq]].
  - split; [lia|]. split; [set_solver|]. by apply Hcl, (po_bitmap _ _ (pi_phys _ _ _ Hinv)).
  - destruct (pi_used _ _ _ Hinv _ _ _ Hq) as (? & ? & ?). split; [done|]. split; [set_solver|by apply Hcl].
Qed.
Lemma linked_inv : pt_inv s' root own'.
Proof.
  split; [apply phys_ok_frame; [done|apply linked_bitmap]|exact (pi_base _ _ _ Hinv)| |apply linked_used|].
  - unfold own'. rewrite lookup_insert_ne by (apply not_eq_sym; exact (linked_fresh _ _ (pi_root _ _ _ Hinv))).
    apply (pi_root _ _ _ Hinv).
  - intros q ql qx j Hq Hql Hj e' He'. apply lookup_insert_Some in Hq as [[<- _]|[Hqn Hq]].
    { unfold e' in He'. rewrite linked_zero in He' by done. done. }
    unfold e' in *. destruct (decide ((q, j) = (p, i))) as [E|Hne].
    + injection E as -> ->. rewrite Hown in Hq. injection Hq as <- <-. exists n. unfold own'. rewrite lookup_insert_eq, linked_entry. done.
    + rewrite (linked_keep q _ j Hq Hj Hne) in He' |- *.
      destruct (pi_entry _ _ _ Hinv q ql qx j Hq Hql Hj He') as (r & Hr & Hc).
      exists r. unfold own'. rewrite lookup_insert_ne by (apply not_eq_sym; exact (linked_fresh _ _ Hr)). done.
Qed.
Lemma linked_walks va : present (load64 (mem (pg_mach s)) (entry_at (page_va p) i)) = false → pte_of s' va = pte_of s va.
Proof.
  intros Habs. unfold pte_of. change (pml4_base s') with (pml4_base s). rewrite (pi_base _ _ _ Hinv).
  eapply (walk_frame s root own _ p l x i); [done|done| | |apply (pi_root _ _ _ Hinv)|done|done|apply indices_range].
  - intros q ql qx j Hq Hj Hne. by eapply linked_keep.
  - intros [|r rest] Hlen Hrest _; [cbn [length] in Hlen; lia|]. inversion_clear Hrest as [|? ? Hr _].
    transitivity (@None Z); cbn [walk]; [|by rewrite Habs].
    rewrite linked_entry, Hep, Hec. rewrite (phys_to_virt_page hhdm (pg_mach s)) by (try apply Hinv; lia).
    by rewrite linked_zero.
Qed.
Lemma linked_extended : extended (pg_mach s) (pg_mach s') own own'.
Proof.
  split; cbn [s' pg_mach set_mem total_pages bitmap mem].
  - apply (ob_total _ _ _ Hob).
  - apply (ob_bitmap _ _ _ Hob).
  - rewrite free_set_frame by apply linked_bitmap. rewrite Hfs. set_solver.
  - apply insert_subseteq. apply eq_None_not_Some. intros [lx Hlx]. by apply (linked_fresh n _ Hlx).
  - intros q. destruct (decide (q = n)) as [->|Hne]; [by right|]. unfold own'. rewrite lookup_insert_ne by done. by left.
  - intros q a Hq Ho Hc Ha. rewrite new_table_out, (ob_mem _ _ _ Hob); [done|by apply Hc|done| |].
    + intros Hin. apply Hq. by rewrite (in_page_inj hhdm q n a Ha Hin).
    + intros Hin. rewrite (in_page_inj hhdm q p a Ha Hin) in Ho. congruence.
Qed.
Lemma linked_descends : present (load64 (mem (pg_mach s)) (entry_at (page_va p) i)) = false →
  free_pages mc = free_pages (pg_mach s) - 1 → descends s s' root own own' p l x i n.
Proof.
  intros Habs Hcnt. split; [apply linked_inv|apply lookup_insert_eq|apply linked_extended| | |intros va; by apply linked_walks|].
  - cbn [s' pg_mach free_pages set_mem]. lia.
  - split; cbv zeta; rewrite linked_entry; done.
  - intros q j r [lx Hq] Hj [Hpr Hcr]. destruct (decide ((q, j) = (p, i))) as [E|Hne].
    + injection E as -> ->. congruence.
    + unfold points. by rewrite (linked_keep q lx j Hq Hj Hne).
Qed.
End Linked.

Lemma next_table_new s root own p l x i user :
  pt_inv s root own → own !! p = Some (l, x) → 0 ≤ l < 3 → 0 ≤ i < 512 →
  1 ≤ free_pages (pg_mach s) →
  present (load64 (mem (pg_mach s)) (entry_at (page_va p) i)) = false →
  ∃ q s' own', ensure_table_entry hhdm (entry_at (page_va p) i) user s = Ret (tt, s') ∧
    descends s s' root own own' p l x i q.
Proof.
  intros Hinv Hown Hl Hi Hf Habs. unfold ensure_table_entry. erewrite K_bind_ret by reflexivity.
  pose proof Habs as Habs0. unfold present in Habs. apply negb_false_iff in Habs. rewrite Habs.
  destruct (allocPage hhdm (pg_mach s)) as [np mc] eqn:Ha.
  destruct (allocPage_pages _ _ _ (pi_phys _ _ _ Hinv) Hf Ha) as (n & -> & Hn & Hnf & Hok1 & Hob & Hfs & Hcnt).
  rewrite (K_bind_ret (pmm_allocPage hhdm) _ s (n * PAGE_SIZE) (PagingState mc (pml4_base s)))
    by (unfold pmm_allocPage; by rewrite Ha).
  rewrite (phys_to_virt_page hhdm (pg_mach s)) by (try apply Hinv; lia).
  erewrite K_bind_ret by reflexivity. fold (table_flags user).
  pose proof (inv_total _ _ (po_pmm _ _ (pi_phys _ _ _ Hinv))) as Htot.
  destruct (table_entry n user ltac:(lia)) as (He & Hep & Hec).
  eexists n, _, _. split; [reflexivity|].
  apply (linked_descends s root own p l x i n _ mc Hinv Hown Hl Hi Hn Hnf Hok1 Hob Hfs He Hep Hec Habs0 Hcnt).
Qed.

Lemma next_table_spec s root own p l x i user :
  pt_inv s root own → own !! p = Some (l, x) → 0 ≤ l < 3 → 0 ≤ i < 512 →
  1 ≤ free_pages (pg_mach s) →
  ∃ q s' own', next_table hhdm (page_va p) i user s = Ret (page_va q, s') ∧
    descends s s' root own own' p l x i q.
Proof.
  intros Hinv Hown Hl Hi Hf. unfold next_table.
  assert (Hfin : ∀ q s' own', ensure_table_entry hhdm (entry_at (page_va p) i) user s = Ret (tt, s') →
    descends s s' root own own' p l x i q →
    ∃ q s' own', (ensure_table_entry hhdm (entry_at (page_va p) i) user ≫= λ _,
      e ← peek (entry_at (page_va p) i); mret (phys_to_virt hhdm (clear_low12 e))) s
        = Ret (page_va q, s') ∧ descends s s' root own own' p l x i q).
  { intros q s' own' Hrun Hd. exists q, s', own'. split; [|done].
    rewrite (K_bind_ret _ _ _ _ _ Hrun). erewrite K_bind_ret by reflexivity.
    destruct (ds_points _ _ _ _ _ _ _ _ _ _ Hd) as [_ Hc]. rewrite Hc.
    destruct (pi_used _ _ _ (ds_inv _ _ _ _ _ _ _ _ _ _ Hd) _ _ _ (ds_own _ _ _ _ _ _ _ _ _ _ Hd)) as (Hq & _).
    erewrite phys_to_virt_page; [done|apply (ds_inv _ _ _ _ _ _ _ _ _ _ Hd)|lia]. }
  destruct (present (load64 (mem (pg_mach s)) (entry_at (page_va p) i))) eqn:Hp.
  - destruct (pi_entry _ _ _ Hinv p l x i Hown Hl Hi Hp) as (q & Hq & Hc).
    apply (Hfin q s own).
    + unfold ensure_table_entry. erewrite K_bind_ret by reflexivity.
      unfold present in Hp. apply negb_true_iff in Hp. by rewrite Hp.
    + split; try done; [apply extended_refl|lia].
  - destruct (next_table_new s root own p l x i user) as (q & s' & own' & Hrun & Hd); try done.
    by apply (Hfin q s' own').
Qed.

(** Writing an entry of a last-level table. *)
Definition poked (s : paging_state) (a v : Z) : paging_state :=
  PagingState (set_mem (store64 (mem (pg_mach s)) a v) (pg_mach s)) (pml4_base s).

Lemma poke_leaf s root own t x j v :
  pt_inv s root own → own !! t = Some (3, x) → 0 ≤ j < 512 →
  let s' := poked s (entry_at (page_va t) j) v in
  pt_inv s' root own ∧
  (∀ va, vpn va ≠ x * 512 + j → pte_of s' va = pte_of s va) ∧
  (∀ p i q, p ≠ t → 0 ≤ i < 512 → points (mem (pg_mach s)) p i q → points (mem (pg_mach s')) p i q) ∧
  extended (pg_mach s) (pg_mach s') own own.
Proof.
  intros Hinv Ht Hj s'. destruct (pi_used _ _ _ Hinv _ _ _ Ht) as (_ & _ & Htc).
  assert (Hkeep : ∀ q i, 0 ≤ i < 512 → (q, i) ≠ (t, j) →
    load64 (mem (pg_mach s')) (entry_at (page_va q) i) = load64 (mem (pg_mach s)) (entry_at (page_va q) i)).
  { intros q i Hi Hne. cbn [s' poked pg_mach mem set_mem].
    apply load64_store64_ne. by apply entry_disjoint. }
  assert (Hbm : ∀ a, in_bitmap hhdm (pg_mach s) a →
    store64 (mem (pg_mach s)) (entry_at (page_va t) j) v a = mem (pg_mach s) a).
  { intros a Ha. apply store64_out. intros Hx. eapply Htc; [|exact Ha]. by eapply entry_in_page. }
  assert (Hfs : free_set hhdm (pg_mach s') = free_set hhdm (pg_mach s)) by (by apply free_set_frame).
  split_and!.
  - split.
    + by apply phys_ok_frame; [apply Hinv|].
    + apply Hinv.
    + apply Hinv.
    + intros p l y Hp. rewrite Hfs. exact (pi_used _ _ _ Hinv p l y Hp).
    + intros p l y i Hp Hl Hi e He. unfold e in *.
      assert (Hne : (p, i) ≠ (t, j)) by (intros [= -> ->]; rewrite Ht in Hp; injection Hp; lia).
      rewrite Hkeep in He |- * by done. exact (pi_entry _ _ _ Hinv p l y i Hp Hl Hi He).
  - intros va Hne. unfold pte_of. change (pml4_base s') with (pml4_base s). rewrite (pi_base _ _ _ Hinv).
    eapply (walk_frame s root own _ t 3 x j); [done|done| | |apply (pi_root _ _ _ Hinv)|done|done|apply indices_range].
    + intros p l y i _ Hi Hpi. by apply Hkeep.
    + intros [|r rest] Hlen _ Hc; [|cbn [length] in Hlen; lia]. destruct Hne. by rewrite vpn_compose, <- Hc.
  - intros p i q Hp Hi Hpt. unfold points. rewrite Hkeep; [done|done|congruence].
  - split; try done; [by rewrite Hfs|by left|]. intros p a _ Hp _ Ha. cbn [s' poked pg_mach mem set_mem]. apply store64_out.
    intros Hx. rewrite (in_page_inj hhdm p t a Ha) in Hp by (by eapply entry_in_page). congruence.
Qed.

Lemma indices_inj va va' : vpn va = vpn va' → indices va = indices va'.
Proof.
  rewrite !vpn_compose. pose proof (indices_range va) as H1. pose proof (indices_range va') as H2.
  unfold indices in *. rewrite !Forall_cons in H1, H2. cbn [compose foldl].
  destruct H1 as (? & ? & ? & ? & _), H2 as (? & ? & ? & ? & _). intros E.
  assert (PTE_INDEX va = PTE_INDEX va') by lia. assert (PMD_INDEX va = PMD_INDEX va') by lia.
  assert (PUD_INDEX va = PUD_INDEX va') by lia. assert (PGD_INDEX va = PGD_INDEX va') by lia. congruence.
Qed.

(** The tables on the way to [virt] are there; [t] is the last. Any memory with
    the same pointers between tables leads there. *)
Record reached (s s' : paging_state) (root : Z) (own own' : gmap Z (Z * Z)) (virt t : Z) : Prop := {
  rc_inv : pt_inv s' root own';
  rc_own : own' !! t = Some (3, compose 0 [PGD_INDEX virt; PUD_INDEX virt; PMD_INDEX virt]);
  rc_walk : ∀ m, (∀ p l x i q, own' !! p = Some (l, x) → l < 3 → 0 ≤ i < 512 → points (mem (pg_mach s')) p i q → points m p i q) →
    walk m (page_va root) (indices virt) = walk m (page_va t) [PTE_INDEX virt];
  rc_same : ∀ va, pte_of s' va = pte_of s va;
  rc_ext : extended (pg_mach s) (pg_mach s') own own';
  rc_free : free_pages (pg_mach s) - 3 ≤ free_pages (pg_mach s')
}.

Lemma reach_leaf s root own virt user : pt_inv s root own → 3 ≤ free_pages (pg_mach s) →
  ∃ t s' own', (pud ← next_table hhdm (page_va root) (PGD_INDEX virt) user;
     pmd ← next_table hhdm pud (PUD_INDEX virt) user; next_table hhdm pmd (PMD_INDEX virt) user) s = Ret (page_va t, s') ∧
    reached s s' root own own' virt t.
Proof.
  intros Hinv Hfree. pose proof (index_range virt 39) as R0. pose proof (index_range virt 30) as R1. pose proof (index_range virt 21) as R2.
  destruct (next_table_spec s root own root 0 0 (PGD_INDEX virt) user) as (q1 & s1 & own1 & E1 & D1); [done|apply Hinv|lia|done|lia|].
  rewrite (K_bind_ret _ _ _ _ _ E1). destruct D1 as [I1 O1 X1 F1 P1 W1 K1].
  destruct (next_table_spec s1 root own1 q1 _ _ (PUD_INDEX virt) user I1 O1) as (q2 & s2 & own2 & E2 & D2); [lia|done|lia|].
  rewrite (K_bind_ret _ _ _ _ _ E2). destruct D2 as [I2 O2 X2 F2 P2 W2 K2].
  destruct (next_table_spec s2 root own2 q2 _ _ (PMD_INDEX virt) user I2 O2) as (q3 & s3 & own3 & E3 & D3); [lia|done|lia|].
  destruct D3 as [I3 O3 X3 F3 P3 W3 K3]. exists q3, s3, own3. split; [exact E3|].
  pose proof (lookup_weaken _ _ _ _ O1 (ex_sub _ _ _ _ X2)) as O12. pose proof (lookup_weaken _ _ _ _ O12 (ex_sub _ _ _ _ X3)) as O13.
  pose proof (lookup_weaken _ _ _ _ O2 (ex_sub _ _ _ _ X3)) as O23. pose proof (pi_root _ _ _ I3) as O03.
  split; [done|exact O3| |intros va; by rewrite W3, W2, W1| |lia].
  - intros m Hm. assert (Ru : ∀ q l y, own3 !! q = Some (l, y) → 0 ≤ q < total_pages (pg_mach s3)).
    { intros q l y Hq. destruct (pi_used _ _ _ I3 _ _ _ Hq) as (? & _). lia. }
    pose proof (K3 _ _ _ (mk_is_Some _ _ (pi_root _ _ _ I2)) R0 (K2 _ _ _ (mk_is_Some _ _ (pi_root _ _ _ I1)) R0 P1)) as Q1.
    pose proof (K3 _ _ _ (mk_is_Some _ _ O12) R1 P2) as Q2. unfold indices.
    rewrite (walk_points _ (pg_mach s3) root _ q1), (walk_points _ (pg_mach s3) q1 _ q2), (walk_points _ (pg_mach s3) q2 _ q3);
      try done; try apply I3; try (by eapply Ru); (eapply Hm; [done|lia|done|done]).
  - do 2 (eapply extended_trans; [eassumption|]). done.
Qed.

Lemma map_page_spec (s : paging_state) (root virt phys flags : Z) (own : gmap Z (Z * Z))
    (Hinv : pt_inv s root own) (Hfree : 3 ≤ free_pages (pg_mach s))
    (Hpte : 0 ≤ Z.lor phys flags < 2 ^ 64) :
  ∃ s' own', map_page hhdm virt phys flags s = Ret (tt, s') ∧ pt_inv s' root own' ∧
    (∀ va, pte_of s' va =
      if decide (vpn va = vpn virt)
      then if present (Z.lor phys flags) then Some (Z.lor phys flags) else None
      else pte_of s va) ∧
    extended (pg_mach s) (pg_mach s') own own' ∧ free_pages (pg_mach s) - 3 ≤ free_pages (pg_mach s').
Proof.
  unfold map_page. erewrite K_bind_ret by reflexivity. rewrite (pi_base _ _ _ Hinv).
  destruct (pi_used _ _ _ Hinv _ _ _ (pi_root _ _ _ Hinv)) as (Hr & _).
  rewrite (proj2 (Z.eqb_neq _ 0)).
  2: { pose proof (po_hhdm _ _ (pi_phys _ _ _ Hinv)). unfold Pages.page_va, PAGE_SIZE. lia. }
  destruct (reach_leaf s root own virt (negb (Z.land flags PTE_USER =? 0)) Hinv Hfree) as (t & s1 & own1 & E & [I1 O1 Hw W1 X1 F1]).
  pose proof (index_range virt 12) as Hi. fold (PTE_INDEX virt) in Hi.
  destruct (poke_leaf s1 root own1 t _ (PTE_INDEX virt) (Z.lor phys flags) I1 O1 Hi) as (I2 & W2 & K2 & X2).
  exists (poked s1 (entry_at (page_va t) (PTE_INDEX virt)) (Z.lor phys flags)), own1.
  split; [|split; [done|split; [|split; [by eapply extended_trans|cbn [poked pg_mach set_mem free_pages]; lia]]]].
  - apply K_bind_inv in E as (pud & sa & Ea & (pmd & sb & Eb & Ec)%K_bind_inv). cbv zeta.
    by rewrite (K_bind_ret _ _ _ _ _ Ea), (K_bind_ret _ _ _ _ _ Eb), (K_bind_ret _ _ _ _ _ Ec).
  - intros va. case_decide as Hva.
    + unfold pte_of. rewrite (indices_inj va virt Hva), (pi_base _ _ _ I2), Hw.
      * cbn [walk]. unfold poked. cbn [pg_mach mem set_mem]. by rewrite load64_store64_eq, u64_small.
      * intros p l x i q Hp Hl. apply K2. intros ->. rewrite O1 in Hp. injection Hp. lia.
    + rewrite W2, W1; [done|]. intros Ev. apply Hva. by rewrite Ev, vpn_compose.
Qed.

(** C10: page tables implement a map from virtual pages to entries: mapping a
    page makes the walk of every address in it end at the entry [phys | flags]
    (or nowhere, if the flags lack the present bit), leaves the walk of every
    other address unchanged, and keeps the tables a tree on pages that are in
    use and apart from the allocator's bitmap. Three free pages are enough for
    the tables that may have to be made. *)
Theorem map_page_updates (s : paging_state) (root virt phys flags : Z) (own : gmap Z (Z * Z))
    (Hinv : pt_inv s root own) (Hfree : 3 ≤ free_pages (pg_mach s))
    (Hpte : 0 ≤ Z.lor phys flags < 2 ^ 64) :
  ∃ s' own', map_page hhdm virt phys flags s = Ret (tt, s') ∧ pt_inv s' root own' ∧
    ∀ va, pte_of s' va =
      if decide (vpn va = vpn virt)
      then if present (Z.lor phys flags) then Some (Z.lor phys flags) else None
      else pte_of s va.
Proof.
  destruct (map_page_spec s root virt phys flags own Hinv Hfree Hpte) as (s' & own' & E & I & W & _). by exists s', own'.
Qed.

End Spec.

(** A machine of eight pages: the bitmap in page 1, an empty root table in
    page 2, five pages free. *)
Definition pg_sample : paging_state :=
  PagingState (Machine (λ a, if a =? 4096 then 7 else 0) 4096 8 5) 8192.

Lemma pg_sample_inv : pt_inv 0 pg_sample 2 {[ 2 := (0, 0) ]}.
Proof.
  assert (Hfs : free_set 0 (pg_mach pg_sample) = list_to_set [3; 4; 5; 6; 7]) by (vm_compute; reflexivity).
  assert (Hcl : ∀ p, 2 ≤ p → clear_page 0 (pg_mach pg_sample) p).
  { intros p Hp a Ha Hb. unfold in_page, page_va, PAGE_SIZE in Ha. unfold in_bitmap in Hb.
    change (phys_to_virt 0 (bitmap (pg_mach pg_sample))) with 4096 in Hb.
    change ((total_pages (pg_mach pg_sample) + 7) / 8) with 1 in Hb. lia. }
  split.
  - split; [done|vm_compute; discriminate| |].
    + split; [rewrite Hfs; reflexivity|vm_compute; split; discriminate|rewrite Hfs; set_solver].
    + intros p Hp. apply Hcl. rewrite Hfs in Hp. set_solver by lia.
  - done.
  - apply lookup_singleton_eq.
  - intros p l x Hp. apply lookup_singleton_Some in Hp as [<- [= <- <-]].
    split; [done|]. split; [rewrite Hfs; set_solver|by apply Hcl].
  - intros p l x i Hp Hl Hi e He. exfalso. apply lookup_singleton_Some in Hp as [<- _].
    assert (E : e = 0); [|rewrite E in He; discriminate].
    unfold e. rewrite (load64_frame (λ _, 0)); [done|]. intros a Ha.
    cbn [pg_sample pg_mach mem]. unfold entry_at, page_va, PAGE_SIZE in Ha.
    by rewrite (proj2 (Z.eqb_neq a 4096)) by lia.
Qed.

Lemma map_page_updates_witness : ∃ s' own',
  map_page 0 4198400 20480 7 pg_sample = Ret (tt, s') ∧ pt_inv 0 s' 2 own' ∧
  pte_of 0 s' 4198500 = Some 20487.
Proof.
  destruct (map_page_updates 0 pg_sample 2 4198400 20480 7 {[ 2 := (0, 0) ]} pg_sample_inv
    ltac:(vm_compute; discriminate) ltac:(vm_compute; split; [discriminate|reflexivity]))
    as (s' & own' & Hrun & Hinv & Hpte).
  exists s', own'. split; [exact Hrun|]. split; [exact Hinv|].
  rewrite Hpte. rewrite decide_True by (vm_compute; reflexivity). vm_compute. reflexivity.
Defined.
