(* ===== verification/UserCopy.v ===== *)
(** * Access to user memory: proc/syscall_user.cpp

    The kernel reaches user memory through the direct map after walking the
    current page tables itself; [cr3] is the register. Kernel buffers and the
    functions' local variables are addresses. *)

From S2P Require Import Prelude Bytes Mem KString Errno Pmm Paging Alloc Vfs.

Definition USER_TOP : Z := 140737488355328.          (* 0x0000800000000000 *)
Definition PAGE_ADDRESS : Z := 4503599627366400.     (* 0x000FFFFFFFFFF000 *)
Definition ERR_BADF : Z := -9.
Definition ERR_2BIG : Z := -7.
Definition ERR_FAULT : Z := -14.
Definition ERR_INVAL : Z := -22.
Definition ERR_NOMEM : Z := -12.
Definition ERR_NFILE : Z := -24.
Definition ERR_NOSYS : Z := -38.
Definition ERR_NOENT : Z := -2.
Definition ERR_NOTDIR : Z := -20.
Definition ERR_NAMETOOLONG : Z := -36.
Definition ERR_RANGE : Z := -34.
Definition ERR_NOTSUP : Z := -95.
Definition MAX_IO_SIZE : Z := 1048576.
Definition MAX_OPEN_FILES : Z := 32.
Definition AT_FDCWD : Z := -100.
Definition MAX_EXEC_STRINGS : Z := 64.
Definition MAX_EXEC_STRING_BYTES : Z := 16384.
Definition MAX_IOVEC_COUNT : Z := 1024.

Section UserCopy.
Context (hhdm cr3 : Z).

(** The loop over the four levels: [indices] are the ones not yet used. *)
Fixpoint translate_loop (m : ram) (table : Z) (indices : list Z) (address : Z) (write_access : bool)
    : option Z :=
  match indices with
  | [] => None
  | i :: rest =>
      let entry := load64 m (entry_at table i) in
      if (Z.land entry PTE_PRESENT =? 0) || (Z.land entry PTE_USER =? 0) then None
      else
        match rest with
        | [] =>
            if write_access && (Z.land entry PTE_WRITABLE =? 0) then None
            else Some (phys_to_virt hhdm (Z.land entry PAGE_ADDRESS) + Z.land address (PAGE_SIZE - 1))
        | _ => translate_loop m (phys_to_virt hhdm (Z.land entry PAGE_ADDRESS)) rest address write_access
        end
  end.

Definition translate_user (m : ram) (address : Z) (write_access : bool) : option Z :=
  if USER_TOP <=? address then None
  else translate_loop m (phys_to_virt hhdm (Z.land cr3 PAGE_ADDRESS))
         [PGD_INDEX address; PUD_INDEX address; PMD_INDEX address; PTE_INDEX address]
         address write_access.

(** Every iteration copies at least a byte, so [size] bounds the loop. *)
Fixpoint copy_loop (fuel : nat) (kernel user_address size copied : Z) (to_user : bool) (m : ram)
    : outcome (bool * ram) :=
  match fuel with
  | O => Diverge
  | S f =>
      if copied <? size then
        let current := u64 (user_address + copied) in
        match translate_user m current to_user with
        | None => Ret (false, m)
        | Some user_bytes =>
            let chunk := PAGE_SIZE - Z.land current (PAGE_SIZE - 1) in
            let chunk := if size - copied <? chunk then size - copied else chunk in
            let m' := if to_user then (memcpy user_bytes (kernel + copied) chunk m).2
                      else (memcpy (kernel + copied) user_bytes chunk m).2 in
            copy_loop f kernel user_address size (copied + chunk) to_user m'
        end
      else Ret (true, m)
  end.

Definition copy_user (kernel_buffer user_address size : Z) (to_user : bool) (m : ram)
    : outcome (bool * ram) :=
  if size =? 0 then Ret (true, m)
  else if (USER_TOP <=? user_address) || (USER_TOP - user_address <? size) then Ret (false, m)
  else copy_loop (S (Z.to_nat size)) kernel_buffer user_address size 0 to_user m.

(** *** Paths and vectors *)

Fixpoint copy_path_loop (k : nat) (i user_path path : Z) (m : ram) : outcome (Z * ram) :=
  match k with
  | O => Ret (ERR_NAMETOOLONG, m)
  | S k' =>
      if (USER_TOP <=? user_path) || (USER_TOP - user_path <=? i) then Ret (ERR_FAULT, m)
      else
        copy_user (path + i) (user_path + i) 1 false m ≫= λ '(ok, m),
        if negb ok then Ret (ERR_FAULT, m)
        else if m (path + i) =? 0 then Ret (if i =? 0 then ERR_NOENT else 0, m)
        else copy_path_loop k' (i + 1) user_path path m
  end.
Definition copy_user_path (user_path path capacity : Z) (m : ram) : outcome (Z * ram) :=
  copy_path_loop (Z.to_nat capacity) 0 user_path path m.

(** The inner loop of copy_user_vector: one string appended to the storage;
    [inl] the new fill, [inr] the error. [value] is the local character. *)
Fixpoint copy_string_loop (fuel : nat) (length user_string storage capacity value used : Z) (m : ram)
    : outcome ((Z + Z) * Z * ram) :=
  match fuel with
  | O => Diverge
  | S f =>
      if capacity <=? used then Ret (inr ERR_2BIG, used, m)
      else if (USER_TOP <=? user_string) || (USER_TOP - user_string <=? length)
      then Ret (inr ERR_FAULT, used, m)
      else
        copy_user value (user_string + length) 1 false m ≫= λ '(ok, m),
        if negb ok then Ret (inr ERR_FAULT, used, m)
        else
          let m := store8 m (storage + used) (m value) in
          let used := used + 1 in
          if m value =? 0 then Ret (inl used, used, m)
          else copy_string_loop f (length + 1) user_string storage capacity value used m
  end.

(** Result, fill of the storage, memory. [slot] is the local user_string. *)
Fixpoint copy_vector_loop (k : nat) (i user_vector strings capacity storage storage_capacity
    slot value used : Z) (m : ram) : outcome (Z * Z * ram) :=
  match k with
  | O => Ret (ERR_2BIG, used, m)
  | S k' =>
      let slot_offset := i * 8 in
      if (USER_TOP <=? user_vector) || (USER_TOP - user_vector <? slot_offset)
         || (USER_TOP - user_vector - slot_offset <? 8)
      then Ret (ERR_FAULT, used, m)
      else
        copy_user slot (user_vector + slot_offset) 8 false m ≫= λ '(ok, m),
        if negb ok then Ret (ERR_FAULT, used, m)
        else
          let user_string := load64 m slot in
          if user_string =? 0 then Ret (i, used, m)
          else if i =? capacity then Ret (ERR_2BIG, used, m)
          else
            let m := store64 m (strings + 8 * i) (storage + used) in
            copy_string_loop (S (Z.to_nat (storage_capacity - used))) 0 user_string storage
              storage_capacity value used m ≫= λ '(r, used, m),
            match r with
            | inr e => Ret (e, used, m)
            | inl _ => copy_vector_loop k' (i + 1) user_vector strings capacity storage
                         storage_capacity slot value used m
            end
  end.
Definition copy_user_vector (user_vector strings capacity storage storage_capacity slot value used : Z)
    (m : ram) : outcome (Z * Z * ram) :=
  if user_vector =? 0 then Ret (0, used, m)
  else copy_vector_loop (S (Z.to_nat capacity)) 0 user_vector strings capacity storage
         storage_capacity slot value used m.

End UserCopy.

(** *** Paths of dentries *)

Section DentryPath.
Context {A : Type} `{Allocator A}.
Abbreviation M := (K (fs_state A)).

(** The names from a dentry up to the root, the dentry's own last. *)
Fixpoint collect_components (fuel : nat) (dentry count : Z) (components : list (list Z))
    : M (Z + (Z * list (list Z))) :=
  match fuel with
  | O => k_diverge
  | S f =>
      if dentry =? 0 then mret (inr (0, components)) else
      d ← get_dentry dentry;
      if d_parent d =? 0 then mret (inr (dentry, components))
      else if count =? 128 then mret (inl ERR_NAMETOOLONG)
      else collect_components f (d_parent d) (count + 1) (d_name d :: components)
  end.

(** The loop that writes the components into the buffer, [used] bytes of
    which are filled. *)
Fixpoint join_components (components : list (list Z)) (used : Z) (path : list Z) : outcome (Z * list Z) :=
  match components with
  | [] => buf_put used [0] path ≫= λ path, Ret (0, path)
  | name :: rest =>
      let separator := if 1 <? used then 1 else 0 in
      if blen path - used <=? blen name + separator then Ret (ERR_NAMETOOLONG, path)
      else
        (if 1 <? used then buf_put used [SLASH] path else Ret path) ≫= λ path,
        buf_put (used + separator) name path ≫= λ path,
        join_components rest (used + separator + blen name) path
  end.

(** The result and the buffer after it, which is written to also when the
    path turns out to be too long; at most 129 dentries are visited. *)
Definition dentry_path (dentry : Z) (path : list Z) : M (Z * list Z) :=
  r ← collect_components 130 dentry 0 [];
  match r with
  | inl e => mret (e, path)
  | inr (dentry, components) =>
      if (dentry =? 0) || (blen path <? 2) then mret (ERR_NAMETOOLONG, path)
      else k_lift (buf_put 0 [SLASH] path ≫= λ path, join_components components 1 path)
  end.

End DentryPath.

(** *** Buffers and memory *)

(** The string in a buffer. *)
Fixpoint buf_str (l : list Z) : list Z :=
  match l with [] => [] | b :: l' => if b =? 0 then [] else b :: buf_str l' end.
(** memcpy of a buffer to memory and from it. *)
Fixpoint store_bytes (m : ram) (a : Z) (bs : list Z) : ram :=
  match bs with [] => m | b :: bs' => store_bytes (store8 m a b) (a + 1) bs' end.
Fixpoint load_bytes (m : ram) (a : Z) (n : nat) : list Z :=
  match n with O => [] | S n' => m a :: load_bytes m (a + 1) n' end.
