(* ===== verification/UserCopySpec.v ===== *)
(** * Correctness of the user-memory accessors

    The kernel's own page walk agrees with the tables, a copy moves exactly
    the bytes of the user range, and a copy to user memory changes nothing but
    bytes the process may write. *)

From S2P Require Import Prelude Mem KString Errno Pmm Pages Paging PagingSpec Alloc Vfs UserCopy.

Lemma memcpy_loop_out k i dest src m x :
  ¬ (dest + i ≤ x < dest + i + Z.of_nat k) → memcpy_loop k i dest src m x = m x.
Proof.
  revert i m. induction k as [|k IH]; intros i m Hx; [done|]. cbn [memcpy_loop].
  rewrite IH by lia. unfold store8. destruct (Z.eqb_spec x (dest + i)); [lia|done].
Qed.
Lemma memcpy_out dest src n m x :
  0 ≤ n → ¬ (dest ≤ x < dest + n) → (memcpy dest src n m).2 x = m x.
Proof. intros Hn Hx. unfold memcpy; cbn [snd]. apply memcpy_loop_out. lia. Qed.

(** A mask of [a] ones at bit [k]. *)
Lemma land_field x a k : 0 ≤ a → 0 ≤ k →
  Z.land x (Z.shiftl (2 ^ a - 1) k) = ((x / 2 ^ k) mod 2 ^ a) * 2 ^ k.
Proof.
  intros Ha Hk. rewrite <- (land_ones_mod _ a), <- Z.shiftl_mul_pow2, <- Z.shiftr_div_pow2 by done.
  apply Z.bits_inj'. intros i Hi. rewrite Z.land_spec. destruct (decide (i < k)).
  - by rewrite !Z.shiftl_spec_low, andb_false_r.
  - rewrite !Z.shiftl_spec_high, Z.land_spec, Z.shiftr_spec by lia.
    by replace (i - k + k) with i by lia.
Qed.

Section Translate.
Context (hhdm cr3 : Z) (s : paging_state) (root : Z) (own : gmap Z (Z * Z)).
Hypothesis Hinv : pt_inv hhdm s root own.
Hypothesis Hcr3 : Z.land cr3 PAGE_ADDRESS = root * PAGE_SIZE.
Hypothesis Htot : total_pages (pg_mach s) ≤ 2 ^ 40.
Abbreviation page_va := (page_va hhdm).
Abbreviation m0 := (mem (pg_mach s)).

(** The memory holds the same page tables. *)
Definition same_tables (m : ram) : Prop :=
  ∀ p a, is_Some (own !! p) → in_page hhdm p a → m a = m0 a.

Lemma page_address_mask e q :
  0 ≤ e < 2 ^ 64 → 0 ≤ q < 2 ^ 40 → clear_low12 e = q * PAGE_SIZE → Z.land e PAGE_ADDRESS = q * PAGE_SIZE.
Proof.
  intros He Hq Hc. rewrite clear_low12_spec in Hc by done. unfold PAGE_SIZE in *.
  change PAGE_ADDRESS with (Z.shiftl (2 ^ 40 - 1) 12). rewrite land_field by lia.
  change (2 ^ 12) with 4096. assert (e / 4096 = q) as -> by div_mod. by rewrite Z.mod_small by lia.
Qed.

Lemma entry_same m p lx i :
  same_tables m → own !! p = Some lx → 0 ≤ i < 512 →
  load64 m (entry_at (page_va p) i) = load64 m0 (entry_at (page_va p) i).
Proof.
  intros Hm Hp Hi. apply load64_frame. intros a Ha. eapply Hm; [eauto|]. by eapply entry_in_page.
Qed.

Lemma translate_loop_same m ix p l x a w :
  same_tables m → own !! p = Some (l, x) → 0 ≤ l → l + Z.of_nat (length ix) = 4 →
  Forall (λ i, 0 ≤ i < 512) ix →
  translate_loop hhdm m (page_va p) ix a w = translate_loop hhdm m0 (page_va p) ix a w.
Proof.
  intros Hm Hp Hl Hlen Hr. revert p l x Hp Hl Hlen.
  induction Hr as [|i ix Hi Hr IH]; intros p l x Hp Hl Hlen; [done|]. cbn [translate_loop].
  rewrite (entry_same m p _ i Hm Hp Hi). set (e := load64 m0 _).
  destruct (Z.land e PTE_PRESENT =? 0) eqn:Ep; [done|]. cbn [orb].
  destruct (Z.land e PTE_USER =? 0); [done|]. destruct ix as [|j ix]; [done|]. cbn [length] in Hlen.
  destruct (pi_entry _ _ _ _ Hinv p l x i Hp ltac:(lia) Hi) as (q & Hq & Hc).
  { unfold present. fold e. by rewrite Ep. }
  fold e in Hc. destruct (pi_used _ _ _ _ Hinv _ _ _ Hq) as (Hqr & _).
  rewrite (page_address_mask e q) by (try apply load64_range; lia || done).
  rewrite (phys_to_virt_page hhdm (pg_mach s)) by (try apply (pi_phys _ _ _ _ Hinv); lia).
  eapply IH; [done|lia|cbn [length]; lia].
Qed.

Lemma translate_same m a w :
  same_tables m → translate_user hhdm cr3 m a w = translate_user hhdm cr3 m0 a w.
Proof.
  intros Hm. unfold translate_user. destruct (_ <=? _); [done|]. rewrite Hcr3.
  destruct (pi_used _ _ _ _ Hinv _ _ _ (pi_root _ _ _ _ Hinv)) as (Hr & _).
  rewrite (phys_to_virt_page hhdm (pg_mach s)) by (try apply (pi_phys _ _ _ _ Hinv); lia).
  eapply translate_loop_same; [done|apply (pi_root _ _ _ _ Hinv)|done|done|apply (indices_range a)].
Qed.

End Translate.

(** Addresses of one page are translated alike. *)
Lemma translate_loop_page hhdm m t ix a k w :
  0 ≤ k → a mod 4096 + k < 4096 →
  translate_loop hhdm m t ix (a + k) w = (λ x, x + k) <$> translate_loop hhdm m t ix a w.
Proof.
  intros Hk Hp. revert t. induction ix as [|i ix IH]; intros t; [done|]. cbn [translate_loop].
  destruct (_ || _); [done|]. destruct ix as [|j ix]; [|apply IH]. destruct (_ && _); [done|].
  cbn [fmap option_fmap option_map]. f_equal. unfold PAGE_SIZE. change (4096 - 1) with (2 ^ 12 - 1).
  rewrite !land_ones_mod by lia. change (2 ^ 12) with 4096. div_mod.
Qed.
Lemma translate_page hhdm cr3 m a k w :
  0 ≤ k → 0 ≤ a → a mod 4096 + k < 4096 →
  translate_user hhdm cr3 m (a + k) w = (λ x, x + k) <$> translate_user hhdm cr3 m a w.
Proof.
  intros Hk Ha Hp. unfold translate_user.
  assert (Hq : (a + k) / 4096 = a / 4096) by div_mod.
  assert (Hs : ∀ j, 12 ≤ j → Z.shiftr (a + k) j = Z.shiftr a j).
  { intros j Hj. rewrite !Z.shiftr_div_pow2 by lia. replace j with (12 + (j - 12)) by lia.
    rewrite Z.pow_add_r by lia. change (2 ^ 12) with 4096. rewrite <- !Z.div_div by lia. by rewrite Hq. }
  assert (Ht : (USER_TOP <=? a + k) = (USER_TOP <=? a)).
  { unfold USER_TOP. repeat zcase; try done; exfalso; div_mod. }
  rewrite Ht. destruct (USER_TOP <=? a); [reflexivity|].
  unfold PGD_INDEX, PUD_INDEX, PMD_INDEX, PTE_INDEX. rewrite !Hs by lia. by apply translate_loop_page.
Qed.

Section Copy.
Context (hhdm cr3 : Z) (s : paging_state) (root : Z) (own : gmap Z (Z * Z)).
Hypothesis Hinv : pt_inv hhdm s root own.
Hypothesis Hcr3 : Z.land cr3 PAGE_ADDRESS = root * PAGE_SIZE.
Hypothesis Htot : total_pages (pg_mach s) ≤ 2 ^ 40.
Abbreviation m0 := (mem (pg_mach s)).
Abbreviation tr := (translate_user hhdm cr3 m0).

(** The chunk of one iteration stays in a page and in the range. *)
Definition chunk_of (cur left : Z) : Z :=
  let c := PAGE_SIZE - Z.land cur (PAGE_SIZE - 1) in if left <? c then left else c.
Lemma chunk_of_spec cur left :
  0 ≤ cur → 0 < left → 0 < chunk_of cur left ≤ left ∧ cur mod 4096 + chunk_of cur left ≤ 4096.
Proof.
  intros Hc Hl. unfold chunk_of, PAGE_SIZE. change (4096 - 1) with (2 ^ 12 - 1).
  rewrite land_ones_mod by lia. change (2 ^ 12) with 4096.
  pose proof (Z.mod_pos_bound cur 4096 ltac:(lia)). zcase; lia.
Qed.

Lemma copy_loop_unfold f kb ua size copied w m :
  0 ≤ ua → ua + size ≤ USER_TOP → 0 ≤ copied < size →
  copy_loop hhdm cr3 (S f) kb ua size copied w m =
    match translate_user hhdm cr3 m (ua + copied) w with
    | None => Ret (false, m)
    | Some t =>
        let chunk := chunk_of (ua + copied) (size - copied) in
        copy_loop hhdm cr3 f kb ua size (copied + chunk) w
          (if w then (memcpy t (kb + copied) chunk m).2 else (memcpy (kb + copied) t chunk m).2)
    end.
Proof.
  intros Hu Hs Hc. cbn [copy_loop]. rewrite (proj2 (Z.ltb_lt _ _)) by lia.
  rewrite u64_small by (unfold USER_TOP in *; lia). done.
Qed.

(** The bytes of a chunk, one by one. *)
Lemma chunk_translate a t chunk w i :
  0 ≤ a → 0 < chunk → a mod 4096 + chunk ≤ 4096 → tr a w = Some t → 0 ≤ i < chunk →
  tr (a + i) w = Some (t + i).
Proof. intros Ha Hc Hp Ht Hi. rewrite translate_page by lia. by rewrite Ht. Qed.

(** The kernel buffer is apart from the tables and from the user bytes. *)
Definition apart (kb ua size : Z) : Prop :=
  (∀ p x, is_Some (own !! p) → in_page hhdm p x → ¬ (kb ≤ x < kb + size)) ∧
  (∀ i t, 0 ≤ i < size → tr (ua + i) false = Some t → ¬ (kb ≤ t < kb + size)).

Lemma copy_from_loop fuel kb ua size copied m :
  0 ≤ ua → ua + size ≤ USER_TOP → 0 ≤ copied ≤ size → size - copied < Z.of_nat fuel →
  apart kb ua size →
  (∀ x, ¬ (kb ≤ x < kb + copied) → m x = m0 x) →
  (∀ i, 0 ≤ i < copied → ∃ t, tr (ua + i) false = Some t ∧ m (kb + i) = m0 t) →
  ∃ ok m', copy_loop hhdm cr3 fuel kb ua size copied false m = Ret (ok, m') ∧
    (∀ x, ¬ (kb ≤ x < kb + size) → m' x = m0 x) ∧
    if ok : bool then ∀ i, 0 ≤ i < size → ∃ t, tr (ua + i) false = Some t ∧ m' (kb + i) = m0 t
    else ∃ i, 0 ≤ i < size ∧ tr (ua + i) false = None.
Proof.
  intros Hu Hs. revert copied m. induction fuel as [|f IH]; intros copied m Hc Hf Hap Hout Hin; [lia|].
  destruct (decide (copied = size)) as [->|Hne].
  { exists true, m. cbn [copy_loop]. rewrite (proj2 (Z.ltb_ge _ _)) by lia. done. }
  rewrite copy_loop_unfold by lia.
  assert (Hst : same_tables hhdm s own m).
  { intros p a Hp Ha. apply Hout. intros Hk. destruct Hap as [Hap _]. eapply Hap; [done|done|lia]. }
  rewrite (translate_same hhdm cr3 s root own Hinv Hcr3 Htot m _ _ Hst).
  destruct (tr (ua + copied) false) as [t|] eqn:Ht.
  2: { exists false, m. split; [done|]. split; [intros x Hx; apply Hout; lia|]. exists copied. split; [lia|done]. }
  cbv zeta. set (chunk := chunk_of _ _).
  destruct (chunk_of_spec (ua + copied) (size - copied)) as [Hch Hpg]; [lia|lia|]. fold chunk in Hch, Hpg.
  assert (Htr : ∀ i, 0 ≤ i < chunk → tr (ua + copied + i) false = Some (t + i)).
  { intros i Hi. eapply chunk_translate; [lia| |exact Hpg|done|done]. lia. }
  assert (Hdis : ∀ i, 0 ≤ i < chunk → ¬ (kb ≤ t + i < kb + size)).
  { intros i Hi. destruct Hap as [_ Hap]. apply (Hap (copied + i)); [lia|].
    replace (ua + (copied + i)) with (ua + copied + i) by lia. by apply Htr. }
  assert (Hsep : kb + copied + chunk ≤ t ∨ t + chunk ≤ kb + copied).
  { pose proof (Hdis 0 ltac:(lia)). destruct (decide (t + chunk ≤ kb + copied)); [by right|left].
    destruct (decide (t < kb)); [|lia]. pose proof (Hdis (kb - t)). lia. }
  apply IH; [lia|lia|done| |].
  - intros x Hx. rewrite memcpy_out by lia. apply Hout. lia.
  - intros i Hi. rewrite memcpy_spec by lia. destruct (decide (i < copied)).
    + destruct (Hin i ltac:(lia)) as (t' & Ht' & Hm). exists t'. split; [done|].
      by rewrite (proj2 (Z.leb_gt _ _)) by lia.
    + exists (t + (i - copied)). split; [rewrite <- Htr by lia; f_equal; lia|].
      rewrite (proj2 (Z.leb_le _ _)), (proj2 (Z.ltb_lt _ _)) by lia. cbn [andb].
      replace (kb + i - (kb + copied)) with (i - copied) by lia. apply Hout.
      pose proof (Hdis (i - copied) ltac:(lia)). lia.
Qed.

(** Where a copy to user memory may write. *)
Definition writable_at (ua size x : Z) : Prop := ∃ i, 0 ≤ i < size ∧ tr (ua + i) true = Some x.

Lemma copy_to_loop fuel kb ua size copied m :
  0 ≤ ua → ua + size ≤ USER_TOP → 0 ≤ copied ≤ size → size - copied < Z.of_nat fuel →
  (∀ p x, is_Some (own !! p) → in_page hhdm p x → ¬ writable_at ua size x) →
  (∀ x, m x ≠ m0 x → writable_at ua size x) →
  (∀ i, 0 ≤ i < copied → tr (ua + i) true ≠ None) →
  ∃ ok m', copy_loop hhdm cr3 fuel kb ua size copied true m = Ret (ok, m') ∧
    (∀ x, m' x ≠ m0 x → writable_at ua size x) ∧
    if ok : bool then ∀ i, 0 ≤ i < size → tr (ua + i) true ≠ None
    else ∃ i, 0 ≤ i < size ∧ tr (ua + i) true = None.
Proof.
  intros Hu Hs. revert copied m. induction fuel as [|f IH]; intros copied m Hc Hf Hap Hout Hin; [lia|].
  destruct (decide (copied = size)) as [->|Hne].
  { exists true, m. cbn [copy_loop]. rewrite (proj2 (Z.ltb_ge _ _)) by lia. done. }
  rewrite copy_loop_unfold by lia.
  assert (Hst : same_tables hhdm s own m).
  { intros p a Hp Ha. destruct (decide (m a = m0 a)) as [|Hx]; [done|].
    by destruct (Hap p a Hp Ha (Hout a Hx)). }
  rewrite (translate_same hhdm cr3 s root own Hinv Hcr3 Htot m _ _ Hst).
  destruct (tr (ua + copied) true) as [t|] eqn:Ht.
  2: { exists false, m. split; [done|]. split; [done|]. exists copied. split; [lia|done]. }
  cbv zeta. set (chunk := chunk_of _ _).
  destruct (chunk_of_spec (ua + copied) (size - copied)) as [Hch Hpg]; [lia|lia|]. fold chunk in Hch, Hpg.
  assert (Htr : ∀ i, 0 ≤ i < chunk → tr (ua + copied + i) true = Some (t + i)).
  { intros i Hi. eapply chunk_translate; [lia| |exact Hpg|done|done]. lia. }
  apply IH; [lia|lia|done| |].
  - intros x Hx. destruct (decide (t ≤ x < t + chunk)) as [Hr|Hr].
    + exists (copied + (x - t)). split; [lia|].
      replace (ua + (copied + (x - t))) with (ua + copied + (x - t)) by lia.
      rewrite Htr by lia. f_equal. lia.
    + rewrite memcpy_out in Hx by lia. by apply Hout.
  - intros i Hi. destruct (decide (i < copied)); [apply Hin; lia|].
    replace (ua + i) with (ua + copied + (i - copied)) by lia. by rewrite Htr by lia.
Qed.



End Copy.

(** The sample machine with user page 0x401000 mapped to frame 6. *)
Definition user_sample : paging_state :=
  match map_page 0 4198400 24576 7 pg_sample with Ret (_, s) => s | _ => pg_sample end.

Lemma user_sample_inv : ∃ own, pt_inv 0 user_sample 2 own ∧ ∀ p, is_Some (own !! p) → p < 6.
Proof.
  destruct (map_page_spec 0 pg_sample 2 4198400 24576 7 {[ 2 := (0, 0) ]} pg_sample_inv
    ltac:(vm_compute; discriminate) ltac:(vm_compute; split; [discriminate|reflexivity]))
    as (s' & own' & Hrun & Hinv & _).
  assert (E : user_sample = s') by (unfold user_sample; by rewrite Hrun).
  exists own'. rewrite E. split; [done|]. intros p [[l x] Hp].
  destruct (pi_used _ _ _ _ Hinv _ _ _ Hp) as (Hr & Hf & _). rewrite <- E in Hr, Hf.
  assert (Htp : total_pages (pg_mach user_sample) = 8) by (vm_compute; reflexivity).
  assert (Hfs : free_set 0 (pg_mach user_sample) = list_to_set [6; 7]) by (vm_compute; reflexivity).
  rewrite Htp in Hr. rewrite Hfs in Hf.
  destruct (decide (p = 6)) as [->|]; [destruct Hf; set_solver|].
  destruct (decide (p = 7)) as [->|]; [destruct Hf; set_solver|]. lia.
Qed.


