(* ===== verification/Sched.v ===== *)
(** * Scheduler: proc/sched.cpp, include/proc/sched.h, proc/switch_context.S

    Tasks are objects in a store keyed by address, linked into one list;
    each CPU has its current task. schedule walks the list circularly from
    the current task to the next READY one and switches the saved registers.
    The CPU a function runs on is a parameter (get_lapic_id). *)

From S2P Require Import Prelude Errno Alloc.

Definition MAX_CPUS : Z := 256.

Inductive TaskState := READY | RUNNING | BLOCKED | ZOMBIE.
#[export] Instance TaskState_eq_dec : EqDecision TaskState.
Proof. solve_decision. Defined.

Record CpuContext := MkContext {
  rax : Z; rbx : Z; rcx : Z; rdx : Z; rsi : Z; rdi : Z; rbp : Z;
  r8 : Z; r9 : Z; r10 : Z; r11 : Z; r12 : Z; r13 : Z; r14 : Z; r15 : Z
}.
(** idt::InterruptFrame: the general registers with the interrupt number and
    error code, and what the processor pushes. *)
Record InterruptFrame := MkIframe {
  if_general : CpuContext; if_int_no : Z; if_err_code : Z;
  if_rip : Z; if_cs : Z; if_rflags : Z; if_rsp : Z; if_ss : Z
}.

Record Task := MkTask {
  pid : Z; state : TaskState; context : CpuContext; iframe : InterruptFrame;
  stack : Z; stack_size : Z; next : Z
}.
Definition sizeof_Task : Z := 336.

(** The callee-saved registers and the stack pointer of the CPU. *)
Record Regs := MkRegs { c_rbx : Z; c_rbp : Z; c_r12 : Z; c_r13 : Z; c_r14 : Z; c_r15 : Z; c_rsp : Z }.

(** switch_context.S stores and loads at fixed offsets: 0x08 rbx, 0x28 rdi,
    0x30 rbp, 0x38 r8, 0x40 r9, 0x48 r10 and 0x50 r11 of struct CpuContext. *)
Definition save_context (r : Regs) (c : CpuContext) : CpuContext :=
  MkContext (rax c) (c_rbx r) (rcx c) (rdx c) (rsi c) (c_rbp r) (c_r12 r)
    (c_r13 r) (c_r14 r) (c_r15 r) (c_rsp r) (r12 c) (r13 c) (r14 c) (r15 c).
Definition load_context (c : CpuContext) : Regs :=
  MkRegs (rbx c) (rdi c) (rbp c) (r8 c) (r9 c) (r10 c) (r11 c).

Record sched_state (A : Type) := MkSched {
  tasks : gmap Z Task;
  current_task : Z → Z;   (* per_cpu_data[i].current_task *)
  cpu_id : Z → Z;
  initialized : bool;
  task_list_head : Z;
  next_pid : Z;
  regs : Regs;
  s_heap : A
}.
Arguments MkSched {A}. Arguments tasks {A}. Arguments current_task {A}. Arguments cpu_id {A}.
Arguments initialized {A}. Arguments task_list_head {A}. Arguments next_pid {A}.
Arguments regs {A}. Arguments s_heap {A}.

Section Sched.
Context {A : Type} `{Allocator A}.
Abbreviation M := (K (sched_state A)).

Definition set_tasks v (s : sched_state A) := MkSched v (current_task s) (cpu_id s) (initialized s)
  (task_list_head s) (next_pid s) (regs s) (s_heap s).
Definition set_current v (s : sched_state A) := MkSched (tasks s) v (cpu_id s) (initialized s)
  (task_list_head s) (next_pid s) (regs s) (s_heap s).
Definition set_cpu_id v (s : sched_state A) := MkSched (tasks s) (current_task s) v (initialized s)
  (task_list_head s) (next_pid s) (regs s) (s_heap s).
Definition set_initialized v (s : sched_state A) := MkSched (tasks s) (current_task s) (cpu_id s) v
  (task_list_head s) (next_pid s) (regs s) (s_heap s).
Definition set_list_head v (s : sched_state A) := MkSched (tasks s) (current_task s) (cpu_id s)
  (initialized s) v (next_pid s) (regs s) (s_heap s).
Definition set_next_pid v (s : sched_state A) := MkSched (tasks s) (current_task s) (cpu_id s)
  (initialized s) (task_list_head s) v (regs s) (s_heap s).
Definition set_regs v (s : sched_state A) := MkSched (tasks s) (current_task s) (cpu_id s)
  (initialized s) (task_list_head s) (next_pid s) v (s_heap s).
Definition set_s_heap v (s : sched_state A) : sched_state A := MkSched (tasks s) (current_task s)
  (cpu_id s) (initialized s) (task_list_head s) (next_pid s) (regs s) v.

Definition get_task (p : Z) : M Task := λ s, k_deref (tasks s !! p) s.
Definition put_task (p : Z) (t : Task) : M unit := k_modify (λ s, set_tasks (<[p := t]> (tasks s)) s).
Definition with_state (t : Task) (st : TaskState) : Task :=
  MkTask (pid t) st (context t) (iframe t) (stack t) (stack_size t) (next t).
Definition with_pid (t : Task) (n : Z) : Task :=
  MkTask n (state t) (context t) (iframe t) (stack t) (stack_size t) (next t).
Definition with_context (t : Task) (c : CpuContext) : Task :=
  MkTask (pid t) (state t) c (iframe t) (stack t) (stack_size t) (next t).

Definition alloc (n : Z) : M Z := λ s,
  match slab_alloc n (s_heap s) with
  | Ret (p, h) => Ret (p, set_s_heap h s)
  | Panic w => Panic w | Fault => Fault | Diverge => Diverge
  end.
Definition free (p n : Z) : M unit := λ s,
  match slab_free p n (s_heap s) with
  | Ret h => Ret (tt, set_s_heap h s)
  | Panic w => Panic w | Fault => Fault | Diverge => Diverge
  end.

Definition update (f : Z → Z) (k v : Z) : Z → Z := λ x, if x =? k then v else f x.

(** The task's memory comes from the allocator as it is: [junk] is what it
    held before. *)
Definition create_task (junk : Task) (entry_point stk_size : Z) : M Z :=
  new_task ← alloc sizeof_Task;
  if new_task =? 0 then mret 0 else
  stk ← alloc stk_size;
  if stk =? 0 then free new_task sizeof_Task ≫= λ _, mret 0
  else
    n ← k_gets next_pid;
    k_modify (λ s, set_next_pid (u64 (n + 1)) s) ≫= λ _,
    let top := u64 (stk + stk_size) in
    let c := context junk in
    let ctx := MkContext (rax c) (rbx c) (rcx c) (rdx c) (rsi c) (rdi c) 0
      (r8 c) (r9 c) (r10 c) (r11 c) (r12 c) (r13 c) (r14 c) (r15 c) in
    let f := iframe junk in
    let frm := MkIframe (if_general f) (if_int_no f) (if_err_code f) entry_point 8 514 top 16 in
    head ← k_gets task_list_head;
    put_task new_task (MkTask n READY ctx frm top stk_size head) ≫= λ _,
    k_modify (λ s, set_list_head new_task s) ≫= λ _,
    mret new_task.

Definition switch_context (old_task new_task : Z) : M unit :=
  r ← k_gets regs;
  o ← get_task old_task;
  put_task old_task (with_context o (save_context r (context o))) ≫= λ _,
  n ← get_task new_task;
  k_modify (λ s, set_regs (load_context (context n)) s).

(** The loop of schedule; the task list bounds a round. *)
Fixpoint schedule_loop (fuel : nat) (cpu current nxt : Z) : M unit :=
  match fuel with
  | O => k_diverge
  | S f =>
      head ← k_gets task_list_head;
      let nxt := if nxt =? 0 then head else nxt in
      if nxt =? current then mret tt
      else
        n ← get_task nxt;
        if decide (state n = READY) then
          c ← get_task current;
          (if decide (state c = RUNNING) then put_task current (with_state c READY) else mret tt) ≫= λ _,
          n ← get_task nxt;
          put_task nxt (with_state n RUNNING) ≫= λ _,
          k_modify (λ s, set_current (update (current_task s) cpu nxt) s) ≫= λ _,
          switch_context current nxt
        else schedule_loop f cpu current (next n)
  end.
Definition round {B} (f : nat → M B) : M B := λ s, f (S (S (size (tasks s)))) s.
Definition schedule (cpu : Z) : M unit :=
  current ← k_gets (λ s, current_task s cpu);
  if current =? 0 then k_panic "scheduler: No current task"
  else
    c ← get_task current;
    round (λ k, schedule_loop k cpu current (next c)).

(** The part init and init_all_cpus share: one CPU's first task. *)
Definition start_cpu (junk : Task) (entry stk_size cpu : Z) (why : string) : M unit :=
  task ← create_task junk entry stk_size;
  if task =? 0 then k_panic why
  else
    t ← get_task task;
    put_task task (with_state (with_pid t 0) RUNNING) ≫= λ _,
    k_modify (λ s, set_current (update (current_task s) cpu task) s) ≫= λ _,
    k_modify (λ s, set_cpu_id (update (cpu_id s) cpu cpu) s).

Fixpoint init_cpus_loop (junk : Task) (entry stk_size : Z) (lapic_ids : list Z) : M unit :=
  match lapic_ids with
  | [] => mret tt
  | id :: ids =>
      if MAX_CPUS <=? id then k_panic "scheduler: LAPIC ID exceeds MAX_CPUS"
      else
        start_cpu junk entry stk_size id "scheduler: Failed to create idle task" ≫= λ _,
        init_cpus_loop junk entry stk_size ids
  end.
Definition init_all_cpus (junk : Task) (entry stk_size : Z) (lapic_ids : list Z) : M unit :=
  b ← k_gets initialized;
  if (b : bool) then mret tt
  else
    k_modify (set_initialized true) ≫= λ _,
    init_cpus_loop junk entry stk_size lapic_ids.

Definition sched_init (junk : Task) (entry stk_size processor_id : Z) : M unit :=
  b ← k_gets initialized;
  if (b : bool) then mret tt
  else
    k_modify (set_initialized true) ≫= λ _,
    start_cpu junk entry stk_size processor_id "scheduler: Failed to create task".

End Sched.
