(* ===== verification/SchedSpec.v ===== *)
(** * Round-robin scheduling

    [task_chain] says which tasks the linked list holds. schedule picks the
    first READY task after the current one in circular order, terminates, and
    changes only the two tasks involved; when every task is ready to run, each
    gets its turn within one round. *)

From S2P Require Import Prelude Errno Alloc Sched.

Fixpoint task_chain (ts : gmap Z Task) (p : Z) (l : list Z) : Prop :=
  match l with
  | [] => p = 0
  | x :: l' => p = x ∧ x ≠ 0 ∧ ∃ t, ts !! x = Some t ∧ task_chain ts (next t) l'
  end.

Lemma task_chain_elem ts p l x : task_chain ts p l → x ∈ l → is_Some (ts !! x) ∧ x ≠ 0.
Proof.
  revert p. induction l as [|y l IH]; intros p; simpl; [set_solver|].
  intros (-> & Hy & t & Ht & Hc) [->|Hx]%elem_of_cons; [eauto|]. by eapply IH.
Qed.
Lemma task_chain_agree ts1 ts2 p l :
  (∀ x, x ∈ l → next <$> ts1 !! x = next <$> ts2 !! x) → task_chain ts1 p l → task_chain ts2 p l.
Proof.
  revert p. induction l as [|y l IH]; intros p Hx; simpl; [done|].
  intros (-> & Hy & t & Ht & Hc). split; [done|]. split; [done|].
  pose proof (Hx y ltac:(set_solver)) as E. rewrite Ht in E.
  destruct (ts2 !! y) as [t2|]; simpl in E; [|done]. injection E as E. exists t2. split; [done|].
  rewrite <- E. apply IH; [|done]. intros z Hz. apply Hx. set_solver.
Qed.
Lemma task_chain_length ts p l : task_chain ts p l → NoDup l → (length l ≤ size ts)%nat.
Proof.
  intros Hc Hnd. rewrite <- (size_dom ts), <- (size_list_to_set (C:=gset Z) l) by done.
  apply subseteq_size. intros x. rewrite elem_of_list_to_set, elem_of_dom. intros Hx.
  by eapply task_chain_elem.
Qed.
Lemma task_chain_app ts p l1 x l2 :
  task_chain ts p (l1 ++ x :: l2) → ∃ t, ts !! x = Some t ∧ x ≠ 0 ∧ task_chain ts (next t) l2.
Proof.
  revert p. induction l1 as [|y l1 IH]; intros p; simpl.
  - intros (_ & Hx & t & Ht & Hc). eauto.
  - intros (_ & _ & t & _ & Hc). eauto.
Qed.

(** The first READY task of a list. *)
Fixpoint find_ready (ts : gmap Z Task) (l : list Z) : option Z :=
  match l with
  | [] => None
  | x :: l' => if decide (state <$> ts !! x = Some READY) then Some x else find_ready ts l'
  end.
Lemma find_ready_app ts l1 l2 :
  find_ready ts (l1 ++ l2) = match find_ready ts l1 with Some x => Some x | None => find_ready ts l2 end.
Proof. induction l1 as [|x l1 IH]; simpl; [done|]. by case_decide. Qed.
Lemma find_ready_Some ts l x : find_ready ts l = Some x → x ∈ l ∧ state <$> ts !! x = Some READY.
Proof. induction l as [|y l IH]; simpl; [done|]. case_decide; intros; simplify_eq; set_solver. Qed.

Section Round.
Context {A : Type} `{Allocator A}.
Implicit Types s : sched_state A.

(** The state after CPU [cpu] switched from [cur] to [n]. *)
Definition stop_task (t : Task) : Task := if decide (state t = RUNNING) then with_state t READY else t.
Definition switched (cpu cur n : Z) (c nt : Task) (s : sched_state A) : sched_state A :=
  set_regs (load_context (context nt))
    (set_tasks (<[cur := with_context (stop_task c) (save_context (regs s) (context c))]>
                  (<[n := with_state nt RUNNING]> (tasks s)))
       (set_current (update (current_task s) cpu n) s)).

Lemma get_task_ret s p t : tasks s !! p = Some t → get_task p s = Ret (t, s).
Proof. intros Ht. unfold get_task. by rewrite Ht. Qed.

(** One iteration of the loop at a task that is not the current one. *)
Lemma schedule_step f cpu cur p s c t :
  p ≠ 0 → p ≠ cur → tasks s !! p = Some t → tasks s !! cur = Some c →
  schedule_loop (S f) cpu cur p s =
    if decide (state t = READY) then Ret (tt, switched cpu cur p c t s)
    else schedule_loop f cpu cur (next t) s.
Proof.
  intros Hp Hne Ht Hc. cbn [schedule_loop]. erewrite K_bind_ret by reflexivity.
  rewrite (proj2 (Z.eqb_neq p 0)) by done. cbv zeta. rewrite (proj2 (Z.eqb_neq p cur)) by done.
  rewrite (K_bind_ret _ _ _ _ _ (get_task_ret _ _ _ Ht)). case_decide as Hs; [|done].
  rewrite (K_bind_ret _ _ _ _ _ (get_task_ret _ _ _ Hc)).
  set (s1 := if decide (state c = RUNNING) then set_tasks (<[cur := with_state c READY]> (tasks s)) s else s).
  rewrite (K_bind_ret _ _ s tt s1) by (unfold s1; by case_decide).
  assert (Ht1 : tasks s1 !! p = Some t) by (unfold s1; case_decide; [cbn; by rewrite lookup_insert_ne|done]).
  rewrite (K_bind_ret _ _ _ _ _ (get_task_ret _ _ _ Ht1)). krun.
  unfold switch_context. krun.
  set (s2 := set_current _ _).
  assert (Hc2 : tasks s2 !! cur = Some (stop_task c)).
  { unfold s2; cbn. rewrite lookup_insert_ne by done. unfold s1, stop_task. case_decide; cbn; [|done].
    apply lookup_insert_eq. }
  rewrite (K_bind_ret _ _ _ _ _ (get_task_ret _ _ _ Hc2)). krun.
  set (s3 := set_tasks _ s2).
  assert (Hn3 : tasks s3 !! p = Some (with_state t RUNNING)).
  { unfold s3, s2; cbn. rewrite lookup_insert_ne by done. apply lookup_insert_eq. }
  rewrite (K_bind_ret _ _ _ _ _ (get_task_ret _ _ _ Hn3)).
  unfold k_modify. f_equal. f_equal. unfold switched, s3, s2, s1.
  assert (Hctx : context (stop_task c) = context c) by (unfold stop_task; by case_decide).
  rewrite Hctx. destruct s; unfold set_regs, set_tasks, set_current; cbn in *.
  case_decide; cbn; [|done]. f_equal. apply map_eq. intros i. rewrite !lookup_insert.
  repeat case_decide; done.
Qed.

(** The part of the circle before the current task. *)
Lemma schedule_before f cpu cur p s c l1 l2 :
  task_chain (tasks s) p (l1 ++ cur :: l2) → cur ∉ l1 → tasks s !! cur = Some c →
  (length l1 < f)%nat →
  schedule_loop f cpu cur p s =
    match find_ready (tasks s) l1 with
    | Some n => match tasks s !! n with Some t => Ret (tt, switched cpu cur n c t s) | None => Fault end
    | None => Ret (tt, s)
    end.
Proof.
  revert f p. induction l1 as [|x l1 IH]; intros [|f] p Hch Hn Hc Hf; simpl in Hf; try lia.
  - destruct Hch as (-> & Hx & t & Ht & _). cbn [schedule_loop find_ready].
    erewrite K_bind_ret by reflexivity. cbv zeta.
    rewrite (proj2 (Z.eqb_neq cur 0)) by done. by rewrite Z.eqb_refl.
  - destruct Hch as (-> & Hx & t & Ht & Hch).
    rewrite (schedule_step f cpu cur x s c t) by (done || set_solver).
    cbn [find_ready]. rewrite Ht. cbn [fmap option_fmap option_map]. case_decide as Hr.
    + rewrite decide_True by congruence. by rewrite Ht.
    + rewrite decide_False by congruence. apply IH; [done|set_solver|done|lia].
Qed.

(** The part after it; the null link leads back to the head. *)
Lemma schedule_after f cpu cur p s c l1 l2 l3 :
  task_chain (tasks s) p l3 → task_chain (tasks s) (task_list_head s) (l1 ++ cur :: l2) →
  cur ∉ l1 → cur ∉ l3 → tasks s !! cur = Some c → (length l1 + length l3 < f)%nat →
  schedule_loop f cpu cur p s =
    match find_ready (tasks s) (l3 ++ l1) with
    | Some n => match tasks s !! n with Some t => Ret (tt, switched cpu cur n c t s) | None => Fault end
    | None => Ret (tt, s)
    end.
Proof.
  revert f p. induction l3 as [|x l3 IH]; intros [|f] p Hch Hhd Hn1 Hn3 Hc Hf; simpl in Hf; try lia.
  - cbn in Hch. subst p. cbn [app].
    assert (Hh0 : task_list_head s ≠ 0) by (destruct l1; destruct Hhd as (-> & ? & _); done).
    rewrite <- (schedule_before (S f) cpu cur (task_list_head s) s c l1 l2) by (done || lia).
    cbn [schedule_loop]. erewrite !K_bind_ret by reflexivity. cbv zeta. rewrite Z.eqb_refl.
    by rewrite (proj2 (Z.eqb_neq _ 0)) by done.
  - destruct Hch as (-> & Hx & t & Ht & Hch).
    rewrite (schedule_step f cpu cur x s c t) by (done || set_solver).
    cbn [find_ready app]. rewrite Ht. cbn [fmap option_fmap option_map]. case_decide as Hr.
    + rewrite decide_True by congruence. by rewrite Ht.
    + rewrite decide_False by congruence. apply IH; [done|done|done|set_solver|done|lia].
Qed.

Lemma schedule_spec cpu s l1 cur l2 :
  task_chain (tasks s) (task_list_head s) (l1 ++ cur :: l2) → NoDup (l1 ++ cur :: l2) →
  current_task s cpu = cur →
  ∃ c, tasks s !! cur = Some c ∧
  schedule cpu s =
    match find_ready (tasks s) (l2 ++ l1) with
    | Some n => match tasks s !! n with Some t => Ret (tt, switched cpu cur n c t s) | None => Fault end
    | None => Ret (tt, s)
    end.
Proof.
  intros Hch Hnd Hcur. destruct (task_chain_app _ _ _ _ _ Hch) as (c & Hc & Hc0 & Hnx).
  exists c. split; [done|]. unfold schedule. erewrite K_bind_ret by reflexivity. rewrite Hcur.
  rewrite (proj2 (Z.eqb_neq cur 0)) by done. rewrite (K_bind_ret _ _ _ _ _ (get_task_ret _ _ _ Hc)).
  unfold round. pose proof (task_chain_length _ _ _ Hch Hnd) as Hlen. rewrite length_app in Hlen. cbn in Hlen.
  apply NoDup_app in Hnd as (Hn1 & Hd & Hn2). apply NoDup_cons in Hn2 as [Hc2 Hn2].
  eapply schedule_after; [done|exact Hch| |done|done|lia]. intros Hin. by apply (Hd cur Hin); left.
Qed.

(** C15: schedule is round robin and total: on a CPU whose current task is in
    the task list it returns, having chosen the first READY task after the
    current one in circular order. That task is RUNNING and current, with its
    saved registers in the CPU; the previous task keeps its registers in its
    context and is READY if it was running; no other task changes. When no
    other task is READY nothing changes. *)
Theorem schedule_round_robin (cpu cur : Z) (l1 l2 : list Z) (s : sched_state A)
    (Hlist : task_chain (tasks s) (task_list_head s) (l1 ++ cur :: l2))
    (Hnodup : NoDup (l1 ++ cur :: l2)) (Hcur : current_task s cpu = cur) :
  ∃ s' c, schedule cpu s = Ret (tt, s') ∧ tasks s !! cur = Some c ∧
    match find_ready (tasks s) (l2 ++ l1) with
    | None => s' = s
    | Some n => ∃ t, tasks s !! n = Some t ∧ n ≠ cur ∧
        current_task s' cpu = n ∧ regs s' = load_context (context t) ∧
        tasks s' !! n = Some (with_state t RUNNING) ∧
        tasks s' !! cur = Some (with_context (stop_task c) (save_context (regs s) (context c))) ∧
        ∀ x, x ≠ n → x ≠ cur → tasks s' !! x = tasks s !! x
    end.
Proof.
  destruct (schedule_spec cpu s l1 cur l2 Hlist Hnodup Hcur) as (c & Hc & Hrun).
  destruct (find_ready (tasks s) (l2 ++ l1)) as [n|] eqn:Hf; [|by exists s, c].
  apply find_ready_Some in Hf as [Hin Hst].
  destruct (tasks s !! n) as [t|] eqn:Ht; [|done]. eexists _, c. split; [exact Hrun|]. split; [done|].
  exists t. split; [done|].
  assert (Hne : n ≠ cur).
  { apply NoDup_app in Hnodup as (_ & Hd & Hn2). apply NoDup_cons in Hn2 as [Hc2 _].
    intros ->. apply elem_of_app in Hin as [Hin|Hin]; [done|]. by apply (Hd cur Hin); left. }
  unfold switched; cbn. split; [done|]. split; [unfold update; by rewrite Z.eqb_refl|]. split; [done|].
  split; [by rewrite lookup_insert_ne, lookup_insert_eq|]. split; [apply lookup_insert_eq|].
  intros x Hxn Hxc. by rewrite !lookup_insert_ne.
Qed.

(** ** Fairness *)

(** Everyone but the current task is waiting to run. *)
Definition all_ready (s : sched_state A) (cpu cur : Z) (l : list Z) : Prop :=
  task_chain (tasks s) (task_list_head s) l ∧ NoDup l ∧ current_task s cpu = cur ∧
  ∀ x, x ∈ l → state <$> tasks s !! x = Some (if decide (x = cur) then RUNNING else READY).

Lemma schedule_next cpu s l i cur nxt :
  all_ready s cpu cur l → l !! i = Some cur → l !! ((i + 1) mod length l)%nat = Some nxt → nxt ≠ cur →
  ∃ s', schedule cpu s = Ret (tt, s') ∧ all_ready s' cpu nxt l.
Proof.
  intros (Hch & Hnd & Hcur & Hst) Hi Hnx Hne.
  pose proof (take_drop_middle l i cur Hi) as El.
  remember (take i l) as l1 eqn:E1l. remember (drop (S i) l) as l2 eqn:E2l.
  assert (Hlt := lookup_lt_Some _ _ _ Hi).
  assert (Hl1 : length l1 = i) by (rewrite E1l, length_take; lia).
  assert (Hhead : head (l2 ++ l1) = Some nxt).
  { destruct (decide (i + 1 = length l)%nat) as [E|E].
    - rewrite E, Nat.Div0.mod_same in Hnx. rewrite E2l, drop_ge by lia. cbn [app]. rewrite E1l.
      destruct i; [exfalso; rewrite Hi in Hnx; by injection Hnx as ->|].
      destruct l as [|z l']; [done|]. done.
    - rewrite Nat.mod_small in Hnx by lia. rewrite E2l.
      rewrite (drop_S l nxt) by (by rewrite <- Nat.add_1_r). done. }
  rewrite <- El in Hch, Hnd. destruct (schedule_spec cpu s l1 cur l2 Hch Hnd Hcur) as (c & Hc & Hrun).
  assert (Hin : nxt ∈ l) by (by eapply list_elem_of_lookup_2).
  pose proof (Hst _ Hin) as Hsn. rewrite decide_False in Hsn by done.
  assert (Hrdy : find_ready (tasks s) (l2 ++ l1) = Some nxt).
  { destruct (l2 ++ l1) as [|y r]; [done|]. injection Hhead as ->. cbn [find_ready].
    by rewrite decide_True. }
  rewrite Hrdy in Hrun.
  destruct (tasks s !! nxt) as [t|] eqn:Ht; [|done].
  eexists. split; [exact Hrun|]. unfold switched, all_ready; cbn. rewrite El in *. split; [|split; [done|split]].
  - eapply task_chain_agree; [|exact Hch]. intros x Hx. rewrite !lookup_insert.
    repeat case_decide; subst; rewrite ?Hc, ?Ht; try done. cbn. unfold stop_task. by case_decide.
  - unfold update. by rewrite Z.eqb_refl.
  - intros x Hx. rewrite !lookup_insert.
    assert (Hcl : cur ∈ l) by (by eapply list_elem_of_lookup_2).
    pose proof (Hst _ Hcl) as Hsc. rewrite Hc, decide_True in Hsc by done. injection Hsc as Hsc.
    case_decide as E1.
    + subst x. rewrite decide_False by done. cbn. unfold stop_task. rewrite Hsc. done.
    + case_decide as E2; [subst x; by rewrite decide_True|]. rewrite decide_False by done.
      rewrite (Hst _ Hx). by rewrite decide_False.
Qed.

(** With two tasks or more the next one is another. *)
Lemma schedule_advances cpu s l i cur :
  all_ready s cpu cur l → l !! i = Some cur → (1 < length l)%nat →
  ∃ s' nxt, schedule cpu s = Ret (tt, s') ∧ all_ready s' cpu nxt l ∧ l !! ((i + 1) mod length l)%nat = Some nxt.
Proof.
  intros Hready Hcur Hmany. set (j := ((i + 1) mod length l)%nat).
  assert (Hj : (j < length l)%nat) by (apply Nat.mod_upper_bound; lia).
  destruct (lookup_lt_is_Some_2 l j Hj) as [nxt Hnxt].
  assert (Hne : nxt ≠ cur).
  { intros ->. destruct Hready as (_ & Hnd & _).
    assert (j = i) as E by (by eapply (NoDup_lookup l j i cur)).
    assert (Hlt := lookup_lt_Some _ _ _ Hcur). unfold j in E.
    destruct (decide (i + 1 = length l)%nat) as [E1|E1].
    - rewrite E1, Nat.Div0.mod_same in E. lia.
    - rewrite Nat.mod_small in E by lia. lia. }
  destruct (schedule_next cpu s l i cur nxt Hready Hcur Hnxt Hne) as (s1 & Hrun & Hready1). by exists s1, nxt.
Qed.

Fixpoint iterate (k : nat) (m : K (sched_state A) unit) : K (sched_state A) unit :=
  match k with O => mret tt | S k' => m ≫= λ _, iterate k' m end.

(** fairness: when all tasks of a CPU are ready to run, [k] calls of
    schedule pass the CPU to the task [k] places further round the list, so
    every task runs within one round of calls. *)
Theorem round_robin_fair (cpu : Z) (l : list Z) (i k : nat) (cur : Z) (s : sched_state A)
    (Hready : all_ready s cpu cur l) (Hcur : l !! i = Some cur) (Hmany : (1 < length l)%nat) :
  ∃ s' nxt, iterate k (schedule cpu) s = Ret (tt, s') ∧
    l !! ((i + k) mod length l)%nat = Some nxt ∧ current_task s' cpu = nxt.
Proof.
  revert i cur s Hready Hcur. induction k as [|k IH]; intros i cur s Hready Hcur.
  - exists s, cur. assert (Hlt := lookup_lt_Some _ _ _ Hcur).
    rewrite Nat.add_0_r, Nat.mod_small by lia. destruct Hready as (_ & _ & ? & _). done.
  - destruct (schedule_advances cpu s l i cur Hready Hcur Hmany) as (s1 & nxt & Hrun & Hready1 & Hnxt).
    destruct (IH _ nxt s1 Hready1 Hnxt) as (s' & n' & Hrun' & Hn' & Hc').
    exists s', n'. cbn [iterate]. rewrite (K_bind_ret _ _ _ _ _ Hrun). split; [done|]. split; [|done].
    rewrite <- Hn'. f_equal. rewrite Nat.Div0.add_mod_idemp_l. f_equal. lia.
Qed.


End Round.

(** Two tasks on CPU 0: the one at 16 runs, the one at 32 waits. *)
Definition ctx0 : CpuContext := MkContext 0 0 0 0 0 0 0 0 0 0 0 0 0 0 0.
Definition task0 (p : Z) (st : TaskState) (nx : Z) : Task :=
  MkTask p st ctx0 (MkIframe ctx0 0 0 0 8 514 0 16) 0 4096 nx.
Definition two_tasks : sched_state bump :=
  MkSched (<[32 := task0 2 READY 16]> {[ 16 := task0 1 RUNNING 0 ]}) (λ _, 16) (λ c, c) true 32 3
    (MkRegs 1 2 3 4 5 6 7) (Bump 100 0).

Lemma two_tasks_list : task_chain (tasks two_tasks) 32 [32; 16].
Proof.
  split; [done|]. split; [done|]. exists (task0 2 READY 16). split; [apply lookup_insert_eq|].
  split; [done|]. split; [done|]. exists (task0 1 RUNNING 0). done.
Qed.
Lemma two_tasks_nodup : NoDup [32; 16].
Proof. apply (bool_decide_unpack _). vm_compute. exact I. Qed.

Lemma schedule_round_robin_witness :
  ∃ s' c, schedule 0 two_tasks = Ret (tt, s') ∧ tasks two_tasks !! 16 = Some c ∧ current_task s' 0 = 32.
Proof.
  destruct (schedule_round_robin 0 16 [32] [] two_tasks two_tasks_list two_tasks_nodup eq_refl)
    as (s' & c & Hrun & Hc & Hcase).
  exists s', c. split; [exact Hrun|]. split; [exact Hc|].
  destruct Hcase as (t & _ & _ & Hcur & _). exact Hcur.
Defined.

Lemma two_tasks_ready : all_ready two_tasks 0 16 [32; 16].
Proof.
  split; [apply two_tasks_list|]. split; [apply two_tasks_nodup|]. split; [done|].
  intros x [->|[->|Hx]%elem_of_cons]%elem_of_cons; [done|done|by apply elem_of_nil in Hx].
Qed.

Lemma round_robin_fair_witness :
  ∃ s' nxt, iterate 3 (schedule 0) two_tasks = Ret (tt, s') ∧ Some 32 = Some nxt ∧ current_task s' 0 = nxt.
Proof.
  exact (round_robin_fair 0 [32; 16] 1 3 16 two_tasks two_tasks_ready eq_refl ltac:(simpl; lia)).
Defined.

(** The state after CPU 0 switched away from task 16. *)
Definition two_tasks' : sched_state bump :=
  match schedule 0 two_tasks with Ret (_, s) => s | _ => two_tasks end.


(** a new task's first switch does not load its stack: create_task fills
    the interrupt frame with the entry point and the stack top, but
    switch_context takes the stack pointer from the context word that
    create_task leaves as it found it. *)
Theorem new_task_stack_unset {A} `{Allocator A} (junk : Task) (entry stk_size : Z) (s : sched_state A)
    (t : Z) (s' : sched_state A)
    (Hrun : create_task junk entry stk_size s = Ret (t, s')) (Ht : t ≠ 0) :
  ∃ task, tasks s' !! t = Some task ∧
    if_rsp (iframe task) = stack task ∧ if_rip (iframe task) = entry ∧
    c_rsp (load_context (context task)) = r11 (context junk).
Proof.
  unfold create_task in Hrun.
  apply K_bind_inv in Hrun as (p & s1 & _ & Hrun). destruct (p =? 0);
    [unfold mret, K_ret in Hrun; by simplify_eq|].
  apply K_bind_inv in Hrun as (k & s2 & _ & Hrun). destruct (k =? 0).
  { apply K_bind_inv in Hrun as ([] & s3 & _ & Hrun). unfold mret, K_ret in Hrun. by simplify_eq. }
  revert Hrun. krun. unfold mret, K_ret. intros [= <- <-]. eexists. split; [apply lookup_insert_eq|done].
Qed.

Lemma new_task_stack_unset_witness :
  ∃ s' task, create_task (task0 0 READY 0) 4096 4096 two_tasks = Ret (KERNEL_BASE, s') ∧
    tasks s' !! KERNEL_BASE = Some task ∧ c_rsp (load_context (context task)) = 0.
Proof.
  destruct (create_task (task0 0 READY 0) 4096 4096 two_tasks) as [[t s']| | |] eqn:E;
    [|vm_compute in E; discriminate..].
  assert (Ht : t = KERNEL_BASE).
  { unfold create_task in E. vm_compute in E. injection E as <- _. reflexivity. }
  destruct (new_task_stack_unset (task0 0 READY 0) 4096 4096 two_tasks t s' E) as (task & Hl & _ & _ & Hr).
  { rewrite Ht. discriminate. }
  rewrite Ht in *. exists s', task. split; [reflexivity|]. split; [exact Hl|exact Hr].
Defined.
