(* ===== verification/Gdt.v ===== *)
(** * Segment descriptors: src/gdt.cpp

    The seven descriptors and the TSS of a CPU. A descriptor scatters an
    address over several fields; the theorem shows that the processor's
    decoding of the fields gives the address back. *)

From S2P Require Import Prelude.

Record GDTEntry := MkGdt {
  limit_low : Z; base_low : Z; base_middle : Z; access : Z; granularity : Z; base_high : Z
}.
Record TSSEntry := MkTss { rsp0 : Z; rsp1 : Z; rsp2 : Z; ist : list Z; iopbBase : Z }.
Record PerCpuData := MkPerCpu {
  gdt : list GDTEntry; gp_limit : Z; gp_base : Z; tss : TSSEntry;
  syscall_kernel_rsp : Z; syscall_user_rsp : Z
}.
Definition MAX_CPUS : Z := 256.
(** packed, and aligned to 16 bytes *)
Definition sizeof_TSSEntry : Z := 112.
Definition sizeof_gdt : Z := 56.
Definition sizeof_PerCpuData : Z := 208.
(** offset of tss in PerCpuData: after the table and its 10-byte pointer *)
Definition offset_tss : Z := 80.

Definition null_entry : GDTEntry := MkGdt 0 0 0 0 0 0.
Definition kernel_code : GDTEntry := MkGdt 65535 0 0 154 175 0.  (* 0x9A, 0xAF *)
Definition kernel_data : GDTEntry := MkGdt 65535 0 0 146 207 0.  (* 0x92, 0xCF *)
Definition user_data : GDTEntry := MkGdt 65535 0 0 242 207 0.    (* 0xF2, 0xCF *)
Definition user_code : GDTEntry := MkGdt 65535 0 0 250 175 0.    (* 0xFA, 0xAF *)
Definition tss_low (tss_base limit : Z) : GDTEntry :=
  MkGdt (Z.land limit 65535) (Z.land tss_base 65535) (Z.land (Z.shiftr tss_base 16) 255)
    137 (Z.land (Z.shiftr limit 16) 15) (Z.land (Z.shiftr tss_base 24) 255).
Definition tss_high (tss_base : Z) : GDTEntry :=
  MkGdt (Z.land (Z.shiftr tss_base 32) 65535) (Z.land (Z.shiftr tss_base 48) 65535) 0 0 0 0.

(** [cpu] is the address of the CPU's PerCpuData. *)
Definition setup_descriptors (cpu stack_top : Z) : PerCpuData :=
  MkPerCpu
    [null_entry; kernel_code; kernel_data; user_data; user_code;
     tss_low (cpu + offset_tss) (sizeof_TSSEntry - 1); tss_high (cpu + offset_tss)]
    (sizeof_gdt - 1) cpu
    (MkTss stack_top 0 0 (replicate 7 0) sizeof_TSSEntry)
    stack_top 0.

(** The table of all CPUs, at [table]; an index outside it is undefined. *)
Definition init_cpu (table cpu_id stack_top : Z) (st : gmap Z PerCpuData) : outcome (gmap Z PerCpuData) :=
  if cpu_id <? MAX_CPUS
  then Ret (<[cpu_id := setup_descriptors (table + cpu_id * sizeof_PerCpuData) stack_top]> st)
  else Fault.
Definition get_cpu_data (table cpu_id : Z) : Z :=
  if MAX_CPUS <=? cpu_id then 0 else table + cpu_id * sizeof_PerCpuData.

(** *** The processor's view *)

Definition seg_base (e : GDTEntry) : Z := base_low e + base_middle e * 2 ^ 16 + base_high e * 2 ^ 24.
Definition seg_limit (e : GDTEntry) : Z := limit_low e + (granularity e mod 16) * 2 ^ 16.
(** A system descriptor takes two slots; the second holds base[63:32]. *)
Definition system_base (lo hi : GDTEntry) : Z := seg_base lo + (limit_low hi + base_low hi * 2 ^ 16) * 2 ^ 32.
Definition dpl (e : GDTEntry) : Z := (access e / 2 ^ 5) mod 4.
Definition is_present (e : GDTEntry) : bool := Z.testbit (access e) 7.
Definition is_code (e : GDTEntry) : bool := Z.testbit (access e) 4 && Z.testbit (access e) 3.
Definition is_writable_data (e : GDTEntry) : bool :=
  Z.testbit (access e) 4 && negb (Z.testbit (access e) 3) && Z.testbit (access e) 1.
Definition is_long (e : GDTEntry) : bool := Z.testbit (granularity e) 5.
(** The descriptor a selector names, with the requested privilege level. *)
Definition select (cpu : PerCpuData) (sel : Z) : option GDTEntry := gdt cpu !! Z.to_nat (sel / 8).

Lemma tss_base_decodes b : 0 ≤ b < 2 ^ 64 →
  system_base (tss_low b (sizeof_TSSEntry - 1)) (tss_high b) = b.
Proof.
  intros Hb. unfold system_base, seg_base, tss_low, tss_high; cbn [base_low base_middle base_high limit_low].
  change 255 with (2 ^ 8 - 1). change 65535 with (2 ^ 16 - 1).
  rewrite !field_mod by lia. rewrite land_ones_mod by lia. change (2 ^ 16) with 65536.
  change (2 ^ 24) with (65536 * 256). change (2 ^ 32) with (65536 * 65536).
  change (2 ^ 48) with (65536 * 65536 * 65536). change (2 ^ 8) with 256.
  rewrite <- !Z.div_div by lia. change (2 ^ 64) with (65536 * 65536 * 65536 * 65536) in Hb.
  set (q1 := b / 65536). set (q2 := q1 / 65536). set (q3 := q2 / 65536).
  assert (b = q1 * 65536 + b mod 65536) by (unfold q1; pose proof (Z.div_mod b 65536); lia).
  assert (q1 = q2 * 65536 + q1 mod 65536) by (unfold q2; pose proof (Z.div_mod q1 65536); lia).
  assert (q2 = q3 * 65536 + q2 mod 65536) by (unfold q3; pose proof (Z.div_mod q2 65536); lia).
  assert (0 ≤ q3 < 65536) by (unfold q3, q2, q1; div_mod).
  rewrite (Z.mod_small q3) by lia.
  assert (q1 mod 65536 = q1 mod 256 + (q1 / 256) mod 256 * 256).
  { change 65536 with (256 * 256). rewrite Z.rem_mul_r by lia. lia. }
  lia.
Qed.

(** the descriptor tables of a CPU say what the rest of the kernel
    relies on: the TSS descriptor decodes to the address of this CPU's own
    TSS, whose ring-0 stack is the one given; selectors 8 and 16 are the
    kernel's 64-bit code and data; and the pair SYSRET derives from a base
    selector of 16 (user data at +8, user code at +16) is ring-3 data and
    64-bit code. *)
Theorem setup_descriptors_decode (cpu stack_top : Z) (Hcpu : 0 ≤ cpu < 2 ^ 64 - offset_tss) :
  let d := setup_descriptors cpu stack_top in
  (∃ lo hi, select d 40 = Some lo ∧ select d 48 = Some hi ∧
     system_base lo hi = cpu + offset_tss ∧ seg_limit lo = sizeof_TSSEntry - 1 ∧ is_present lo = true) ∧
  rsp0 (tss d) = stack_top ∧ syscall_kernel_rsp d = stack_top ∧
  (∃ kc kd, select d 8 = Some kc ∧ select d 16 = Some kd ∧ is_code kc = true ∧ is_long kc = true ∧
     dpl kc = 0 ∧ is_writable_data kd = true ∧ dpl kd = 0) ∧
  (∃ ud uc, select d (16 + 8) = Some ud ∧ select d (16 + 16) = Some uc ∧
     is_writable_data ud = true ∧ dpl ud = 3 ∧ is_code uc = true ∧ is_long uc = true ∧ dpl uc = 3).
Proof.
  intros d. split.
  { eexists _, _. split; [reflexivity|]. split; [reflexivity|].
    split; [apply tss_base_decodes; unfold offset_tss in *; lia|]. split; reflexivity. }
  split; [done|]. split; [done|]. split; eexists _, _; repeat (split; [reflexivity|]); reflexivity.
Qed.

Lemma setup_descriptors_decode_witness :
  ∃ lo hi, select (setup_descriptors 18446744071562067968 4096) 40 = Some lo ∧
    select (setup_descriptors 18446744071562067968 4096) 48 = Some hi ∧
    system_base lo hi = 18446744071562067968 + offset_tss.
Proof.
  destruct (setup_descriptors_decode 18446744071562067968 4096 ltac:(unfold offset_tss; lia))
    as ((lo & hi & H1 & H2 & H3 & _) & _).
  exists lo, hi. split; [exact H1|]. split; [exact H2|exact H3].
Defined.

