(* ===== verification/Smp.v ===== *)
(** * Starting the other processors: src/kernel_main.cpp, proc/ap_entry.cpp, proc/ap_trampoline.S

    The boot processor gives every other processor a stack and its
    descriptors, releases it by writing its start address, and waits until
    all of them are online; they wait for the scheduler. [start_loop] is the
    loop of kernel_main on the slab allocator; [step] interleaves the
    processors' accesses to the shared counter and flag in any order.
    Console output is left out. *)

From S2P Require Import Prelude Mem KString Errno Alloc Pmm Pages Slab SlabInv SlabSpec SlabHeap Gdt.

(** struct limine_mp_info (the boot loader's, without its reserved word) *)
Record mp_info := MkMp { processor_id : Z; lapic_id : Z; goto_address : Z; extra_argument : Z }.
Definition AP_STACK_SIZE : Z := 16384.
Definition AP_TIMEOUT : Z := 100000000.

(** ** The boot processor's loop *)

Record smp_state := Smp {
  sm_slab : slab_state; sm_percpu : gmap Z PerCpuData; sm_cpus : list mp_info; expected_aps : Z
}.

Section Start.
Context (hhdm : Z) (fg : foreign) (table ap_entry bsp_lapic_id : Z).
Abbreviation M := (K smp_state).

Definition on_slab {B} (m : K slab_state B) : M B := λ s,
  '(b, h) ← m (sm_slab s); Ret (b, Smp h (sm_percpu s) (sm_cpus s) (expected_aps s)).
Definition gdt_setup (cpu_id stack_top : Z) : M unit := λ s,
  t ← init_cpu table cpu_id stack_top (sm_percpu s); Ret (tt, Smp (sm_slab s) t (sm_cpus s) (expected_aps s)).

(** (virt_base + AP_STACK_SIZE) & ~0xFULL *)
Definition stack_top (virt_base : Z) : Z := Z.land (u64 (virt_base + AP_STACK_SIZE)) (2 ^ 64 - 16).

(** One round of the loop over resp->cpus. *)
Definition start_ap (i : nat) : M unit := λ s,
  (cpu ← k_deref (sm_cpus s !! i);
   if lapic_id cpu =? bsp_lapic_id then mret tt else
   raw_ptr ← on_slab (alloc hhdm 16384);
   if raw_ptr =? 0 then k_panic "smp: Failed to allocate AP stack" else
   on_slab (zero_fill raw_ptr AP_STACK_SIZE) ≫= λ _,
   let ap_stack_top := stack_top raw_ptr in
   if negb (Z.shiftr ap_stack_top 48 =? 65535) || negb (Z.land ap_stack_top 15 =? 0)
   then k_panic "smp: Invalid AP stack top" else
   gdt_setup (processor_id cpu) ap_stack_top ≫= λ _,
   k_modify (λ s, Smp (sm_slab s) (sm_percpu s)
     (<[i := MkMp (processor_id cpu) (lapic_id cpu) ap_entry ap_stack_top]> (sm_cpus s)) (u64 (expected_aps s + 1)))) s.

Fixpoint start_loop (k i : nat) : M unit :=
  match k with
  | O => mret tt
  | S k' => start_ap i ≫= λ _, start_loop k' (S i)
  end.
(** for (i = 0; i < cpu_count; i++) *)
Definition start_aps (cpu_count : nat) : M unit := start_loop cpu_count 0.

(** ap_entry, on the structure the boot loader passes in %rdi: the address
    loaded into the GDT register, then %rsp and the argument of ap_main. *)
Definition PER_CPU_GP_OFFSET : Z := 56.
Definition ap_entry_code (info : mp_info) : Z * Z * mp_info :=
  let rcx := u64 (processor_id info * sizeof_PerCpuData) in
  let rax := u64 (u64 (table + rcx) + PER_CPU_GP_OFFSET) in
  (rax, extra_argument info, info).

(** ** What the loop establishes *)

Lemma stack_top_range b : kernel_ptr b → b + AP_STACK_SIZE < 2 ^ 64 →
  b + AP_STACK_SIZE - 16 < stack_top b ≤ b + AP_STACK_SIZE ∧ stack_top b mod 16 = 0 ∧ Z.shiftr (stack_top b) 48 = 65535 ∧
  Z.land (stack_top b) 15 = 0.
Proof.
  unfold stack_top, kernel_ptr, KERNEL_BASE, MAX_ERRNO, AP_STACK_SIZE. intros Hb Ht. rewrite u64_small by lia.
  set (t := b + 16384). assert (E : Z.land t (2 ^ 64 - 16) = Z.shiftl (Z.shiftr t 4) 4).
  { replace (2 ^ 64 - 16) with (Z.shiftl (Z.ones 60) 4) by reflexivity.
    apply Z.bits_inj'. intros j Hj. rewrite Z.land_spec. destruct (decide (j < 4)).
    - rewrite !Z.shiftl_spec_low by lia. by rewrite andb_false_r.
    - rewrite !Z.shiftl_spec, Z.shiftr_spec by lia. replace (j - 4 + 4) with j by lia. destruct (decide (j < 64)).
      + rewrite Z.ones_spec_low by lia. by rewrite andb_true_r.
      + rewrite Z.ones_spec_high by lia. rewrite andb_false_r. symmetry. apply Z.bits_above_log2; [lia|].
        apply Z.log2_lt_pow2; [lia|]. apply (Z.lt_le_trans _ (2 ^ 64)); [lia|]. apply Z.pow_le_mono_r; lia. }
  rewrite E, Z.shiftl_mul_pow2, (Z.shiftr_div_pow2 t) by lia. replace 15 with (Z.ones 4) by reflexivity.
  rewrite Z.shiftr_div_pow2, Z.land_ones by lia.
  change (2 ^ 4) with 16. unfold t in *. split_and!; Z.div_mod_to_equations; lia.
Qed.

(** The number of processors among [cpus] that are not the boot processor. *)
Definition others (cpus : list mp_info) : Z := Z.of_nat (length (filter (λ c, lapic_id c ≠ bsp_lapic_id) cpus)).
Lemma others_take cpus i cpu : cpus !! i = Some cpu →
  others (take (S i) cpus) = others (take i cpus) + (if decide (lapic_id cpu = bsp_lapic_id) then 0 else 1).
Proof.
  intros Hi. unfold others. rewrite (take_S_r _ _ _ Hi), filter_app, length_app, filter_cons, filter_nil.
  destruct (decide (lapic_id cpu ≠ bsp_lapic_id)), (decide (lapic_id cpu = bsp_lapic_id)); cbn [length]; done || lia.
Qed.

(** After [i] rounds, started from the processors [cpus0] and the objects [L0]
    of the state [h0], the stacks lie at the addresses in [S]. *)
Record progress (cpus0 : list mp_info) (h0 : slab_state) (L0 : gmap Z Z) (i : nat) (s : smp_state) (L : gmap Z Z) (S : gmap nat Z) : Prop := {
  pr_live : slab_live hhdm fg (sm_slab s) L;
  pr_old : L0 ⊆ L ∧ kept h0 (sm_slab s) L0;
  pr_todo : ∀ j, (i ≤ j)%nat → sm_cpus s !! j = cpus0 !! j;
  pr_bsp : ∀ j cpu, cpus0 !! j = Some cpu → lapic_id cpu = bsp_lapic_id → sm_cpus s !! j = Some cpu;
  pr_ap : ∀ j cpu, (j < i)%nat → cpus0 !! j = Some cpu → lapic_id cpu ≠ bsp_lapic_id →
    ∃ b, S !! j = Some b ∧ sm_cpus s !! j = Some (MkMp (processor_id cpu) (lapic_id cpu) ap_entry (stack_top b)) ∧
      sm_percpu s !! processor_id cpu = Some (setup_descriptors (table + processor_id cpu * sizeof_PerCpuData) (stack_top b));
  pr_stack : ∀ j b, S !! j = Some b → (j < i)%nat ∧ L0 !! b = None ∧ L !! b = Some AP_STACK_SIZE ∧ kernel_ptr b ∧
    ∀ a, b ≤ a < b + AP_STACK_SIZE → mem (mach (sm_slab s)) a = 0;
  pr_inj : ∀ j j' b, S !! j = Some b → S !! j' = Some b → j = j';
  pr_count : expected_aps s = Z.of_nat (size S) ∧ (size S ≤ i)%nat;
  pr_expected : expected_aps s = others (take i cpus0)
}.

Definition cpus_ok (cpus : list mp_info) : Prop :=
  Z.of_nat (length cpus) < 2 ^ 32 ∧ NoDup (processor_id <$> cpus) ∧ Forall (λ c, 0 ≤ processor_id c < MAX_CPUS) cpus.

Lemma progress_skip cpus0 h0 L0 i s L S cpu : progress cpus0 h0 L0 i s L S → cpus0 !! i = Some cpu →
  lapic_id cpu = bsp_lapic_id → progress cpus0 h0 L0 (Datatypes.S i) s L S.
Proof.
  intros [Hl Ho Ht Hb Ha Hs Hj Hc He] Hi Hbsp. split; try done.
  - intros j Hj'. apply Ht. lia.
  - intros j c Hj' Hc' Hn. destruct (decide (j = i)) as [->|]; [congruence|]. apply Ha; [lia|done|done].
  - intros j b Hb'. destruct (Hs j b Hb') as (? & ?). split; [lia|done].
  - destruct Hc. split; [done|lia].
  - rewrite (others_take _ _ _ Hi), decide_True by done. lia.
Qed.

(** One more processor is released. *)
Lemma progress_start cpus0 h0 L0 i s L S cpu h b : cpus_ok cpus0 → progress cpus0 h0 L0 i s L S → cpus0 !! i = Some cpu →
  lapic_id cpu ≠ bsp_lapic_id → kept (sm_slab s) h L → kernel_ptr b → L !! b = None →
  slab_live hhdm fg h (<[b := AP_STACK_SIZE]> L) →
  let h' := with_mem (memset b 0 AP_STACK_SIZE (mem (mach h))).2 h in
  let t := setup_descriptors (table + processor_id cpu * sizeof_PerCpuData) (stack_top b) in
  progress cpus0 h0 L0 (Datatypes.S i)
    (Smp h' (<[processor_id cpu := t]> (sm_percpu s)) (<[i := MkMp (processor_id cpu) (lapic_id cpu) ap_entry (stack_top b)]> (sm_cpus s))
       (u64 (expected_aps s + 1))) (<[b := AP_STACK_SIZE]> L) (<[i := b]> S).
Proof.
  intros (Hlen & Hnd & Hids) [Hl [Hsub Ho] Ht Hb Ha Hs Hj Hc He] Hi Hap Hk Hp Hnone Hlive h' t.
  assert (HSi : S !! i = None) by (destruct (S !! i) as [x|] eqn:E; [destruct (Hs i x E); lia|done]).
  assert (Hmem : ∀ a, mem (mach h') a = if (b <=? a) && (a <? b + AP_STACK_SIZE) then 0 else mem (mach h) a).
  { intros a. cbn [h' with_mem mach set_mem mem]. rewrite memset_spec by (unfold AP_STACK_SIZE; lia). done. }
  subst h'. set (m2 := (memset _ _ _ _).2) in *. clearbody m2. set (h' := with_mem m2 h) in *.
  assert (Hkeep : ∀ p z a, L !! p = Some z → p ≤ a < p + z → mem (mach h') a = mem (mach (sm_slab s)) a).
  { intros p z a Hp' Ha'. rewrite Hmem, <- (Hk p z a Hp' Ha').
    destruct (live_disjoint hhdm fg h _ b AP_STACK_SIZE p z Hlive (lookup_insert_eq _ _ _)) as [Hd|Hd].
    { rewrite lookup_insert_ne; [done|]. congruence. } { congruence. }
    - destruct (Z.ltb_spec a (b + AP_STACK_SIZE)); [lia|]. by rewrite andb_false_r.
    - destruct (Z.leb_spec b a); [lia|done]. }
  assert (Hil : (i < length (sm_cpus s))%nat) by (apply lookup_lt_is_Some; rewrite (Ht i ltac:(lia)); by eexists).
  split; cbn [sm_slab sm_percpu sm_cpus expected_aps].
  - apply live_client; [done|]. intros a Hne. exists b, AP_STACK_SIZE. split; [apply lookup_insert_eq|].
    change (m2 a) with (mem (mach h') a) in Hne. rewrite Hmem in Hne. destruct (Z.leb_spec b a), (Z.ltb_spec a (b + AP_STACK_SIZE)); cbn [andb] in Hne; done || lia.
  - split; [etrans; [done|by apply insert_subseteq]|]. intros p z a Hp' Ha'. pose proof (lookup_weaken _ _ _ _ Hp' Hsub) as HpL.
    rewrite (Hkeep p z a HpL Ha'). by apply (Ho p z a).
  - intros j Hj'. rewrite list_lookup_insert_ne by lia. apply Ht. lia.
  - intros j c Hc' Hbsp. rewrite list_lookup_insert_ne; [by apply Hb|]. intros ->. congruence.
  - intros j c Hj' Hc' Hn. destruct (decide (j = i)) as [->|Hne].
    + rewrite Hi in Hc'. injection Hc' as <-. exists b. rewrite !lookup_insert_eq, list_lookup_insert_eq by done. done.
    + destruct (Ha j c ltac:(lia) Hc' Hn) as (b' & H1 & H2 & H3). exists b'. rewrite lookup_insert_ne, list_lookup_insert_ne by done.
      split_and!; [done|done|]. rewrite lookup_insert_ne; [done|]. intros E. apply Hne.
      apply (proj1 (NoDup_alt _) Hnd j i (processor_id c)); rewrite list_lookup_fmap; [by rewrite Hc'|rewrite Hi; cbn; by f_equal].
  - intros j b'. rewrite lookup_insert_Some. intros [[<- <-]|[Hne Hb']].
    + split; [lia|]. split; [destruct (L0 !! b) as [x|] eqn:E; [rewrite (lookup_weaken _ _ _ _ E Hsub) in Hnone; done|done]|].
      rewrite lookup_insert_eq. split; [done|]. split; [done|]. intros a Ha'. rewrite Hmem. repeat zcase; cbn; done || lia.
    + destruct (Hs j b' Hb') as (Hji & H0 & HL & Hkp & Hz). split; [lia|]. split; [done|].
      rewrite lookup_insert_ne by congruence. split; [done|]. split; [done|]. intros a Ha'. rewrite (Hkeep b' AP_STACK_SIZE a HL Ha'). by apply Hz.
  - intros j j' x. rewrite !lookup_insert_Some. intros [[<- <-]|[Hne Hx]] [[<- Hx']|[Hne' Hx']]; try done.
    + destruct (Hs j' b Hx') as (_ & _ & ? & _). congruence.
    + subst x. destruct (Hs j b Hx) as (_ & _ & ? & _). congruence.
    + by apply (Hj j j' x).
  - rewrite map_size_insert_None by done. destruct Hc as [-> Hc]. rewrite u64_small; [split; lia|].
    apply lookup_lt_Some in Hi. lia.
  - rewrite (others_take _ _ _ Hi), decide_False by done. rewrite <- He. apply u64_small. destruct Hc as [-> Hc].
    apply lookup_lt_Some in Hi. lia.
Qed.
Lemma start_ap_spec cpus0 h0 L0 i s L S cpu : cpus_ok cpus0 → progress cpus0 h0 L0 i s L S → cpus0 !! i = Some cpu →
  start_ap i s = Panic "smp: Failed to allocate AP stack" ∨
  ∃ s' L' S', start_ap i s = Ret (tt, s') ∧ progress cpus0 h0 L0 (Datatypes.S i) s' L' S'.
Proof.
  intros Hok Hpr Hi. unfold start_ap.
  erewrite K_bind_ret by (rewrite (pr_todo _ _ _ _ _ _ _ Hpr) by lia; rewrite Hi; reflexivity).
  destruct (Z.eqb_spec (lapic_id cpu) bsp_lapic_id) as [Hbsp|Hap].
  { right. exists s, L, S. split; [done|]. by eapply progress_skip. }
  destruct (pr_live _ _ _ _ _ _ _ Hpr) as (G & cs & Hinv).
  destruct (alloc_spec hhdm fg _ _ _ _ 16384 Hinv ltac:(lia)) as (b & h & E & Hk & Hcase).
  erewrite K_bind_ret by (unfold on_slab; rewrite E; reflexivity).
  destruct Hcase as [[-> _]|(Hp & Hnone & Hl)]; [by left|]. right.
  destruct (Z.eqb_spec b 0) as [->|_]; [by apply kernel_ptr_nonnull in Hp|].
  erewrite K_bind_ret by reflexivity. cbv zeta.
  pose proof (live_bound hhdm fg h _ b 16384 Hl (lookup_insert_eq _ _ _)) as Hb.
  destruct (stack_top_range b Hp Hb) as (_ & _ & -> & ->). cbn [negb orb Z.eqb Pos.eqb].
  destruct Hok as (Hn & Hnd & Hids). pose proof (proj1 (Forall_lookup _ _) Hids i cpu Hi) as Hid. cbn beta in Hid.
  erewrite K_bind_ret; [|unfold gdt_setup, init_cpu; destruct (Z.ltb_spec (processor_id cpu) MAX_CPUS); [reflexivity|lia]].
  eexists _, _, _. split; [reflexivity|]. exact (progress_start _ _ _ _ _ _ _ _ h b (conj Hn (conj Hnd Hids)) Hpr Hi Hap Hk Hp Hnone Hl).
Qed.

Lemma start_loop_spec cpus0 h0 L0 k i s L S : cpus_ok cpus0 → progress cpus0 h0 L0 i s L S → (i + k = length cpus0)%nat →
  start_loop k i s = Panic "smp: Failed to allocate AP stack" ∨
  ∃ s' L' S', start_loop k i s = Ret (tt, s') ∧ progress cpus0 h0 L0 (i + k) s' L' S'.
Proof.
  intros Hok. revert i s L S. induction k as [|k IH]; intros i s L S Hpr Hk; cbn [start_loop].
  { right. exists s, L, S. rewrite Nat.add_0_r. done. }
  destruct (lookup_lt_is_Some_2 cpus0 i) as [cpu Hi]; [lia|].
  destruct (start_ap_spec _ _ _ _ _ _ _ _ Hok Hpr Hi) as [E|(s' & L' & S' & E & Hpr')].
  { left. unfold mbind, K_bind. by rewrite E. }
  rewrite (K_bind_ret _ _ _ _ _ E). replace (i + Datatypes.S k)%nat with (Datatypes.S i + k)%nat by lia. apply (IH _ s' L' S'); [done|lia].
Qed.

Lemma progress_init h0 L0 percpu cpus0 : slab_live hhdm fg h0 L0 → progress cpus0 h0 L0 0 (Smp h0 percpu cpus0 0) L0 ∅.
Proof. intros Hl. split; cbn [sm_slab sm_cpus expected_aps]; try done; try (intros; lia). Qed.

End Start.

(** ** The rendezvous *)

(** What the processors do on the shared counter and flag: ap_online_count,
    scheduler_ready; AP_TIMEOUT is the boot processor's own. An access is one
    step; the processors' steps interleave in any order. *)
Inductive bsp_pc := BStart (i : nat) | BWait | BSched | BReady | BPanic.
Inductive ap_pc := AParked | AEntered | AOnline | ARunning.
#[export] Instance ap_pc_eq_dec : EqDecision ap_pc.
Proof. solve_decision. Defined.

Record rendezvous := Rv {
  rv_bsp : bsp_pc; rv_aps : list ap_pc; ap_online_count : Z; scheduler_ready : bool; rv_timeout : Z; rv_expected : Z
}.

Section Rendezvous.
(** resp->cpus[i]->lapic_id and resp->bsp_lapic_id *)
Context (ids : list Z) (bsp : Z).

Definition rv_init : rendezvous := Rv (BStart 0) (replicate (length ids) AParked) 0 false AP_TIMEOUT 0.

Inductive step : rendezvous → rendezvous → Prop :=
  (* kernel_main *)
  | st_single aps n r t e : (length ids ≤ 1)%nat → step (Rv (BStart 0) aps n r t e) (Rv BSched aps n r t e)
  | st_self i aps n r t e : (1 < length ids)%nat → ids !! i = Some bsp →
      step (Rv (BStart i) aps n r t e) (Rv (BStart (S i)) aps n r t e)
  | st_release i id aps n r t e : (1 < length ids)%nat → ids !! i = Some id → id ≠ bsp →
      step (Rv (BStart i) aps n r t e) (Rv (BStart (S i)) (<[i := AEntered]> aps) n r t (u64 (e + 1)))
  | st_fence aps n r t e : (1 < length ids)%nat →
      step (Rv (BStart (length ids)) aps n r t e) (Rv BWait aps n r t e)
  | st_all_online aps n r t e : ¬ n < e → step (Rv BWait aps n r t e) (Rv BSched aps n r t e)
  | st_pause aps n r t e : n < e → u64 (t - 1) ≠ 0 → step (Rv BWait aps n r t e) (Rv BWait aps n r (u64 (t - 1)) e)
  | st_timeout aps n r t e : n < e → u64 (t - 1) = 0 → step (Rv BWait aps n r t e) (Rv BPanic aps n r 0 e)
  | st_ready aps n r t e : step (Rv BSched aps n r t e) (Rv BReady aps n true t e)
  (* ap_main on processor i *)
  | st_online b i aps n r t e : aps !! i = Some AEntered →
      step (Rv b aps n r t e) (Rv b (<[i := AOnline]> aps) (u64 (n + 1)) r t e)
  | st_spin b i aps n t e : aps !! i = Some AOnline → step (Rv b aps n false t e) (Rv b aps n false t e)
  | st_run b i aps n t e : aps !! i = Some AOnline → step (Rv b aps n true t e) (Rv b (<[i := ARunning]> aps) n true t e).

Definition reachable (s : rendezvous) : Prop := rtc step rv_init s.

Definition past_start (b : bsp_pc) (i : nat) : Prop := match b with BStart k => (i < k)%nat | _ => True end.
Definition is_online (a : ap_pc) : Prop := a = AOnline ∨ a = ARunning.
#[export] Instance is_online_dec a : Decision (is_online a).
Proof. unfold is_online. apply _. Defined.
Definition is_released (a : ap_pc) : Prop := a ≠ AParked.
#[export] Instance is_released_dec a : Decision (is_released a).
Proof. unfold is_released. apply _. Defined.
Definition count (P : ap_pc → Prop) `{∀ a, Decision (P a)} (l : list ap_pc) : Z := Z.of_nat (length (filter P l)).

(** One processor changes its place. *)
Lemma count_insert (P : ap_pc → Prop) `{∀ a, Decision (P a)} l i a b : l !! i = Some a →
  count P (<[i := b]> l) = count P l - (if decide (P a) then 1 else 0) + (if decide (P b) then 1 else 0).
Proof.
  intros Hi. unfold count. rewrite (insert_take_drop l i b) by (by eapply lookup_lt_Some).
  rewrite <- (take_drop_middle l i a Hi) at 3. rewrite !filter_app, !length_app, !filter_cons.
  destruct (decide (P a)), (decide (P b)); cbn [length]; lia.
Qed.
Lemma count_bound (P : ap_pc → Prop) `{∀ a, Decision (P a)} l : 0 ≤ count P l ≤ Z.of_nat (length l).
Proof. unfold count. pose proof (length_filter P l). lia. Qed.
(** ids[i] has been released. *)
Definition released (b : bsp_pc) (i : nat) (id : Z) : Prop := (1 < length ids)%nat ∧ past_start b i ∧ id ≠ bsp.

Record rv_inv (s : rendezvous) : Prop := {
  ri_len : length (rv_aps s) = length ids;
  ri_count : ap_online_count s = count is_online (rv_aps s) ∧ rv_expected s = count is_released (rv_aps s);
  ri_released : ∀ i id a, ids !! i = Some id → rv_aps s !! i = Some a → is_released a ↔ released (rv_bsp s) i id;
  ri_ready : scheduler_ready s = true ↔ rv_bsp s = BReady;
  ri_running : ARunning ∈ rv_aps s → scheduler_ready s = true;
  ri_all : rv_bsp s = BSched ∨ rv_bsp s = BReady → rv_expected s ≤ ap_online_count s;
  ri_timeout : rv_bsp s ≠ BPanic → 1 ≤ rv_timeout s ≤ AP_TIMEOUT;
  ri_start : match rv_bsp s with BStart k => k = 0%nat ∨ (1 < length ids ∧ k ≤ length ids)%nat | BWait | BPanic => (1 < length ids)%nat | _ => True end
}.

Lemma count_none (P : ap_pc → Prop) `{∀ a, Decision (P a)} l : (∀ a, a ∈ l → ¬ P a) → count P l = 0.
Proof.
  unfold count. induction l as [|a l IH]; intros Ha; [done|]. rewrite filter_cons_False by (apply Ha; set_solver).
  apply IH. set_solver.
Qed.

Lemma rv_inv_init : rv_inv rv_init.
Proof.
  split; cbn [rv_init rv_aps rv_bsp ap_online_count rv_expected scheduler_ready rv_timeout].
  - apply length_replicate.
  - rewrite !count_none; [done| |]; intros a [-> _]%elem_of_replicate; [by intros H; apply H|by intros [|]].
  - intros i id a Hi [-> _]%lookup_replicate. split; [by intros H|]. intros (_ & Hp & _). cbn in Hp. lia.
  - done.
  - intros [? _]%elem_of_replicate. done.
  - by intros [?|?].
  - unfold AP_TIMEOUT. lia.
  - lia.
Qed.

Lemma online_le_released l : count is_online l ≤ count is_released l.
Proof.
  unfold count. induction l as [|a l IH]; [done|]. rewrite !filter_cons.
  destruct (decide (is_online a)) as [Ho|], (decide (is_released a)) as [|Hr]; cbn [length]; try lia.
  exfalso. apply Hr. by destruct Ho as [-> | ->].
Qed.

Lemma past_start_S i k : past_start (BStart (S k)) i ↔ past_start (BStart k) i ∨ i = k.
Proof. cbn. lia. Qed.

(** A processor moves on: its place in the list is all that changes. *)
Lemma ap_moves b aps n r t e i a a' n' :
  rv_inv (Rv b aps n r t e) → aps !! i = Some a → a ≠ AParked → a' ≠ AParked →
  n' = count is_online (<[i := a']> aps) → n ≤ n' → (a' = ARunning → r = true) →
  rv_inv (Rv b (<[i := a']> aps) n' r t e).
Proof.
  intros [Hl [Hc He] Hr Hrd Hrn Ha Ht Hs] Hi Hna Hna' -> Hle Hrun. cbn [rv_aps rv_bsp ap_online_count rv_expected scheduler_ready rv_timeout] in *.
  split; cbn [rv_aps rv_bsp ap_online_count rv_expected scheduler_ready rv_timeout]; try done.
  - by rewrite length_insert.
  - split; [done|]. rewrite (count_insert is_released aps i a a' Hi), He.
    rewrite !decide_True by done. lia.
  - intros j id x Hj. rewrite list_lookup_insert_Some. intros [(<- & <- & _)|[_ Hx]]; [|by apply Hr].
    rewrite <- (Hr i id a Hj Hi). done.
  - intros [j Hj]%list_elem_of_lookup. rewrite list_lookup_insert_Some in Hj. destruct Hj as [(_ & -> & _)|[_ Hj]]; [by apply Hrun|].
    apply Hrn, list_elem_of_lookup. by exists j.
  - intros Hb. specialize (Ha Hb). lia.
Qed.
(** The boot processor moves on: only its own place and what it waits for. *)
Lemma bsp_moves b b' aps n r r' t t' e :
  rv_inv (Rv b aps n r t e) →
  (∀ i id, ids !! i = Some id → released b i id ↔ released b' i id) →
  (r' = true ↔ b' = BReady) → (r = true → r' = true) →
  (b' = BSched ∨ b' = BReady → e ≤ n) → (b' ≠ BPanic → 1 ≤ t' ≤ AP_TIMEOUT) →
  match b' with BStart k => k = 0%nat ∨ (1 < length ids ∧ k ≤ length ids)%nat | BWait | BPanic => (1 < length ids)%nat | _ => True end →
  rv_inv (Rv b' aps n r' t' e).
Proof.
  intros [Hl Hc Hr Hrd Hrn Ha Ht Hs] Hrel Hrd' Hrr Ha' Ht' Hs'.
  split; cbn [rv_aps rv_bsp ap_online_count rv_expected scheduler_ready rv_timeout] in *; try done.
  - intros i id a Hi Hai. rewrite (Hr i id a Hi Hai). by apply Hrel.
  - intros Hin. by apply Hrr, Hrn.
Qed.

Lemma bsp_releases i id aps n r t e : Z.of_nat (length ids) < 2 ^ 32 → rv_inv (Rv (BStart i) aps n r t e) →
  (1 < length ids)%nat → ids !! i = Some id → id ≠ bsp →
  rv_inv (Rv (BStart (S i)) (<[i := AEntered]> aps) n r t (u64 (e + 1))).
Proof.
  intros Hlen [Hl [Hc He] Hr Hrd Hrn Ha Ht Hs] H1 Hid Hne. cbn [rv_aps rv_bsp ap_online_count rv_expected scheduler_ready rv_timeout] in *.
  pose proof (lookup_lt_Some _ _ _ Hid) as Hil. destruct (lookup_lt_is_Some_2 aps i) as [a Hai]; [lia|].
  assert (a = AParked) as ->.
  { destruct (decide (is_released a)) as [Hra|Hra]; [|by destruct a; try (by destruct Hra)].
    destruct (proj1 (Hr i id a Hid Hai) Hra) as (_ & Hps & _). cbn in Hps. lia. }
  pose proof (count_insert is_online aps i _ AEntered Hai) as E1. pose proof (count_insert is_released aps i _ AEntered Hai) as E2.
  rewrite !decide_False in E1 by (by intros [|]). rewrite decide_False in E2 by (by intros H; apply H). rewrite decide_True in E2 by done.
  pose proof (count_bound is_released aps). split; cbn [rv_aps rv_bsp ap_online_count rv_expected scheduler_ready rv_timeout]; try done.
  - by rewrite length_insert.
  - rewrite u64_small by lia. lia.
  - intros j id' x Hj. rewrite list_lookup_insert_Some. intros [(<- & <- & _)|[Hne' Hx]].
    + rewrite Hid in Hj. injection Hj as <-. split; [|done]. intros _. split; [done|]. split; [cbn; lia|done].
    + rewrite (Hr j id' x Hj Hx). unfold released. rewrite past_start_S. naive_solver.
  - rewrite Hrd. naive_solver.
  - intros [j Hj]%list_elem_of_lookup. rewrite list_lookup_insert_Some in Hj. destruct Hj as [(_ & [=] & _)|[_ Hj]].
    apply Hrn, list_elem_of_lookup. by exists j.
  - by intros [|].
  - intros _. by apply Ht.
  - right. lia.
Qed.

Lemma rv_inv_step s s' : Z.of_nat (length ids) < 2 ^ 32 → rv_inv s → step s s' → rv_inv s'.
Proof.
  intros Hlen Hi Hst. pose proof Hi as Hi0. destruct Hi0 as [Hl [Hc He] Hr Hrd Hrn Ha Ht Hs].
  destruct Hst as [aps n r t e H1|i aps n r t e H1 Hid|i id aps n r t e H1 Hid Hne|aps n r t e H1|aps n r t e Hn|aps n r t e Hn Hz
    |aps n r t e Hn Hz|aps n r t e|b i aps n r t e Hp|b i aps n t e Hp|b i aps n t e Hp];
    cbn [rv_aps rv_bsp ap_online_count rv_expected scheduler_ready rv_timeout] in *.
  - apply (bsp_moves _ _ _ _ _ _ _ _ _ Hi); [|naive_solver|done| |naive_solver|done].
    + unfold released. intros; split; intros (? & ? & ?); lia.
    + intros _. rewrite He, Hc. rewrite (count_none is_released); [apply count_bound|].
      intros a [j Hj]%list_elem_of_lookup Hra. destruct (lookup_lt_is_Some_2 ids j) as [id Hid].
      { rewrite <- Hl. by eapply lookup_lt_Some. }
      destruct (proj1 (Hr j id a Hid Hj) Hra) as [H2 _]. lia.
  - apply (bsp_moves _ _ _ _ _ _ _ _ _ Hi); [|naive_solver|done|naive_solver|naive_solver|apply lookup_lt_Some in Hid; lia].
    intros j id Hj. unfold released. rewrite past_start_S. split; [naive_solver|]. intros (? & [?| ->] & ?); [done|]. congruence.
  - by apply (bsp_releases i id aps n r t e).
  - apply (bsp_moves _ _ _ _ _ _ _ _ _ Hi); [|naive_solver|done|naive_solver|naive_solver|done].
    intros j id Hj. unfold released. cbn. apply lookup_lt_Some in Hj. naive_solver.
  - apply (bsp_moves _ _ _ _ _ _ _ _ _ Hi); [done|naive_solver|done|lia|naive_solver|done].
  - unfold AP_TIMEOUT in *. specialize (Ht ltac:(done)). rewrite u64_small in * by lia.
    apply (bsp_moves _ _ _ _ _ _ _ _ _ Hi); [done|naive_solver|done|naive_solver|intros _; unfold AP_TIMEOUT; lia|done].
  - apply (bsp_moves _ _ _ _ _ _ _ _ _ Hi); [done|naive_solver|done|naive_solver|done|done].
  - apply (bsp_moves _ _ _ _ _ _ _ _ _ Hi); [done|done|done|intros _; apply Ha; by left|intros _; by apply Ht|done].
  - pose proof (count_insert is_online aps i _ AOnline Hp) as E1. rewrite decide_False in E1 by (by intros [|]). rewrite decide_True in E1 by (by left).
    pose proof (count_bound is_online aps). rewrite u64_small by lia.
    apply (ap_moves _ _ n _ _ _ i AEntered); [done|done|done|done|lia|lia|done].
  - done.
  - pose proof (count_insert is_online aps i _ ARunning Hp) as E1. rewrite decide_True in E1 by (by left). rewrite decide_True in E1 by (by right).
    apply (ap_moves _ _ n _ _ _ i AOnline); [done|done|done|done|lia|lia|done].
Qed.
Lemma all_online l : count is_released l ≤ count is_online l → ∀ a, a ∈ l → is_released a → is_online a.
Proof.
  induction l as [|x l IH]; intros Hc a Ha Hr; [set_solver|]. pose proof (online_le_released l) as Hle.
  assert (Hx : (is_released x → is_online x) ∧ count is_released l ≤ count is_online l).
  { unfold count in *. rewrite !filter_cons in Hc.
    destruct (decide (is_released x)) as [|Hn], (decide (is_online x)) as [Ho|]; cbn [length] in Hc; try (split; done || lia).
    exfalso. apply Hn. by destruct Ho as [-> | ->]. }
  destruct Hx as [Hx Hl]. apply elem_of_cons in Ha as [->|Ha]; [by apply Hx|by apply IH].
Qed.

Lemma rv_reachable s : Z.of_nat (length ids) < 2 ^ 32 → reachable s → rv_inv s.
Proof.
  intros Hlen. apply (rtc_ind_r (λ s, rv_inv s)); [apply rv_inv_init|]. intros y z _ Hst Hy. by eapply rv_inv_step.
Qed.

(** C25: No processor schedules before all are up. In every interleaving of the
    processors' steps, once the flag scheduler_ready is seen set (and so
    whenever another processor has left its wait for it) the boot processor
    has passed its wait, and every processor the boot loader reported, other
    than the boot processor, is online; the counter is exact throughout. *)
Theorem rendezvous_safe (s : rendezvous) (Hlen : 1 < Z.of_nat (length ids) < 2 ^ 32) (Hs : reachable s) :
  ap_online_count s = count is_online (rv_aps s) ∧
  (∀ i, rv_aps s !! i = Some ARunning → scheduler_ready s = true) ∧
  (scheduler_ready s = true → rv_bsp s = BReady ∧
     ∀ i id, ids !! i = Some id → id ≠ bsp → ∃ a, rv_aps s !! i = Some a ∧ is_online a).
Proof.
  destruct (rv_reachable s ltac:(lia) Hs) as [Hl [Hc He] Hr Hrd Hrn Ha Ht Hst]. split; [done|]. split.
  { intros i Hi. apply Hrn. by eapply list_elem_of_lookup_2. }
  intros Hready. apply Hrd in Hready. split; [done|]. intros i id Hi Hne.
  destruct (lookup_lt_is_Some_2 (rv_aps s) i) as [a Hai]; [rewrite Hl; by eapply lookup_lt_Some|]. exists a. split; [done|].
  apply (all_online (rv_aps s)); [rewrite <- Hc, <- He; apply Ha; by right|by eapply list_elem_of_lookup_2|].
  apply (Hr i id a Hi Hai). split; [lia|]. split; [by rewrite Hready|done].
Qed.

(** Steps the boot processor may still take. *)
Definition bsp_work (s : rendezvous) : Z :=
  match rv_bsp s with
  | BStart k => 3 + AP_TIMEOUT + Z.of_nat (length ids - k)
  | BWait => 2 + rv_timeout s
  | BSched => 1
  | BReady | BPanic => 0
  end.

(** C33: The boot processor never waits for ever, whatever the others do: until it
    has set the flag or panicked it can take a step, each of its steps uses up
    a bounded amount of work, and no step of another processor adds to it. *)
Theorem rendezvous_ends (s : rendezvous) (Hlen : Z.of_nat (length ids) < 2 ^ 32) (Hs : reachable s) :
  (rv_bsp s = BReady ∨ rv_bsp s = BPanic ∨ ∃ s', step s s' ∧ bsp_work s' < bsp_work s) ∧
  (∀ s', step s s' → rv_bsp s' = rv_bsp s ∧ rv_timeout s' = rv_timeout s ∨ bsp_work s' < bsp_work s) ∧
  0 ≤ bsp_work s ≤ bsp_work rv_init.
Proof.
  destruct (rv_reachable s Hlen Hs) as [Hl [Hc He] Hr Hrd Hrn Ha Ht Hst].
  destruct s as [b aps n r t e]. cbn [rv_bsp rv_timeout] in *. unfold AP_TIMEOUT in *. split_and!.
  - destruct b as [k| | | |]; [| |right; right|by left|by right; left].
    + right; right. destruct (decide (length ids ≤ 1)%nat) as [H1|H1].
      * destruct k as [|k]. { eexists. split; [by apply st_single|]. cbn. unfold AP_TIMEOUT. lia. }
        exfalso. lia.
      * destruct (decide (k = length ids)) as [->|Hk].
        { eexists. split; [apply st_fence; lia|]. cbn. unfold AP_TIMEOUT. specialize (Ht ltac:(done)). lia. }
        destruct (lookup_lt_is_Some_2 ids k) as [id Hid]; [lia|]. destruct (decide (id = bsp)) as [->|Hne].
        { eexists. split; [by apply st_self; [lia|]|]. cbn. lia. }
        eexists. split; [by eapply st_release; [lia| |]|]. cbn. lia.
    + right; right. specialize (Ht ltac:(done)). destruct (decide (n < e)) as [Hn|Hn].
      * destruct (decide (u64 (t - 1) = 0)) as [Hz|Hz]; eexists; (split; [by constructor|]); cbn; rewrite ?u64_small in * by lia; lia.
      * eexists. split; [by apply st_all_online|]. cbn. lia.
    + eexists. split; [constructor|]. cbn. lia.
  - intros s' Hst'. inversion Hst'; subst; cbn in *; try (by left); right; unfold AP_TIMEOUT in *; try lia.
    all: try (match goal with H : ids !! _ = Some _ |- _ => apply lookup_lt_Some in H end); try lia.
    all: specialize (Ht ltac:(done)); rewrite ?u64_small in * by lia; lia.
  - unfold bsp_work; cbn [rv_bsp rv_timeout]; unfold AP_TIMEOUT; destruct b; try lia; specialize (Ht ltac:(done)); lia.
  - unfold bsp_work. cbn [rv_bsp rv_init]. unfold AP_TIMEOUT. destruct b; cbn [rv_timeout]; try lia; specialize (Ht ltac:(done)); lia.
Qed.
End Rendezvous.

(** Two processors, the first one the boot processor. *)
Definition two_cpus : list mp_info := [MkMp 0 0 0 0; MkMp 1 1 0 0].

Lemma two_cpus_ok : cpus_ok two_cpus ∧ NoDup (lapic_id <$> two_cpus).
Proof.
  assert (Hnd : NoDup [0; 1]).
  { apply NoDup_cons. split; [|apply NoDup_singleton]. intros [=]%list_elem_of_singleton. }
  split; [|exact Hnd]. split; [done|]. split; [exact Hnd|]. by repeat constructor.
Qed.


(** A run of two processors to the end. *)
Lemma two_cpus_run : reachable [0; 1] 0 (Rv BReady [AParked; ARunning] 1 true AP_TIMEOUT 1).
Proof.
  unfold reachable, rv_init. cbn [length replicate].
  eapply rtc_l; [apply st_self; [cbn; lia|reflexivity]|].
  eapply rtc_l; [eapply st_release; [cbn; lia|reflexivity|done]|].
  eapply rtc_l; [apply (st_fence [0; 1]); cbn; lia|].
  eapply rtc_l; [apply (st_online _ _ _ 1); reflexivity|].
  eapply rtc_l; [apply st_all_online; vm_compute; discriminate|].
  eapply rtc_l; [apply st_ready|].
  eapply rtc_l; [apply (st_run _ _ _ 1); reflexivity|]. apply rtc_refl.
Qed.

Lemma rendezvous_safe_witness : ∃ a, ([AParked; ARunning] : list ap_pc) !! 1%nat = Some a ∧ is_online a.
Proof.
  destruct (rendezvous_safe [0; 1] 0 _ ltac:(cbn; lia) two_cpus_run) as (_ & _ & Hr).
  exact (proj2 (Hr eq_refl) 1%nat 1 eq_refl ltac:(done)).
Defined.

(** The boot processor while it still waits. *)
Lemma two_cpus_wait : reachable [0; 1] 0 (Rv BWait [AParked; AEntered] 0 false AP_TIMEOUT 1).
Proof.
  unfold reachable, rv_init. cbn [length replicate].
  eapply rtc_l; [apply st_self; [cbn; lia|reflexivity]|].
  eapply rtc_l; [eapply st_release; [cbn; lia|reflexivity|done]|].
  eapply rtc_l; [apply (st_fence [0; 1]); cbn; lia|]. apply rtc_refl.
Qed.
Lemma rendezvous_ends_witness : ∃ s', step [0; 1] 0 (Rv BWait [AParked; AEntered] 0 false AP_TIMEOUT 1) s' ∧
  bsp_work [0; 1] s' < bsp_work [0; 1] (Rv BWait [AParked; AEntered] 0 false AP_TIMEOUT 1).
Proof.
  destruct (rendezvous_ends [0; 1] 0 _ ltac:(cbn; lia) two_cpus_wait) as [[Hx|[Hx|Hx]] _]; [done|done|exact Hx].
Defined.
