(* ===== verification/SchedInit.v ===== *)
(** * The scheduler's start: create_task and init_all_cpus of proc/sched.cpp

    [sched_inv] is the invariant of the task list: a null-terminated list
    without repetition of all tasks, each a live object of the allocator with
    a live stack of its own. It holds at boot, create_task keeps it, and
    init_all_cpus gives each processor a running task of its own, so that
    schedule works there. *)

From S2P Require Import Prelude Errno Alloc Sched SchedSpec.

Section Init.
Context {A : Type} `{AllocatorSpec A}.
Implicit Types (s : sched_state A) (L : gmap Z Z) (l : list Z) (f : Z → Z).

(** [f] gives the stack each task was created with. *)
Record sched_inv s l L f : Prop := {
  sv_chain : task_chain (tasks s) (task_list_head s) l;
  sv_nodup : NoDup l;
  sv_all : ∀ x, is_Some (tasks s !! x) → x ∈ l;
  sv_live : live (s_heap s) L;
  sv_task : ∀ x t, tasks s !! x = Some t → L !! x = Some sizeof_Task ∧ L !! f x = Some (stack_size t) ∧
    stack t = u64 (f x + stack_size t) ∧ f x ∉ l;
  sv_inj : ∀ x y, x ∈ l → y ∈ l → f x = f y → x = y
}.

Definition sched_boot (junk : Regs) (a : A) : sched_state A := MkSched ∅ (λ _, 0) (λ _, 0) false 0 1 junk a.
Lemma sched_boot_inv r a L : live a L → sched_inv (sched_boot r a) [] L (λ _, 0).
Proof.
  intros Hl. assert (Hn : ∀ x t, tasks (sched_boot r a) !! x = Some t → False).
  { intros x t Ht. cbn [sched_boot tasks] in Ht. by apply lookup_empty_Some in Ht. }
  split; cbn [sched_boot task_list_head s_heap].
  - done.
  - constructor.
  - intros x [t []%Hn].
  - done.
  - by intros x t []%Hn.
  - set_solver.
Qed.

(** The allocations of a client that holds the objects of [L]. *)
Lemma alloc_cases s L n : live (s_heap s) L → 0 < n < 2 ^ 32 →
  ∃ p h, Sched.alloc n s = Ret (p, set_s_heap h s) ∧
    (p = 0 ∧ live h L ∨ kernel_ptr p ∧ L !! p = None ∧ live h (<[p := n]> L)).
Proof.
  intros Hl Hn. destruct (alloc_ok (s_heap s) L n Hl Hn) as (p & h & E & Hc). exists p, h. split; [|done].
  unfold Sched.alloc. by rewrite E.
Qed.

(** The new task and its stack. *)
Definition fresh_task (junk : Task) (entry stk size n hd : Z) : Task :=
  let c := context junk in
  let fr := iframe junk in
  MkTask n READY
    (MkContext (rax c) (rbx c) (rcx c) (rdx c) (rsi c) (rdi c) 0 (r8 c) (r9 c) (r10 c) (r11 c) (r12 c) (r13 c) (r14 c) (r15 c))
    (MkIframe (if_general fr) (if_int_no fr) (if_err_code fr) entry 8 514 (u64 (stk + size)) 16) (u64 (stk + size)) size hd.

Definition with_task (x : Z) (t : Task) (h : A) s : sched_state A :=
  MkSched (<[x := t]> (tasks s)) (current_task s) (cpu_id s) (initialized s) x (u64 (next_pid s + 1)) (regs s) h.

Lemma create_task_run junk entry size s L : live (s_heap s) L → 0 < size < 2 ^ 32 →
  (∃ h, create_task junk entry size s = Ret (0, set_s_heap h s) ∧ live h L) ∨
  ∃ x stk h, create_task junk entry size s =
      Ret (x, with_task x (fresh_task junk entry stk size (next_pid s) (task_list_head s)) h s) ∧
    kernel_ptr x ∧ L !! x = None ∧ stk ≠ x ∧ L !! stk = None ∧ live h (<[stk := size]> (<[x := sizeof_Task]> L)).
Proof.
  intros Hl Hn. unfold create_task. destruct (alloc_cases s L sizeof_Task Hl ltac:(unfold sizeof_Task; lia)) as (x & h & E & Hc).
  rewrite (K_bind_ret _ _ _ _ _ E). destruct Hc as [[-> Hl1]|(Hx & HxN & Hl1)]; [left; by exists h|].
  destruct (Z.eqb_spec x 0) as [->|_]; [by apply kernel_ptr_nonnull in Hx|].
  destruct (alloc_cases (set_s_heap h s) _ size Hl1 Hn) as (stk & h2 & E2 & Hc2). rewrite (K_bind_ret _ _ _ _ _ E2).
  destruct Hc2 as [[-> Hl2]|(Hs & HsN & Hl2)].
  - left. cbn [Z.eqb]. destruct (free_ok h2 _ x sizeof_Task Hl2 (lookup_insert_eq _ _ _)) as (h3 & E3 & Hl3).
    rewrite delete_insert_id in Hl3 by done. exists h3. split; [|done].
    erewrite K_bind_ret; [|unfold Sched.free; cbn [set_s_heap s_heap]; rewrite E3; reflexivity]. done.
  - right. destruct (Z.eqb_spec stk 0) as [->|_]; [by apply kernel_ptr_nonnull in Hs|].
    apply lookup_insert_None in HsN as [HsN Hne]. exists x, stk, h2. split; [reflexivity|]. done.
Qed.
Lemma create_task_inv s l L f x stk t h : sched_inv s l L f → kernel_ptr x → L !! x = None → stk ≠ x → L !! stk = None →
  live h (<[stk := stack_size t]> (<[x := sizeof_Task]> L)) → next t = task_list_head s → stack t = u64 (stk + stack_size t) →
  sched_inv (with_task x t h s) (x :: l) (<[stk := stack_size t]> (<[x := sizeof_Task]> L)) (update f x stk).
Proof.
  intros [Hch Hnd Hall Hlv Htk Hinj] Hx HxN Hne HsN Hl Hnx Hst.
  assert (Hmem : ∀ y, y ∈ l → ∃ ty, tasks s !! y = Some ty) by (intros y Hy; by destruct (task_chain_elem _ _ _ _ Hch Hy)).
  assert (Hxl : x ∉ l) by (intros Hin; destruct (Hmem x Hin) as [tx Htx]; destruct (Htk x tx Htx); congruence).
  assert (Hsl : stk ∉ l) by (intros Hin; destruct (Hmem stk Hin) as [tx Htx]; destruct (Htk stk tx Htx); congruence).
  assert (Hux : update f x stk x = stk) by (unfold update; by rewrite Z.eqb_refl).
  assert (Huy : ∀ y, y ≠ x → update f x stk y = f y) by (intros y Hy; unfold update; by rewrite (proj2 (Z.eqb_neq y x))).
  assert (Hfs : ∀ y, y ∈ l → f y ≠ stk ∧ f y ≠ x).
  { intros y Hy. destruct (Hmem y Hy) as [ty Hty]. destruct (Htk y ty Hty) as (_ & Hf & _). split; intros E; rewrite E in Hf; congruence. }
  split; cbn [with_task tasks task_list_head s_heap].
  - split; [done|]. split; [by apply kernel_ptr_nonnull|]. exists t. split; [apply lookup_insert_eq|]. rewrite Hnx.
    eapply task_chain_agree; [|exact Hch]. intros y Hy. rewrite lookup_insert_ne; [done|]. by intros ->.
  - by apply NoDup_cons.
  - intros y [ty Hy]. apply lookup_insert_Some in Hy as [[<- _]|[_ Hy]]; [set_solver|]. apply elem_of_cons. right. apply Hall. by eexists.
  - done.
  - intros y ty. rewrite lookup_insert_Some. intros [[<- <-]|[Hyx Hy]].
    + rewrite Hux, (lookup_insert_ne _ stk) by done. rewrite !lookup_insert_eq. split_and!; try done. set_solver.
    + destruct (Htk y ty Hy) as (H1 & H2 & H3 & H4). rewrite Huy by done.
      destruct (Hfs y) as [Hf1 Hf2]; [apply Hall; by eexists|].
      rewrite (lookup_insert_ne _ stk (f y)), (lookup_insert_ne _ x (f y)), (lookup_insert_ne _ stk y), (lookup_insert_ne _ x y) by congruence.
      split_and!; try done. set_solver.
  - intros y z [->|Hy]%elem_of_cons [->|Hz]%elem_of_cons; [done| | |]; rewrite ?Hux.
    + rewrite Huy by (by intros ->). intros E. by destruct (Hfs z Hz).
    + rewrite Huy by (by intros ->). intros E. by destruct (Hfs y Hy).
    + rewrite !Huy by (by intros ->). by apply Hinj.
Qed.

(** A change of a task that keeps its link and its stack. *)
Lemma put_task_inv s l L f x t t' : sched_inv s l L f → tasks s !! x = Some t → next t' = next t → stack t' = stack t →
  stack_size t' = stack_size t → sched_inv (set_tasks (<[x := t']> (tasks s)) s) l L f.
Proof.
  intros [Hch Hnd Hall Hlv Htk Hinj] Hx Hn Hs Hz. split; cbn [set_tasks tasks task_list_head s_heap]; try done.
  - eapply task_chain_agree; [|exact Hch]. intros y Hy. destruct (decide (y = x)) as [->|Hne].
    + rewrite lookup_insert_eq, Hx. cbn. by rewrite Hn.
    + by rewrite lookup_insert_ne.
  - intros y [ty Hy]. apply Hall. apply lookup_insert_Some in Hy as [[<- _]|[_ Hy]]; by eexists.
  - intros y ty. rewrite lookup_insert_Some. intros [[<- <-]|[_ Hy]]; [rewrite Hs, Hz|]; by apply Htk.
Qed.

(** What one processor's start leaves: [x] is its task. *)
Definition cpu_started s (entry x : Z) : Prop :=
  ∃ t, tasks s !! x = Some t ∧ state t = RUNNING ∧ pid t = 0 ∧ if_rip (iframe t) = entry ∧ if_rsp (iframe t) = stack t.

(** One more processor: a task of its own, which is its current task. *)
Lemma start_cpu_spec junk entry size cpu why s l L f : sched_inv s l L f → 0 < size < 2 ^ 32 →
  start_cpu junk entry size cpu why s = Panic why ∨
  ∃ x s' L' f', start_cpu junk entry size cpu why s = Ret (tt, s') ∧ sched_inv s' (x :: l) L' f' ∧ L ⊆ L' ∧ (x ∉ l) ∧
    (∀ y, y ≠ x → tasks s' !! y = tasks s !! y) ∧ cpu_started s' entry x ∧
    current_task s' = update (current_task s) cpu x ∧ cpu_id s' = update (cpu_id s) cpu cpu ∧ initialized s' = initialized s.
Proof.
  intros Hi Hn. unfold start_cpu. destruct (create_task_run junk entry size s L (sv_live _ _ _ _ Hi) Hn)
    as [(h & E & _)|(x & stk & h & E & Hx & HxN & Hne & HsN & Hl)]; rewrite (K_bind_ret _ _ _ _ _ E); [by left|]. right.
  destruct (Z.eqb_spec x 0) as [->|_]; [by apply kernel_ptr_nonnull in Hx|].
  set (t := fresh_task junk entry stk size (next_pid s) (task_list_head s)) in *.
  pose proof (create_task_inv s l L f x stk t h Hi Hx HxN Hne HsN Hl eq_refl eq_refl) as Hi1. set (s1 := with_task x t h s) in *.
  assert (Ht : tasks s1 !! x = Some t) by apply lookup_insert_eq.
  rewrite (K_bind_ret _ _ _ _ _ (get_task_ret _ _ _ Ht)).
  pose proof (put_task_inv s1 _ _ _ x t (with_state (with_pid t 0) RUNNING) Hi1 Ht eq_refl eq_refl eq_refl) as Hi2.
  eexists x, _, _, _. split; [reflexivity|]. pose proof (sv_nodup _ _ _ _ Hi1) as Hnd. apply NoDup_cons in Hnd as [Hxl _].
  split; [destruct Hi2; split; done|]. split; [|split; [done|split; [|split; [|done]]]].
  - etrans; [apply (insert_subseteq _ x sizeof_Task); done|]. apply insert_subseteq. by rewrite lookup_insert_ne.
  - intros y Hy. cbn [tasks set_tasks set_current set_cpu_id s1 with_task]. by rewrite !lookup_insert_ne.
  - eexists. cbn [tasks set_tasks set_current set_cpu_id s1 with_task]. split; [apply lookup_insert_eq|]. done.
Qed.
(** ** All processors *)

(** The processors in [ids] have started: each has a current task of its own. *)
Record started s l (entry : Z) (ids : list Z) : Prop := {
  sd_current : ∀ id, id ∈ ids → current_task s id ∈ l ∧ cpu_started s entry (current_task s id);
  sd_own : ∀ id id', id ∈ ids → id' ∈ ids → current_task s id = current_task s id' → id = id';
  sd_running : ∀ x t, tasks s !! x = Some t → state t = RUNNING
}.

Lemma started_more s s' l entry ids id x : started s l entry ids → (id ∉ ids) → x ∉ l → cpu_started s' entry x →
  (∀ y, y ≠ x → tasks s' !! y = tasks s !! y) → current_task s' = update (current_task s) id x → started s' (x :: l) entry (id :: ids).
Proof.
  intros [Hc Ho Hr] Hid Hxl Hx Hy Hcur.
  assert (Hnew : current_task s' id = x) by (rewrite Hcur; unfold update; by rewrite Z.eqb_refl).
  assert (Hold : ∀ j, j ∈ ids → current_task s' j = current_task s j).
  { intros j Hj. rewrite Hcur. unfold update. destruct (Z.eqb_spec j id) as [->|]; done. }
  assert (Hne : ∀ j, j ∈ ids → current_task s j ≠ x) by (intros j Hj ->%eq_sym; by destruct (Hc j Hj)).
  split.
  - intros j [->|Hj]%elem_of_cons; [rewrite Hnew; split; [set_solver|done]|]. rewrite Hold by done.
    destruct (Hc j Hj) as [Hin (t & Ht & Hrest)]. split; [set_solver|]. exists t. rewrite Hy by (by apply Hne). done.
  - intros j j' [->|Hj]%elem_of_cons [->|Hj']%elem_of_cons; [done| | |]; rewrite ?Hnew, ?Hold by done.
    + intros E. by destruct (Hne j' Hj').
    + intros E. by destruct (Hne j Hj).
    + by apply Ho.
  - intros y t. destruct (decide (y = x)) as [->|Hyx].
    + destruct Hx as (t' & Ht' & Hrun & _). congruence.
    + rewrite Hy by done. apply Hr.
Qed.

Lemma init_cpus_loop_spec junk entry size ids s l L f done_ids : sched_inv s l L f → 0 < size < 2 ^ 32 →
  NoDup (ids ++ done_ids) → started s l entry done_ids →
  (∃ w, init_cpus_loop junk entry size ids s = Panic w) ∨
  ∃ s' l' L' f', init_cpus_loop junk entry size ids s = Ret (tt, s') ∧ sched_inv s' l' L' f' ∧ L ⊆ L' ∧
    started s' l' entry (rev ids ++ done_ids) ∧ length l' = (length ids + length l)%nat ∧ initialized s' = initialized s.
Proof.
  revert s l L f done_ids. induction ids as [|id ids IH]; intros s l L f done_ids Hi Hn Hnd Hst; cbn [init_cpus_loop].
  { right. by exists s, l, L, f. }
  destruct (MAX_CPUS <=? id); [left; by eexists|]. cbn [app] in Hnd. apply NoDup_cons in Hnd as [Hid Hnd].
  destruct (start_cpu_spec junk entry size id "scheduler: Failed to create idle task" s l L f Hi Hn)
    as [E|(x & s1 & L1 & f1 & E & Hi1 & Hsub & Hxl & Hy & Hcs & Hcur & _ & Hin)].
  { left. eexists. unfold mbind, K_bind. by rewrite E. }
  rewrite (K_bind_ret _ _ _ _ _ E).
  destruct (IH s1 (x :: l) L1 f1 (id :: done_ids) Hi1 Hn) as [Hp|(s2 & l2 & L2 & f2 & E2 & Hi2 & Hsub2 & Hst2 & Hlen & Hin2)].
  - rewrite <- Permutation_middle. by apply NoDup_cons.
  - apply (started_more s s1); try done. set_solver.
  - by left.
  - right. exists s2, l2, L2, f2. cbn [rev length]. rewrite <- app_assoc. cbn [app length] in *. split_and!; try done; [by etrans|lia|congruence].
Qed.

Lemma idle_schedule s l entry ids L f cpu : sched_inv s l L f → started s l entry ids → cpu ∈ ids → schedule cpu s = Ret (tt, s).
Proof.
  intros Hi [Hc _ Hr] Hcpu. destruct (Hc cpu Hcpu) as [Hin _].
  apply list_elem_of_split in Hin as (l1 & l2 & El).
  destruct (schedule_spec cpu s l1 (current_task s cpu) l2) as (c & _ & E); [rewrite <- El; apply Hi|rewrite <- El; apply Hi|done|].
  rewrite E. destruct (find_ready _ _) as [n|] eqn:Ef; [|done]. apply find_ready_Some in Ef as [_ Hst].
  destruct (tasks s !! n) as [t|] eqn:Et; [|done]. cbn in Hst. rewrite (Hr n t Et) in Hst. done.
Qed.

Lemma init_all_cpus_spec junk regs0 entry size ids a L : live a L → NoDup ids → 0 < size < 2 ^ 32 →
  (∃ w, init_all_cpus junk entry size ids (sched_boot regs0 a) = Panic w) ∨
  ∃ s l L' f, init_all_cpus junk entry size ids (sched_boot regs0 a) = Ret (tt, s) ∧ sched_inv s l L' f ∧ L ⊆ L' ∧
    started s l entry (rev ids) ∧ length l = length ids ∧ initialized s = true.
Proof.
  intros Hl Hnd Hn. pose proof (sched_boot_inv regs0 a L Hl) as Hi. unfold init_all_cpus.
  erewrite K_bind_ret by reflexivity. cbn [initialized sched_boot]. erewrite K_bind_ret by reflexivity.
  destruct (init_cpus_loop_spec junk entry size ids (set_initialized true (sched_boot regs0 a)) [] L (λ _, 0) [])
    as [Hp|(s & l & L' & f & E & Hi' & Hsub & Hst & Hlen & Hin)]; try done.
  - by destruct Hi; split.
  - by rewrite app_nil_r.
  - split; [set_solver|set_solver|]. intros x t Ht. cbn [tasks set_initialized sched_boot] in Ht. by apply lookup_empty_Some in Ht.
  - by left.
  - right. exists s, l, L', f. rewrite app_nil_r in Hst. cbn [length] in Hlen. rewrite Nat.add_0_r in Hlen. done.
Qed.
End Init.
