(* ===== verification/Idt.v ===== *)
(** * Interrupt gates and stubs: src/idt.cpp

    The interrupt table, whose gates scatter a handler's address over three
    fields, and the entry code: the stubs, the pushes and pops of irq_entry. *)

From S2P Require Import Prelude.

Record IDTEntry := MkIdt {
  offset_low : Z; selector : Z; ist : Z; type_attr : Z; offset_mid : Z; offset_high : Z; zero : Z
}.
Definition IDT_ENTRIES : Z := 256.
Definition APIC_TIMER_VECTOR : Z := 32.
Definition PS2_KEYBOARD_VECTOR : Z := 33.
Definition empty_gate : IDTEntry := MkIdt 0 0 0 0 0 0 0.

Definition gate (handler : Z) : IDTEntry :=
  MkIdt (u16 (Z.land handler 65535)) 8 0 142 (u16 (Z.land (Z.shiftr handler 16) 65535))
    (u32 (Z.land (Z.shiftr handler 32) 4294967295)) 0.
(** idt[num] = ...; num is 8 bits wide *)
Definition idtSetGate (num handler : Z) (idt : Z → IDTEntry) : Z → IDTEntry :=
  λ v, if v =? u8 num then gate handler else idt v.
Definition set_irqHandler (vector handler_addr : Z) (idt : Z → IDTEntry) : Z → IDTEntry :=
  if vector <? 32 then idt else idtSetGate vector handler_addr idt.

(** The stubs, by the address of their code. *)
Record stubs := Stubs {
  isr_stub_generic : Z; isr_stub_0 : Z; isr_stub_6 : Z; isr_stub_8 : Z; isr_stub_9 : Z;
  isr_stub_13 : Z; isr_stub_14 : Z; irq_stub_0 : Z; irq_stub_1 : Z
}.

(** for (i = 0; i <= 32; i++) idtSetGate(i, isr_stub_generic) *)
Fixpoint generic_loop (k : nat) (i handler : Z) (idt : Z → IDTEntry) : Z → IDTEntry :=
  match k with
  | O => idt
  | S k' => generic_loop k' (i + 1) handler (idtSetGate i handler idt)
  end.
Definition init_bsp (st : stubs) : Z → IDTEntry :=
  let idt := generic_loop 33 0 (isr_stub_generic st) (λ _, empty_gate) in
  let idt := idtSetGate 0 (isr_stub_0 st) idt in
  let idt := idtSetGate 6 (isr_stub_6 st) idt in
  let idt := idtSetGate 8 (isr_stub_8 st) idt in
  let idt := idtSetGate 9 (isr_stub_9 st) idt in
  let idt := idtSetGate 13 (isr_stub_13 st) idt in
  let idt := idtSetGate 14 (isr_stub_14 st) idt in
  let idt := set_irqHandler APIC_TIMER_VECTOR (irq_stub_0 st) idt in
  set_irqHandler PS2_KEYBOARD_VECTOR (irq_stub_1 st) idt.

(** *** The processor's view *)
Definition gate_offset (g : IDTEntry) : Z := offset_low g + offset_mid g * 2 ^ 16 + offset_high g * 2 ^ 32.
Definition gate_present (g : IDTEntry) : bool := Z.testbit (type_attr g) 7.

(** The stub that vector [v] should reach. *)
Definition handler_of (st : stubs) (v : Z) : option Z :=
  if v =? 0 then Some (isr_stub_0 st) else if v =? 6 then Some (isr_stub_6 st)
  else if v =? 8 then Some (isr_stub_8 st) else if v =? 9 then Some (isr_stub_9 st)
  else if v =? 13 then Some (isr_stub_13 st) else if v =? 14 then Some (isr_stub_14 st)
  else if v =? 32 then Some (irq_stub_0 st) else if v =? 33 then Some (irq_stub_1 st)
  else if v <? 32 then Some (isr_stub_generic st) else None.

Lemma gate_decodes h : 0 ≤ h < 2 ^ 64 → gate_offset (gate h) = h.
Proof.
  intros Hh. unfold gate_offset, gate; cbn [offset_low offset_mid offset_high].
  change 65535 with (2 ^ 16 - 1). change 4294967295 with (2 ^ 32 - 1).
  rewrite !field_mod by lia. rewrite land_ones_mod by lia. unfold u16, u32. rewrite !Z.mod_mod by lia.
  rewrite (Z.mod_small (h / 2 ^ 32)) by div_mod.
  assert (E : h mod 2 ^ 32 = h mod 2 ^ 16 + 2 ^ 16 * ((h / 2 ^ 16) mod 2 ^ 16)).
  { change (2 ^ 32) with (2 ^ 16 * 2 ^ 16). by rewrite Z.rem_mul_r by lia. }
  pose proof (Z.div_mod h (2 ^ 32) ltac:(lia)). lia.
Qed.

Lemma generic_loop_spec k i h idt v :
  0 ≤ i → i + Z.of_nat k ≤ 256 →
  generic_loop k i h idt v = if (i <=? v) && (v <? i + Z.of_nat k) then gate h else idt v.
Proof.
  revert i idt. induction k as [|k IH]; intros i idt Hi Hk; cbn [generic_loop].
  { repeat zcase; simpl; try done; lia. }
  rewrite IH by lia. unfold idtSetGate. rewrite u8_small by lia.
  repeat zcase; simpl; try done; lia.
Qed.

(** after init_bsp the interrupt table sends every vector to its stub:
    the gate's scattered offset decodes to the stub's address, in the kernel's
    code segment, present, for vectors 0 to 33; the other gates are absent. *)
Theorem init_bsp_gates (st : stubs) (v : Z) (Hv : 0 ≤ v < IDT_ENTRIES)
    (Hst : Forall (λ h, 0 ≤ h < 2 ^ 64) [isr_stub_generic st; isr_stub_0 st; isr_stub_6 st;
       isr_stub_8 st; isr_stub_9 st; isr_stub_13 st; isr_stub_14 st; irq_stub_0 st; irq_stub_1 st]) :
  match handler_of st v with
  | Some h => gate_offset (init_bsp st v) = h ∧ gate_present (init_bsp st v) = true ∧
              selector (init_bsp st v) = 8
  | None => gate_present (init_bsp st v) = false
  end.
Proof.
  rewrite !Forall_cons in Hst. destruct Hst as (? & ? & ? & ? & ? & ? & ? & ? & ? & _).
  assert (Hg : ∀ h, 0 ≤ h < 2 ^ 64 → gate_offset (gate h) = h ∧ gate_present (gate h) = true ∧ selector (gate h) = 8)
    by (intros h Hh; split; [by apply gate_decodes|done]).
  unfold init_bsp, set_irqHandler, APIC_TIMER_VECTOR, PS2_KEYBOARD_VECTOR, handler_of.
  change (32 <? 32) with false. change (33 <? 32) with false. cbv iota.
  unfold idtSetGate. rewrite generic_loop_spec by lia.
  unfold u8. rewrite !Z.mod_small by lia.
  repeat (zcase; subst; try lia; try (by apply Hg); simpl); try (by apply Hg); done.
Qed.

Definition sample_stubs : stubs := Stubs 1000 2000 3000 4000 5000 6000 7000 8000 9000.
Lemma init_bsp_gates_witness :
  gate_offset (init_bsp sample_stubs 14) = 7000 ∧ gate_present (init_bsp sample_stubs 14) = true ∧
  selector (init_bsp sample_stubs 14) = 8.
Proof.
  exact (init_bsp_gates sample_stubs 14 ltac:(unfold IDT_ENTRIES; lia)
    ltac:(repeat constructor; vm_compute; discriminate || reflexivity)).
Defined.
