(* ===== verification/Elf.v ===== *)
(** * ELF64 structures

    The packed structures that proc/elf_exec.cpp and proc/dynlink.cpp both
    declare, each with the function that reads it from the bytes memcpy puts
    there, and the constants the two loaders share. *)

From S2P Require Import Prelude Bytes.

Definition ELFCLASS64 : Z := 2.
Definition ELFDATA2LSB : Z := 1.
Definition EV_CURRENT : Z := 1.
Definition ET_EXEC : Z := 2.
Definition ET_DYN : Z := 3.
Definition EM_X86_64 : Z := 62.
Definition PT_LOAD : Z := 1.
Definition PT_DYNAMIC : Z := 2.
Definition PT_INTERP : Z := 3.
Definition PT_PHDR : Z := 6.
Definition PT_TLS : Z := 7.
Definition PF_X : Z := 1.
Definition PF_W : Z := 2.

Definition DT_NULL : Z := 0.
Definition DT_NEEDED : Z := 1.
Definition DT_PLTRELSZ : Z := 2.
Definition DT_STRTAB : Z := 5.
Definition DT_SYMTAB : Z := 6.
Definition DT_RELA : Z := 7.
Definition DT_RELASZ : Z := 8.
Definition DT_RELAENT : Z := 9.
Definition DT_STRSZ : Z := 10.
Definition DT_SYMENT : Z := 11.
Definition DT_REL : Z := 17.
Definition DT_RELSZ : Z := 18.
Definition DT_PLTREL : Z := 20.
Definition DT_TEXTREL : Z := 22.
Definition DT_JMPREL : Z := 23.

Definition R_X86_64_64 : Z := 1.
Definition R_X86_64_GLOB_DAT : Z := 6.
Definition R_X86_64_JUMP_SLOT : Z := 7.
Definition R_X86_64_RELATIVE : Z := 8.

Record ElfHeader := MkElfHeader {
  e_ident : list Z; e_type : Z; e_machine : Z; e_version : Z; e_entry : Z; e_phoff : Z; e_shoff : Z;
  e_flags : Z; e_ehsize : Z; e_phentsize : Z; e_phnum : Z; e_shentsize : Z; e_shnum : Z; e_shstrndx : Z
}.
Definition sizeof_ElfHeader : Z := 64.
Definition read_ElfHeader (b : list Z) : ElfHeader :=
  MkElfHeader (take 16 b) (field 16 2 b) (field 18 2 b) (field 20 4 b) (field 24 8 b) (field 32 8 b)
    (field 40 8 b) (field 48 4 b) (field 52 2 b) (field 54 2 b) (field 56 2 b) (field 58 2 b)
    (field 60 2 b) (field 62 2 b).

Record ProgramHeader := MkPhdr {
  p_type : Z; p_flags : Z; p_offset : Z; p_vaddr : Z; p_paddr : Z; p_filesz : Z; p_memsz : Z; p_align : Z
}.
Definition sizeof_ProgramHeader : Z := 56.
Definition read_ProgramHeader (b : list Z) : ProgramHeader :=
  MkPhdr (field 0 4 b) (field 4 4 b) (field 8 8 b) (field 16 8 b) (field 24 8 b) (field 32 8 b)
    (field 40 8 b) (field 48 8 b).
(** [= {}] *)
Definition zero_phdr : ProgramHeader := MkPhdr 0 0 0 0 0 0 0 0.

Record DynamicEntry := MkDyn { d_tag : Z; d_value : Z }.
Definition sizeof_DynamicEntry : Z := 16.
Definition read_DynamicEntry (b : list Z) : DynamicEntry := MkDyn (s64 (field 0 8 b)) (field 8 8 b).

Record Rela := MkRela { r_offset : Z; r_info : Z; r_addend : Z }.
Definition sizeof_Rela : Z := 24.
Definition read_Rela (b : list Z) : Rela := MkRela (field 0 8 b) (field 8 8 b) (s64 (field 16 8 b)).

(** The checks on e_ident both loaders start with. *)
Definition ident_ok (h : ElfHeader) : bool :=
  let at_ i := default 0 (e_ident h !! i) in
  (at_ 0%nat =? 127) && (at_ 1%nat =? 69) && (at_ 2%nat =? 76) && (at_ 3%nat =? 70) &&
  (at_ 4%nat =? ELFCLASS64) && (at_ 5%nat =? ELFDATA2LSB) && (at_ 6%nat =? EV_CURRENT).

(** *** Relocations *)

Definition is_relative (r : Rela) : Prop :=
  u32 (r_info r) = R_X86_64_RELATIVE ∧ u32 (Z.shiftr (r_info r) 32) = 0.

(** Words that do not overlap. *)
Fixpoint spread (ts : list Z) : Prop :=
  match ts with
  | [] => True
  | t :: ts' => Forall (λ u, u + 8 ≤ t ∨ t + 8 ≤ u) ts' ∧ spread ts'
  end.

(** *** The fields are words of their width *)

Record phdr_ok (p : ProgramHeader) : Prop := {
  ph_offset : 0 ≤ p_offset p < 2 ^ 64; ph_vaddr : 0 ≤ p_vaddr p < 2 ^ 64;
  ph_filesz : 0 ≤ p_filesz p < 2 ^ 64; ph_memsz : 0 ≤ p_memsz p < 2 ^ 64;
  ph_align : 0 ≤ p_align p < 2 ^ 64; ph_flags : 0 ≤ p_flags p < 2 ^ 32
}.
Lemma read_phdr_ok b : Forall is_byte b → blen b = sizeof_ProgramHeader → phdr_ok (read_ProgramHeader b).
Proof.
  unfold blen, sizeof_ProgramHeader. intros Hb Hn.
  split; cbn [read_ProgramHeader p_offset p_vaddr p_filesz p_memsz p_align p_flags];
    match goal with |- context [field ?k ?n b] => pose proof (field_range k n b Hb ltac:(lia)) end; lia.
Qed.
Lemma read_dyn_range b : Forall is_byte b → blen b = sizeof_DynamicEntry →
  0 ≤ d_value (read_DynamicEntry b) < 2 ^ 64.
Proof.
  unfold blen, sizeof_DynamicEntry. intros Hb Hn. cbn [read_DynamicEntry d_value].
  pose proof (field_range 8 8 b Hb ltac:(lia)). lia.
Qed.
Lemma read_rela_range b : Forall is_byte b → blen b = sizeof_Rela →
  0 ≤ r_offset (read_Rela b) < 2 ^ 64 ∧ 0 ≤ r_info (read_Rela b) < 2 ^ 64.
Proof.
  unfold blen, sizeof_Rela. intros Hb Hn. cbn [read_Rela r_offset r_info].
  pose proof (field_range 0 8 b Hb ltac:(lia)). pose proof (field_range 8 8 b Hb ltac:(lia)). lia.
Qed.
Lemma read_ehdr_range b : Forall is_byte b → blen b = sizeof_ElfHeader →
  let h := read_ElfHeader b in
  0 ≤ e_phnum h < 2 ^ 16 ∧ 0 ≤ e_phoff h < 2 ^ 64 ∧ 0 ≤ e_entry h < 2 ^ 64.
Proof.
  unfold blen, sizeof_ElfHeader. intros Hb Hn. cbn.
  pose proof (field_range 56 2 b Hb ltac:(lia)). pose proof (field_range 32 8 b Hb ltac:(lia)).
  pose proof (field_range 24 8 b Hb ltac:(lia)). lia.
Qed.
