(* ===== verification/Dynlink.v ===== *)
(** * The dynamic linker: proc/dynlink.cpp

    [load_elf64] copies the segments of an ET_DYN file into a buffer of the
    caller and applies its RELA relocations. The buffer is part of the state;
    an access outside it, or outside the file, is a [Fault]. The two callbacks
    of [Options] are functions on the caller's context, which they may
    change. *)

From S2P Require Import Prelude Bytes Elf.

Definition SHN_UNDEF : Z := 0.
Definition SHN_ABS : Z := 65521.
Definition STB_WEAK : Z := 2.

Inductive Error :=
| Ok | InvalidArgument | InvalidElf | Unsupported | InsufficientMemory | InvalidDynamicTable
| DependencyError | UnresolvedSymbol | UnsupportedRelocation.
#[export] Instance Error_eq_dec : EqDecision Error.
Proof. solve_decision. Defined.
Definition error_code (e : Error) : Z :=
  match e with
  | Ok => 0 | InvalidArgument => -1 | InvalidElf => -2 | Unsupported => -3 | InsufficientMemory => -4
  | InvalidDynamicTable => -5 | DependencyError => -6 | UnresolvedSymbol => -7
  | UnsupportedRelocation => -8
  end.

Record Symbol := MkSymbol {
  s_name : Z; s_info : Z; s_other : Z; s_section : Z; s_value : Z; s_size : Z
}.
Definition sizeof_Symbol : Z := 24.
Definition read_Symbol (b : list Z) : Symbol :=
  MkSymbol (field 0 4 b) (field 4 1 b) (field 5 1 b) (field 6 2 b) (field 8 8 b) (field 16 8 b).

(** A value with its has_ flag is an [option]; an absent value reads as 0. *)
Record DynamicInfo := MkInfo {
  strtab : option Z; strsz : option Z; symtab : option Z; syment : option Z;
  rela : option Z; relasz : option Z; relaent : option Z;
  jmprel : option Z; pltrelsz : option Z; pltrel : option Z;
  relsz : Z; terminated : bool
}.
Definition no_info : DynamicInfo :=
  MkInfo None None None None None None None None None None 0 false.
Definition has {A} (o : option A) : bool := bool_decide (is_Some o).

Section Dynlink.
Context {C : Type}.

Record Options := MkOptions {
  load_bias : Z;
  load_dependency : option (list Z → C → bool * C);
  (** name, the address variable, context: found, the variable after, context *)
  resolve_symbol : option (list Z → Z → C → bool * Z * C)
}.

Record dl_state := MkDl { image : list Z; ctx : C; entry_point : Z; image_size : Z }.
Definition set_image (i : list Z) (s : dl_state) : dl_state := MkDl i (ctx s) (entry_point s) (image_size s).
Definition set_ctx (c : C) (s : dl_state) : dl_state := MkDl (image s) c (entry_point s) (image_size s).
Definition set_outputs (e n : Z) (s : dl_state) : dl_state := MkDl (image s) (ctx s) e n.
Abbreviation M := (K dl_state).

Definition img_get (off n : Z) : M (list Z) := i ← k_gets image; k_lift (buf_get off n i).
Definition img_put (off : Z) (bs : list Z) : M unit :=
  i ← k_gets image; i' ← k_lift (buf_put off bs i); k_modify (set_image i').

Definition file_range (offset length total : Z) : bool := (offset <=? total) && (length <=? total - offset).

(** The offset of an address range in the image. *)
Definition image_range (address length image_base image_span : Z) : option Z :=
  if address <? image_base then None
  else
    let relative := address - image_base in
    if (image_span <? relative) || (image_span - relative <? length) || (UINT64_MAX <? relative)
    then None else Some relative.

(** The string at [strings + offset], if it ends before [size]. *)
Fixpoint bounded_loop (k : nat) (p : Z) : M (option (list Z)) :=
  match k with
  | O => mret None
  | S k' =>
      b ← img_get p 1;
      if le_val b =? 0 then mret (Some [])
      else r ← bounded_loop k' (p + 1); mret (cons (le_val b) <$> r)
  end.
Definition bounded_string (strings size offset : Z) : M (option (list Z)) :=
  if size <=? offset then mret None
  else bounded_loop (Z.to_nat (size - offset)) (strings + offset).

Section Relocate.
Context (options : Options) (image_base image_span : Z) (dynamic : DynamicInfo).

(** The address a symbol reference resolves to, or the error. *)
Definition symbol_address (symbol : Symbol) (name : list Z) : M (Error + Z) :=
  if negb (s_section symbol =? SHN_UNDEF) then
    mret (inr (if s_section symbol =? SHN_ABS then s_value symbol
               else u64 (load_bias options + s_value symbol)))
  else
    match resolve_symbol options with
    | None => mret (if negb (Z.shiftr (s_info symbol) 4 =? STB_WEAK) then inl UnresolvedSymbol else inr 0)
    | Some f =>
        c ← k_gets ctx;
        let '(found, addr, c') := f name 0 c in
        k_modify (set_ctx c') ≫= λ _,
        mret (if found then inr addr
              else if negb (Z.shiftr (s_info symbol) 4 =? STB_WEAK) then inl UnresolvedSymbol
              else inr addr)
    end.

Definition relocation_value (relocation : Rela) : M (Error + Z) :=
  let type := u32 (r_info relocation) in
  let symbol_index := u32 (Z.shiftr (r_info relocation) 32) in
  if type =? R_X86_64_RELATIVE then
    mret (if negb (symbol_index =? 0) then inl InvalidDynamicTable
          else inr (u64 (load_bias options + u64 (r_addend relocation))))
  else if (type =? R_X86_64_64) || (type =? R_X86_64_GLOB_DAT) || (type =? R_X86_64_JUMP_SLOT) then
    let symbol_delta := u64 (symbol_index * sizeof_Symbol) in
    if negb (symbol_delta / sizeof_Symbol =? symbol_index) then mret (inl InvalidDynamicTable) else
    match image_range (u64 (default 0 (symtab dynamic) + symbol_delta)) sizeof_Symbol image_base image_span with
    | None => mret (inl InvalidDynamicTable)
    | Some symbol_offset =>
        b ← img_get symbol_offset sizeof_Symbol;
        let symbol := read_Symbol b in
        match image_range (default 0 (strtab dynamic)) (default 0 (strsz dynamic)) image_base image_span with
        | None => mret (inl InvalidDynamicTable)
        | Some strings_offset =>
            name ← bounded_string strings_offset (default 0 (strsz dynamic)) (s_name symbol);
            match name with
            | None => mret (inl InvalidDynamicTable)
            | Some name =>
                a ← symbol_address symbol name;
                mret (match a with
                      | inl e => inl e
                      | inr a => inr (if type =? R_X86_64_64 then u64 (a + u64 (r_addend relocation)) else a)
                      end)
            end
        end
    end
  else mret (inl UnsupportedRelocation).

Fixpoint relocate_loop (fuel : nat) (rela_offset rela_size cursor : Z) : M Error :=
  match fuel with
  | O => k_diverge
  | S f =>
      if cursor <? rela_size then
        b ← img_get (rela_offset + cursor) sizeof_Rela;
        let relocation := read_Rela b in
        match image_range (r_offset relocation) 8 image_base image_span with
        | None => mret InvalidDynamicTable
        | Some target_offset =>
            v ← relocation_value relocation;
            match v with
            | inl e => mret e
            | inr value =>
                img_put target_offset (le_bytes 8 value) ≫= λ _,
                relocate_loop f rela_offset rela_size (cursor + sizeof_Rela)
            end
        end
      else mret Ok
  end.

Definition apply_relocations (rela_address rela_size : Z) : M Error :=
  if rela_size =? 0 then mret Ok
  else if negb (rela_size mod sizeof_Rela =? 0) || negb (has (symtab dynamic)) ||
          negb (has (syment dynamic)) || negb (default 0 (syment dynamic) =? sizeof_Symbol) ||
          negb (has (strtab dynamic)) || negb (has (strsz dynamic))
  then mret InvalidDynamicTable
  else
    match image_range rela_address rela_size image_base image_span with
    | None => mret InvalidDynamicTable
    | Some rela_offset => relocate_loop (S (Z.to_nat (rela_size / sizeof_Rela))) rela_offset rela_size 0
    end.

End Relocate.

(** *** The load_elf64 phases *)

Record scan := MkScan {
  image_base : Z; image_end : Z; dynamic_address : Z; dynamic_size : Z; has_dynamic : bool
}.
Definition scan_header (file_size : Z) (program : ProgramHeader) (a : scan) : option scan :=
  if p_type program =? PT_LOAD then
    if (p_memsz program <? p_filesz program) ||
       negb (file_range (p_offset program) (p_filesz program) file_size) ||
       (u64 (p_vaddr program + p_memsz program) <? p_vaddr program) then None
    else if p_memsz program =? 0 then Some a
    else
      let top := u64 (p_vaddr program + p_memsz program) in
      Some (MkScan (if p_vaddr program <? image_base a then p_vaddr program else image_base a)
                   (if image_end a <? top then top else image_end a)
                   (dynamic_address a) (dynamic_size a) (has_dynamic a))
  else if p_type program =? PT_DYNAMIC then
    Some (MkScan (image_base a) (image_end a) (p_vaddr program) (p_memsz program) true)
  else Some a.

Section Load.
Context (file : list Z) (options : Options).
Let file_size : Z := blen file.

Definition read_phdr (header : ElfHeader) (i : Z) : outcome ProgramHeader :=
  buf_get (u64 (e_phoff header + i * sizeof_ProgramHeader)) sizeof_ProgramHeader file ≫= λ b,
  Ret (read_ProgramHeader b).

Fixpoint scan_loop (k : nat) (header : ElfHeader) (i : Z) (a : scan) : outcome (option scan) :=
  match k with
  | O => Ret (Some a)
  | S k' =>
      read_phdr header i ≫= λ program,
      match scan_header file_size program a with
      | None => Ret None
      | Some a' => scan_loop k' header (i + 1) a'
      end
  end.

(** Copy the segments; [false] is the InvalidElf return. *)
Fixpoint copy_loop (k : nat) (header : ElfHeader) (i base span : Z) : M bool :=
  match k with
  | O => mret true
  | S k' =>
      program ← k_lift (read_phdr header i);
      if negb (p_type program =? PT_LOAD) || (p_memsz program =? 0) then copy_loop k' header (i + 1) base span
      else
        match image_range (p_vaddr program) (p_memsz program) base span with
        | None => mret false
        | Some destination_offset =>
            bytes ← k_lift (buf_get (p_offset program) (p_filesz program) file);
            img_put destination_offset bytes ≫= λ _, copy_loop k' header (i + 1) base span
        end
  end.

(** The switch on the tag. *)
Definition record_entry (entry : DynamicEntry) (d : DynamicInfo) : DynamicInfo :=
  let t := d_tag entry in let v := d_value entry in
  if t =? DT_STRTAB then MkInfo (Some v) (strsz d) (symtab d) (syment d) (rela d) (relasz d) (relaent d) (jmprel d) (pltrelsz d) (pltrel d) (relsz d) (terminated d)
  else if t =? DT_STRSZ then MkInfo (strtab d) (Some v) (symtab d) (syment d) (rela d) (relasz d) (relaent d) (jmprel d) (pltrelsz d) (pltrel d) (relsz d) (terminated d)
  else if t =? DT_SYMTAB then MkInfo (strtab d) (strsz d) (Some v) (syment d) (rela d) (relasz d) (relaent d) (jmprel d) (pltrelsz d) (pltrel d) (relsz d) (terminated d)
  else if t =? DT_SYMENT then MkInfo (strtab d) (strsz d) (symtab d) (Some v) (rela d) (relasz d) (relaent d) (jmprel d) (pltrelsz d) (pltrel d) (relsz d) (terminated d)
  else if t =? DT_RELA then MkInfo (strtab d) (strsz d) (symtab d) (syment d) (Some v) (relasz d) (relaent d) (jmprel d) (pltrelsz d) (pltrel d) (relsz d) (terminated d)
  else if t =? DT_RELASZ then MkInfo (strtab d) (strsz d) (symtab d) (syment d) (rela d) (Some v) (relaent d) (jmprel d) (pltrelsz d) (pltrel d) (relsz d) (terminated d)
  else if t =? DT_RELAENT then MkInfo (strtab d) (strsz d) (symtab d) (syment d) (rela d) (relasz d) (Some v) (jmprel d) (pltrelsz d) (pltrel d) (relsz d) (terminated d)
  else if t =? DT_JMPREL then MkInfo (strtab d) (strsz d) (symtab d) (syment d) (rela d) (relasz d) (relaent d) (Some v) (pltrelsz d) (pltrel d) (relsz d) (terminated d)
  else if t =? DT_PLTRELSZ then MkInfo (strtab d) (strsz d) (symtab d) (syment d) (rela d) (relasz d) (relaent d) (jmprel d) (Some v) (pltrel d) (relsz d) (terminated d)
  else if t =? DT_PLTREL then MkInfo (strtab d) (strsz d) (symtab d) (syment d) (rela d) (relasz d) (relaent d) (jmprel d) (pltrelsz d) (Some v) (relsz d) (terminated d)
  else if t =? DT_REL then MkInfo (strtab d) (strsz d) (symtab d) (syment d) (rela d) (relasz d) (relaent d) (jmprel d) (pltrelsz d) (pltrel d) 1 (terminated d)
  else if t =? DT_RELSZ then MkInfo (strtab d) (strsz d) (symtab d) (syment d) (rela d) (relasz d) (relaent d) (jmprel d) (pltrelsz d) (pltrel d) v (terminated d)
  else d.
Definition set_terminated (d : DynamicInfo) : DynamicInfo :=
  MkInfo (strtab d) (strsz d) (symtab d) (syment d) (rela d) (relasz d) (relaent d) (jmprel d) (pltrelsz d)
    (pltrel d) (relsz d) true.

Definition dynamic_entry (dynamic_offset cursor : Z) : M DynamicEntry :=
  b ← img_get (dynamic_offset + cursor) sizeof_DynamicEntry; mret (read_DynamicEntry b).

Fixpoint dynamic_loop (fuel : nat) (dynamic_offset size cursor : Z) (d : DynamicInfo) : M DynamicInfo :=
  match fuel with
  | O => k_diverge
  | S f =>
      if u64 (cursor + sizeof_DynamicEntry) <=? size then
        entry ← dynamic_entry dynamic_offset cursor;
        if d_tag entry =? DT_NULL then mret (set_terminated d)
        else dynamic_loop f dynamic_offset size (u64 (cursor + sizeof_DynamicEntry)) (record_entry entry d)
      else mret d
  end.

(** The pass over the DT_NEEDED entries; [strings] is the string table's
    offset, if there is one. *)
Fixpoint needed_loop (fuel : nat) (dynamic_offset size cursor : Z) (strings : option (Z * Z)) : M Error :=
  match fuel with
  | O => k_diverge
  | S f =>
      if u64 (cursor + sizeof_DynamicEntry) <=? size then
        entry ← dynamic_entry dynamic_offset cursor;
        let rest := needed_loop f dynamic_offset size (u64 (cursor + sizeof_DynamicEntry)) strings in
        if d_tag entry =? DT_NULL then mret Ok
        else if d_tag entry =? DT_NEEDED then
          match strings with
          | None => mret InvalidDynamicTable
          | Some (off, sz) =>
              name ← bounded_string off sz (d_value entry);
              match name, load_dependency options with
              | None, _ => mret InvalidDynamicTable
              | Some _, None => mret DependencyError
              | Some name, Some f =>
                  c ← k_gets ctx;
                  let '(ok, c') := f name c in
                  k_modify (set_ctx c') ≫= λ _, if ok : bool then rest else mret DependencyError
              end
          end
        else rest
      else mret Ok
  end.

(** From the dynamic table on, the segments being in place. *)
Definition link (base span : Z) (d : DynamicInfo) : M Error :=
  if negb (relsz d =? 0) then mret Unsupported
  else if has (relasz d) && negb (default 0 (relasz d) =? 0) &&
          (negb (has (rela d)) || negb (has (relaent d)) || negb (default 0 (relaent d) =? sizeof_Rela))
  then mret InvalidDynamicTable
  else
    r ← (if has (relasz d)
         then apply_relocations options base span d (default 0 (rela d)) (default 0 (relasz d))
         else mret Ok);
    if negb (bool_decide (r = Ok)) then mret r
    else if has (pltrelsz d) && negb (default 0 (pltrelsz d) =? 0) then
      if negb (has (jmprel d)) || negb (has (pltrel d)) || negb (default 0 (pltrel d) =? DT_RELA)
      then mret Unsupported
      else apply_relocations options base span d (default 0 (jmprel d)) (default 0 (pltrelsz d))
    else mret Ok.

Definition dynamic_fuel (size : Z) : nat := S (S (Z.to_nat (size / sizeof_DynamicEntry))).

(** The dynamic segment of an image whose segments have been copied. *)
Definition load_dynamic (a : scan) (base span : Z) : M Error :=
  if dynamic_size a <? sizeof_DynamicEntry then mret InvalidDynamicTable else
  match image_range (dynamic_address a) (dynamic_size a) base span with
  | None => mret InvalidDynamicTable
  | Some dynamic_offset =>
      let fuel := dynamic_fuel (dynamic_size a) in
      d ← dynamic_loop fuel dynamic_offset (dynamic_size a) 0 no_info;
      if negb (terminated d) then mret InvalidDynamicTable else
      strings ←
        (if has (strtab d) && has (strsz d) then
           mret (match image_range (default 0 (strtab d)) (default 0 (strsz d)) base span with
                 | None => None
                 | Some strings_offset => Some (Some (strings_offset, default 0 (strsz d)))
                 end)
         else mret (Some None));
      match strings with
      | None => mret InvalidDynamicTable
      | Some strings =>
          r ← needed_loop fuel dynamic_offset (dynamic_size a) 0 strings;
          if negb (bool_decide (r = Ok)) then mret r else link base span d
      end
  end.

(** The part that writes: clear the buffer, copy the segments, link. *)
Definition build (n : nat) (header : ElfHeader) (a : scan) (span : Z) : M Error :=
  img_put 0 (replicate (Z.to_nat span) 0) ≫= λ _,
  copied ← copy_loop n header 0 (image_base a) span;
  if negb copied then mret InvalidElf else load_dynamic a (image_base a) span.

Definition header_ok (h : ElfHeader) : bool :=
  ident_ok h && (e_version h =? EV_CURRENT) && (e_ehsize h =? sizeof_ElfHeader) &&
  (e_phentsize h =? sizeof_ProgramHeader) && negb (e_phnum h =? 0).

Definition load_file : M Error :=
  if file_size <? sizeof_ElfHeader then mret InvalidArgument else
  b ← k_lift (buf_get 0 sizeof_ElfHeader file);
  let header := read_ElfHeader b in
  if negb (header_ok header) then mret InvalidElf else
  if negb (e_type header =? ET_DYN) || negb (e_machine header =? EM_X86_64) then mret Unsupported else
  if negb (file_range (e_phoff header) (e_phnum header * sizeof_ProgramHeader) file_size) then mret InvalidElf else
  let n := Z.to_nat (e_phnum header) in
  a ← k_lift (scan_loop n header 0 (MkScan UINT64_MAX 0 0 0 false));
  match a with
  | None => mret InvalidElf
  | Some a =>
      let base := image_base a in
      if (base =? UINT64_MAX) || (image_end a <=? base) || negb (has_dynamic a) then mret InvalidElf else
      let span := image_end a - base in
      capacity ← k_gets (λ s, blen (image s));
      if (capacity <? span) || (UINT64_MAX <? span) then mret InsufficientMemory else
      r ← build n header a span;
      if negb (bool_decide (r = Ok)) then mret r else
      match image_range (e_entry header) 1 base span with
      | None => mret InvalidElf
      | Some _ =>
          k_modify (set_outputs (u64 (load_bias options + e_entry header)) span) ≫= λ _, mret Ok
      end
  end.

End Load.

(** The entry point, with its null checks: a null pointer is [None], and
    [outs] says that both output pointers are given. *)
Definition load_elf64 (file : option (list Z)) (image_memory : bool) (options : option Options) (outs : bool)
    : M Error :=
  match file, options with
  | Some file, Some options =>
      if image_memory && outs then load_file file options else mret InvalidArgument
  | _, _ => mret InvalidArgument
  end.

End Dynlink.
Arguments Options C : clear implicits.
Arguments dl_state C : clear implicits.
