(* ===== verification/DynlinkSpec.v ===== *)
(** * The dynamic linker stays inside its buffers

    [keeps n m Q]: from any state whose image holds at least [n] bytes, [m]
    returns, changes no byte of the image from [n] on, and its result
    satisfies [Q]. The rules for bind, reads and writes compose along the
    code, and [load_elf64] is shown to be safe on every file. *)

From S2P Require Import Prelude Bytes Elf Dynlink.

Section Spec.
Context {C : Type}.
Implicit Types s : dl_state C.
Abbreviation M := (K (dl_state C)).

Definition img_ok (n : Z) (s : dl_state C) : Prop :=
  Forall is_byte (image s) ∧ 0 ≤ n ≤ blen (image s) ∧ blen (image s) < 2 ^ 63.
Definition img_step (n : Z) (s s' : dl_state C) : Prop :=
  same_from n (image s) (image s') ∧ Forall is_byte (image s') ∧
  entry_point s' = entry_point s ∧ image_size s' = image_size s.

Definition keeps {A} (n : Z) (m : M A) (Q : A → Prop) : Prop :=
  ∀ s, img_ok n s → ∃ a s', m s = Ret (a, s') ∧ img_step n s s' ∧ Q a.

Lemma img_step_ok n s s' : img_ok n s → img_step n s s' → img_ok n s'.
Proof. unfold img_ok, blen. intros (_ & Hn & Hl) ((HL & _) & Hb & _). rewrite HL. done. Qed.
Lemma img_step_trans n s1 s2 s3 : img_step n s1 s2 → img_step n s2 s3 → img_step n s1 s3.
Proof.
  intros (H1 & H2 & H3 & H4) (H5 & H6 & H7 & H8). split; [by etrans|]. split; [done|]. split; congruence.
Qed.

Lemma keeps_ret {A} n (a : A) (Q : A → Prop) : Q a → keeps n (mret a) Q.
Proof. intros HQ s (Hb & _). exists a, s. done. Qed.
Lemma keeps_bind {A B} n (m : M A) (f : A → M B) Q R :
  keeps n m Q → (∀ a, Q a → keeps n (f a) R) → keeps n (m ≫= f) R.
Proof.
  intros Hm Hf s Hs. destruct (Hm s Hs) as (a & s1 & Hrun & Hst & HQ).
  destruct (Hf a HQ s1) as (b & s2 & Hrun2 & Hst2 & HR); [by eapply img_step_ok|].
  exists b, s2. rewrite (K_bind_ret _ _ _ _ _ Hrun). split; [done|]. split; [by eapply img_step_trans|done].
Qed.
Lemma keeps_weaken {A} n (m : M A) (Q R : A → Prop) : keeps n m Q → (∀ a, Q a → R a) → keeps n m R.
Proof. intros Hm HQR s Hs. destruct (Hm s Hs) as (a & s' & ? & ? & ?). exists a, s'. auto. Qed.
Lemma keeps_lift {A} n (o : outcome A) (Q : A → Prop) : (∃ a, o = Ret a ∧ Q a) → keeps n (k_lift o) Q.
Proof. intros (a & -> & HQ) s (Hb & _). exists a, s. done. Qed.

Lemma keeps_get n off k : 0 ≤ off → 0 ≤ k → off + k ≤ n →
  keeps n (img_get off k) (λ bs, Forall is_byte bs ∧ blen bs = k).
Proof.
  intros Ho Hk Hn s (Hb & Hl & _). unfold img_get. krun. unfold k_lift.
  rewrite buf_get_ok by lia. eexists _, s. split; [done|]. split; [done|].
  eapply buf_get_bytes; [exact Hb|]. apply buf_get_ok; lia.
Qed.
Lemma keeps_put n off bs : Forall is_byte bs → 0 ≤ off → off + blen bs ≤ n →
  keeps n (img_put off bs) (λ _, True).
Proof.
  intros Hbs Ho Hn s (Hb & Hl & _). unfold img_put. krun.
  destruct (buf_put_spec off bs (image s) n) as (l' & Hput & Hsame & Hb' & _); [done..|lia|].
  rewrite (K_bind_ret _ _ _ l' s) by (unfold k_lift; by rewrite Hput).
  exists tt, (set_image l' s). done.
Qed.
Lemma keeps_ctx {A} n (m : C → M A) Q : (∀ c, keeps n (m c) Q) → keeps n (k_gets ctx ≫= m) Q.
Proof. intros Hm s Hs. apply (Hm (ctx s) s Hs). Qed.
Lemma keeps_set_ctx {A} n c (m : M A) Q : keeps n m Q → keeps n (k_modify (set_ctx c) ≫= λ _, m) Q.
Proof.
  intros Hm s Hs. destruct (Hm (set_ctx c s)) as (a & s' & Hrun & Hst & HQ); [exact Hs|].
  exists a, s'. split; [exact Hrun|]. split; [exact Hst|done].
Qed.

Lemma image_range_Some a l b span o :
  image_range a l b span = Some o → 0 ≤ o ∧ o + l ≤ span ∧ o = a - b.
Proof.
  unfold image_range. destruct (_ <? _) eqn:E1; [done|]. destruct (_ || _) eqn:E2; [done|].
  intros [= <-]. zbool. lia.
Qed.

Lemma bounded_loop_keeps n k p : 0 ≤ p → p + Z.of_nat k ≤ n → keeps n (bounded_loop k p) (λ _, True).
Proof.
  revert p. induction k as [|k IH]; intros p Hp Hk; cbn [bounded_loop]; [by apply keeps_ret|].
  eapply keeps_bind; [apply keeps_get; lia|]. intros b _.
  destruct (_ =? _); [by apply keeps_ret|]. eapply keeps_bind; [apply IH; lia|].
  intros r _. by apply keeps_ret.
Qed.
Lemma bounded_string_keeps n strings size offset : 0 ≤ strings → 0 ≤ offset → strings + size ≤ n →
  keeps n (bounded_string strings size offset) (λ _, True).
Proof.
  intros Hs Ho Hn. unfold bounded_string. destruct (_ <=? _) eqn:E; [by apply keeps_ret|]. zbool.
  apply bounded_loop_keeps; lia.
Qed.

(** *** Relocations *)

Section Relocate.
Context (options : Options C) (base span : Z) (d : DynamicInfo).

Lemma symbol_address_keeps symbol name : keeps span (symbol_address options symbol name) (λ _, True).
Proof.
  unfold symbol_address. destruct (negb _); [by apply keeps_ret|].
  destruct (resolve_symbol options) as [f|]; [|by apply keeps_ret].
  apply keeps_ctx. intros c. destruct (f name 0 c) as [[found addr] c'].
  apply keeps_set_ctx. by apply keeps_ret.
Qed.

Lemma relocation_value_keeps r : keeps span (relocation_value options base span d r) (λ _, True).
Proof.
  unfold relocation_value. destruct (_ =? R_X86_64_RELATIVE); [by apply keeps_ret|].
  destruct (_ || _); [|by apply keeps_ret]. destruct (negb _); [by apply keeps_ret|].
  destruct (image_range _ sizeof_Symbol _ _) as [so|] eqn:Es; [|by apply keeps_ret].
  apply image_range_Some in Es as (? & ? & _).
  eapply keeps_bind; [apply keeps_get; [lia|done|lia]|]. intros b [Hb Hl].
  destruct (image_range _ _ _ _) as [st|] eqn:Et; [|by apply keeps_ret].
  apply image_range_Some in Et as (? & ? & _).
  eapply keeps_bind.
  { apply bounded_string_keeps; [lia| |lia]. cbn [read_Symbol s_name].
    unfold blen, sizeof_Symbol in Hl. apply field_range; [done|lia]. }
  intros [name|] _; [|by apply keeps_ret]. eapply keeps_bind; [apply symbol_address_keeps|].
  intros a _. by apply keeps_ret.
Qed.

Lemma relocate_loop_keeps ro rs fuel cursor :
  0 ≤ ro → ro + rs ≤ span → 0 ≤ cursor ≤ rs → rs mod sizeof_Rela = 0 → cursor mod sizeof_Rela = 0 →
  rs - cursor < sizeof_Rela * Z.of_nat fuel →
  keeps span (relocate_loop options base span d fuel ro rs cursor) (λ _, True).
Proof.
  unfold sizeof_Rela. intros Hro Hrs Hc Hrm. revert cursor Hc.
  induction fuel as [|f IH]; intros cursor Hc Hcm Hf; cbn [relocate_loop].
  { lia. }
  destruct (Z.ltb_spec cursor rs) as [Hlt|]; [|by apply keeps_ret].
  assert (Hroom : cursor + 24 ≤ rs) by div_mod. unfold sizeof_Rela.
  eapply keeps_bind; [apply keeps_get; lia|]. intros b [Hb Hl].
  destruct (image_range _ 8 _ _) as [t|] eqn:Et; [|by apply keeps_ret].
  apply image_range_Some in Et as (? & ? & _).
  eapply keeps_bind; [apply relocation_value_keeps|]. intros [e|v] _; [by apply keeps_ret|].
  eapply keeps_bind.
  { apply keeps_put; [apply le_bytes_bytes|lia|]. unfold blen. rewrite le_bytes_length. lia. }
  intros _ _. apply IH; [lia|div_mod|lia].
Qed.

Lemma apply_relocations_keeps ra rs : 0 ≤ rs →
  keeps span (apply_relocations options base span d ra rs) (λ _, True).
Proof.
  intros Hrs. unfold apply_relocations. destruct (_ =? 0) eqn:E0; [by apply keeps_ret|].
  destruct (_ || _) eqn:E; [by apply keeps_ret|]. zbool.
  destruct (image_range _ _ _ _) as [ro|] eqn:Er; [|by apply keeps_ret].
  apply image_range_Some in Er as (? & ? & _).
  apply relocate_loop_keeps; try done; try lia. unfold sizeof_Rela in *. div_mod.
Qed.

End Relocate.

(** *** The dynamic table *)

Definition size_ok (o : option Z) : Prop := 0 ≤ default 0 o.
Definition info_ok (d : DynamicInfo) : Prop := size_ok (relasz d) ∧ size_ok (pltrelsz d).

Lemma record_entry_ok e d : 0 ≤ d_value e → info_ok d → info_ok (record_entry e d).
Proof.
  intros Hv [H1 H2]. unfold record_entry, info_ok, size_ok in *.
  repeat (case_match; [cbn [relasz pltrelsz default from_option id]; done|]). done.
Qed.

Lemma dynamic_entry_keeps n o c : 0 ≤ o + c → o + c + sizeof_DynamicEntry ≤ n →
  keeps n (dynamic_entry o c) (λ e, 0 ≤ d_value e).
Proof.
  unfold sizeof_DynamicEntry. intros. unfold dynamic_entry.
  eapply keeps_bind; [apply keeps_get; unfold sizeof_DynamicEntry; lia|].
  intros b [Hb Hl]. apply keeps_ret. by apply read_dyn_range.
Qed.

Section Dynamic.
Context (o size span : Z) (Ho : 0 ≤ o) (Hfit : o + size ≤ span) (Hspan : span < 2 ^ 63).

Lemma dynamic_loop_keeps fuel cursor d :
  0 ≤ cursor ≤ size → size - cursor < sizeof_DynamicEntry * (Z.of_nat fuel - 1) → info_ok d →
  keeps span (dynamic_loop fuel o size cursor d) info_ok.
Proof using Ho Hfit Hspan.
  unfold sizeof_DynamicEntry. revert cursor d.
  induction fuel as [|f IH]; intros cursor d Hc Hf Hd; [lia|]. cbn [dynamic_loop].
  unfold sizeof_DynamicEntry. rewrite u64_small by lia.
  destruct (Z.leb_spec (cursor + 16) size); [|by apply keeps_ret].
  eapply keeps_bind; [apply dynamic_entry_keeps; unfold sizeof_DynamicEntry; lia|]. intros e He.
  destruct (_ =? DT_NULL); [by apply keeps_ret|].
  apply IH; [lia|lia|by apply record_entry_ok].
Qed.

Lemma needed_loop_keeps options fuel cursor strings :
  match strings with Some (so, sz) => 0 ≤ so ∧ so + sz ≤ span | None => True end →
  0 ≤ cursor ≤ size → size - cursor < sizeof_DynamicEntry * (Z.of_nat fuel - 1) →
  keeps span (needed_loop options fuel o size cursor strings) (λ _, True).
Proof using Ho Hfit Hspan.
  unfold sizeof_DynamicEntry. intros Hst. revert cursor.
  induction fuel as [|f IH]; intros cursor Hc Hf; [lia|]. cbn [needed_loop].
  unfold sizeof_DynamicEntry. rewrite u64_small by lia.
  destruct (Z.leb_spec (cursor + 16) size); [|by apply keeps_ret].
  eapply keeps_bind; [apply dynamic_entry_keeps; unfold sizeof_DynamicEntry; lia|]. intros e He.
  destruct (_ =? DT_NULL); [by apply keeps_ret|]. destruct (_ =? DT_NEEDED); [|apply IH; lia].
  destruct strings as [[so sz]|]; [|by apply keeps_ret]. simpl in Hst.
  eapply keeps_bind; [apply bounded_string_keeps; [lia|exact He|lia]|]. intros [name|] _; [|by apply keeps_ret].
  destruct (load_dependency options) as [g|]; [|by apply keeps_ret].
  apply keeps_ctx. intros c. destruct (g name c) as [ok c']. apply keeps_set_ctx.
  destruct ok; [apply IH; lia|by apply keeps_ret].
Qed.

End Dynamic.

Lemma link_keeps options base span d : info_ok d → keeps span (link options base span d) (λ _, True).
Proof.
  intros [H1 H2]. unfold link. destruct (negb _); [by apply keeps_ret|].
  destruct (_ && _); [by apply keeps_ret|]. eapply (keeps_bind _ _ _ (λ _, True)).
  { destruct (has (relasz d)); [by apply apply_relocations_keeps|by apply keeps_ret]. }
  intros r _. destruct (negb _); [by apply keeps_ret|]. destruct (_ && _); [|by apply keeps_ret].
  destruct (_ || _); [by apply keeps_ret|by apply apply_relocations_keeps].
Qed.

Lemma load_dynamic_keeps options a base span : span < 2 ^ 63 →
  keeps span (load_dynamic options a base span) (λ _, True).
Proof.
  intros Hspan. unfold load_dynamic. destruct (_ <? _) eqn:Esz; [by apply keeps_ret|]. zbool.
  unfold sizeof_DynamicEntry in Esz.
  destruct (image_range _ _ _ _) as [o|] eqn:Eo; [|by apply keeps_ret].
  apply image_range_Some in Eo as (? & ? & _).
  assert (Hfuel : dynamic_size a - 0 < sizeof_DynamicEntry * (Z.of_nat (dynamic_fuel (dynamic_size a)) - 1)).
  { unfold dynamic_fuel, sizeof_DynamicEntry. rewrite !Nat2Z.inj_succ, Z2Nat.id by div_mod. div_mod. }
  eapply keeps_bind; [apply dynamic_loop_keeps; try done; lia|]. intros d Hd.
  destruct (negb _); [by apply keeps_ret|].
  eapply (keeps_bind _ _ _ (λ st, match st with Some (Some (so, sz)) => 0 ≤ so ∧ so + sz ≤ span | _ => True end)).
  { destruct (_ && _); [|by apply keeps_ret]. apply keeps_ret.
    destruct (image_range _ _ _ _) as [so|] eqn:Es; [|done]. apply image_range_Some in Es. lia. }
  intros [st|] Hst; [|by apply keeps_ret].
  eapply keeps_bind; [apply needed_loop_keeps; try done; lia|]. intros r _.
  destruct (negb _); [by apply keeps_ret|by apply link_keeps].
Qed.

(** *** The segments *)

Lemma file_range_true off len total : file_range off len total = true ↔ off ≤ total ∧ len ≤ total - off.
Proof. unfold file_range. rewrite andb_true_iff, !Z.leb_le. done. Qed.

Definition seg_ok (file : list Z) (p : ProgramHeader) : Prop :=
  p_type p = PT_LOAD → p_filesz p ≤ p_memsz p ∧ p_offset p + p_filesz p ≤ blen file.

Section Segments.
Context (file : list Z) (h : ElfHeader) (Hfile : Forall is_byte file) (Hlen : blen file < 2 ^ 63).
Context (Hoff : 0 ≤ e_phoff h) (Htable : e_phoff h + e_phnum h * sizeof_ProgramHeader ≤ blen file).

Lemma read_phdr_ret i : 0 ≤ i < e_phnum h → ∃ p, read_phdr file h i = Ret p ∧ phdr_ok p.
Proof using Hfile Hlen Hoff Htable.
  unfold sizeof_ProgramHeader in Htable. intros Hi. unfold read_phdr, sizeof_ProgramHeader.
  rewrite u64_small by lia.
  assert (Hget : ∃ b, buf_get (e_phoff h + i * 56) 56 file = Ret b) by (eexists; apply buf_get_ok; lia).
  destruct Hget as [b Hget]. rewrite Hget. exists (read_ProgramHeader b). split; [done|].
  destruct (buf_get_bytes _ _ _ _ Hfile Hget). by apply read_phdr_ok.
Qed.

Lemma scan_loop_ret k i a : 0 ≤ i → i + Z.of_nat k ≤ e_phnum h →
  ∃ r, scan_loop file k h i a = Ret r ∧
    (r ≠ None → ∀ j p, i ≤ j < i + Z.of_nat k → read_phdr file h j = Ret p → seg_ok file p).
Proof using Hfile Hlen Hoff Htable.
  revert i a. induction k as [|k IH]; intros i a Hi Hk; cbn [scan_loop]; [eexists; split; [done|]; intros; lia|].
  destruct (read_phdr_ret i) as (p & Hp & Hpo); [lia|]. rewrite Hp. cbn.
  destruct (scan_header _ p a) as [a'|] eqn:Es; [|by eexists].
  destruct (IH (i + 1) a') as (r & Hr & Hall); [lia..|]. exists r. split; [done|].
  intros Hne j q Hj Hq. destruct (decide (j = i)) as [->|]; [|apply (Hall Hne j); [lia|done]].
  rewrite Hp in Hq. injection Hq as <-. intros Ht. revert Es. unfold scan_header. rewrite Ht. cbn [Z.eqb PT_LOAD Pos.eqb].
  destruct (_ || _) eqn:Eb; [done|]. intros _. apply orb_false_iff in Eb as [Eb _].
  apply orb_false_iff in Eb as [E1 E2]. apply negb_false_iff, file_range_true in E2. zbool. lia.
Qed.

Lemma copy_loop_keeps base span k i : 0 ≤ i → i + Z.of_nat k ≤ e_phnum h →
  (∀ j p, i ≤ j < i + Z.of_nat k → read_phdr file h j = Ret p → seg_ok file p) →
  keeps span (copy_loop file k h i base span) (λ _, True).
Proof using Hfile Hlen Hoff Htable.
  revert i. induction k as [|k IH]; intros i Hi Hk Hseg; cbn [copy_loop]; [by apply keeps_ret|].
  destruct (read_phdr_ret i) as (p & Hp & Hpo); [lia|].
  assert (Hrest : keeps span (copy_loop file k h (i + 1) base span) (λ _, True)).
  { apply IH; [lia..|]. intros j q Hj. apply Hseg. lia. }
  eapply (keeps_bind _ _ _ (eq p)); [apply keeps_lift; by exists p|]. intros _ <-.
  destruct (_ || _) eqn:Et; [exact Hrest|]. apply orb_false_iff in Et as [Et _].
  apply negb_false_iff, Z.eqb_eq in Et. destruct (Hseg i p ltac:(lia) Hp Et) as [Hs1 Hs2].
  destruct (image_range _ _ _ _) as [o|] eqn:Eo; [|by apply keeps_ret].
  apply image_range_Some in Eo as (? & ? & _). destruct Hpo.
  eapply (keeps_bind _ _ _ (λ bs, Forall is_byte bs ∧ blen bs = p_filesz p)).
  { apply keeps_lift. eexists. split; [apply buf_get_ok; lia|].
    eapply buf_get_bytes; [exact Hfile|]. apply buf_get_ok; lia. }
  intros bs [Hbs Hbl]. eapply keeps_bind; [apply keeps_put; [done|lia|lia]|]. intros _ _. exact Hrest.
Qed.

End Segments.

(** What load_elf64 may do to its caller's variables: the image changes in
    its first [span] bytes at most, and the outputs are set only on success. *)
Definition load_effect (options : Options C) (s : dl_state C) (e : Error) (s' : dl_state C) : Prop :=
  ∃ span, 0 ≤ span ≤ blen (image s) ∧ same_from span (image s) (image s') ∧
    if decide (e = Ok) then image_size s' = span ∧ 0 < span
    else image_size s' = image_size s ∧ entry_point s' = entry_point s.

Lemma load_effect_none options s e : e ≠ Ok → load_effect options s e s.
Proof.
  intros He. exists 0. split; [unfold blen; lia|]. split; [done|]. by rewrite (decide_False (P := e = Ok)).
Qed.

Lemma build_keeps file options h a span :
  Forall is_byte file → blen file < 2 ^ 63 → 0 ≤ e_phoff h → 0 ≤ e_phnum h →
  e_phoff h + e_phnum h * sizeof_ProgramHeader ≤ blen file → 0 ≤ span < 2 ^ 63 →
  (∀ j p, 0 ≤ j < e_phnum h → read_phdr file h j = Ret p → seg_ok file p) →
  keeps span (build file options (Z.to_nat (e_phnum h)) h a span) (λ _, True).
Proof.
  intros Hfile Hlen Hoff Hnum Htab Hspan Hseg. unfold build.
  eapply keeps_bind.
  { apply keeps_put; [by apply Forall_replicate|lia|]. unfold blen. rewrite length_replicate. lia. }
  intros _ _. eapply keeps_bind.
  { apply copy_loop_keeps; try done; [lia|]. intros j p Hj. apply Hseg. lia. }
  intros copied _. destruct (negb copied); [by apply keeps_ret|]. apply load_dynamic_keeps. lia.
Qed.

Lemma load_file_safe file options s :
  Forall is_byte file → blen file < 2 ^ 63 → Forall is_byte (image s) → blen (image s) < 2 ^ 63 →
  ∃ e s', load_file file options s = Ret (e, s') ∧ load_effect options s e s'.
Proof.
  intros Hfile Hfl Himg Hcap. unfold load_file.
  assert (Hstop : ∀ e, e ≠ Ok → ∃ e' s', (mret e : M Error) s = Ret (e', s') ∧ load_effect options s e' s').
  { intros e He. exists e, s. split; [done|]. by apply load_effect_none. }
  destruct (_ <? _) eqn:E0; [by apply Hstop|]. zbool. unfold sizeof_ElfHeader in *.
  assert (Hget : ∃ b, buf_get 0 64 file = Ret b) by (eexists; apply buf_get_ok; lia).
  destruct Hget as [b Hget]. destruct (buf_get_bytes _ _ _ _ Hfile Hget) as [Hb Hbl].
  rewrite (K_bind_ret _ _ _ b s) by (unfold k_lift; by rewrite Hget).
  destruct (read_ehdr_range b Hb Hbl) as (Hnum & Hoff & _). set (h := read_ElfHeader b) in *.
  destruct (negb (header_ok h)); [by apply Hstop|]. destruct (_ || _); [by apply Hstop|].
  destruct (negb _) eqn:Er; [by apply Hstop|]. apply negb_false_iff, file_range_true in Er.
  destruct (scan_loop_ret file h Hfile Hfl ltac:(lia) ltac:(lia) (Z.to_nat (e_phnum h)) 0
    (MkScan UINT64_MAX 0 0 0 false)) as (r & Hscan & Hseg); [lia..|].
  rewrite (K_bind_ret _ _ _ r s) by (unfold k_lift; by rewrite Hscan).
  destruct r as [a|]; [|by apply Hstop]. destruct (_ || _) eqn:Ea; [by apply Hstop|]. zbool. krun.
  destruct (_ || _) eqn:Ec; [by apply Hstop|]. zbool.
  set (span := image_end a - image_base a) in *.
  destruct (build_keeps file options h a span Hfile Hfl ltac:(lia) ltac:(lia) ltac:(lia) ltac:(lia)) with (s := s)
    as (e & s1 & Hbuild & (Hsame & Hby & Hep & His) & _).
  { intros j p Hj. apply Hseg; [done|lia]. }
  { split; [done|]. lia. }
  rewrite (K_bind_ret _ _ _ _ _ Hbuild).
  assert (Hbad : ∀ e', e' ≠ Ok → ∃ e s', (mret e' : M Error) s1 = Ret (e, s') ∧ load_effect options s e s').
  { intros e' He'. exists e', s1. split; [done|]. exists span. split; [lia|]. split; [done|].
    by rewrite (decide_False (P := e' = Ok)). }
  destruct (decide (e = Ok)) as [->|He].
  - rewrite bool_decide_true by done. cbn [negb].
    destruct (image_range _ 1 _ _); [|by apply Hbad]. krun. eexists _, _. split; [done|].
    exists span. split; [lia|]. split; [done|]. cbn. split; [done|lia].
  - rewrite bool_decide_false by done. by apply Hbad.
Qed.

(** C13: the dynamic linker is safe on every input. Whatever the bytes of the
    file, load_elf64 returns: every read of the file and of the image is in
    bounds and every loop ends. It writes nothing of the caller's buffer past
    the span of the segments, which is at most the capacity, and sets the
    outputs only when it succeeds. *)
Theorem load_elf64_safe (file : list Z) (options : Options C) (s : dl_state C)
    (Hfile : Forall is_byte file) (Hfl : blen file < 2 ^ 63)
    (Himg : Forall is_byte (image s)) (Hcap : blen (image s) < 2 ^ 63) :
  ∃ e s', load_elf64 (Some file) true (Some options) true s = Ret (e, s') ∧
    ∃ span, 0 ≤ span ≤ blen (image s) ∧ same_from span (image s) (image s') ∧
      if decide (e = Ok) then image_size s' = span ∧ 0 < span
      else image_size s' = image_size s ∧ entry_point s' = entry_point s.
Proof. by apply load_file_safe. Qed.

(** *** Relative relocations do what they say *)

(** The table at [ro] holds the relocations [rs]. *)
Definition table_at (l : list Z) (ro : Z) (rs : list Rela) : Prop :=
  ∀ k r, rs !! k = Some r →
    ∃ b, buf_get (ro + sizeof_Rela * Z.of_nat k) sizeof_Rela l = Ret b ∧ read_Rela b = r.

Section Relative.
Context (options : Options C) (base span : Z) (d : DynamicInfo) (ro total : Z) (Hro : 0 ≤ ro).

Definition target (r : Rela) : Z := r_offset r - base.
Definition relative_value (r : Rela) : list Z := le_bytes 8 (u64 (load_bias options + u64 (r_addend r))).
Definition good_reloc (r : Rela) : Prop :=
  is_relative r ∧ image_range (r_offset r) 8 base span = Some (target r) ∧
  (target r + 8 ≤ ro ∨ ro + total ≤ target r).

(** What the relocations [rs] make of the image [l]. *)
Definition relocated (rs : list Rela) (l l' : list Z) : Prop :=
  length l' = length l ∧
  (∀ r, r ∈ rs → buf_get (target r) 8 l' = Ret (relative_value r)) ∧
  (∀ i, 0 ≤ i → (∀ r, r ∈ rs → ¬ target r ≤ i < target r + 8) → byte_at l' i = byte_at l i).

Lemma table_at_agree l l' p rs : 0 ≤ p → length l' = length l →
  (∀ i, p ≤ i < p + sizeof_Rela * Z.of_nat (length rs) → byte_at l' i = byte_at l i) →
  table_at l p rs → table_at l' p rs.
Proof.
  unfold sizeof_Rela. intros Hp Hlen Hb Ht k r Hk. destruct (Ht k r Hk) as (b & Hget & Hr). exists b.
  split; [|done]. rewrite <- Hget. apply buf_get_agree; [done|]. apply lookup_lt_Some in Hk.
  unfold sizeof_Rela. intros i Hi. apply Hb. lia.
Qed.

Lemma relocation_value_relative r s : is_relative r →
  relocation_value options base span d r s = Ret (inr (u64 (load_bias options + u64 (r_addend r))), s).
Proof using Type. intros [H1 H2]. unfold relocation_value. by rewrite H1, H2. Qed.
Lemma img_put_ret off bs s l : buf_put off bs (image s) = Ret l → img_put off bs s = Ret (tt, set_image l s).
Proof using Type. intros Hp. unfold img_put. krun. unfold k_lift, mbind, K_bind. by rewrite Hp. Qed.

Lemma relocate_loop_relative rs fuel cursor s :
  table_at (image s) (ro + cursor) rs → Forall good_reloc rs → spread (target <$> rs) →
  span ≤ blen (image s) → 0 ≤ cursor → total = cursor + sizeof_Rela * Z.of_nat (length rs) →
  (length rs < fuel)%nat →
  ∃ s', relocate_loop options base span d fuel ro total cursor s = Ret (Ok, s') ∧
    relocated rs (image s) (image s').
Proof using Hro.
  unfold sizeof_Rela. revert fuel cursor s.
  induction rs as [|r rs IH]; intros [|f] cursor s Htab Hgood Hspr Hspan Hc Htot Hf; try (simpl in Hf; lia);
    cbn [relocate_loop].
  { rewrite (proj2 (Z.ltb_ge _ _)) by (simpl in Htot; lia). exists s. split; [done|]. split; [done|].
    split; [by intros r Hr%elem_of_nil|done]. }
  cbn [length fmap list_fmap spread] in *. destruct Hspr as [Hsep Hspr].
  apply Forall_cons in Hgood as [Hr Hgood]. pose proof Hr as (Hrel & Hrange & Hout).
  pose proof (image_range_Some _ _ _ _ _ Hrange) as (Ht0 & Ht8 & _).
  rewrite (proj2 (Z.ltb_lt _ _)) by lia.
  destruct (Htab 0%nat r eq_refl) as (b & Hb & Hread). rewrite Z.mul_0_r, Z.add_0_r in Hb.
  rewrite (K_bind_ret _ _ _ b s) by (unfold img_get; krun; unfold k_lift; by rewrite Hb).
  rewrite Hread, Hrange. rewrite (K_bind_ret _ _ _ _ _ (relocation_value_relative r s Hrel)).
  assert (Hput : ∃ l, buf_put (target r) (relative_value r) (image s) = Ret l).
  { eexists. apply buf_put_ok; [done|]. unfold blen, relative_value in *. rewrite le_bytes_length. lia. }
  destruct Hput as [l Hput]. rewrite (K_bind_ret _ _ _ _ _ (img_put_ret _ _ _ _ Hput)).
  pose proof (buf_put_length _ _ _ _ Hput) as Hlen.
  assert (Hbl : blen (relative_value r) = 8) by (unfold blen, relative_value; by rewrite le_bytes_length).
  assert (Hby : ∀ i, 0 ≤ i → ¬ target r ≤ i < target r + 8 → byte_at l i = byte_at (image s) i).
  { intros i Hi Hni. rewrite (buf_put_byte _ _ _ _ i Hput Hi), Hbl. repeat zcase; simpl; try done; lia. }
  destruct (IH f (cursor + 24) (set_image l s)) as (s' & Hrun & Hlen' & Hword & Hother); try done; try lia.
  { apply (table_at_agree (image s)); [lia|done| |].
    - unfold sizeof_Rela. intros i Hi. apply Hby; lia.
    - intros k q Hk. destruct (Htab (S k) q Hk) as (b' & Hb' & Hq). exists b'. split; [|done].
      rewrite <- Hb'. unfold sizeof_Rela. f_equal. lia. }
  { cbn [image set_image]. unfold blen in *. by rewrite Hlen. }
  exists s'. split; [exact Hrun|]. cbn [image set_image] in *. split; [congruence|]. split.
  - intros q [->|Hq]%elem_of_cons; [|by apply Hword].
    rewrite <- (buf_get_put _ _ _ _ Hput), Hbl. apply buf_get_agree; [done|]. intros i Hi.
    apply Hother; [lia|]. intros q Hq Hin. rewrite Forall_forall in Hsep.
    assert (Hmem : target q ∈ target <$> rs) by (apply list_elem_of_fmap; eauto).
    specialize (Hsep _ Hmem). lia.
  - intros i Hi Hni. rewrite Hother; [|done|intros q Hq; apply Hni; by right].
    apply Hby; [done|]. apply Hni. by left.
Qed.

End Relative.

(** C30: relocation is correct for position-independent code: when the table
    holds RELATIVE relocations of non-overlapping words outside the table,
    apply_relocations succeeds, each target word holds the load bias plus the
    addend, and every other byte of the image is unchanged. *)
Theorem relative_relocations_apply (options : Options C) (base span : Z) (d : DynamicInfo)
    (rela_address : Z) (ro : Z) (rs : list Rela) (s : dl_state C)
    (Htab : table_at (image s) ro rs) (Hne : rs ≠ [])
    (Hrange : image_range rela_address (sizeof_Rela * Z.of_nat (length rs)) base span = Some ro)
    (Hgood : Forall (good_reloc base span ro (sizeof_Rela * Z.of_nat (length rs))) rs)
    (Hspr : spread (target base <$> rs)) (Hspan : span ≤ blen (image s))
    (Hsym : symtab d ≠ None ∧ syment d = Some sizeof_Symbol ∧ strtab d ≠ None ∧ strsz d ≠ None) :
  ∃ s', apply_relocations options base span d rela_address (sizeof_Rela * Z.of_nat (length rs)) s = Ret (Ok, s') ∧
    length (image s') = length (image s) ∧
    (∀ r, r ∈ rs → buf_get (r_offset r - base) 8 (image s') =
                   Ret (le_bytes 8 (u64 (load_bias options + u64 (r_addend r))))) ∧
    (∀ i, 0 ≤ i → (∀ r, r ∈ rs → ¬ r_offset r - base ≤ i < r_offset r - base + 8) →
       byte_at (image s') i = byte_at (image s) i).
Proof.
  pose proof (image_range_Some _ _ _ _ _ Hrange) as (Hro & _ & _).
  set (total := sizeof_Rela * Z.of_nat (length rs)) in *. unfold sizeof_Rela in total.
  assert (Hpos : (0 < length rs)%nat) by (destruct rs; [done|simpl; lia]).
  unfold apply_relocations. rewrite (proj2 (Z.eqb_neq total 0)) by (unfold total; lia).
  assert (Hmod : total mod sizeof_Rela = 0) by (unfold total, sizeof_Rela; rewrite Z.mul_comm; apply Z.mod_mul; lia).
  rewrite Hmod, Z.eqb_refl. destruct Hsym as (H1 & -> & H2 & H3).
  destruct (symtab d); [|done]. destruct (strtab d); [|done]. destruct (strsz d); [|done].
  match goal with |- context [if ?b then _ else _] => change b with false end. cbv iota. rewrite Hrange.
  destruct (relocate_loop_relative options base span d ro total Hro rs (S (Z.to_nat (total / sizeof_Rela))) 0 s)
    as (s' & Hrun & Hrel); [by rewrite Z.add_0_r|done..|lia|unfold total, sizeof_Rela; lia| |].
  { unfold total, sizeof_Rela. rewrite Z.mul_comm, Z.div_mul by lia. lia. }
  exists s'. split; [exact Hrun|]. exact Hrel.
Qed.

End Spec.

(** *** A small shared object

    One segment of 232 bytes at address 4096: the dynamic table, one RELATIVE
    relocation of the last word, an empty symbol and string table. *)
Definition sample_so : list Z :=
  let w n v := le_bytes (Z.to_nat n) v in
  [127; 69; 76; 70; 2; 1; 1; 0; 0; 0; 0; 0; 0; 0; 0; 0] ++
  w 2 ET_DYN ++ w 2 EM_X86_64 ++ w 4 1 ++ w 8 4100 ++ w 8 64 ++ w 8 0 ++ w 4 0 ++ w 2 64 ++ w 2 56 ++
  w 2 2 ++ w 2 0 ++ w 2 0 ++ w 2 0 ++
  (w 4 PT_LOAD ++ w 4 5 ++ w 8 176 ++ w 8 4096 ++ w 8 4096 ++ w 8 184 ++ w 8 232 ++ w 8 8) ++
  (w 4 PT_DYNAMIC ++ w 4 6 ++ w 8 176 ++ w 8 4096 ++ w 8 4096 ++ w 8 128 ++ w 8 128 ++ w 8 8) ++
  (w 8 DT_RELA ++ w 8 (4096 + 128)) ++ (w 8 DT_RELASZ ++ w 8 24) ++ (w 8 DT_RELAENT ++ w 8 24) ++
  (w 8 DT_SYMTAB ++ w 8 (4096 + 152)) ++ (w 8 DT_SYMENT ++ w 8 24) ++
  (w 8 DT_STRTAB ++ w 8 (4096 + 176)) ++ (w 8 DT_STRSZ ++ w 8 8) ++ (w 8 DT_NULL ++ w 8 0) ++
  (w 8 (4096 + 224) ++ w 8 R_X86_64_RELATIVE ++ w 8 4100) ++ replicate 32 0.

Definition sample_options : Options unit := MkOptions 65536 None None.
Definition sample_buffer : dl_state unit := MkDl (replicate 240 255) tt 0 0.

(** Loaded with bias 65536: the entry point and the relocated word are
    biased, and the 8 bytes past the segment are untouched. *)
Example sample_so_loads :
  match load_elf64 (Some sample_so) true (Some sample_options) true sample_buffer with
  | Ret (Ok, s) => entry_point s = 65536 + 4100 ∧ image_size s = 232 ∧
      buf_get 224 8 (image s) = Ret (le_bytes 8 (65536 + 4100)) ∧ drop 232 (image s) = replicate 8 255
  | _ => False
  end.
Proof. vm_compute. repeat split. Qed.

Lemma load_elf64_safe_witness :
  ∃ e s', load_elf64 (Some sample_so) true (Some sample_options) true sample_buffer = Ret (e, s').
Proof.
  destruct (load_elf64_safe sample_so sample_options sample_buffer) as (e & s' & Hrun & _).
  - apply bytes_of_bool. vm_compute. reflexivity.
  - vm_compute. reflexivity.
  - apply Forall_replicate. unfold is_byte. lia.
  - vm_compute. reflexivity.
  - exists e, s'. exact Hrun.
Defined.

Definition sample_rela : Rela := MkRela 4120 R_X86_64_RELATIVE 4100.
Definition sample_info : DynamicInfo :=
  MkInfo (Some 0) (Some 0) (Some 0) (Some 24) None None None None None None 0 true.
Definition sample_image : dl_state unit :=
  MkDl (le_bytes 8 4120 ++ le_bytes 8 R_X86_64_RELATIVE ++ le_bytes 8 4100 ++ replicate 8 0) tt 0 0.
Lemma relative_relocations_apply_witness :
  ∃ s', apply_relocations sample_options 4096 32 sample_info 4096 24 sample_image = Ret (Ok, s') ∧
    buf_get 24 8 (image s') = Ret (le_bytes 8 69636).
Proof.
  destruct (relative_relocations_apply sample_options 4096 32 sample_info 4096 0 [sample_rela] sample_image)
    as (s' & Hrun & _ & Hw & _).
  - intros [|k] r Hk; [|by destruct k]. injection Hk as <-. eexists. split; [vm_compute; reflexivity|].
    vm_compute. reflexivity.
  - done.
  - vm_compute. reflexivity.
  - constructor; [|constructor]. split; [split; vm_compute; reflexivity|]. split; [vm_compute; reflexivity|].
    right. vm_compute. discriminate.
  - split; constructor.
  - vm_compute. discriminate.
  - repeat split; done.
  - exists s'. split; [exact Hrun|]. exact (Hw sample_rela ltac:(by left)).
Defined.
