(* ===== verification/Apic.v ===== *)
(** * The local APIC and its timer: src/apic.cpp

    The registers are a memory-mapped page, [lapic]; what the device does
    between two accesses is not the kernel's code, so the change of the
    registers while pit_wait_ms spins is a parameter. The CPUID instruction
    is a parameter too; the machine-specific registers and the PIT's ports
    are part of the state. *)

From S2P Require Import Prelude Paging.

(** ** include/apic/apic.h *)

Inductive Reg :=
| APIC_ID | APIC_VERSION | TPR | EOI | SPURIOUS_VEC | ICR_LOW | ICR_HIGH
| LVT_TIMER | TIMER_INIT_CNT | TIMER_CUR_CNT | TIMER_DIVIDE.
Definition reg_offset (r : Reg) : Z :=
  match r with
  | APIC_ID => 32 | APIC_VERSION => 48 | TPR => 128 | EOI => 176 | SPURIOUS_VEC => 240
  | ICR_LOW => 768 | ICR_HIGH => 784
  | LVT_TIMER => 800 | TIMER_INIT_CNT => 896 | TIMER_CUR_CNT => 912 | TIMER_DIVIDE => 992
  end.
Definition IA32_APIC_BASE_MSR : Z := 27.
Definition APIC_BASE_ENABLE : Z := 2048.
Definition APIC_TIMER_TICK : Z := 10.
Record ApicBaseInfo := MkBaseInfo { mmio_base : Z; is_bsp : bool }.

(** ** include/proc/cpuid.h: the leaves the kernel asks for *)

Record cpuid_result := MkCpuid { eax : Z; ebx : Z; ecx : Z; edx : Z }.

Record apic_state := MkApic {
  apic_mmio_base : Z;
  lapic : Z → Z;                 (** register contents by offset *)
  msr : Z → Z;
  pit_in : list Z;               (** what port 0x61 will answer *)
  port_log : list (Z * Z);       (** bytes written to ports *)
  base_info : ApicBaseInfo;
  timer_ticks_per_ms : Z;
  timer_period_ticks : Z;
  g_lapic_total_ticks : Z;
  g_uptime_us_base : Z;
  ap_paging : paging_state
}.

Section Apic.
Context (elapse : Z → (Z → Z) → (Z → Z)).
Abbreviation M := (K apic_state).

Definition set_base (b : Z) (s : apic_state) : apic_state :=
  MkApic b (lapic s) (msr s) (pit_in s) (port_log s) (base_info s) (timer_ticks_per_ms s)
    (timer_period_ticks s) (g_lapic_total_ticks s) (g_uptime_us_base s) (ap_paging s).
Definition set_lapic (r : Z → Z) (s : apic_state) : apic_state :=
  MkApic (apic_mmio_base s) r (msr s) (pit_in s) (port_log s) (base_info s) (timer_ticks_per_ms s)
    (timer_period_ticks s) (g_lapic_total_ticks s) (g_uptime_us_base s) (ap_paging s).
Definition set_msr (m : Z → Z) (s : apic_state) : apic_state :=
  MkApic (apic_mmio_base s) (lapic s) m (pit_in s) (port_log s) (base_info s) (timer_ticks_per_ms s)
    (timer_period_ticks s) (g_lapic_total_ticks s) (g_uptime_us_base s) (ap_paging s).
Definition set_pit (i : list Z) (l : list (Z * Z)) (s : apic_state) : apic_state :=
  MkApic (apic_mmio_base s) (lapic s) (msr s) i l (base_info s) (timer_ticks_per_ms s)
    (timer_period_ticks s) (g_lapic_total_ticks s) (g_uptime_us_base s) (ap_paging s).
Definition set_info (i : ApicBaseInfo) (s : apic_state) : apic_state :=
  MkApic (apic_mmio_base s) (lapic s) (msr s) (pit_in s) (port_log s) i (timer_ticks_per_ms s)
    (timer_period_ticks s) (g_lapic_total_ticks s) (g_uptime_us_base s) (ap_paging s).
Definition set_rate (t : Z) (s : apic_state) : apic_state :=
  MkApic (apic_mmio_base s) (lapic s) (msr s) (pit_in s) (port_log s) (base_info s) t
    (timer_period_ticks s) (g_lapic_total_ticks s) (g_uptime_us_base s) (ap_paging s).
Definition set_period (p : Z) (s : apic_state) : apic_state :=
  MkApic (apic_mmio_base s) (lapic s) (msr s) (pit_in s) (port_log s) (base_info s)
    (timer_ticks_per_ms s) p (g_lapic_total_ticks s) (g_uptime_us_base s) (ap_paging s).
Definition set_clock (total us : Z) (s : apic_state) : apic_state :=
  MkApic (apic_mmio_base s) (lapic s) (msr s) (pit_in s) (port_log s) (base_info s)
    (timer_ticks_per_ms s) (timer_period_ticks s) total us (ap_paging s).
Definition set_ap_paging (p : paging_state) (s : apic_state) : apic_state :=
  MkApic (apic_mmio_base s) (lapic s) (msr s) (pit_in s) (port_log s) (base_info s)
    (timer_ticks_per_ms s) (timer_period_ticks s) (g_lapic_total_ticks s) (g_uptime_us_base s) p.

(** *** Processor features and registers *)

Definition has_apic (query : Z → cpuid_result) : bool := negb (Z.land (Z.shiftr (edx (query 1)) 9) 1 =? 0).
Definition has_tsc_deadline (query : Z → cpuid_result) : bool := negb (Z.land (Z.shiftr (ecx (query 1)) 24) 1 =? 0).

Definition msr_read (id : Z) : M Z := k_gets (λ s, msr s id).
Definition msr_write (id value : Z) : M unit :=
  k_modify (λ s, set_msr (λ i, if i =? id then u64 value else msr s i) s).

Definition get_base_info : M ApicBaseInfo :=
  msr_val ← msr_read IA32_APIC_BASE_MSR;
  mret (MkBaseInfo (Z.land msr_val 4294963200) (negb (Z.land (Z.shiftr msr_val 8) 1 =? 0))).

Definition read_reg (reg : Reg) : M Z :=
  b ← k_gets apic_mmio_base;
  if b =? 0 then mret 0 else k_gets (λ s, lapic s (reg_offset reg)).
Definition write_reg (reg : Reg) (val : Z) : M unit :=
  b ← k_gets apic_mmio_base;
  if b =? 0 then mret tt
  else k_modify (λ s, set_lapic (λ o, if o =? reg_offset reg then u32 val else lapic s o) s).

Definition send_eoi : M unit := write_reg EOI 0.

Definition outb (port v : Z) : M unit := k_modify (λ s, set_pit (pit_in s) (port_log s ++ [(port, v)]) s).
Definition in_61 : M Z := λ s,
  match pit_in s with [] => Diverge | x :: xs => Ret (x, set_pit xs (port_log s) s) end.
Definition io_wait : M unit := outb 128 0.

Definition disable_legacy_pic : M unit := outb 33 255 ≫= λ _, outb 161 255.

(** *** Initialisation *)

Definition on_paging {B} (m : K paging_state B) : M B := λ s,
  match m (ap_paging s) with
  | Ret (b, p) => Ret (b, set_ap_paging p s)
  | Panic w => Panic w | Fault => Fault | Diverge => Diverge
  end.

(** The enable bit, then the registers both init and init_ap set. *)
Definition enable : M ApicBaseInfo :=
  msr_val ← msr_read IA32_APIC_BASE_MSR;
  msr_write IA32_APIC_BASE_MSR (Z.lor msr_val APIC_BASE_ENABLE) ≫= λ _,
  get_base_info.
Definition unmask : M unit :=
  v ← read_reg SPURIOUS_VEC;
  write_reg SPURIOUS_VEC (Z.lor v 511) ≫= λ _,
  write_reg TPR 0.

Definition init (hhdm : Z) (query : Z → cpuid_result) : M unit :=
  if negb (has_apic query) then k_panic "apic: No APIC supports." else
  info ← enable;
  if (mmio_base info =? 0) || negb (Z.land (mmio_base info) 4095 =? 0)
  then k_panic "apic: Invalid LAPIC base address after enable!" else
  on_paging (map_lapic hhdm (mmio_base info)) ≫= λ _,
  k_modify (set_base LAPIC_VIRT_BASE) ≫= λ _,
  disable_legacy_pic ≫= λ _,
  unmask ≫= λ _,
  k_modify (set_info info).

Definition init_ap : M unit := info ← enable; unmask ≫= λ _, k_modify (set_info info).

(** *** The timer *)

Definition DIV_16 : Z := 3.
Definition LVT_TIMER_PERIODIC : Z := Z.shiftl 1 17.
Definition LVT_MASKED : Z := Z.shiftl 1 16.
Definition PIT_FREQUENCY : Z := 1193182.

Fixpoint pit_poll (fuel : nat) : M unit :=
  match fuel with
  | O => k_diverge
  | S f => status ← in_61; if Z.land status 32 =? 0 then pit_poll f else mret tt
  end.
(** include/pic_calibrate.h; the LAPIC counts on while the loop spins. *)
Definition pit_wait_ms (ms : Z) : M unit :=
  let count := u16 (u32 (PIT_FREQUENCY * ms) / 1000) in
  gate ← in_61;
  outb 97 (Z.lor (Z.land gate 253) 1) ≫= λ _,
  outb 67 176 ≫= λ _,
  outb 66 (Z.land count 255) ≫= λ _,
  io_wait ≫= λ _,
  outb 66 (Z.land (Z.shiftr count 8) 255) ≫= λ _,
  (λ s, pit_poll (S (length (pit_in s))) s) ≫= λ _,
  k_modify (λ s, set_lapic (elapse ms (lapic s)) s).

Definition calibrate_timer : M Z :=
  write_reg LVT_TIMER LVT_MASKED ≫= λ _,
  write_reg TIMER_DIVIDE DIV_16 ≫= λ _,
  write_reg TIMER_INIT_CNT 4294967295 ≫= λ _,
  pit_wait_ms 10 ≫= λ _,
  cur ← read_reg TIMER_CUR_CNT;
  let elapsed := u32 (4294967295 - cur) in
  write_reg TIMER_INIT_CNT 0 ≫= λ _,
  if (elapsed =? 0) || (elapsed =? 4294967295) then mret 10000 else mret (elapsed / 10).

Definition timer_init (vector : Z) (periodic : bool) (initial_count : Z) : M unit :=
  rate ← k_gets timer_ticks_per_ms;
  (if rate =? 0 then r ← calibrate_timer; k_modify (set_rate r) else mret tt) ≫= λ _,
  write_reg TIMER_DIVIDE DIV_16 ≫= λ _,
  write_reg LVT_TIMER (if periodic then Z.lor vector LVT_TIMER_PERIODIC else vector) ≫= λ _,
  if periodic then
    rate ← k_gets timer_ticks_per_ms;
    k_modify (set_period (u32 (rate * APIC_TIMER_TICK))) ≫= λ _,
    write_reg TIMER_INIT_CNT (u32 (rate * APIC_TIMER_TICK))
  else write_reg TIMER_INIT_CNT initial_count.
(** timer_init_ap has the same body. *)
Definition timer_init_ap (vector : Z) (periodic : bool) (initial_count : Z) : M unit :=
  timer_init vector periodic initial_count.

(** A division by zero is undefined. *)
Definition timer_tick : M unit :=
  s ← k_get;
  if timer_ticks_per_ms s =? 0 then k_fault
  else k_modify (set_clock (u64 (g_lapic_total_ticks s + timer_period_ticks s))
    (u64 (g_uptime_us_base s + u64 (timer_period_ticks s * 1000) / timer_ticks_per_ms s))).

Definition get_uptime_us : M Z :=
  rate ← k_gets timer_ticks_per_ms;
  if rate =? 0 then mret 0 else
  base ← k_gets g_uptime_us_base;
  current ← read_reg TIMER_CUR_CNT;
  period ← k_gets timer_period_ticks;
  let consumed_ticks := if current <=? period then period - current else 0 in
  mret (u64 (base + u64 (consumed_ticks * 1000) / rate)).

Definition timer_oneshot (vector initial_count : Z) : M unit :=
  write_reg TIMER_DIVIDE DIV_16 ≫= λ _,
  write_reg LVT_TIMER vector ≫= λ _,
  write_reg TIMER_INIT_CNT initial_count.
Definition timer_stop : M unit := write_reg LVT_TIMER LVT_MASKED ≫= λ _, write_reg TIMER_INIT_CNT 0.

(** The processor's own number: the register, or before apic::init the same
    register through the direct map. *)
Definition get_lapic_id : M Z :=
  b ← k_gets apic_mmio_base;
  v ← (if b =? 0 then k_gets (λ s, lapic s 32) else read_reg APIC_ID);
  mret (Z.land (Z.shiftr v 24) 255).

(** ** The clock keeps time *)

Set Default Proof Using "Type".

Implicit Types s : apic_state.

Definition poke_reg (reg : Reg) (v : Z) (r : Z → Z) : Z → Z := λ o, if o =? reg_offset reg then u32 v else r o.

Lemma apic_write_ret reg v s : apic_mmio_base s ≠ 0 →
  write_reg reg v s = Ret (tt, set_lapic (poke_reg reg v (lapic s)) s).
Proof. intros Hb. unfold write_reg. krun. by rewrite (proj2 (Z.eqb_neq _ _) Hb). Qed.
Lemma apic_read_ret reg s : apic_mmio_base s ≠ 0 → read_reg reg s = Ret (lapic s (reg_offset reg), s).
Proof. intros Hb. unfold read_reg. krun. by rewrite (proj2 (Z.eqb_neq _ _) Hb). Qed.

Lemma pit_poll_ret waits st rest fuel s :
  pit_in s = waits ++ st :: rest → Forall (λ w, Z.land w 32 = 0) waits → Z.land st 32 ≠ 0 →
  (length waits < fuel)%nat → pit_poll fuel s = Ret (tt, set_pit rest (port_log s) s).
Proof.
  intros Hin Hw Hst. revert fuel s Hin. induction Hw as [|w waits Hw0 Hw IH]; intros [|f] s Hin Hf;
    try (simpl in Hf; lia); cbn [pit_poll].
  - rewrite (K_bind_ret _ _ s st (set_pit rest (port_log s) s)) by (unfold in_61; by rewrite Hin).
    by rewrite (proj2 (Z.eqb_neq _ _) Hst).
  - rewrite (K_bind_ret _ _ s w (set_pit (waits ++ st :: rest) (port_log s) s)) by (unfold in_61; by rewrite Hin).
    rewrite Hw0. cbn [Z.eqb]. by rewrite IH by (done || (simpl in Hf; lia)).
Qed.

(** The PIT program: gate on, mode 0, and the count for [ms] milliseconds. *)
Definition pit_program (ms gate : Z) : list (Z * Z) :=
  let count := u16 (u32 (PIT_FREQUENCY * ms) / 1000) in
  [(97, Z.lor (Z.land gate 253) 1); (67, 176); (66, Z.land count 255); (128, 0);
   (66, Z.land (Z.shiftr count 8) 255)].

Lemma set_pit_pit i l i' l' s : set_pit i l (set_pit i' l' s) = set_pit i l s.
Proof. done. Qed.
Lemma outb_log port v i l s : outb port v (set_pit i l s) = Ret (tt, set_pit i (l ++ [(port, v)]) s).
Proof. done. Qed.

Lemma pit_wait_ms_ret ms gate waits st rest s :
  pit_in s = gate :: waits ++ st :: rest → Forall (λ w, Z.land w 32 = 0) waits → Z.land st 32 ≠ 0 →
  pit_wait_ms ms s = Ret (tt, set_lapic (elapse ms (lapic s)) (set_pit rest (port_log s ++ pit_program ms gate) s)).
Proof.
  intros Hin Hw Hst. unfold pit_wait_ms, io_wait.
  rewrite (K_bind_ret _ _ s gate (set_pit (waits ++ st :: rest) (port_log s) s)) by (unfold in_61; by rewrite Hin).
  do 5 rewrite (K_bind_ret _ _ _ _ _ (outb_log _ _ _ _ _)).
  rewrite <- !app_assoc. set (l := port_log s ++ _).
  rewrite (K_bind_ret _ _ _ tt (set_pit rest l s)); [done|].
  rewrite (pit_poll_ret waits st rest _ (set_pit (waits ++ st :: rest) l s)); [done|done..|].
  cbn [pit_in set_pit]. rewrite length_app. simpl. lia.
Qed.

(** One period of the timer adds its microseconds. *)
Lemma timer_tick_ret s rate :
  timer_ticks_per_ms s = rate → 0 < rate < 2 ^ 28 → timer_period_ticks s = rate * 10 →
  0 ≤ g_uptime_us_base s < 2 ^ 63 →
  timer_tick s = Ret (tt, set_clock (u64 (g_lapic_total_ticks s + rate * 10)) (g_uptime_us_base s + 10000) s).
Proof.
  intros Hr Hr0 Hp Hu. unfold timer_tick. krun. rewrite Hr, Hp.
  rewrite (proj2 (Z.eqb_neq rate 0)) by lia. unfold k_modify. do 3 f_equal.
  rewrite (u64_small (rate * 10 * 1000)) by lia.
  replace (rate * 10 * 1000) with (10000 * rate) by lia. rewrite Z.div_mul, u64_small by lia. done.
Qed.

Fixpoint ticks (n : nat) : M unit :=
  match n with O => mret tt | S n' => timer_tick ≫= λ _, ticks n' end.

Lemma ticks_ret n s rate :
  timer_ticks_per_ms s = rate → 0 < rate < 2 ^ 28 → timer_period_ticks s = rate * 10 →
  0 ≤ g_uptime_us_base s → g_uptime_us_base s + 10000 * Z.of_nat n < 2 ^ 62 →
  ∃ total, ticks n s = Ret (tt, set_clock total (g_uptime_us_base s + 10000 * Z.of_nat n) s).
Proof.
  revert s. induction n as [|n IH]; intros s Hr Hr0 Hp Hu Hb; cbn [ticks].
  { exists (g_lapic_total_ticks s). unfold mret, K_ret. rewrite Z.add_0_r. by destruct s. }
  rewrite (K_bind_ret _ _ _ _ _ (timer_tick_ret s rate Hr Hr0 Hp ltac:(lia))).
  set (s1 := set_clock _ _ s). assert (Hs1 : g_uptime_us_base s1 = g_uptime_us_base s + 10000) by done.
  destruct (IH s1) as [total Ht]; [done..|lia|lia|]. exists total. rewrite Ht, Hs1.
  replace (g_uptime_us_base s + 10000 + 10000 * Z.of_nat n)
    with (g_uptime_us_base s + 10000 * Z.of_nat (S n)) by lia. done.
Qed.

(** The counter reads [c] at the moment of the call. *)
Definition at_count (c : Z) (s : apic_state) : apic_state :=
  set_lapic (λ o, if o =? reg_offset TIMER_CUR_CNT then c else lapic s o) s.

Lemma uptime_ret s rate c n :
  apic_mmio_base s ≠ 0 → timer_ticks_per_ms s = rate → 0 < rate < 2 ^ 28 →
  timer_period_ticks s = rate * 10 → 0 ≤ c ≤ rate * 10 →
  g_uptime_us_base s = 10000 * n → 0 ≤ n < 2 ^ 40 →
  get_uptime_us (at_count c s) = Ret ((n * (rate * 10) + (rate * 10 - c)) * 1000 / rate, at_count c s).
Proof.
  intros Hb Hr Hr0 Hp Hc Hu Hn. unfold get_uptime_us. krun. cbn [timer_ticks_per_ms at_count set_lapic].
  rewrite Hr, (proj2 (Z.eqb_neq rate 0)) by lia. krun.
  rewrite (K_bind_ret _ _ _ _ _ (apic_read_ret TIMER_CUR_CNT (at_count c s) Hb)). krun.
  cbn [g_uptime_us_base timer_period_ticks at_count set_lapic lapic]. rewrite Z.eqb_refl, Hp, Hu.
  rewrite (proj2 (Z.leb_le _ _)) by lia. unfold mret, K_ret. do 2 f_equal.
  rewrite (u64_small ((rate * 10 - c) * 1000)) by lia.
  replace ((n * (rate * 10) + (rate * 10 - c)) * 1000) with ((rate * 10 - c) * 1000 + (10000 * n) * rate) by lia.
  rewrite Z.div_add by lia. rewrite u64_small; [lia|].
  pose proof (Z.div_le_upper_bound ((rate * 10 - c) * 1000) rate 10000 ltac:(lia) ltac:(lia)).
  pose proof (Z.div_pos ((rate * 10 - c) * 1000) rate ltac:(lia) ltac:(lia)). lia.
Qed.

(** The state timer_init leaves: the rate from the calibration. *)
Lemma timer_init_ret s gate waits st rest e :
  apic_mmio_base s ≠ 0 → timer_ticks_per_ms s = 0 →
  pit_in s = gate :: waits ++ st :: rest → Forall (λ w, Z.land w 32 = 0) waits → Z.land st 32 ≠ 0 →
  (∀ r, u32 (4294967295 - elapse 10 r (reg_offset TIMER_CUR_CNT)) = e) → 10 ≤ e < 2 ^ 28 →
  ∃ s', timer_init 32 true 0 s = Ret (tt, s') ∧ apic_mmio_base s' = apic_mmio_base s ∧
    timer_ticks_per_ms s' = e / 10 ∧ timer_period_ticks s' = e / 10 * 10 ∧
    g_uptime_us_base s' = g_uptime_us_base s ∧ port_log s' = port_log s ++ pit_program 10 gate ∧
    lapic s' (reg_offset TIMER_INIT_CNT) = e / 10 * 10 ∧ lapic s' (reg_offset TIMER_DIVIDE) = DIV_16 ∧
    lapic s' (reg_offset LVT_TIMER) = 32 + 2 ^ 17.
Proof.
  intros Hb Hr Hin Hw Hst He He10. unfold timer_init. krun. rewrite Hr. cbn [Z.eqb].
  assert (Hcal : ∃ s1, calibrate_timer s = Ret (e / 10, s1) ∧ apic_mmio_base s1 = apic_mmio_base s ∧
    g_uptime_us_base s1 = g_uptime_us_base s ∧ port_log s1 = port_log s ++ pit_program 10 gate).
  { unfold calibrate_timer. do 3 (erewrite K_bind_ret by (apply apic_write_ret; exact Hb)).
    set (s0 := set_lapic _ _). rewrite (K_bind_ret _ _ _ _ _ (pit_wait_ms_ret 10 gate waits st rest s0 Hin Hw Hst)).
    set (s2 := set_lapic (elapse 10 (lapic s0)) _).
    rewrite (K_bind_ret _ _ _ _ _ (apic_read_ret TIMER_CUR_CNT s2 Hb)). cbv zeta.
    rewrite (K_bind_ret _ _ _ _ _ (apic_write_ret TIMER_INIT_CNT 0 s2 Hb)).
    change (lapic s2) with (elapse 10 (lapic s0)). rewrite He.
    rewrite !(proj2 (Z.eqb_neq _ _)) by lia. eexists. split; [reflexivity|done]. }
  destruct Hcal as (s1 & Hcal & Hb1 & Hu1 & Hl1). rewrite (K_bind_ret _ _ _ tt (set_rate (e / 10) s1));
    [|by rewrite (K_bind_ret _ _ _ _ _ Hcal)].
  rewrite <- Hb1 in Hb. do 2 (erewrite K_bind_ret by (apply apic_write_ret; exact Hb)).
  krun. set (s3 := set_period _ _). rewrite (apic_write_ret _ _ s3 Hb).
  assert (Hper : u32 (e / 10 * APIC_TIMER_TICK) = e / 10 * 10) by (apply u32_small; unfold APIC_TIMER_TICK; div_mod).
  eexists. split; [reflexivity|]. split; [exact Hb1|]. split; [done|].
  split; [exact Hper|]. split; [exact Hu1|]. split; [exact Hl1|]. split; [|done].
  cbn. change (timer_ticks_per_ms (set_rate (e / 10) s1)) with (e / 10). rewrite Hper. apply u32_small. div_mod.
Qed.


End Apic.

(** *** A device that counts 1000000 times in 10 ms *)

Definition sample_apic : apic_state :=
  MkApic LAPIC_VIRT_BASE (λ _, 0) (λ _, 0) [0; 0; 32] [] (MkBaseInfo 0 false) 0 0 0 0
    (PagingState (Pmm.Machine (λ _, 0) 0 0 0) 0).
Definition count_1000000 (ms : Z) (r : Z → Z) : Z → Z := λ o, if o =? 912 then 4294967295 - 1000000 else r o.


(** A calibration that sees fewer than ten counts leaves a rate of zero, and
    the first timer interrupt divides by it. *)
Definition count_5 (ms : Z) (r : Z → Z) : Z → Z := λ o, if o =? 912 then 4294967295 - 5 else r o.
Lemma slow_timer_divides_by_zero :
  match timer_init count_5 32 true 0 sample_apic with
  | Ret (_, s) => match timer_tick s with Fault => true | _ => false end
  | _ => false
  end = true.
Proof. vm_compute. reflexivity. Qed.
