(* ===== verification/Madt.v ===== *)
(** * The interrupt controllers of the machine: src/madt.cpp

    find_madt walks the tables the firmware left in memory; parse reads the
    entries of the MADT one after the other into [ApicInfo]. The tables are
    bytes of memory, read with the offsets of the packed structures of
    include/apic/madt.h. *)

From S2P Require Import Prelude Mem.

(** ** include/apic/madt.h *)

Definition sdt_length (m : ram) (t : Z) : Z := load32 m (t + 4).
Definition sizeof_SdtHeader : Z := 36.
Definition madt_local_apic_address (m : ram) (t : Z) : Z := load32 m (t + 36).
Definition sizeof_MadtHeader : Z := 44.
Definition entry_type (m : ram) (e : Z) : Z := load_le m e 1.
Definition entry_length (m : ram) (e : Z) : Z := load_le m (e + 1) 1.
Definition ioapic_id (m : ram) (e : Z) : Z := load_le m (e + 2) 1.
Definition ioapic_address (m : ram) (e : Z) : Z := load32 m (e + 4).
Definition ioapic_gsi_base (m : ram) (e : Z) : Z := load32 m (e + 8).
Definition iso_irq_source (m : ram) (e : Z) : Z := load_le m (e + 3) 1.
Definition iso_gsi (m : ram) (e : Z) : Z := load32 m (e + 4).
Definition iso_flags (m : ram) (e : Z) : Z := load16 m (e + 8).
Definition rsdp_revision (m : ram) (r : Z) : Z := load_le m (r + 15) 1.
Definition rsdt_address (m : ram) (r : Z) : Z := load32 m (r + 16).
Definition xsdt_address (m : ram) (r : Z) : Z := load64 m (r + 24).

Record IoApicDesc := MkDesc { phys_base : Z; gsi_base : Z; desc_id : Z }.
Record IsoEntry := MkIso { isa_irq : Z; gsi : Z; iso_flag : Z }.
Definition MAX_IOAPICS : nat := 8.
Definition MAX_ISOS : nat := 32.
(** The arrays with their counts are lists. *)
Record ApicInfo := MkInfo {
  lapic_phys_base : Z; bsp_apic_id : Z; ioapics : list IoApicDesc; isos : list IsoEntry
}.
Definition no_apic_info : ApicInfo := MkInfo 0 0 [] [].

Section Madt.
Context (hhdm : Z) (m : ram).

(** The scan of the root table's pointers, [size] bytes each. *)
Fixpoint find_table (k : nat) (entries : Z) (size : nat) : outcome Z :=
  match k with
  | O => Panic "acpi_madt: MADT not found."
  | S k' =>
      let table_phys := load_le m entries size in
      let tbl := u64 (table_phys + hhdm) in
      if (m tbl =? 65) && (m (tbl + 1) =? 80) && (m (tbl + 2) =? 73) && (m (tbl + 3) =? 67)
      then Ret tbl
      else find_table k' (entries + Z.of_nat size) size
  end.

(** [rsdp] is the address in the boot loader's response, 0 when there is
    none; the result is the MADT's address or null. *)
Definition find_madt (rsdp : Z) : outcome Z :=
  if rsdp =? 0 then Ret 0 else
  let from (sdt_phys : Z) (is_xsdt : bool) :=
    let sdt_header := u64 (sdt_phys + hhdm) in
    if sdt_length m sdt_header <? sizeof_SdtHeader then Panic "acpi_madt: SDT length invalid."
    else
      let entry_size := if is_xsdt then 8%nat else 4%nat in
      let entry_count := (sdt_length m sdt_header - sizeof_SdtHeader) / Z.of_nat entry_size in
      find_table (Z.to_nat entry_count) (sdt_header + sizeof_SdtHeader) entry_size in
  if (2 <=? rsdp_revision m rsdp) && negb (xsdt_address m rsdp =? 0)
  then from (xsdt_address m rsdp) true
  else if negb (rsdt_address m rsdp =? 0) then from (rsdt_address m rsdp) false
  else Panic "acpi_madt: No XSDT or RSDT found in RSDP.".

(** The switch on the entry's type. *)
Definition record_madt (e : Z) (a : ApicInfo) : ApicInfo :=
  if entry_type m e =? 1 then
    if (length (ioapics a) <? MAX_IOAPICS)%nat
    then MkInfo (lapic_phys_base a) (bsp_apic_id a)
           (ioapics a ++ [MkDesc (ioapic_address m e) (ioapic_gsi_base m e) (ioapic_id m e)]) (isos a)
    else a
  else if entry_type m e =? 2 then
    if (length (isos a) <? MAX_ISOS)%nat
    then MkInfo (lapic_phys_base a) (bsp_apic_id a) (ioapics a)
           (isos a ++ [MkIso (iso_irq_source m e) (iso_gsi m e) (iso_flags m e)])
    else a
  else a.

Fixpoint parse_loop (fuel : nat) (ptr end_ : Z) (a : ApicInfo) : outcome ApicInfo :=
  match fuel with
  | O => Diverge
  | S f => if ptr <? end_ then parse_loop f (ptr + entry_length m ptr) end_ (record_madt ptr a) else Ret a
  end.

(** A null table is dereferenced. An entry is at least a byte, if its length
    is not zero, so the table's length bounds the loop. *)
Definition parse (rsdp : Z) (a : ApicInfo) : outcome ApicInfo :=
  find_madt rsdp ≫= λ madt,
  if madt =? 0 then Fault else
  parse_loop (S (Z.to_nat (sdt_length m madt))) (madt + sizeof_MadtHeader) (madt + sdt_length m madt)
    (MkInfo (madt_local_apic_address m madt) (bsp_apic_id a) (ioapics a) (isos a)).

End Madt.

(** ** The format, as the firmware writes it *)

Inductive madt_entry :=
| ELapic (proc_id apic_id flags : Z)
| EIoApic (id addr gsi : Z)
| EIso (bus irq gsi flags : Z)
| EOther (type : Z) (body : list Z).

(** A structure in memory: its bytes, little endian. *)
Definition entry_at (m : ram) (p : Z) (e : madt_entry) : Prop :=
  match e with
  | ELapic pr a f => load_le m p 1 = 0 ∧ load_le m (p + 1) 1 = 8 ∧
      load_le m (p + 2) 1 = pr ∧ load_le m (p + 3) 1 = a ∧ load32 m (p + 4) = f
  | EIoApic i a g => load_le m p 1 = 1 ∧ load_le m (p + 1) 1 = 12 ∧
      load_le m (p + 2) 1 = i ∧ load32 m (p + 4) = a ∧ load32 m (p + 8) = g
  | EIso b i g f => load_le m p 1 = 2 ∧ load_le m (p + 1) 1 = 10 ∧
      load_le m (p + 2) 1 = b ∧ load_le m (p + 3) 1 = i ∧ load32 m (p + 4) = g ∧ load16 m (p + 8) = f
  | EOther t body => load_le m p 1 = t ∧ load_le m (p + 1) 1 = 2 + Z.of_nat (length body) ∧ (3 ≤ t)
  end.
Definition entry_size (e : madt_entry) : Z :=
  match e with ELapic _ _ _ => 8 | EIoApic _ _ _ => 12 | EIso _ _ _ _ => 10
             | EOther _ body => 2 + Z.of_nat (length body) end.
Fixpoint entries_at (m : ram) (p : Z) (es : list madt_entry) : Prop :=
  match es with [] => True | e :: es' => entry_at m p e ∧ entries_at m (p + entry_size e) es' end.
Definition entries_size (es : list madt_entry) : Z := foldr (λ e n, entry_size e + n) 0 es.

Definition desc_of (e : madt_entry) : option IoApicDesc :=
  match e with EIoApic i a g => Some (MkDesc a g i) | _ => None end.
Definition iso_of (e : madt_entry) : option IsoEntry :=
  match e with EIso _ i g f => Some (MkIso i g f) | _ => None end.

Lemma entry_size_pos e : 0 < entry_size e.
Proof. destruct e; simpl; lia. Qed.

Definition collect (es : list madt_entry) (a : ApicInfo) : ApicInfo :=
  MkInfo (lapic_phys_base a) (bsp_apic_id a) (take MAX_IOAPICS (ioapics a ++ omap desc_of es))
    (take MAX_ISOS (isos a ++ omap iso_of es)).

Definition counts_ok (a : ApicInfo) : Prop :=
  (length (ioapics a) ≤ MAX_IOAPICS)%nat ∧ (length (isos a) ≤ MAX_ISOS)%nat.

Lemma record_entry_spec m p e es a : entry_at m p e → counts_ok a →
  entry_length m p = entry_size e ∧ counts_ok (record_madt m p a) ∧
  collect es (record_madt m p a) = collect (e :: es) a.
Proof.
  intros He [H1 H2]. unfold entry_length, record_madt, collect, counts_ok, entry_type.
  destruct e as [pr ap f|i ad g|b i g f|t body]; cbn [entry_at] in He.
  - destruct He as (-> & -> & _). cbn. done.
  - destruct He as (-> & -> & E1 & E2 & E3). cbn [Z.eqb Pos.eqb].
    unfold ioapic_address, ioapic_gsi_base, ioapic_id. rewrite E1, E2, E3. split; [done|].
    cbn [omap list_omap desc_of iso_of]. destruct (Nat.ltb_spec (length (ioapics a)) MAX_IOAPICS) as [Hlt|Hge];
      cbn [ioapics isos lapic_phys_base bsp_apic_id]; (split; [split; [|done]|f_equal]).
    all: try (rewrite ?length_app; simpl; lia).
    + by rewrite <- app_assoc.
    + by rewrite !take_app_le by done.
  - destruct He as (-> & -> & _ & E1 & E2 & E3). cbn [Z.eqb Pos.eqb].
    unfold iso_irq_source, iso_gsi, iso_flags. rewrite E1, E2, E3. split; [done|].
    cbn [omap list_omap desc_of iso_of]. destruct (Nat.ltb_spec (length (isos a)) MAX_ISOS) as [Hlt|Hge];
      cbn [ioapics isos lapic_phys_base bsp_apic_id]; (split; [split; [done|]|f_equal]).
    all: try (rewrite ?length_app; simpl; lia).
    + by rewrite <- app_assoc.
    + by rewrite !take_app_le by done.
  - destruct He as (-> & -> & Ht). rewrite !(proj2 (Z.eqb_neq _ _)) by lia. done.
Qed.

(** The arrays never overflow, whatever the table holds. *)
Lemma record_counts m e a : counts_ok a → counts_ok (record_madt m e a).
Proof.
  intros [H1 H2]. unfold record_madt, counts_ok.
  destruct (_ =? 1); [|destruct (_ =? 2); [|done]].
  - destruct (Nat.ltb_spec (length (ioapics a)) MAX_IOAPICS); cbn [ioapics isos]; rewrite ?length_app; simpl; lia.
  - destruct (Nat.ltb_spec (length (isos a)) MAX_ISOS); cbn [ioapics isos]; rewrite ?length_app; simpl; lia.
Qed.
Lemma parse_loop_counts m fuel p e a a' : counts_ok a → parse_loop m fuel p e a = Ret a' → counts_ok a'.
Proof.
  revert p a. induction fuel as [|f IH]; intros p a Hc; cbn [parse_loop]; [done|].
  destruct (p <? e); [|by intros [= <-]]. apply IH. by apply record_counts.
Qed.
Lemma parse_counts hhdm m rsdp info : parse hhdm m rsdp no_apic_info = Ret info → counts_ok info.
Proof.
  unfold parse, mbind, outcome_bind. destruct (find_madt hhdm m rsdp) as [madt| | |]; try done. destruct (madt =? 0); [done|].
  apply parse_loop_counts. unfold counts_ok, MAX_IOAPICS, MAX_ISOS. cbn. lia.
Qed.

Lemma entries_size_cons e es : entries_size (e :: es) = entry_size e + entries_size es.
Proof. done. Qed.
Lemma entries_size_nonneg es : 0 ≤ entries_size es.
Proof.
  induction es as [|e es IH]; [done|]. rewrite entries_size_cons. pose proof (entry_size_pos e). lia.
Qed.

Lemma parse_loop_spec m es fuel p a : entries_at m p es → counts_ok a →
  entries_size es < Z.of_nat fuel →
  parse_loop m fuel p (p + entries_size es) a = Ret (collect es a).
Proof.
  revert fuel p a. induction es as [|e es IH]; intros fuel p a Hes Hok Hf.
  - destruct fuel as [|f]; [cbn in Hf; lia|]. cbn [parse_loop]. change (entries_size []) with 0.
    rewrite Z.add_0_r, Z.ltb_irrefl. unfold collect. cbn. rewrite !app_nil_r. destruct Hok.
    rewrite !take_ge by done. by destruct a.
  - rewrite entries_size_cons in *. destruct Hes as [He Hes]. pose proof (entry_size_pos e).
    pose proof (entries_size_nonneg es). destruct fuel as [|f]; [lia|]. cbn [parse_loop].
    destruct (record_entry_spec m p e es a He Hok) as (Hlen & Hok' & Hcol).
    rewrite (proj2 (Z.ltb_lt _ _)) by lia. rewrite Hlen, <- Hcol.
    rewrite <- (IH f (p + entry_size e)); [f_equal; lia|done|done|lia].
Qed.

(** the MADT is read completely and in order: when the table the firmware
    points to holds the entries [es], parse ends and the information is the
    LAPIC address, the first 8 I/O APICs and the first 32 interrupt overrides,
    in the order of the table. *)
Theorem madt_parse_entries (hhdm : Z) (m : ram) (rsdp madt : Z) (es : list madt_entry) (bsp : Z)
    (Hfind : find_madt hhdm m rsdp = Ret madt) (Hnn : madt ≠ 0)
    (Hlen : sdt_length m madt = sizeof_MadtHeader + entries_size es)
    (Hes : entries_at m (madt + sizeof_MadtHeader) es) :
  parse hhdm m rsdp (MkInfo 0 bsp [] []) =
    Ret (MkInfo (madt_local_apic_address m madt) bsp
           (take MAX_IOAPICS (omap desc_of es)) (take MAX_ISOS (omap iso_of es))).
Proof.
  unfold parse. rewrite Hfind. cbn [mbind outcome_bind]. rewrite (proj2 (Z.eqb_neq _ _) Hnn), Hlen.
  rewrite Z.add_assoc. rewrite parse_loop_spec; [done|done| |].
  - unfold counts_ok. cbn. unfold MAX_IOAPICS, MAX_ISOS. lia.
  - unfold sizeof_MadtHeader. lia.
Qed.

(** An entry whose length byte is 0 is never left. *)
Lemma zero_length_entry_hangs m p end_ fuel a :
  p < end_ → entry_length m p = 0 → parse_loop m fuel p end_ a = Diverge.
Proof.
  intros Hp Hl. revert a. induction fuel as [|f IH]; intros a; [done|]. cbn [parse_loop].
  rewrite (proj2 (Z.ltb_lt _ _)) by done. rewrite Hl, Z.add_0_r. apply IH.
Qed.

(** Tables at 64 (RSDP), 128 (RSDT) and 256 (MADT), direct map at 0. *)
Definition tables : ram := λ a,
  let put (off : Z) (l : list Z) := if (off <=? a) && (a <? off + Z.of_nat (length l))
                                    then nth (Z.to_nat (a - off)) l 0 else 0 in
  put 80 [128; 0; 0; 0] + put 132 [40; 0; 0; 0] + put 164 [0; 1; 0; 0] +
  put 256 [65; 80; 73; 67; 66; 0; 0; 0] + put 292 [0; 0; 224; 254] +
  put 300 [1; 12; 2; 0; 0; 0; 192; 254; 0; 0; 0; 0] +
  put 312 [2; 10; 0; 0; 2; 0; 0; 0; 0; 0].
Lemma madt_parse_entries_witness :
  parse 0 tables 64 (MkInfo 0 7 [] []) =
    Ret (MkInfo 4276092928 7 [MkDesc 4273995776 0 2] [MkIso 0 2 0]).
Proof.
  rewrite (madt_parse_entries 0 tables 64 256 [EIoApic 2 4273995776 0; EIso 0 0 2 0] 7).
  - vm_compute. reflexivity.
  - vm_compute. reflexivity.
  - discriminate.
  - vm_compute. reflexivity.
  - vm_compute. repeat split.
Defined.
