(* ===== verification/Console.v ===== *)
(** * The console: src/ostreamk.cpp, include/kprint.h

    [ostreamk] draws characters into the boot loader's frame buffer with the
    font of Font.v and prints numbers; [__kprint_locked], the kernel's
    [kout], puts a time stamp in front of every line. The state is the
    memory the frame buffer lies in, the file's static variables, the
    colours of [__kout], the radix [manip_state] and the line flag of
    [__locked_kout]. The frame buffer response of the boot loader is a
    parameter: [None] is a null response, the list its frame buffers. *)

From Stdlib Require Import Ascii String.
From S2P Require Import Prelude Mem KString Paging Apic Font.

(** The characters of a string literal. *)
Definition str (s : string) : list Z := (λ c, Z.of_N (N_of_ascii c)) <$> list_ascii_of_string s.

Definition FONT_WIDTH : Z := 8.
Definition FONT_HEIGHT : Z := 16.

(** ** Colours *)

Record ARGBColor := MkARGB { argb_a : Z; argb_r : Z; argb_g : Z; argb_b : Z }.
Definition ARGBToHex (c : ARGBColor) : Z :=
  u32 (Z.lor (Z.lor (Z.lor (Z.shiftl (argb_a c) 24) (Z.shiftl (argb_r c) 16)) (Z.shiftl (argb_g c) 8)) (argb_b c)).
Definition HexToARGB (hex : Z) : ARGBColor :=
  MkARGB (u8 (Z.land (Z.shiftr hex 24) 255)) (u8 (Z.land (Z.shiftr hex 16) 255))
    (u8 (Z.land (Z.shiftr hex 8) 255)) (u8 (Z.land hex 255)).

(** ** State *)

(** The fields of limine_framebuffer the console uses. *)
Record framebuffer := MkFb { fb_address : Z; fb_width : Z; fb_height : Z; fb_pitch : Z }.

Record console_state := MkConsole {
  con_mem : ram;
  cursor_x : Z; cursor_y : Z; max_cols : Z; max_rows : Z;
  con_fg : ARGBColor; con_bg : ARGBColor;
  manip_base : Z;
  prefix_printed : bool;
  con_apic : apic_state
}.

Definition set_con_mem (m : ram) (s : console_state) : console_state :=
  MkConsole m (cursor_x s) (cursor_y s) (max_cols s) (max_rows s) (con_fg s) (con_bg s) (manip_base s)
    (prefix_printed s) (con_apic s).
Definition set_cursor (x y : Z) (s : console_state) : console_state :=
  MkConsole (con_mem s) x y (max_cols s) (max_rows s) (con_fg s) (con_bg s) (manip_base s)
    (prefix_printed s) (con_apic s).
Definition set_grid (cols rows : Z) (s : console_state) : console_state :=
  MkConsole (con_mem s) (cursor_x s) (cursor_y s) cols rows (con_fg s) (con_bg s) (manip_base s)
    (prefix_printed s) (con_apic s).
Definition set_manip (b : Z) (s : console_state) : console_state :=
  MkConsole (con_mem s) (cursor_x s) (cursor_y s) (max_cols s) (max_rows s) (con_fg s) (con_bg s) b
    (prefix_printed s) (con_apic s).
Definition set_prefix (p : bool) (s : console_state) : console_state :=
  MkConsole (con_mem s) (cursor_x s) (cursor_y s) (max_cols s) (max_rows s) (con_fg s) (con_bg s) (manip_base s)
    p (con_apic s).
Definition set_con_apic (a : apic_state) (s : console_state) : console_state :=
  MkConsole (con_mem s) (cursor_x s) (cursor_y s) (max_cols s) (max_rows s) (con_fg s) (con_bg s) (manip_base s)
    (prefix_printed s) a.

(** __kout(0x00FFFFFF, 0x00000000) and the static variables at boot. *)
Definition console_boot (m : ram) (a : apic_state) : console_state :=
  MkConsole m 0 0 0 0 (HexToARGB 16777215) (HexToARGB 0) 10 false a.

Section Console.
Context (response : option (list framebuffer)).
Abbreviation M := (K console_state).

(** ** Drawing *)

(** The address of the first frame buffer, null without one; the grid is
    measured on the first call. *)
Definition getframebuffer : M Z :=
  match response with
  | None | Some [] => mret 0
  | Some (fb :: _) =>
      cols ← k_gets max_cols;
      (if cols =? 0 then k_modify (set_grid (fb_width fb / FONT_WIDTH) (fb_height fb / FONT_HEIGHT))
       else mret tt) ≫= λ _,
      mret (fb_address fb)
  end.

Fixpoint scroll_loop (k : nat) (y fb pitch row_bytes : Z) (m : ram) : ram :=
  match k with
  | O => m
  | S k' =>
      let dst := fb + u64 (y * pitch) in
      let src := fb + u64 ((y + FONT_HEIGHT) * pitch) in
      scroll_loop k' (y + 1) fb pitch row_bytes (memcpy dst src row_bytes m).2
  end.

Definition scroll : M unit :=
  match response with
  | None | Some [] => mret tt
  | Some (fb_info :: _) =>
      if fb_address fb_info =? 0 then mret tt else
      let fb := fb_address fb_info in
      let pitch := fb_pitch fb_info in
      let row_bytes := u64 (fb_width fb_info * 4) in
      let height := fb_height fb_info in
      let font_row_bytes := u64 (FONT_HEIGHT * pitch) in
      if height <=? FONT_HEIGHT then mret tt else
      k_modify (λ s, set_con_mem
        (memset (fb + u64 ((height - FONT_HEIGHT) * pitch)) 0 font_row_bytes
          (scroll_loop (Z.to_nat (height - FONT_HEIGHT)) 0 fb pitch row_bytes (con_mem s))).2 s)
  end.

Definition newline : M unit :=
  k_modify (λ s, set_cursor 0 (u64 (cursor_y s + 1)) s) ≫= λ _,
  y ← k_gets cursor_y;
  rows ← k_gets max_rows;
  if rows <=? y then
    scroll ≫= λ _,
    k_modify (λ s, set_cursor (cursor_x s) (u64 (max_rows s - 1)) s)
  else mret tt.

(** fb[(base_y + row) * row_stride + (base_x + col)] = ... for the columns
    from [col] on; [start] is the index of the row's first column. *)
Fixpoint draw_cols (k : nat) (col fb start bits fg bg : Z) (m : ram) : ram :=
  match k with
  | O => m
  | S k' =>
      let pixel_set := negb (Z.land (Z.shiftr bits (7 - col)) 1 =? 0) in
      draw_cols k' (col + 1) fb start bits fg bg
        (store_le m (fb + 4 * u64 (start + col)) (if pixel_set then fg else bg) 4)
  end.
Fixpoint draw_rows (k : nat) (row fb glyph base_x base_y row_stride fg bg : Z) : M unit :=
  match k with
  | O => mret tt
  | S k' =>
      bits ← k_deref (ascii_font !! Z.to_nat (glyph + row));
      k_modify (λ s, set_con_mem
        (draw_cols (Z.to_nat FONT_WIDTH) 0 fb (u64 (base_y + row) * row_stride + base_x) bits fg bg (con_mem s)) s) ≫= λ _,
      draw_rows k' (row + 1) fb glyph base_x base_y row_stride fg bg
  end.

Definition drawChar (c x y : Z) : M unit :=
  fb ← getframebuffer;
  if fb =? 0 then mret tt else
  match response with
  | None | Some [] => mret tt
  | Some (fb_info :: _) =>
      let row_stride := fb_pitch fb_info / 4 in
      let glyph_index := u8 c in
      let glyph_index := if 3904 / FONT_HEIGHT <=? glyph_index then 63 else glyph_index in
      let base_y := u64 (y * FONT_HEIGHT) in
      let base_x := u64 (x * FONT_WIDTH) in
      if (fb_height fb_info <? u64 (base_y + FONT_HEIGHT)) || (fb_width fb_info <? u64 (base_x + FONT_WIDTH))
      then mret tt else
      fg ← k_gets (λ s, ARGBToHex (con_fg s));
      bg ← k_gets (λ s, ARGBToHex (con_bg s));
      draw_rows (Z.to_nat FONT_HEIGHT) 0 fb (glyph_index * FONT_HEIGHT) base_x base_y row_stride fg bg
  end.

(** ** Characters and strings *)

Definition write (c : Z) : M unit :=
  if c =? 10 then newline
  else if c =? 13 then k_modify (λ s, set_cursor 0 (cursor_y s) s)
  else if c =? 9 then
    k_modify (λ s, set_cursor (Z.land (u64 (cursor_x s + 4)) (u64 (Z.lnot 3))) (cursor_y s) s) ≫= λ _,
    x ← k_gets cursor_x;
    cols ← k_gets max_cols;
    if cols <=? x then newline else mret tt
  else
    x ← k_gets cursor_x;
    y ← k_gets cursor_y;
    drawChar c x y ≫= λ _,
    k_modify (λ s, set_cursor (u64 (cursor_x s + 1)) (cursor_y s) s) ≫= λ _,
    x ← k_gets cursor_x;
    cols ← k_gets max_cols;
    if cols <=? x then newline else mret tt.

Fixpoint write_all (l : list Z) : M unit :=
  match l with
  | [] => mret tt
  | c :: l' => write c ≫= λ _, write_all l'
  end.
(** A string pointer: [None] is null, the list holds the bytes before the NUL. *)
Definition write_str (p : option (list Z)) : M unit :=
  match p with None => mret tt | Some l => write_all l end.

(** ** Numbers *)

Definition digit_char (d : Z) : Z := if d <? 10 then 48 + d else u8 (97 + d - 10).

(** The digits of [value], least significant first into tmp[sizeof(T) * 8 + 1],
    which is then read backwards: the accumulator is the final order. A
    negative value of a signed T has none. *)
Fixpoint uint_digits (fuel : nat) (tmp_size value base : Z) (tmp : list Z) : outcome (list Z) :=
  match fuel with
  | O => Diverge
  | S f =>
      if 0 <? value then
        if (base =? 0) || (tmp_size <=? Z.of_nat (length tmp)) then Fault
        else uint_digits f tmp_size (value / base) base (digit_char (value mod base) :: tmp)
      else Ret tmp
  end.
(** uint_to_str for a type of [w] bits and a buffer of [room] characters. *)
Definition uint_to_str (w room value base : Z) : outcome (list Z) :=
  if value =? 0 then Ret [48] else
  l ← uint_digits (Z.to_nat (w + 2)) (w + 1) value base [];
  if room <? Z.of_nat (length l) then Fault else Ret l.

Definition lift_outcome {B} (o : outcome B) : M B := λ s,
  match o with
  | Ret b => Ret (b, s)
  | Panic w => Panic w | Fault => Fault | Diverge => Diverge
  end.

(** The stream operators of the integer types: the width and the size of the
    buffer; a signed type has the same body. *)
Definition put_int (w room v : Z) : M unit :=
  base ← k_gets manip_base;
  l ← lift_outcome (uint_to_str w room v base);
  write_all l.
Definition put_u8 (v : Z) : M unit := put_int 8 4 v.
Definition put_u16 (v : Z) : M unit := put_int 16 6 v.
Definition put_u32 (v : Z) : M unit := put_int 32 11 v.
Definition put_u64 (v : Z) : M unit := put_int 64 21 v.
Definition put_i8 (v : Z) : M unit := put_int 8 4 v.
Definition put_i16 (v : Z) : M unit := put_int 16 6 v.
Definition put_i32 (v : Z) : M unit := put_int 32 11 v.
Definition put_i64 (v : Z) : M unit := put_int 64 21 v.

(** The sixteen nibbles over the characters from index 2 on. *)
Fixpoint nibbles (k : nat) (i val : Z) (buf : list Z) : list Z :=
  match k with
  | O => buf
  | S k' =>
      let nibble := Z.land (Z.shiftr val (60 - i * 4)) 15 in
      nibbles k' (i + 1) val (<[Z.to_nat (2 + i) := if nibble <? 10 then 48 + nibble else 97 + nibble - 10]> buf)
  end.
Definition ptr_to_str (val : Z) : outcome (list Z) :=
  l ← uint_to_str 64 18 val 16;
  let buf := [48; 120] ++ l ++ replicate (16 - length l) 48 in
  Ret (take 18 (nibbles 16 0 val buf)).
Definition put_ptr (p : Z) : M unit := l ← lift_outcome (ptr_to_str p); write_all l.

Definition put_bool (b : bool) : M unit := write_str (Some (str (if b then "true" else "false"))).
Definition put_manip (base : Z) : M unit := k_modify (set_manip base).

(** A shift by the width of the type or more is undefined. *)
Definition shr_int (val i : Z) : M Z := if 32 <=? i then k_fault else mret (Z.shiftr val i).
Fixpoint write_nibbles (k : nat) (i val : Z) : M unit :=
  match k with
  | O => mret tt
  | S k' =>
      if i <? 0 then mret tt else
      x ← shr_int val i;
      write (hex_char (Z.land x 15)) ≫= λ _,
      write_nibbles k' (i - 4) val
  end.
Definition writeHex_uint32 (val : Z) : M unit := write_str (Some (str "0x")) ≫= λ _, write_nibbles 17 60 val.
Definition writeHex_uint16 (val : Z) : M unit := write_str (Some (str "0x")) ≫= λ _, write_nibbles 17 30 val.

Fixpoint pad_loop (k : nat) (pad_char : Z) : M unit :=
  match k with
  | O => mret tt
  | S k' => write pad_char ≫= λ _, pad_loop k' pad_char
  end.
(** At most twenty digits, least significant first. *)
Fixpoint dec_digits (k : nat) (val : Z) (buf : list Z) : list Z :=
  match k with
  | O => buf
  | S k' => if 0 <? val then dec_digits k' (val / 10) ((48 + val mod 10) :: buf) else buf
  end.
Definition print_padded_uint (val width pad_char : Z) : M unit :=
  if val =? 0 then pad_loop (Z.to_nat (width - 1)) pad_char ≫= λ _, write 48
  else
    let buf := dec_digits 20 val [] in
    pad_loop (Z.to_nat (width - Z.of_nat (length buf))) pad_char ≫= λ _,
    write_all buf.

(** ** kout *)

Definition on_apic {B} (m : K apic_state B) : M B := λ s,
  match m (con_apic s) with
  | Ret (b, a) => Ret (b, set_con_apic a s)
  | Panic w => Panic w | Fault => Fault | Diverge => Diverge
  end.

Definition log_prefix : M unit :=
  us ← on_apic get_uptime_us;
  let sec := us / 1000000 in
  let frac := us mod 1000000 in
  write_str (Some (str "[ ")) ≫= λ _,
  print_padded_uint sec 4 32 ≫= λ _,
  write_str (Some (str ".")) ≫= λ _,
  print_padded_uint frac 6 48 ≫= λ _,
  write_str (Some (str "] ")).

Definition ensure_prefix : M unit :=
  p ← k_gets prefix_printed;
  if (p : bool) then mret tt else log_prefix ≫= λ _, k_modify (set_prefix true).

(** operator<< of the template, with the operator of the value's type. *)
Definition kout_val (put : M unit) : M unit := ensure_prefix ≫= λ _, put.
(** str[strlen(str) - 1] is outside the string when it is empty. *)
Definition kout_str (l : list Z) : M unit :=
  ensure_prefix ≫= λ _,
  write_str (Some l) ≫= λ _,
  c ← k_deref (last l);
  if c =? 10 then k_modify (set_prefix false) else mret tt.
Definition kout_char (c : Z) : M unit :=
  ensure_prefix ≫= λ _,
  write c ≫= λ _,
  if c =? 10 then k_modify (set_prefix false) else mret tt.
Definition kout_manip (base : Z) : M unit := put_manip base.

End Console.
