(* ===== verification/ConsoleSpec.v ===== *)
(** * The console shows a terminal

    [term] is the text terminal the console is meant to be: a grid of
    characters with a cursor, scrolling when a line ends at the bottom. The
    theorems relate it to the pixels: whatever is written, the frame buffer
    shows the terminal's characters in the console's font, and no byte
    outside the frame buffer changes. *)

From S2P Require Import Prelude Mem KString Paging Apic Font Console.

(** ** The terminal *)

Record term := MkTerm { t_x : Z; t_y : Z; t_cell : Z → Z → option Z }.

Definition term_newline (rows : Z) (t : term) : term :=
  if t_y t + 1 <? rows then MkTerm 0 (t_y t + 1) (t_cell t)
  else MkTerm 0 (rows - 1) (λ x y, if y + 1 <? rows then t_cell t x (y + 1) else None).
Definition term_advance (cols rows x : Z) (t : term) : term :=
  if x <? cols then MkTerm x (t_y t) (t_cell t) else term_newline rows t.
Definition term_put (c : Z) (t : term) : term :=
  MkTerm (t_x t) (t_y t) (λ x y, if (x =? t_x t) && (y =? t_y t) then Some c else t_cell t x y).
Definition term_write (cols rows : Z) (t : term) (c : Z) : term :=
  if c =? 10 then term_newline rows t
  else if c =? 13 then MkTerm 0 (t_y t) (t_cell t)
  else if c =? 9 then term_advance cols rows ((t_x t / 4 + 1) * 4) t
  else term_advance cols rows (t_x t + 1) (term_put c t).

(** The colour of a pixel of a cell. *)
Definition glyph_of (c : Z) : Z := if 244 <=? u8 c then 63 else u8 c.
Definition font_bit (c px py : Z) : bool :=
  Z.testbit (default 0 (ascii_font !! Z.to_nat (glyph_of c * 16 + py))) (7 - px).
Definition cell_pixel (fg bg : Z) (o : option Z) (px py : Z) : Z :=
  match o with None => 0 | Some c => if font_bit c px py then fg else bg end.

(** What the boot loader promises about a 32-bit frame buffer. *)
Record fb_ok (fb : framebuffer) : Prop := {
  ok_address : 0 < fb_address fb;
  ok_width : 8 ≤ fb_width fb;
  ok_height : 16 < fb_height fb;
  ok_pitch : fb_width fb * 4 ≤ fb_pitch fb;
  ok_aligned : fb_pitch fb mod 4 = 0;
  ok_end : fb_address fb + fb_pitch fb * fb_height fb < 2 ^ 63
}.

Section Spec.
Context (fb : framebuffer) (more : list framebuffer) (Hfb : fb_ok fb) (F B : ARGBColor).
Set Default Proof Using "Type".

Definition stride : Z := fb_pitch fb / 4.
Definition cols : Z := fb_width fb / 8.
Definition rows : Z := fb_height fb / 16.
Definition pget (m : ram) (i : Z) : Z := load_le m (fb_address fb + 4 * i) 4.
Definition pixel (m : ram) (x y : Z) : Z := pget m (y * stride + x).
Definition screen (t : term) (px py : Z) : Z :=
  if (px / 8 <? cols) && (py / 16 <? rows)
  then cell_pixel (ARGBToHex F) (ARGBToHex B) (t_cell t (px / 8) (py / 16)) (px mod 8) (py mod 16)
  else 0.

(** No byte outside the frame buffer changes. *)
Definition inside (m m' : ram) : Prop :=
  ∀ a, a < fb_address fb ∨ fb_address fb + fb_pitch fb * fb_height fb ≤ a → m' a = m a.

Record shows (s : console_state) (t : term) : Prop := {
  sh_cursor : cursor_x s = t_x t ∧ cursor_y s = t_y t;
  sh_range : 0 ≤ t_x t < cols ∧ 0 ≤ t_y t < rows;
  sh_grid : max_cols s = cols ∧ max_rows s = rows;
  sh_colours : con_fg s = F ∧ con_bg s = B;
  sh_pixels : ∀ px py, 0 ≤ px < fb_width fb → 0 ≤ py < fb_height fb →
    pixel (con_mem s) px py = screen t px py
}.

(** ** Pixels *)

Lemma pget_store m i j v : pget (store_le m (fb_address fb + 4 * i) v 4) j = if j =? i then u32 v else pget m j.
Proof.
  unfold pget. zcase; [subst; by rewrite load_store_le_eq|]. apply load_store_le_ne. lia.
Qed.

Lemma shift_bit bits n : 0 ≤ n → negb (Z.land (Z.shiftr bits n) 1 =? 0) = Z.testbit bits n.
Proof.
  intros Hn. transitivity (Z.testbit (Z.shiftr bits n) 0); [|by rewrite Z.shiftr_spec].
  change 1 with (Z.ones 1). rewrite Z.land_ones, Z.bit0_odd by done. change (2 ^ 1) with 2.
  rewrite Zmod_odd. by destruct (Z.odd _).
Qed.

Lemma draw_cols_spec k col start bits fg bg m : 0 ≤ start → 0 ≤ col → col + Z.of_nat k = 8 → start + 8 ≤ 2 ^ 64 →
  let m' := draw_cols k col (fb_address fb) start bits fg bg m in
  (∀ j, pget m' j = if (start + col <=? j) && (j <? start + 8)
     then u32 (if Z.testbit bits (7 - (j - start)) then fg else bg) else pget m j) ∧
  ∀ a, a < fb_address fb + 4 * start ∨ fb_address fb + 4 * (start + 8) ≤ a → m' a = m a.
Proof.
  revert col m. induction k as [|k IH]; intros col m Hs Hc Hk H64; cbn [draw_cols]; cbv zeta.
  { split; [|done]. intros j. repeat zcase; simpl; try done; lia. }
  rewrite u64_small, shift_bit by lia.
  destruct (IH (col + 1) (store_le m (fb_address fb + 4 * (start + col)) (if Z.testbit bits (7 - col) then fg else bg) 4))
    as [Hp Ho]; [lia..|]. split.
  - intros j. rewrite Hp, pget_store. repeat zcase; simpl; try done; try lia. subst j.
    by replace (7 - (start + col - start)) with (7 - col) by lia.
  - intros a Ha. rewrite Ho by done. apply store_le_out. lia.
Qed.

Lemma stride_pitch : fb_pitch fb = 4 * stride.
Proof using Hfb. unfold stride. destruct Hfb. Z.div_mod_to_equations. lia. Qed.

(** The eight pixels of a cell's row, as indices. *)
Lemma cell_index x py' px py : 0 ≤ x → x * 8 + 8 ≤ stride → 0 ≤ px < stride →
  (py' * stride + x * 8 + 0 <=? py * stride + px) && (py * stride + px <? py' * stride + x * 8 + 8)
  = (px / 8 =? x) && (py =? py').
Proof.
  intros Hx Hs Hp. apply eq_true_iff_eq. rewrite !andb_true_iff, Z.leb_le, Z.ltb_lt, !Z.eqb_eq. split.
  - intros [H1 H2]. assert (py = py') as -> by nia. split; [|done]. Z.div_mod_to_equations. lia.
  - intros [H1 ->]. Z.div_mod_to_equations. lia.
Qed.

Lemma draw_rows_spec k row c x y fg bg s : 0 ≤ row → row + Z.of_nat k = 16 → 0 ≤ x < cols → 0 ≤ y < rows →
  ∃ m', draw_rows k row (fb_address fb) (glyph_of c * 16) (x * 8) (y * 16) stride fg bg s = Ret (tt, set_con_mem m' s) ∧
  inside (con_mem s) m' ∧
  ∀ px py, 0 ≤ px < fb_width fb → 0 ≤ py < fb_height fb → pixel m' px py =
    if (px / 8 =? x) && (py / 16 =? y) && (row <=? py mod 16)
    then u32 (if font_bit c (px mod 8) (py mod 16) then fg else bg) else pixel (con_mem s) px py.
Proof using Hfb.
  revert row s. induction k as [|k IH]; intros row s Hr Hk Hx Hy; cbn [draw_rows].
  { exists (con_mem s). split; [by destruct s|]. split; [done|]. intros px py Hpx Hpy.
    destruct (Z.leb_spec row (py mod 16)); [|by rewrite andb_false_r]. Z.div_mod_to_equations. lia. }
  assert (Hg : 0 ≤ glyph_of c < 244) by (unfold glyph_of; pose proof (u8_range c); zcase; lia).
  destruct (ascii_font_row (glyph_of c) row Hg ltac:(lia)) as [bits Hb]. rewrite Hb. cbn [k_deref]. krun.
  pose proof stride_pitch as Hst. destruct Hfb as [Ha Hw Hh Hp _ He].
  assert (Hc : x * 8 + 8 ≤ stride ∧ y * 16 + 16 ≤ fb_height fb) by (unfold cols, rows in *; Z.div_mod_to_equations; lia).
  assert (Hlt : (y * 16 + row + 1) * stride ≤ fb_height fb * stride) by (apply Z.mul_le_mono_nonneg_r; lia).
  rewrite u64_small by (split; nia).
  destruct (draw_cols_spec 8 0 ((y * 16 + row) * stride + x * 8) bits fg bg (con_mem s)) as [Hpx Hout]; [nia|lia|lia|nia|].
  set (m1 := draw_cols _ _ _ _ _ _ _ _) in *.
  destruct (IH (row + 1) (set_con_mem m1 s)) as (m' & Hrun & Hin & Hpix); [lia..|]. exists m'. rewrite Hrun.
  split; [by destruct s|]. split.
  { intros a Hout'. rewrite Hin by done. apply Hout. nia. }
  intros px py Hpxr Hpyr. rewrite Hpix by done. cbn [con_mem set_con_mem]. unfold pixel. rewrite Hpx.
  rewrite cell_index by lia. destruct (Z.eqb_spec (px / 8) x) as [Hpx8|]; [|done]. cbn [andb].
  destruct (Z.eqb_spec py (y * 16 + row)) as [->|Hne].
  - replace ((y * 16 + row) / 16) with y by (Z.div_mod_to_equations; lia).
    replace ((y * 16 + row) mod 16) with row by (Z.div_mod_to_equations; lia).
    rewrite Z.eqb_refl, Z.leb_refl, (proj2 (Z.leb_gt (row + 1) row)) by lia. cbn [andb].
    unfold font_bit. rewrite Hb. cbn [default].
    by replace (7 - ((y * 16 + row) * stride + px - ((y * 16 + row) * stride + x * 8))) with (7 - px mod 8)
      by (Z.div_mod_to_equations; lia).
  - destruct (Z.eqb_spec (py / 16) y); [|done]. cbn [andb].
    replace (row + 1 <=? py mod 16) with (row <=? py mod 16); [done|].
    apply eq_true_iff_eq. rewrite !Z.leb_le. Z.div_mod_to_equations. lia.
Qed.

Lemma ARGBToHex_u32 c : u32 (ARGBToHex c) = ARGBToHex c.
Proof. apply Z.mod_mod. lia. Qed.

Lemma grid_pos : 0 < cols ∧ 0 < rows.
Proof using Hfb. destruct Hfb. unfold cols, rows. Z.div_mod_to_equations; lia. Qed.

Lemma getframebuffer_ready s : max_cols s ≠ 0 → getframebuffer (Some (fb :: more)) s = Ret (fb_address fb, s).
Proof. intros Hc. unfold getframebuffer. krun. by rewrite (proj2 (Z.eqb_neq _ _) Hc). Qed.

(** Drawing a character at the cursor. *)
Lemma drawChar_spec s t c : shows s t →
  ∃ m', drawChar (Some (fb :: more)) c (t_x t) (t_y t) s = Ret (tt, set_con_mem m' s) ∧
  inside (con_mem s) m' ∧ shows (set_con_mem m' s) (term_put c t).
Proof using Hfb.
  intros Hs. destruct (Hs) as [Hcur [Hx Hy] [Hmc Hmr] [HF HB] Hpix]. pose proof grid_pos as [Hc0 Hr0].
  assert (Hb : t_x t * 8 + 8 ≤ fb_width fb ∧ t_y t * 16 + 16 ≤ fb_height fb ∧ fb_width fb < 2 ^ 63 ∧ fb_height fb < 2 ^ 63).
  { destruct Hfb. unfold cols, rows in *. split; [Z.div_mod_to_equations; lia|]. split; [Z.div_mod_to_equations; lia|]. nia. }
  destruct (draw_rows_spec 16 0 c (t_x t) (t_y t) (ARGBToHex F) (ARGBToHex B) s) as (m' & Hrun & Hin & Hp); [lia..|].
  exists m'. unfold drawChar. split.
  { rewrite (K_bind_ret _ _ _ _ _ (getframebuffer_ready s ltac:(lia))).
    rewrite (proj2 (Z.eqb_neq (fb_address fb) 0)) by (destruct Hfb; lia). unfold FONT_HEIGHT, FONT_WIDTH.
    rewrite !u64_small by (rewrite ?u64_small; lia).
    rewrite (proj2 (Z.ltb_ge _ _)), (proj2 (Z.ltb_ge _ _)) by lia. cbn [orb]. krun. rewrite HF, HB. exact Hrun. }
  split; [done|]. split; try done. intros px py Hpx Hpy. cbn [con_mem set_con_mem]. rewrite Hp by done.
  unfold screen. cbn [t_cell term_put].
  pose proof (Z.mod_pos_bound py 16). rewrite (proj2 (Z.leb_le 0 (py mod 16))), andb_true_r by lia.
  destruct (Z.eqb_spec (px / 8) (t_x t)) as [Hx8|]; cbn [andb]; [|by rewrite Hpix].
  destruct (Z.eqb_spec (py / 16) (t_y t)) as [Hy16|]; cbn [andb]; [|by rewrite Hpix].
  rewrite Hx8, Hy16, !(proj2 (Z.ltb_lt _ _)) by lia. cbn [andb cell_pixel].
  by destruct (font_bit _ _ _); rewrite ARGBToHex_u32.
Qed.

(** ** Scrolling *)

Lemma load_le_shift m1 m2 a b n : (∀ i, 0 ≤ i < Z.of_nat n → m1 (a + i) = m2 (b + i)) → load_le m1 a n = load_le m2 b n.
Proof.
  revert a b. induction n as [|n IH]; intros a b H; [done|]. cbn [load_le].
  rewrite <- (Z.add_0_r a), <- (Z.add_0_r b), (H 0) by lia. f_equal. f_equal. apply IH. intros i Hi.
  rewrite <- !Z.add_assoc. apply H. lia.
Qed.

(** The rows below [y + k] have moved up, the others are as they were. *)
Lemma scroll_loop_spec k y w m : 0 ≤ y → y + Z.of_nat k + 16 ≤ fb_height fb → 0 ≤ w ≤ fb_pitch fb →
  let m' := scroll_loop k y (fb_address fb) (fb_pitch fb) w m in
  inside m m' ∧
  ∀ r b, 0 ≤ r < fb_height fb → 0 ≤ b < w → m' (fb_address fb + r * fb_pitch fb + b) =
    m (fb_address fb + (if (y <=? r) && (r <? y + Z.of_nat k) then r + 16 else r) * fb_pitch fb + b).
Proof using Hfb.
  destruct Hfb as [Ha Hw Hh Hp _ He].
  revert y m. induction k as [|k IH]; intros y m Hy Hk Hwb; cbn [scroll_loop]; cbv zeta.
  { split; [done|]. intros r b Hr Hb. repeat zcase; simpl; try done; lia. }
  assert (Hle : (y + 16 + 1) * fb_pitch fb ≤ fb_pitch fb * fb_height fb) by nia.
  unfold FONT_HEIGHT. rewrite !u64_small by nia.
  destruct (IH (y + 1) (memcpy (fb_address fb + y * fb_pitch fb) (fb_address fb + (y + 16) * fb_pitch fb) w m).2)
    as [Hin Hrow]; [lia..|]. split.
  - intros a Hout. rewrite Hin, memcpy_spec by (done || nia). repeat zcase; simpl; try done; nia.
  - intros r b Hr Hb. rewrite Hrow by done.
    replace ((y <=? r) && (r <? y + Z.of_nat (S k))) with ((r =? y) || (y + 1 <=? r) && (r <? y + 1 + Z.of_nat k))
      by (repeat zcase; simpl; try done; lia).
    destruct (Z.eqb_spec r y) as [->|Hne]; cbn [orb].
    + rewrite (proj2 (Z.leb_gt (y + 1) y)) by lia. cbn [andb]. rewrite memcpy_spec by nia.
      rewrite (proj2 (Z.leb_le _ _)), (proj2 (Z.ltb_lt _ _)) by lia. cbn [andb]. f_equal. lia.
    + assert (Hkeep : ∀ r', r' < y ∨ y < r' →
        (memcpy (fb_address fb + y * fb_pitch fb) (fb_address fb + (y + 16) * fb_pitch fb) w m).2
          (fb_address fb + r' * fb_pitch fb + b) = m (fb_address fb + r' * fb_pitch fb + b)).
      { intros r' Hr'. rewrite memcpy_spec by nia. assert (r' + 1 ≤ y ∨ y + 1 ≤ r') as [Hl|Hl] by lia;
          apply (Z.mul_le_mono_nonneg_r _ _ (fb_pitch fb)) in Hl; try lia; repeat zcase; simpl; try done; lia. }
      repeat zcase; cbn [andb]; apply Hkeep; lia.
Qed.

(** Each row of pixels moves up by sixteen, the last sixteen become blank. *)
Lemma scroll_spec s : ∃ m', scroll (Some (fb :: more)) s = Ret (tt, set_con_mem m' s) ∧ inside (con_mem s) m' ∧
  ∀ px py, 0 ≤ px < fb_width fb → 0 ≤ py < fb_height fb →
    pixel m' px py = if py + 16 <? fb_height fb then pixel (con_mem s) px (py + 16) else 0.
Proof using Hfb.
  pose proof stride_pitch as Hst. destruct Hfb as [Ha Hw Hh Hp _ He].
  unfold scroll. rewrite (proj2 (Z.eqb_neq _ _)) by lia. cbv zeta. unfold FONT_HEIGHT.
  rewrite (proj2 (Z.leb_gt _ _)) by lia. eexists. split; [reflexivity|].
  rewrite !u64_small by nia.
  destruct (scroll_loop_spec (Z.to_nat (fb_height fb - 16)) 0 (fb_width fb * 4) (con_mem s)) as [Hin Hrow]; [lia..|].
  rewrite Z2Nat.id in Hrow by lia.
  set (m1 := scroll_loop _ _ _ _ _ _) in *. split.
  { intros a Hout. rewrite memset_spec, <- Hin by (done || lia). repeat zcase; simpl; try done; nia. }
  intros px py Hpx Hpy. unfold pixel, pget. zcase.
  - apply load_le_shift. intros i Hi. rewrite memset_spec by lia.
    rewrite (proj2 (Z.leb_gt _ _)) by nia. cbn [andb].
    replace (fb_address fb + 4 * (py * stride + px) + i) with (fb_address fb + py * fb_pitch fb + (4 * px + i)) by lia.
    rewrite Hrow by lia. rewrite (proj2 (Z.leb_le _ _)), (proj2 (Z.ltb_lt _ _)) by lia. cbn [andb]. f_equal. lia.
  - transitivity (load_le (λ _, 0) 0 4); [|done]. apply load_le_shift. intros i Hi. rewrite memset_spec by lia.
    rewrite (proj2 (Z.leb_le _ _)), (proj2 (Z.ltb_lt _ _)) by nia. done.
Qed.
(** ** Characters *)

(** What writing leaves alone: memory outside the frame buffer, the radix,
    the line flag and the clock. *)
Record kept (s s' : console_state) : Prop := {
  kp_mem : inside (con_mem s) (con_mem s');
  kp_base : manip_base s' = manip_base s;
  kp_prefix : prefix_printed s' = prefix_printed s;
  kp_apic : con_apic s' = con_apic s
}.
#[local] Instance kept_preorder : PreOrder kept.
Proof.
  split; [by intros s; split|]. intros s1 s2 s3 [] []. split; try congruence. intros a Ha. by rewrite kp_mem1, kp_mem0.
Qed.

Lemma screen_scrolled t px py : 0 ≤ px < fb_width fb → 0 ≤ py < fb_height fb → rows ≤ t_y t + 1 →
  screen (term_newline rows t) px py = if py + 16 <? fb_height fb then screen t px (py + 16) else 0.
Proof.
  intros Hpx Hpy Hy. unfold term_newline. rewrite (proj2 (Z.ltb_ge _ _)) by lia. unfold screen. cbn [t_cell].
  replace ((py + 16) / 16) with (py / 16 + 1) by (Z.div_mod_to_equations; lia).
  replace ((py + 16) mod 16) with (py mod 16) by (Z.div_mod_to_equations; lia).
  destruct (px / 8 <? cols); cbn [andb]; [|by destruct (_ <? _)]. unfold rows.
  repeat zcase; try done; exfalso; Z.div_mod_to_equations; lia.
Qed.

Lemma newline_spec s t x : shows s t →
  ∃ s', newline (Some (fb :: more)) (set_cursor x (cursor_y s) s) = Ret (tt, s') ∧ kept s s' ∧
        shows s' (term_newline rows t).
Proof using Hfb.
  intros [[Hx Hy] [Hxr Hyr] [Hmc Hmr] [HF HB] Hpix]. pose proof grid_pos as [Hc0 Hr0].
  assert (Hr63 : rows < 2 ^ 63) by (destruct Hfb; unfold rows; Z.div_mod_to_equations; nia).
  unfold newline. krun. cbn [cursor_y set_cursor max_rows]. rewrite u64_small, Hmr, Hy by lia.
  destruct (Z.leb_spec rows (t_y t + 1)) as [Hbot|Hmid].
  - destruct (scroll_spec (set_cursor 0 (t_y t + 1) (set_cursor x (t_y t) s))) as (m' & Hrun & Hin & Hp).
    rewrite (K_bind_ret _ _ _ _ _ Hrun). eexists. split; [reflexivity|]. split; [by split|].
    split; cbn [cursor_x cursor_y max_cols max_rows con_fg con_bg con_mem set_con_mem set_cursor]; try done.
    + unfold term_newline. rewrite (proj2 (Z.ltb_ge _ _)), Hmr, u64_small by lia. done.
    + unfold term_newline. rewrite (proj2 (Z.ltb_ge _ _)) by lia. cbn [t_x t_y]. lia.
    + intros px py Hpx Hpy. rewrite Hp, screen_scrolled by done. zcase; [|done]. apply Hpix; lia.
  - eexists. split; [reflexivity|]. split; [by split|]. unfold term_newline. rewrite (proj2 (Z.ltb_lt _ _)) by lia.
    split; try done. cbn. lia.
Qed.

(** The end of write: the cursor has moved to column [x]. *)
Lemma advance_spec s t x : shows s t → 0 ≤ x →
  ∃ s', (x ← k_gets cursor_x; cols ← k_gets max_cols; if cols <=? x then newline (Some (fb :: more)) else mret tt)
    (set_cursor x (cursor_y s) s) = Ret (tt, s') ∧ kept s s' ∧ shows s' (term_advance cols rows x t).
Proof using Hfb.
  intros Hs Hx. krun. cbn [cursor_x set_cursor max_cols]. destruct (sh_grid _ _ Hs) as [-> _]. unfold term_advance.
  destruct (Z.leb_spec cols x).
  - rewrite (proj2 (Z.ltb_ge _ _)) by lia. by apply newline_spec.
  - rewrite (proj2 (Z.ltb_lt _ _)) by lia. eexists. split; [reflexivity|]. split; [by split|].
    destruct Hs as [[_ Hy] [_ Hyr] Hg Hc Hpix]. by split.
Qed.

Lemma write_spec s t c : shows s t →
  ∃ s', write (Some (fb :: more)) c s = Ret (tt, s') ∧ kept s s' ∧ shows s' (term_write cols rows t c).
Proof using Hfb.
  intros Hs. destruct (Hs) as [[Hx Hy] [Hxr Hyr] [Hmc _] _ _]. pose proof grid_pos as [Hc0 _].
  assert (Hc63 : cols < 2 ^ 63) by (destruct Hfb; unfold cols; Z.div_mod_to_equations; nia).
  unfold write, term_write. destruct (c =? 10); [|destruct (c =? 13); [|destruct (c =? 9)]].
  - destruct (newline_spec s t (cursor_x s) Hs) as (s' & Hr & Hk & Hsh). exists s'.
    rewrite <- Hr. by destruct s.
  - eexists. split; [reflexivity|]. split; [by split|]. destruct Hs. by split.
  - krun. rewrite Hx. change 3 with (2 ^ 2 - 1). rewrite u64_small, land_lnot_u64 by lia. change (2 ^ 2) with 4.
    replace (t_x t + 4 - (t_x t + 4) mod 4) with ((t_x t / 4 + 1) * 4) by (Z.div_mod_to_equations; lia).
    apply advance_spec; [done|]. Z.div_mod_to_equations; lia.
  - krun. destruct (drawChar_spec s t c Hs) as (m' & Hr & Hin & Hsh). rewrite Hx, Hy.
    rewrite (K_bind_ret _ _ _ _ _ Hr). erewrite K_bind_ret by reflexivity. cbn [cursor_x set_con_mem].
    rewrite Hx, u64_small by lia.
    destruct (advance_spec _ _ (t_x t + 1) Hsh ltac:(lia)) as (s' & Hr' & Hk & Hsh'). exists s'.
    split; [exact Hr'|]. split; [|done]. etrans; [|exact Hk]. by split.
Qed.

Lemma write_all_spec l s t : shows s t →
  ∃ s', write_all (Some (fb :: more)) l s = Ret (tt, s') ∧ kept s s' ∧ shows s' (foldl (term_write cols rows) t l).
Proof using Hfb.
  revert s t. induction l as [|c l IH]; intros s t Hs; cbn [write_all foldl]; [by exists s|].
  destruct (write_spec s t c Hs) as (s1 & Hr & Hk & Hs1). rewrite (K_bind_ret _ _ _ _ _ Hr).
  destruct (IH s1 _ Hs1) as (s2 & Hr2 & Hk2 & Hs2). exists s2. split; [done|]. split; [by etrans|done].
Qed.
(** ** From boot on *)

Definition empty_term : term := MkTerm 0 0 (λ _ _, None).
Definition printable (c : Z) : Prop := c ≠ 9 ∧ c ≠ 10 ∧ c ≠ 13.
Definition blank (m : ram) : Prop :=
  ∀ px py, 0 ≤ px < fb_width fb → 0 ≤ py < fb_height fb → pixel m px py = 0.

Lemma K_bind_cong {S X Y} (m m' : K S X) (f : X → K S Y) s s' : m s = m' s' → (m ≫= f) s = (m' ≫= f) s'.
Proof. intros H. unfold mbind, K_bind. by rewrite H. Qed.

(** The first character measures the grid before it is drawn. *)
Lemma drawChar_boot m a c x y :
  drawChar (Some (fb :: more)) c x y (console_boot m a) = drawChar (Some (fb :: more)) c x y (set_grid cols rows (console_boot m a)).
Proof using Hfb.
  pose proof grid_pos as [Hc0 _]. unfold drawChar.
  rewrite (K_bind_ret (getframebuffer _) _ _ _ _ (getframebuffer_ready (set_grid cols rows (console_boot m a)) ltac:(cbn; lia))).
  by erewrite K_bind_ret by reflexivity.
Qed.
Lemma write_boot m a c : printable c →
  write (Some (fb :: more)) c (console_boot m a) = write (Some (fb :: more)) c (set_grid cols rows (console_boot m a)).
Proof using Hfb.
  intros (H9 & H10 & H13). unfold write.
  rewrite !(proj2 (Z.eqb_neq c _)) by done. krun. symmetry. krun. apply K_bind_cong. symmetry. apply drawChar_boot.
Qed.

Lemma boot_shows m a : blank m → F = HexToARGB 16777215 → B = HexToARGB 0 →
  shows (set_grid cols rows (console_boot m a)) empty_term.
Proof using Hfb.
  intros Hb -> ->. pose proof grid_pos. split; [done|cbn; lia|done|done|]. intros px py Hpx Hpy.
  rewrite Hb by done. unfold screen. cbn. by destruct (_ && _).
Qed.
End Spec.


Definition fb_sample : framebuffer := MkFb 4096 32 40 128.


