(* ===== verification/ConsoleNum.v ===== *)
(** * Numbers and time stamps on the console

    What the stream operators print: the digits of unsigned numbers read
    back as the number, pointers have sixteen digits, and the time stamp in
    front of a line is the uptime in microseconds. [digits_of] is the common
    reference of the two digit loops. *)

From S2P Require Import Prelude Mem KString Paging Apic Font Console ConsoleSpec.

(** The digits of [v], at most [k], in front of [acc]. *)
Fixpoint digits_of (k : nat) (base v : Z) (acc : list Z) : list Z :=
  match k with
  | O => acc
  | S k' => if 0 <? v then digits_of k' base (v / base) (digit_char (v mod base) :: acc) else acc
  end.

Lemma digit_char_val d : 0 ≤ d < 16 → digit_val (digit_char d) = d.
Proof. intros H. unfold digit_val, digit_char, u8. repeat zcase; try rewrite Z.mod_small in *; lia. Qed.

Lemma digits_of_spec base k : 2 ≤ base ≤ 16 → ∀ v acc, 0 ≤ v < base ^ Z.of_nat k →
  ∃ l, digits_of k base v acc = l ++ acc ∧ (length l ≤ k)%nat ∧ (v ≠ 0 → l ≠ []) ∧
    (∀ j, v < base ^ Z.of_nat j → (length l ≤ j)%nat) ∧
    ∀ a, digits_value base a (l ++ acc) = digits_value base (a * base ^ Z.of_nat (length l) + v) acc.
Proof.
  intros Hb. induction k as [|k IH]; intros v acc Hv; cbn [digits_of].
  { exists []. simpl in Hv. replace v with 0 by lia. repeat split; try done; try (simpl; lia). intros a. simpl. f_equal. lia. }
  destruct (Z.ltb_spec 0 v).
  2: { exists []. replace v with 0 by lia. repeat split; try done; try (simpl; lia). intros a. simpl. f_equal. lia. }
  rewrite Nat2Z.inj_succ, Z.pow_succ_r in Hv by lia.
  pose proof (Z.mod_pos_bound v base ltac:(lia)) as Hm. pose proof (Z.div_mod v base ltac:(lia)) as Hdm.
  destruct (IH (v / base) (digit_char (v mod base) :: acc)) as (l & Heq & Hlen & _ & Hj & Hval).
  { split; [apply Z.div_pos; lia|]. apply Z.div_lt_upper_bound; lia. }
  exists (l ++ [digit_char (v mod base)]). rewrite <- app_assoc, length_app. cbn [app length].
  repeat split; [done|lia|by destruct l| |].
  - intros [|j] Hlt; [simpl in Hlt; lia|]. rewrite Nat2Z.inj_succ, Z.pow_succ_r in Hlt by lia.
    enough (length l ≤ j)%nat by lia. apply Hj. apply Z.div_lt_upper_bound; lia.
  - intros a. rewrite Hval. cbn [digits_value]. f_equal. rewrite digit_char_val by lia.
    rewrite Nat2Z.inj_add, Z.pow_add_r, Z.pow_1_r by lia. nia.
Qed.

(** The two loops of the source compute it. *)
Lemma uint_digits_eq base k ts : 2 ≤ base ≤ 16 → ∀ fuel v acc, 0 ≤ v < base ^ Z.of_nat k → (k < fuel)%nat →
  Z.of_nat (length acc) + Z.of_nat k ≤ ts → uint_digits fuel ts v base acc = Ret (digits_of k base v acc).
Proof.
  intros Hb. induction k as [|k IH]; intros [|f] v acc Hv Hf Hl; try lia; cbn [uint_digits digits_of].
  { simpl in Hv. by rewrite (proj2 (Z.ltb_ge _ _)) by lia. }
  destruct (Z.ltb_spec 0 v); [|done]. rewrite (proj2 (Z.eqb_neq _ _)), (proj2 (Z.leb_gt _ _)) by lia. cbn [orb].
  rewrite Nat2Z.inj_succ, Z.pow_succ_r in Hv by lia. apply IH; [|lia|simpl length; lia].
  split; [apply Z.div_pos; lia|]. apply Z.div_lt_upper_bound; lia.
Qed.
Lemma dec_digits_eq k v acc : 0 ≤ v → dec_digits k v acc = digits_of k 10 v acc.
Proof.
  revert v acc. induction k as [|k IH]; intros v acc Hv; cbn [dec_digits digits_of]; [done|]. zcase; [|done].
  pose proof (Z.mod_pos_bound v 10 ltac:(lia)). rewrite IH by (apply Z.div_pos; lia).
  unfold digit_char. by rewrite (proj2 (Z.ltb_lt _ 10)) by lia.
Qed.

(** ** The integer operators *)

(** The widths with the size of their operator's buffer. *)
Definition int_types : list (Z * Z) := [(8, 4); (16, 6); (32, 11); (64, 21)].

Lemma int_types_inv w room : (w, room) ∈ int_types →
  (w = 8 ∧ room = 4) ∨ (w = 16 ∧ room = 6) ∨ (w = 32 ∧ room = 11) ∨ (w = 64 ∧ room = 21).
Proof. unfold int_types. set_unfold. naive_solver. Qed.

(** A number of decimal digits that is enough for the type and fits. *)
Lemma enough_digits w room base : (w, room) ∈ int_types → 10 ≤ base →
  ∃ k : nat, Z.of_nat k ≤ room ∧ Z.of_nat k ≤ w + 1 ∧ 2 ^ w ≤ base ^ Z.of_nat k.
Proof.
  intros Hw Hb. assert (Hk : ∃ k : nat, Z.of_nat k ≤ room ∧ Z.of_nat k ≤ w + 1 ∧ 2 ^ w ≤ 10 ^ Z.of_nat k).
  { apply int_types_inv in Hw as [[-> ->]|[[-> ->]|[[-> ->]|[-> ->]]]];
      [exists 3%nat|exists 5%nat|exists 10%nat|exists 20%nat]; lia. }
  destruct Hk as (k & ? & ? & Hp). exists k. split; [done|]. split; [done|]. etrans; [exact Hp|].
  apply Z.pow_le_mono_l. lia.
Qed.

Lemma uint_to_str_spec w room v base : (w, room) ∈ int_types → base = 10 ∨ base = 16 → 0 ≤ v < 2 ^ w →
  ∃ l, uint_to_str w room v base = Ret l ∧ l ≠ [] ∧ Z.of_nat (length l) ≤ room ∧ digits_value base 0 l = v.
Proof.
  intros Hw Hb Hv. unfold uint_to_str. destruct (Z.eqb_spec v 0) as [->|Hnz].
  { exists [48]. split; [done|]. split; [done|]. apply int_types_inv in Hw. cbn. lia. }
  destruct (enough_digits w room base Hw ltac:(lia)) as (k & Hkr & Hkw & Hpow).
  rewrite (uint_digits_eq base k) by (simpl; lia).
  destruct (digits_of_spec base k ltac:(lia) v [] ltac:(lia)) as (l & -> & Hlen & Hne & _ & Hval).
  rewrite app_nil_r in *. cbn [mbind outcome_bind]. exists l. rewrite (proj2 (Z.ltb_ge _ _)) by lia.
  split; [done|]. split; [by apply Hne|]. split; [lia|]. by rewrite Hval.
Qed.

Section Output.
Context (R : option (list framebuffer)).

(** In decimal and in hexadecimal the stream operators of all integer
    types stay inside their buffers; a non-negative number is printed as
    digits that read back as the number, a negative one prints nothing. *)
Theorem integers_print (w room v : Z) (s : console_state) (Hw : (w, room) ∈ int_types)
    (Hb : manip_base s = 10 ∨ manip_base s = 16) (Hv : - 2 ^ (w - 1) ≤ v < 2 ^ w) :
  ∃ l, put_int R w room v s = write_all R l s ∧
    if 0 <=? v then l ≠ [] ∧ digits_value (manip_base s) 0 l = v else l = [].
Proof.
  unfold put_int. krun. destruct (Z.leb_spec 0 v) as [H0|H0].
  - destruct (uint_to_str_spec w room v (manip_base s) Hw Hb ltac:(lia)) as (l & Heq & Hne & _ & Hval).
    exists l. rewrite Heq. by krun.
  - exists []. unfold uint_to_str. rewrite (proj2 (Z.eqb_neq _ _)) by lia.
    assert (Hw0 : 0 ≤ w ∧ 0 ≤ room).
    { apply int_types_inv in Hw. lia. }
    replace (Z.to_nat (w + 2)) with (S (Z.to_nat (w + 1))) by lia. cbn [uint_digits].
    rewrite (proj2 (Z.ltb_ge _ _)) by lia. cbn [mbind outcome_bind length]. by rewrite (proj2 (Z.ltb_ge _ _)) by lia.
Qed.

(** ** Time stamps *)

Lemma write_all_app l1 l2 s : write_all R (l1 ++ l2) s = (write_all R l1 ≫= λ _, write_all R l2) s.
Proof.
  revert s. induction l1 as [|c l1 IH]; intros s; [done|]. cbn [write_all app]. unfold mbind, K_bind.
  by destruct (write R c s) as [[u s1]| | |].
Qed.
(** A piece of code that writes the characters [l]. *)
Definition prints (m : K console_state unit) (l : list Z) : Prop := ∀ s, m s = write_all R l s.
Lemma prints_bind m k l1 l2 : prints m l1 → prints k l2 → prints (m ≫= λ _, k) (l1 ++ l2).
Proof.
  intros Hm Hk s. rewrite write_all_app. unfold mbind, K_bind. rewrite Hm.
  by destruct (write_all R l1 s) as [[u s1]| | |].
Qed.
Lemma prints_char c : prints (write R c) [c].
Proof. intros s. cbn [write_all]. unfold mbind, K_bind. by destruct (write R c s) as [[[] ?]| | |]. Qed.
Lemma prints_str l : prints (write_str R (Some l)) l.
Proof. done. Qed.
Lemma prints_pad k c : prints (pad_loop R k c) (replicate k c).
Proof.
  induction k as [|k IH]; intros s; cbn [pad_loop replicate write_all]; [done|].
  unfold mbind, K_bind. by destruct (write R c s) as [[u s1]| | |].
Qed.

(** The characters of a padded number and of a time stamp. *)
Definition padded (v width c : Z) : list Z :=
  let l := if v =? 0 then [48] else digits_of 20 10 v [] in replicate (Z.to_nat (width - Z.of_nat (length l))) c ++ l.
Definition stamp (us : Z) : list Z :=
  str "[ " ++ padded (us / 1000000) 4 32 ++ str "." ++ padded (us mod 1000000) 6 48 ++ str "] ".

Lemma prints_padded v width c : 0 ≤ v → prints (print_padded_uint R v width c) (padded v width c).
Proof.
  intros Hv. unfold print_padded_uint, padded. destruct (Z.eqb_spec v 0) as [->|Hnz].
  - apply prints_bind; [apply prints_pad|apply prints_char].
  - rewrite dec_digits_eq by lia. apply prints_bind; [apply prints_pad|done].
Qed.
Lemma log_prefix_stamp s us : get_uptime_us (con_apic s) = Ret (us, con_apic s) → 0 ≤ us →
  log_prefix R s = write_all R (stamp us) s.
Proof.
  intros Hup Hus. unfold log_prefix. rewrite (K_bind_ret _ _ s us s) by (unfold on_apic; rewrite Hup; by destruct s).
  refine ((_ : prints _ _) s). repeat (apply prints_bind; [done || (apply prints_padded; by (apply Z.div_pos || apply Z.mod_pos_bound))|]).
  apply prints_str.
Qed.

Lemma padded_spec v width c : 0 ≤ v < 10 ^ 20 →
  ∃ n l, padded v width c = replicate n c ++ l ∧
    Z.of_nat n + Z.of_nat (length l) = Z.max width (Z.of_nat (length l)) ∧
    (∀ j, v < 10 ^ Z.of_nat j → (length l ≤ max 1 j)%nat) ∧
    ∀ a, digits_value 10 a l = a * 10 ^ Z.of_nat (length l) + v.
Proof.
  intros Hv. unfold padded. destruct (Z.eqb_spec v 0) as [->|Hnz]; (eexists _, _; split; [reflexivity|]).
  { cbn [length]. split; [lia|]. split; [lia|]. intros a. cbn. lia. }
  destruct (digits_of_spec 10 20 ltac:(lia) v [] ltac:(lia)) as (l & -> & Hlen & _ & Hj & Hval).
  rewrite app_nil_r in *. split; [lia|]. split; [intros j Hlt; specialize (Hj j Hlt); lia|]. intros a. by rewrite Hval.
Qed.

Lemma digits_value_app base a l1 l2 : digits_value base a (l1 ++ l2) = digits_value base (digits_value base a l1) l2.
Proof. revert a. induction l1 as [|d l1 IH]; intros a; [done|]. apply IH. Qed.
Lemma digits_value_zeros n a : digits_value 10 a (replicate n 48) = a * 10 ^ Z.of_nat n.
Proof.
  revert a. induction n as [|n IH]; intros a; [simpl; lia|]. cbn [replicate digits_value].
  rewrite IH, Nat2Z.inj_succ, Z.pow_succ_r by lia. change (digit_val 48) with 0. lia.
Qed.

(** The time stamp in front of a line is the uptime: its digits without
    the point, six of them behind it, are the microseconds get_uptime_us
    reports, and the seconds fill at least four columns. *)
Theorem log_prefix_uptime (s : console_state) (us : Z)
    (Hup : get_uptime_us (con_apic s) = Ret (us, con_apic s)) (Hus : 0 ≤ us < 2 ^ 64) :
  ∃ n sec frac, log_prefix R s = write_all R (str "[ " ++ replicate n 32 ++ sec ++ str "." ++ frac ++ str "] ") s ∧
    4 ≤ Z.of_nat n + Z.of_nat (length sec) ∧ length frac = 6%nat ∧ digits_value 10 0 (sec ++ frac) = us.
Proof.
  destruct (padded_spec (us / 1000000) 4 32) as (n & sec & Hsec & Hn & _ & Hvs);
    [split; [apply Z.div_pos; lia|apply Z.div_lt_upper_bound; lia]|].
  pose proof (Z.mod_pos_bound us 1000000 ltac:(lia)).
  destruct (padded_spec (us mod 1000000) 6 48) as (n' & l & Hfrac & Hn' & Hj & Hvf); [lia|].
  specialize (Hj 6%nat ltac:(lia)).
  exists n, sec, (replicate n' 48 ++ l). rewrite length_app, length_replicate. split; [|split; [lia|split; [lia|]]].
  - rewrite (log_prefix_stamp s us Hup) by lia. unfold stamp. by rewrite Hsec, Hfrac, <- !app_assoc.
  - rewrite !digits_value_app, digits_value_zeros, Hvs, Hvf, <- Z.mul_assoc, <- Z.pow_add_r by lia.
    replace (Z.of_nat n' + Z.of_nat (length l)) with 6 by lia. pose proof (Z.div_mod us 1000000 ltac:(lia)). lia.
Qed.
End Output.

(** ** Pointers *)

Definition nibble_char (v i : Z) : Z :=
  let nibble := Z.land (Z.shiftr v (60 - i * 4)) 15 in if nibble <? 10 then 48 + nibble else 97 + nibble - 10.
Fixpoint nibble_list (k : nat) (i v : Z) : list Z :=
  match k with O => [] | S k' => nibble_char v i :: nibble_list k' (i + 1) v end.

Lemma nibbles_eq k i v pre rest : 0 ≤ i → Z.of_nat (length pre) = 2 + i → length rest = k →
  nibbles k i v (pre ++ rest) = pre ++ nibble_list k i v.
Proof.
  revert i pre rest. induction k as [|k IH]; intros i pre [|r rest] Hi Hp Hr; try done; cbn [nibbles nibble_list].
  fold (nibble_char v i). replace (Z.to_nat (2 + i)) with (length pre + 0)%nat by lia.
  rewrite insert_app_r. cbn [insert list_insert]. rewrite (cons_middle _ pre), (cons_middle (nibble_char v i) pre), !app_assoc.
  apply IH; [lia| |simpl in Hr; lia]. rewrite length_app. simpl. lia.
Qed.

Lemma nibble_list_value k i v a : 0 ≤ v → i + Z.of_nat k = 16 →
  digits_value 16 a (nibble_list k i v) = a * 16 ^ Z.of_nat k + v mod 16 ^ Z.of_nat k.
Proof.
  intros Hv. revert i a. induction k as [|k IH]; intros i a Hi; cbn [nibble_list digits_value].
  { simpl. rewrite Z.mod_1_r. lia. }
  rewrite IH by lia. unfold nibble_char. replace (60 - i * 4) with (4 * Z.of_nat k) by lia.
  change 15 with (2 ^ 4 - 1). rewrite field_mod by lia. rewrite Z.pow_mul_r by lia. change (2 ^ 4) with 16.
  rewrite Nat2Z.inj_succ, Z.pow_succ_r by lia. rewrite (Z.mul_comm 16 (16 ^ _)), Z.rem_mul_r by lia.
  pose proof (Z.mod_pos_bound (v / 16 ^ Z.of_nat k) 16 ltac:(lia)).
  cbv zeta. unfold digit_val. repeat zcase; lia.
Qed.

(** The characters of a pointer. *)
Lemma ptr_to_str_spec v : 0 ≤ v < 2 ^ 64 → ptr_to_str v = Ret (str "0x" ++ nibble_list 16 0 v).
Proof.
  intros Hv. unfold ptr_to_str. assert (Hl : ∃ l, uint_to_str 64 18 v 16 = Ret l ∧ (length l ≤ 16)%nat).
  { unfold uint_to_str. destruct (Z.eqb_spec v 0); [exists [48]; split; [done|simpl; lia]|].
    rewrite (uint_digits_eq 16 16) by (simpl; lia).
    destruct (digits_of_spec 16 16 ltac:(lia) v [] ltac:(lia)) as (l & -> & Hlen & _). rewrite app_nil_r.
    cbn [mbind outcome_bind]. exists l. by rewrite (proj2 (Z.ltb_ge _ _)) by lia. }
  destruct Hl as (l & -> & Hlen). cbn [mbind outcome_bind].
  rewrite (nibbles_eq 16 0 v [48; 120]) by (done || rewrite length_app, length_replicate; lia). done.
Qed.

(** A pointer is printed as 0x and sixteen digits that read back as it. *)
Lemma put_ptr_prints R v : 0 ≤ v < 2 ^ 64 →
  ∃ l, prints R (put_ptr R v) (str "0x" ++ l) ∧ length l = 16%nat ∧ digits_value 16 0 l = v.
Proof.
  intros Hv. exists (nibble_list 16 0 v). split; [|split; [done|]].
  - intros s. unfold put_ptr. rewrite ptr_to_str_spec by done. by krun.
  - rewrite nibble_list_value by lia. change (0 * _) with 0. rewrite Z.mod_small; lia.
Qed.

(** ** Witnesses and deviations *)

Lemma integers_print_witness :
  ∃ l, put_int None 64 21 2024 (console_boot (λ _, 0) sample_apic) = write_all None l (console_boot (λ _, 0) sample_apic) ∧
    if 0 <=? 2024 then l ≠ [] ∧ digits_value 10 0 l = 2024 else l = [].
Proof.
  apply (integers_print None 64 21 2024 (console_boot (λ _, 0) sample_apic)).
  - unfold int_types. set_solver.
  - by left.
  - lia.
Defined.

Lemma log_prefix_uptime_witness :
  ∃ n sec frac, log_prefix None (console_boot (λ _, 0) sample_apic)
      = write_all None (str "[ " ++ replicate n 32 ++ sec ++ str "." ++ frac ++ str "] ") (console_boot (λ _, 0) sample_apic) ∧
    4 ≤ Z.of_nat n + Z.of_nat (length sec) ∧ length frac = 6%nat ∧ digits_value 10 0 (sec ++ frac) = 0.
Proof. apply log_prefix_uptime; [reflexivity|lia]. Defined.

(** The shifts of writeHex_uint16 are two bits off, those of writeHex_uint32
    start beyond the type's width. *)
Lemma writeHex_uint16_off R : prints R (writeHex_uint16 R 3) (str "0x00000000").
Proof. apply (prints_bind R _ _ (str "0x") (str "00000000")); [done|]. intros s. reflexivity. Qed.
Lemma writeHex_uint32_undefined R v s : write_nibbles R 17 60 v s = Fault.
Proof. reflexivity. Qed.

(** Printing an empty string reads the byte in front of it. *)
Lemma kout_empty_string R s : prefix_printed s = true → kout_str R [] s = Fault.
Proof. intros Hp. unfold kout_str, ensure_prefix. krun. unfold mbind, K_bind. cbn. by rewrite Hp. Qed.
