(* ===== verification/Panic.v ===== *)
(** * The panic screen: src/kernelpanic.cpp

    kernel_panic prints the message, the processor and the chain of return
    addresses with their symbols, then stops the machine. The frames of the
    call chain are in the same memory the console draws into. The symbol
    table, the CPUID instruction and the registers rbp and rip at the call
    are parameters. *)

From S2P Require Import Prelude Bytes Mem KString Kallsyms Paging Apic Font Console.

Definition endl : Z := 10.
Definition KERNEL_NAME : list Z := str "Synx".
Definition KERNEL_VERSION : list Z := str "0.0.0".
Definition HIGHER_HALF : Z := 18446603336221196288.

Section Panic.
Context (R : option (list framebuffer)) (syms : list KSym) (query : Z → cpuid_result).
Abbreviation M := (K console_state).

(** The string that starts in the twelve bytes of the three registers. *)
Fixpoint c_string (l : list Z) : list Z :=
  match l with [] => [] | b :: l' => if b =? 0 then [] else b :: c_string l' end.
Definition vendor_string : list Z :=
  let r := query 0 in c_string (le_bytes 4 (ebx r) ++ le_bytes 4 (edx r) ++ le_bytes 4 (ecx r)).

Definition printSymbol (a : Z) : M unit :=
  r ← lift_outcome (kallsyms_lookup syms a);
  match r with
  | Some (name, offset) =>
      kout_str R name ≫= λ _, kout_str R (str "+") ≫= λ _, kout_val R (put_ptr R offset)
  | None => kout_str R (str "unknown")
  end.

(** One line of the trace. *)
Definition print_frame (a : Z) : M unit :=
  kout_str R (str " [<") ≫= λ _, kout_val R (put_ptr R a) ≫= λ _, kout_str R (str ">] ? ") ≫= λ _,
  printSymbol a ≫= λ _,
  kout_char R endl.

Fixpoint trace_loop (fuel : nat) (rbp : Z) : M unit :=
  match fuel with
  | O => k_diverge
  | S f =>
      if negb (rbp =? 0) && (HIGHER_HALF <=? rbp) then
        if negb (Z.land rbp 7 =? 0) then mret tt else
        ret_addr ← k_gets (λ s, load64 (con_mem s) (rbp + 8));
        if ret_addr =? 0 then mret tt else
        print_frame ret_addr ≫= λ _,
        rbp ← k_gets (λ s, load64 (con_mem s) rbp);
        trace_loop f rbp
      else mret tt
  end.
Definition printStackTrace (fuel : nat) (rbp rip : Z) : M unit :=
  kout_char R endl ≫= λ _, kout_str R (str "Call Trace:") ≫= λ _, kout_char R endl ≫= λ _,
  print_frame rip ≫= λ _,
  trace_loop fuel rbp.

Definition panic_screen (fuel : nat) (message : list Z) (rbp rip : Z) : M unit :=
  kout_char R endl ≫= λ _,
  kout_str R (str "--- [ Kernel panic - not syncing: ") ≫= λ _, kout_str R message ≫= λ _,
  kout_str R (str " ] ---") ≫= λ _, kout_char R endl ≫= λ _,
  kout_str R (str "CPU: ") ≫= λ _,
  id ← on_apic get_lapic_id;
  kout_val R (put_u32 R id) ≫= λ _, kout_str R (str " Hardware: ") ≫= λ _,
  kout_val R (write_str R (Some vendor_string)) ≫= λ _, kout_str R (str " ") ≫= λ _,
  kout_str R KERNEL_NAME ≫= λ _, kout_str R (str " ") ≫= λ _, kout_str R KERNEL_VERSION ≫= λ _,
  kout_char R endl ≫= λ _,
  printStackTrace fuel rbp rip ≫= λ _,
  kout_char R endl ≫= λ _, kout_str R (str "--- [ end Kernel panic ] ---") ≫= λ _, kout_char R endl.
(** cli; hlt; jmp .-2 *)
Definition kernel_panic (fuel : nat) (message : list Z) (rbp rip : Z) : M unit :=
  panic_screen fuel message rbp rip ≫= λ _, k_panic "halted".

End Panic.
