(* ===== verification/PanicSpec.v ===== *)
(** * What a panic shows

    [types m b l b'] is the contract of code that prints through kout: from a
    console that shows a terminal, with the line flag [b], it returns, the
    terminal has received the characters [l], and the line flag is [b'].
    With it the stack trace is shown to end and to list the callers. *)

From S2P Require Import Prelude Bytes Mem KString Kallsyms Paging Apic Font Console ConsoleSpec ConsoleNum Panic.

(** ** kout *)

Lemma uptime_reads a : ∃ us, get_uptime_us a = Ret (us, a) ∧ 0 ≤ us.
Proof.
  assert (Hr : ∃ v, read_reg TIMER_CUR_CNT a = Ret (v, a)).
  { unfold read_reg. krun. destruct (_ =? 0); by eexists. }
  destruct Hr as [v Hr]. unfold get_uptime_us. krun. destruct (_ =? 0); [by exists 0|]. krun.
  rewrite (K_bind_ret _ _ _ _ _ Hr). krun. eexists. split; [reflexivity|apply u64_range].
Qed.

Section Types.
Context (fb : framebuffer) (more : list framebuffer) (Hfb : fb_ok fb) (F B : ARGBColor).
Context (a : apic_state) (us : Z) (Hup : get_uptime_us a = Ret (us, a)) (Hus : 0 ≤ us).
Set Default Proof Using "All".
Abbreviation R := (Some (fb :: more)).

Record session (b : bool) (t : term) (s : console_state) : Prop := {
  se_shows : shows fb F B s t;
  se_flag : prefix_printed s = b;
  se_apic : con_apic s = a;
  se_base : manip_base s = 10
}.
Definition received (t : term) (l : list Z) : term := foldl (term_write (cols fb) (rows fb)) t l.
Definition types (m : K console_state unit) (b : bool) (l : list Z) (b' : bool) : Prop :=
  ∀ s t, session b t s → ∃ s', m s = Ret (tt, s') ∧ session b' (received t l) s' ∧ inside fb (con_mem s) (con_mem s').

Lemma types_bind m k b l1 b1 l2 b2 : types m b l1 b1 → types k b1 l2 b2 → types (m ≫= λ _, k) b (l1 ++ l2) b2.
Proof.
  intros Hm Hk s t Hs. destruct (Hm s t Hs) as (s1 & Hr1 & Hs1 & Hi1). destruct (Hk s1 _ Hs1) as (s2 & Hr2 & Hs2 & Hi2).
  exists s2. rewrite (K_bind_ret _ _ _ _ _ Hr1). split; [done|]. split.
  - unfold received in *. by rewrite foldl_app.
  - intros x Hx. by rewrite Hi2, Hi1.
Qed.
Lemma types_prints m l b : prints R m l → types m b l b.
Proof.
  intros Hm s t [Hsh Hb Ha Hbase]. destruct (write_all_spec fb more Hfb F B l s t Hsh) as (s' & Hr & [Hin Hkb Hkp Hka] & Hs').
  exists s'. split; [by rewrite Hm|]. split; [|done]. split; congruence || done.
Qed.
Lemma types_flag b b' : types (k_modify (set_prefix b')) b [] b'.
Proof. intros s t [[] Hb Ha Hbase]. eexists. split; [reflexivity|]. split; [|done]. by split. Qed.

(** The stamp in front of a line. *)
Definition lead (b : bool) : list Z := if b then [] else stamp us.
Lemma types_prefix b : types (ensure_prefix R) b (lead b) true.
Proof.
  intros s t Hs. destruct (Hs) as [_ Hb Ha _]. unfold ensure_prefix. krun. rewrite Hb. destruct b.
  { exists s. split; [done|]. by split. }
  destruct (types_bind (log_prefix R) (k_modify (set_prefix true)) false (stamp us) false [] true) with (s := s) (t := t)
    as (s' & Hr & Hs' & Hin); [|apply types_flag|done|].
  - intros s0 t0 Hs0. rewrite (log_prefix_stamp R s0 us) by (done || by rewrite (se_apic _ _ _ Hs0)).
    by apply (types_prints (write_all R (stamp us))).
  - exists s'. rewrite app_nil_r in Hs'. done.
Qed.

Lemma types_val m l b : prints R m l → types (kout_val R m) b (lead b ++ l) true.
Proof. intros Hm. apply (types_bind _ _ b (lead b) true); [apply types_prefix|by apply types_prints]. Qed.
Lemma types_str l c b : last l = Some c → types (kout_str R l) b (lead b ++ l) (negb (c =? 10)).
Proof.
  intros Hl. rewrite <- (app_nil_r l) at 2. unfold kout_str. apply (types_bind _ _ b (lead b) true); [apply types_prefix|].
  apply (types_bind _ _ true l true); [by apply types_prints|]. rewrite Hl. intros s t Hs. cbn [k_deref]. krun.
  destruct (c =? 10); [by apply types_flag with (b := true)|]. exists s. split; [done|]. by split.
Qed.
Lemma types_endl b : types (kout_char R endl) b (lead b ++ [10]) false.
Proof.
  apply (types_bind _ _ b (lead b) true); [apply types_prefix|].
  change [10] with ([10] ++ [] : list Z). apply (types_bind _ _ true [10] true); [apply types_prints, prints_char|].
  apply types_flag.
Qed.

(** ** The stack trace *)

Context (syms : list KSym).
Record table_ok : Prop := {
  tab_sorted : sorted_table syms;
  tab_addr : ∀ k, k ∈ syms → 0 ≤ addr k < 2 ^ 64;
  tab_name : ∀ k, k ∈ syms → ∃ c, last (name k) = Some c ∧ c ≠ 10
}.

(** The line of a return address. *)
Definition pointer_text (p : Z) : list Z := str "0x" ++ nibble_list 16 0 p.
Definition symbol_text (p : Z) : list Z :=
  match kallsyms_lookup syms p with
  | Ret (Some (n, off)) => n ++ str "+" ++ pointer_text off
  | _ => str "unknown"
  end.
Definition frame_line (p : Z) : list Z :=
  stamp us ++ str " [<" ++ pointer_text p ++ str ">] ? " ++ symbol_text p ++ [10].

Lemma prints_ptr p : 0 ≤ p < 2 ^ 64 → prints R (put_ptr R p) (pointer_text p).
Proof. intros Hp s. unfold put_ptr. rewrite ptr_to_str_spec by done. by krun. Qed.

Lemma types_symbol p : table_ok → 0 ≤ p < 2 ^ 64 → types (printSymbol R syms p) true (symbol_text p) true.
Proof.
  intros [Hs Ha Hn] Hp s t Hse. destruct (kallsyms_lookup_spec syms p Hs Hp Ha) as (r & Hr & Hsp).
  unfold printSymbol, symbol_text. rewrite Hr. krun. revert s t Hse. destruct r as [[n off]|].
  - destruct Hsp as (k & Hk & <- & Hoff & H0 & _). destruct (Hn k Hk) as (c & Hl & Hc).
    pose proof (types_str (name k) c true Hl) as H1. rewrite (proj2 (Z.eqb_neq c 10) Hc) in H1.
    apply (types_bind _ _ true (name k) true _ true H1). apply (types_bind _ _ true (str "+") true).
    + by apply (types_str (str "+") 43).
    + apply (types_val (put_ptr R off) (pointer_text off) true), prints_ptr. pose proof (Ha k Hk). lia.
  - by apply (types_str (str "unknown") 110).
Qed.
Lemma types_frame p : table_ok → 0 ≤ p < 2 ^ 64 → types (print_frame R syms p) false (frame_line p) false.
Proof.
  intros Ht Hp. unfold print_frame, frame_line. rewrite app_assoc.
  apply (types_bind _ _ false (stamp us ++ str " [<") true); [by apply (types_str _ 60)|].
  apply (types_bind _ _ true (pointer_text p) true); [by apply (types_val _ _ true), prints_ptr|].
  apply (types_bind _ _ true (str ">] ? ") true); [by apply (types_str _ 32 true)|].
  apply (types_bind _ _ true (symbol_text p) true); [by apply types_symbol|]. apply (types_endl true).
Qed.

(** The chain of frames from [rbp], with the return addresses [l]; the frames
    are not in the frame buffer. *)
Definition off_screen (rbp : Z) : Prop :=
  rbp + 16 ≤ fb_address fb ∨ fb_address fb + fb_pitch fb * fb_height fb ≤ rbp.
Fixpoint callers (m : ram) (rbp : Z) (l : list Z) : Prop :=
  match l with
  | [] => rbp < HIGHER_HALF ∨ Z.land rbp 7 ≠ 0 ∨ (off_screen rbp ∧ load64 m (rbp + 8) = 0)
  | r :: l' => HIGHER_HALF ≤ rbp ∧ Z.land rbp 7 = 0 ∧ off_screen rbp ∧
      load64 m (rbp + 8) = r ∧ r ≠ 0 ∧ callers m (load64 m rbp) l'
  end.

Lemma frame_kept m m' rbp k : inside fb m m' → off_screen rbp → 0 ≤ k ≤ 8 → load64 m' (rbp + k) = load64 m (rbp + k).
Proof. intros Hin Ho Hk. apply load_le_agree. intros x Hx. apply Hin. unfold off_screen in Ho. lia. Qed.
Lemma callers_kept m m' rbp l : inside fb m m' → callers m rbp l → callers m' rbp l.
Proof.
  intros Hin. revert rbp. induction l as [|r l IH]; intros rbp; cbn [callers].
  - intros [H|[H|[Ho H]]]; auto. right; right. split; [done|]. by rewrite (frame_kept m).
  - intros (Hh & Hal & Ho & Hr & Hr0 & Hl). split_and!; try done; [by rewrite (frame_kept m)|].
    rewrite <- (Z.add_0_r rbp), (frame_kept m), Z.add_0_r by (done || lia). by apply IH.
Qed.

Lemma trace_loop_types fuel rbp l s t : table_ok → session false t s → callers (con_mem s) rbp l →
  (length l < fuel)%nat →
  ∃ s', trace_loop R syms fuel rbp s = Ret (tt, s') ∧ session false (received t (concat (frame_line <$> l))) s' ∧
        inside fb (con_mem s) (con_mem s').
Proof.
  intros Ht. revert fuel rbp s t. induction l as [|r l IH]; intros [|f] rbp s t Hs Hc Hf; cbn [length] in Hf; try lia;
    cbn [trace_loop fmap list_fmap concat callers] in *.
  - exists s. split; [|done]. destruct Hc as [H|[H|[_ H]]].
    + by rewrite (proj2 (Z.leb_gt _ _) H), andb_false_r.
    + rewrite (proj2 (Z.eqb_neq _ _) H). cbn [negb]. by destruct (_ && _).
    + destruct (_ && _); [|done]. destruct (negb _); [done|]. krun. by rewrite H.
  - destruct Hc as (Hh & Hal & Ho & Hr & Hr0 & Hl). unfold HIGHER_HALF in *.
    rewrite (proj2 (Z.eqb_neq rbp 0)), (proj2 (Z.leb_le _ _)), Hal by lia. cbn [negb andb Z.eqb].
    rewrite (K_bind_ret _ _ s r s) by (unfold k_gets; by rewrite Hr).
    rewrite (proj2 (Z.eqb_neq _ _) Hr0).
    destruct (types_frame r Ht ltac:(rewrite <- Hr; apply load64_range) s t Hs) as (s1 & Hr1 & Hs1 & Hi1).
    rewrite (K_bind_ret _ _ _ _ _ Hr1). krun.
    replace (load64 (con_mem s1) rbp) with (load64 (con_mem s) rbp)
      by (rewrite <- (Z.add_0_r rbp); symmetry; apply frame_kept; done || lia).
    destruct (IH f _ s1 _ Hs1 (callers_kept _ _ _ _ Hi1 Hl) ltac:(lia)) as (s2 & Hr2 & Hs2 & Hi2).
    exists s2. split; [done|]. split; [unfold received in *; by rewrite foldl_app|].
    intros x Hx. by rewrite Hi2, Hi1.
Qed.

Definition trace_text (rip : Z) (l : list Z) : list Z :=
  (stamp us ++ [10]) ++ (stamp us ++ str "Call Trace:") ++ [10] ++ frame_line rip ++ concat (frame_line <$> l).

(** Code that prints in front of code that needs the frames. *)
Lemma types_then m k b l1 b1 l2 b2 (P : ram → Prop) : (∀ m1 m2, inside fb m1 m2 → P m1 → P m2) → types m b l1 b1 →
  (∀ s t, session b1 t s → P (con_mem s) →
    ∃ s', k s = Ret (tt, s') ∧ session b2 (received t l2) s' ∧ inside fb (con_mem s) (con_mem s')) →
  ∀ s t, session b t s → P (con_mem s) →
    ∃ s', (m ≫= λ _, k) s = Ret (tt, s') ∧ session b2 (received t (l1 ++ l2)) s' ∧ inside fb (con_mem s) (con_mem s').
Proof.
  intros HP Hm Hk s t Hs Hp. destruct (Hm s t Hs) as (s1 & Hr1 & Hs1 & Hi1).
  destruct (Hk s1 _ Hs1 (HP _ _ Hi1 Hp)) as (s2 & Hr2 & Hs2 & Hi2). exists s2. rewrite (K_bind_ret _ _ _ _ _ Hr1).
  split; [done|]. split; [unfold received in *; by rewrite foldl_app|]. intros x Hx. by rewrite Hi2, Hi1.
Qed.

Lemma printStackTrace_types fuel rbp rip l s t : table_ok → session false t s → callers (con_mem s) rbp l →
  (length l < fuel)%nat → 0 ≤ rip < 2 ^ 64 →
  ∃ s', printStackTrace R syms fuel rbp rip s = Ret (tt, s') ∧ session false (received t (trace_text rip l)) s' ∧
        inside fb (con_mem s) (con_mem s').
Proof.
  intros Ht Hs Hc Hf Hrip. revert s t Hs Hc. unfold printStackTrace, trace_text.
  assert (HP : ∀ m1 m2, inside fb m1 m2 → callers m1 rbp l → callers m2 rbp l) by (intros; by eapply callers_kept).
  apply (types_then _ _ _ _ false _ _ _ HP (types_endl false)).
  apply (types_then _ _ _ _ true _ _ _ HP (types_str (str "Call Trace:") 58 false eq_refl)).
  apply (types_then _ _ _ _ false _ _ _ HP (types_endl true)).
  apply (types_then _ _ _ _ false _ _ _ HP (types_frame rip Ht Hrip)).
  intros s t Hs Hc. by apply trace_loop_types.
Qed.
End Types.


(** One frame on the kernel's stack, called from address 40. *)
Definition frame_memory : ram := λ x, if x =? HIGHER_HALF + 8 then 40 else 0.
Definition frame_console : console_state := set_grid 4 2 (console_boot frame_memory sample_apic).
Lemma frame_session :
  session fb_sample (HexToARGB 16777215) (HexToARGB 0) sample_apic false empty_term frame_console.
Proof.
  split; try done. apply (boot_shows fb_sample); [by split| |done|done]. intros px py Hpx Hpy.
  unfold pixel, pget. transitivity (load_le (λ _, 0) 0 4); [|done]. apply load_le_shift. intros i Hi.
  unfold frame_memory. cbn in Hpx, Hpy. rewrite (proj2 (Z.eqb_neq _ _)); [done|].
  change (stride fb_sample) with 32. change (fb_address fb_sample) with 4096. unfold HIGHER_HALF. lia.
Qed.
Lemma sample_table : table_ok sample_syms.
Proof.
  split.
  - intros [|[|[|i]]] [|[|[|j]]] si sj Hij Hi Hj; simpl in *; simplify_eq; simpl; lia.
  - intros k Hk. unfold sample_syms in Hk. set_unfold. destruct Hk as [->|[->|[->|[]]]]; simpl; lia.
  - intros k Hk. unfold sample_syms in Hk. set_unfold. destruct Hk as [->|[->|[->|[]]]]; by eexists.
Qed.

