(* ===== verification/Irq.v ===== *)
(** * Interrupt handlers: irqHandler and exceptionHandler of src/idt.cpp

    The handlers join the parts: a timer interrupt moves the clock, signals
    the end of the interrupt and calls the scheduler; a keyboard interrupt
    hands the byte to the decoder; an exception builds a message in a buffer
    on the stack and panics. *)

From S2P Require Import Prelude Bytes Mem KString Errno Alloc Kallsyms Keyboard Idt Paging Apic Sched Font Console Panic.

Record irq_state (A : Type) := MkIrq {
  i_con : console_state;      (** with the local APIC the clock reads *)
  i_kbd : kbd;
  i_ports : ports;
  i_sched : sched_state A
}.
Arguments MkIrq {A}. Arguments i_con {A}. Arguments i_kbd {A}. Arguments i_ports {A}. Arguments i_sched {A}.

(** ** The exception's message *)

Definition exception_names : list (list Z) :=
  str <$> ["Division By Zero (#DE)"; "Debug (#DB)"; "Non-maskable Interrupt"; "Breakpoint (#BP)";
   "Overflow (#OF)"; "Bound Range Exceeded (#BR)"; "Invalid Opcode (#UD)"; "Device Not Available (#NM)";
   "Double Fault (#DF)"; "Coprocessor Segment Overrun"; "Invalid TSS (#TS)"; "Segment Not Present (#NP)";
   "Stack-Segment Fault (#SS)"; "General Protection Fault (#GP)"; "Page Fault (#PF)";
   "Reserved";
   "x87 Floating-Point Exception (#MF)"; "Alignment Check (#AC)"; "Machine Check (#MC)"; "SIMD Floating-Point Exception (#XF)";
   "Virtualization Exception (#VE)"; "Control Protection Exception (#CP)";
   "Reserved"; "Reserved"; "Reserved"; "Reserved"; "Reserved";
   "Hypervisor Injection Exception (#HV)"; "VMM Communication Exception (#VC)"; "Security Exception (#SX)";
   "Reserved"; "Triple Fault"]%string.

(** strcat and itoa on the strings in char arrays of a given size: the NUL
    has to fit too. *)
Definition strcat_buf (size : Z) (dest src : list Z) : outcome (list Z) :=
  if size <=? Z.of_nat (length dest + length src) then Fault else Ret (dest ++ src).
Definition itoa_buf (size val base : Z) : outcome (list Z) :=
  l ← itoa_digits 65 val base (if val =? 0 then [48] else []);
  if size <=? Z.of_nat (length l) then Fault else Ret l.

Definition has_error_code (int_no : Z) : bool :=
  (int_no =? 8) || (int_no =? 10) || (int_no =? 11) || (int_no =? 12) || (int_no =? 13) || (int_no =? 14)
  || (int_no =? 17) || (int_no =? 21) || (int_no =? 29) || (int_no =? 30).

(** msg_buf[128], num_buf[8], err_buf[16], cr2_buf[20]; itoa's base is 16 by
    default. *)
Definition append_cause (int_no : Z) (msg : list Z) : outcome (list Z) :=
  if int_no <? 16 then
    match exception_names !! Z.to_nat int_no with
    | Some n => strcat_buf 128 msg n
    | None => Fault
    end
  else
    msg ← strcat_buf 128 msg (str "Hardware Interrupt #");
    num ← itoa_buf 8 int_no 16;
    strcat_buf 128 msg num.
Definition append_error (int_no error_code : Z) (msg : list Z) : outcome (list Z) :=
  if has_error_code int_no then
    msg ← strcat_buf 128 msg (str " - Err: 0x");
    err ← itoa_buf 16 error_code 16;
    strcat_buf 128 msg err
  else strcat_buf 128 msg [].
Definition append_cr2 (int_no cr2 : Z) (msg : list Z) : outcome (list Z) :=
  if int_no =? 14 then
    msg ← strcat_buf 128 msg (str ", CR2: 0x");
    num ← itoa_buf 20 cr2 16;
    strcat_buf 128 msg num
  else Ret msg.
Definition exception_message (int_no error_code cr2 : Z) : outcome (list Z) :=
  msg ← strcat_buf 128 [] (str "ISR: ");
  msg ← append_cause int_no msg;
  msg ← append_error int_no error_code msg;
  append_cr2 int_no cr2 msg.

Section Irq.
Context {A : Type} `{Allocator A}.
Context (R : option (list framebuffer)) (syms : list KSym) (query : Z → cpuid_result).
Abbreviation M := (K (irq_state A)).

Definition on_con {B} (m : K console_state B) : M B := λ s,
  match m (i_con s) with
  | Ret (b, c) => Ret (b, MkIrq c (i_kbd s) (i_ports s) (i_sched s))
  | Panic w => Panic w | Fault => Fault | Diverge => Diverge
  end.
Definition on_ports {B} (m : K ports B) : M B := λ s,
  match m (i_ports s) with
  | Ret (b, p) => Ret (b, MkIrq (i_con s) (i_kbd s) p (i_sched s))
  | Panic w => Panic w | Fault => Fault | Diverge => Diverge
  end.
Definition on_sched {B} (m : K (sched_state A) B) : M B := λ s,
  match m (i_sched s) with
  | Ret (b, c) => Ret (b, MkIrq (i_con s) (i_kbd s) (i_ports s) c)
  | Panic w => Panic w | Fault => Fault | Diverge => Diverge
  end.
Definition lapic_do {B} (m : K apic_state B) : M B := on_con (on_apic m).

Definition exceptionHandler (fuel : nat) (int_no error_code cr2 rbp rip : Z) : M unit :=
  msg ← on_con (lift_outcome (exception_message int_no error_code cr2));
  on_con (kernel_panic R syms query fuel msg rbp rip).

Definition irqHandler (int_no : Z) : M unit :=
  let vector := u8 int_no in
  if vector =? APIC_TIMER_VECTOR then
    lapic_do timer_tick ≫= λ _,
    lapic_do send_eoi ≫= λ _,
    cpu ← lapic_do get_lapic_id;
    on_sched (schedule cpu)
  else if vector =? PS2_KEYBOARD_VECTOR then
    status ← on_ports inb_status;
    if Z.land status STATUS_OUTPUT_FULL =? 0 then
      on_con (kout_str R (str "idt: (IRQ 1) Spurious interruption signal detected, ignored.")) ≫= λ _,
      lapic_do send_eoi
    else
      data ← on_ports inb_data;
      k_modify (λ s, MkIrq (i_con s) (decode_and_push data (i_kbd s)) (i_ports s) (i_sched s)) ≫= λ _,
      lapic_do send_eoi
  else
    on_con (kout_str R (str "idt: WARNING: Unhandled IRQ, vector ")) ≫= λ _,
    on_con (kout_val R (put_u8 R vector)) ≫= λ _,
    on_con (kout_str R (str ".")) ≫= λ _,
    on_con (kout_char R endl) ≫= λ _,
    lapic_do send_eoi.

End Irq.
