(* ===== verification/IrqSpec.v ===== *)
(** * Interrupts at work

    What a sequence of interrupts does to the machine: timer interrupts move
    the clock and pass the processor round the tasks, keyboard interrupts
    feed the decoder, and an exception's message fits its buffers. *)

From S2P Require Import Prelude Bytes Mem KString Errno Alloc Kallsyms Keyboard Idt Paging Apic Sched SchedSpec Font.
From S2P Require Import Console ConsoleSpec Panic Irq.

Section Interrupts.
Context {A : Type} `{Allocator A}.
Context (R : option (list framebuffer)).
Implicit Types s : irq_state A.

(** A sequence of interrupts, by vector. *)
Fixpoint interrupts (l : list Z) : K (irq_state A) unit :=
  match l with [] => mret tt | v :: l' => irqHandler R v ≫= λ _, interrupts l' end.

Definition i_apic (s : irq_state A) : apic_state := con_apic (i_con s).
Definition set_i_apic (a : apic_state) (s : irq_state A) : irq_state A :=
  MkIrq (set_con_apic a (i_con s)) (i_kbd s) (i_ports s) (i_sched s).

Lemma lapic_do_ret {B} (m : K apic_state B) b a s : m (i_apic s) = Ret (b, a) → lapic_do m s = Ret (b, set_i_apic a s).
Proof. intros Hm. unfold lapic_do, on_con, on_apic. unfold i_apic in Hm. by rewrite Hm. Qed.

Definition eoi_sent (a : apic_state) : apic_state := set_lapic (poke_reg EOI 0 (lapic a)) a.
Lemma send_eoi_ret a : apic_mmio_base a ≠ 0 → send_eoi a = Ret (tt, eoi_sent a).
Proof. apply apic_write_ret. Qed.

(** The processor and clock of a running system: the timer is calibrated. *)
Record ticking (rate us cpu : Z) (a : apic_state) : Prop := {
  tk_base : apic_mmio_base a ≠ 0;
  tk_rate : timer_ticks_per_ms a = rate;
  tk_period : timer_period_ticks a = rate * 10;
  tk_us : g_uptime_us_base a = us;
  tk_cpu : Z.land (Z.shiftr (lapic a (reg_offset APIC_ID)) 24) 255 = cpu
}.

Lemma timer_interrupt rate us cpu cur i l s : 0 < rate < 2 ^ 28 → 0 ≤ us < 2 ^ 63 → ticking rate us cpu (i_apic s) →
  all_ready (i_sched s) cpu cur l → l !! i = Some cur → (1 < length l)%nat →
  ∃ s' nxt, irqHandler R APIC_TIMER_VECTOR s = Ret (tt, s') ∧ ticking rate (us + 10000) cpu (i_apic s') ∧
    all_ready (i_sched s') cpu nxt l ∧ l !! ((i + 1) mod length l)%nat = Some nxt ∧
    i_kbd s' = i_kbd s ∧ con_mem (i_con s') = con_mem (i_con s).
Proof.
  intros Hr Hus [Hb Hrate Hper Hu Hcpu] Hready Hi Hmany. unfold irqHandler. change (u8 APIC_TIMER_VECTOR) with 32.
  change (32 =? APIC_TIMER_VECTOR) with true. cbv iota zeta.
  pose proof (timer_tick_ret (i_apic s) rate Hrate Hr Hper ltac:(lia)) as Ht.
  rewrite (K_bind_ret _ _ _ _ _ (lapic_do_ret _ _ _ s Ht)). set (a1 := set_clock _ _ _). set (s1 := set_i_apic a1 s).
  rewrite (K_bind_ret _ _ _ _ _ (lapic_do_ret _ _ _ s1 (send_eoi_ret a1 Hb))).
  set (a2 := eoi_sent a1). set (s2 := set_i_apic a2 s1).
  assert (Hid : get_lapic_id a2 = Ret (cpu, a2)).
  { unfold get_lapic_id. krun. change (apic_mmio_base a2) with (apic_mmio_base (i_apic s)).
    rewrite (proj2 (Z.eqb_neq _ _) Hb). rewrite (K_bind_ret _ _ _ _ _ (apic_read_ret APIC_ID a2 Hb)).
    rewrite <- Hcpu. done. }
  rewrite (K_bind_ret _ _ _ _ _ (lapic_do_ret _ _ _ s2 Hid)).
  destruct (schedule_advances cpu (i_sched s) l i cur Hready Hi Hmany) as (sc & nxt & Hrun & Hready' & Hnxt).
  unfold on_sched. cbn [i_sched set_i_apic s2 s1]. rewrite Hrun. eexists _, nxt. split; [reflexivity|].
  split; [|done]. split; cbn; try done. lia.
Qed.


(** Keyboard interrupts feed the decoder: when the device reports data at
    each of a sequence of keyboard interrupts, the decoder has received
    exactly these bytes in order and the end of each interrupt is signalled;
    tasks, console and memory are untouched. *)
Theorem keyboard_interrupts_feed (bytes statuses rest : list Z) (s : irq_state A)
    (Hbase : apic_mmio_base (i_apic s) ≠ 0) (Hlen : length statuses = length bytes)
    (Hfull : Forall (λ st, Z.land st STATUS_OUTPUT_FULL ≠ 0) statuses)
    (Hstatus : status_in (i_ports s) = statuses) (Hdata : data_in (i_ports s) = bytes ++ rest) :
  ∃ s', interrupts (replicate (length bytes) PS2_KEYBOARD_VECTOR) s = Ret (tt, s') ∧
    i_kbd s' = feed bytes (i_kbd s) ∧ i_sched s' = i_sched s ∧ con_mem (i_con s') = con_mem (i_con s) ∧
    data_in (i_ports s') = rest ∧ (bytes ≠ [] → lapic (i_apic s') (reg_offset EOI) = 0).
Proof.
  revert statuses s Hbase Hlen Hfull Hstatus Hdata.
  induction bytes as [|d bytes IH]; intros [|st statuses] s Hbase Hlen Hfull Hstatus Hdata; try done.
  { exists s. done. }
  apply Forall_cons in Hfull as [Hst Hfull]. cbn [length replicate interrupts].
  assert (Hrun : irqHandler R PS2_KEYBOARD_VECTOR s = Ret (tt,
    set_i_apic (eoi_sent (i_apic s)) (MkIrq (i_con s) (decode_and_push d (i_kbd s))
      (Ports statuses (bytes ++ rest) (out_log (i_ports s))) (i_sched s)))).
  { unfold irqHandler. change (u8 PS2_KEYBOARD_VECTOR) with 33. 
    change (33 =? APIC_TIMER_VECTOR) with false. change (33 =? PS2_KEYBOARD_VECTOR) with true. cbv iota zeta.
    unfold on_ports, inb_status. erewrite K_bind_ret by (rewrite Hstatus; reflexivity).
    rewrite (proj2 (Z.eqb_neq _ _) Hst). unfold inb_data. erewrite K_bind_ret by (cbn; rewrite Hdata; reflexivity).
    krun. by apply (lapic_do_ret _ tt), send_eoi_ret. }
  rewrite (K_bind_ret _ _ _ _ _ Hrun).
  destruct (IH statuses (set_i_apic (eoi_sent (i_apic s)) (MkIrq (i_con s) (decode_and_push d (i_kbd s))
      (Ports statuses (bytes ++ rest) (out_log (i_ports s))) (i_sched s)))) as (s' & Hr & Hk & Hs & Hm & Hd & Heoi);
    [done|by injection Hlen|done|done|done|].
  exists s'. split; [exact Hr|]. split_and!; try done. intros _. destruct bytes; [|by apply Heoi].
  cbn in Hr. by injection Hr as <-.
Qed.
End Interrupts.

(** ** The exception's message *)

Lemma itoa_buf_spec size val (k : nat) : 0 ≤ val < 16 ^ Z.of_nat k → (0 < k ≤ 16)%nat → Z.of_nat k < size →
  ∃ l, itoa_buf size val 16 = Ret l ∧ (length l ≤ k)%nat ∧ digits_value 16 0 l = val.
Proof.
  intros Hv Hk Hsz. unfold itoa_buf. destruct (Z.eqb_spec val 0) as [->|Hnz].
  { exists [48]. cbn. rewrite (proj2 (Z.leb_gt _ _)) by lia. split; [done|]. split; [lia|done]. }
  destruct (itoa_digits_spec 16 k ltac:(lia) 65 val []) as (l & -> & Hlen & _ & Hval); [done|lia|unfold ITOA_TMP; simpl; lia|].
  rewrite app_nil_r in *. cbn [mbind outcome_bind]. exists l. rewrite (proj2 (Z.leb_gt _ _)) by lia.
  split; [done|]. split; [done|]. by rewrite Hval.
Qed.
Lemma strcat_buf_fits size d t : Z.of_nat (length d + length t) < size → strcat_buf size d t = Ret (d ++ t).
Proof. intros H. unfold strcat_buf. by rewrite (proj2 (Z.leb_gt _ _)) by lia. Qed.

Lemma exception_name int_no : 0 ≤ int_no < 16 →
  ∃ n, exception_names !! Z.to_nat int_no = Some n ∧ (length n ≤ 40)%nat.
Proof.
  intros Hi. destruct (lookup_lt_is_Some_2 exception_names (Z.to_nat int_no)) as [n Hn];
    [change (length exception_names) with 32%nat; lia|].
  exists n. split; [done|]. assert (Hall : Forall (λ n, (length n ≤ 40)%nat) exception_names).
  { apply (bool_decide_unpack _). vm_compute. exact I. }
  by eapply Forall_lookup_1 in Hall.
Qed.

(** The cause part: a name, or the number of the interrupt. *)
Definition cause_text (int_no : Z) (what : list Z) : Prop :=
  if int_no <? 16 then exception_names !! Z.to_nat int_no = Some what
  else ∃ num, what = str "Hardware Interrupt #" ++ num ∧ digits_value 16 0 num = int_no.

(** A literal and a number in a buffer of their own, behind the message. *)
Lemma append_number size val (k : nat) (msg lit : list Z) : 0 ≤ val < 16 ^ Z.of_nat k → (0 < k ≤ 16)%nat → Z.of_nat k < size →
  (length msg + length lit + k < 128)%nat →
  ∃ num, (msg ← strcat_buf 128 msg lit; num ← itoa_buf size val 16; strcat_buf 128 msg num) = Ret (msg ++ lit ++ num) ∧
    (length num ≤ k)%nat ∧ digits_value 16 0 num = val.
Proof.
  intros Hv Hk Hs Hl. destruct (itoa_buf_spec size val k Hv Hk Hs) as (num & Hr & Hln & Hval). exists num. split; [|done].
  rewrite strcat_buf_fits by lia. cbn [mbind outcome_bind]. rewrite Hr. cbn [mbind outcome_bind].
  rewrite strcat_buf_fits by (rewrite length_app; lia). by rewrite <- app_assoc.
Qed.
Lemma append_cause_spec int_no msg : 0 ≤ int_no < 2 ^ 28 → (length msg ≤ 5)%nat →
  ∃ what, append_cause int_no msg = Ret (msg ++ what) ∧ (length what ≤ 40)%nat ∧ cause_text int_no what.
Proof.
  intros Hi Hm. unfold append_cause, cause_text. destruct (Z.ltb_spec int_no 16).
  - destruct (exception_name int_no ltac:(lia)) as (n & Hn & Hl). exists n. rewrite Hn.
    split; [apply strcat_buf_fits; lia|done].
  - destruct (append_number 8 int_no 7 msg (str "Hardware Interrupt #")) as (num & Hr & Hl & Hval);
      [lia|lia|lia|change (length (str "Hardware Interrupt #")) with 20%nat; lia|].
    exists (str "Hardware Interrupt #" ++ num). split; [done|]. split; [|by exists num].
    rewrite length_app. change (length (str "Hardware Interrupt #")) with 20%nat. lia.
Qed.

(** C37: The message of an exception fits its buffer of 128 bytes, and the
    numbers fit theirs, for every vector, error code and fault address the
    processor can report; it names the cause and, where they apply, shows the
    error code and the fault address in hexadecimal. *)
Theorem exception_message_fits (int_no error_code cr2 : Z)
    (Hint : 0 ≤ int_no < 2 ^ 28) (Herr : 0 ≤ error_code < 2 ^ 60) (Hcr2 : 0 ≤ cr2 < 2 ^ 64) :
  ∃ what err addr, cause_text int_no what ∧ digits_value 16 0 err = error_code ∧ digits_value 16 0 addr = cr2 ∧
    exception_message int_no error_code cr2 = Ret (((str "ISR: " ++ what) ++
      (if has_error_code int_no then str " - Err: 0x" ++ err else [])) ++
      (if int_no =? 14 then str ", CR2: 0x" ++ addr else [])).
Proof.
  destruct (append_cause_spec int_no (str "ISR: ") Hint ltac:(done)) as (what & Hw & Hlw & Hcause).
  assert (Hl1 : (length (str "ISR: " ++ what) ≤ 45)%nat)
    by (rewrite length_app; change (length (str "ISR: ")) with 5%nat; lia).
  destruct (append_number 16 error_code 15 (str "ISR: " ++ what) (str " - Err: 0x")) as (err & He & Hle & Hve);
    [lia|lia|lia|change (length (str " - Err: 0x")) with 10%nat; lia|].
  set (msg := (str "ISR: " ++ what) ++ (if has_error_code int_no then str " - Err: 0x" ++ err else [])).
  assert (Hmsg : append_error int_no error_code (str "ISR: " ++ what) = Ret msg ∧ (length msg ≤ 70)%nat).
  { subst msg. unfold append_error. destruct (has_error_code int_no).
    - split; [done|]. rewrite (length_app (str "ISR: " ++ what)), (length_app (str " - Err: 0x")). change (length (str " - Err: 0x")) with 10%nat. lia.
    - rewrite app_nil_r. split; [|lia]. rewrite strcat_buf_fits by (simpl length; lia). by rewrite app_nil_r. }
  destruct Hmsg as [Hmsg Hl2].
  destruct (append_number 20 cr2 16 msg (str ", CR2: 0x")) as (ad & Ha & _ & Hva);
    [lia|lia|lia|change (length (str ", CR2: 0x")) with 9%nat; lia|].
  exists what, err, ad. split; [done|]. split; [done|]. split; [done|]. unfold exception_message.
  change (strcat_buf 128 [] (str "ISR: ")) with (Ret (str "ISR: ")). unfold mbind at 1, outcome_bind at 1.
  rewrite Hw. unfold mbind at 1, outcome_bind at 1. rewrite Hmsg. unfold mbind at 1, outcome_bind at 1, append_cr2.
  destruct (int_no =? 14); [exact Ha|]. by rewrite app_nil_r.
Qed.

Lemma exception_message_fits_witness :
  ∃ what err addr, cause_text 14 what ∧ digits_value 16 0 err = 2 ∧ digits_value 16 0 addr = 4096 ∧
    exception_message 14 2 4096 = Ret (((str "ISR: " ++ what) ++ str " - Err: 0x" ++ err) ++ str ", CR2: 0x" ++ addr).
Proof. apply (exception_message_fits 14 2 4096); lia. Defined.

Example page_fault_message :
  exception_message 14 2 4096 = Ret (str "ISR: Page Fault (#PF) - Err: 0x2, CR2: 0x1000").
Proof. reflexivity. Qed.

(** ** Witnesses *)

Definition running_apic : apic_state := set_clock 0 5000 (set_period 1000000 (set_rate 100000 sample_apic)).
Definition running_machine : irq_state bump :=
  MkIrq (console_boot (λ _, 0) running_apic) kbd_boot (Ports [1; 29] [28; 240; 28] []) two_tasks.


Lemma keyboard_interrupts_feed_witness :
  ∃ s', interrupts None (replicate 2 PS2_KEYBOARD_VECTOR) running_machine = Ret (tt, s') ∧
    i_kbd s' = feed [28; 240] kbd_boot ∧ i_sched s' = two_tasks ∧ con_mem (i_con s') = (λ _, 0) ∧
    data_in (i_ports s') = [28] ∧ ([28; 240] ≠ [] → lapic (i_apic s') (reg_offset EOI) = 0).
Proof.
  apply (keyboard_interrupts_feed None [28; 240] [1; 29] [28] running_machine).
  - discriminate.
  - reflexivity.
  - repeat constructor; discriminate.
  - reflexivity.
  - reflexivity.
Defined.
