(* ===== verification/Spinlock.v ===== *)
(** * Spin locks: include/proc/spinlock.h

    Several processors run acquire and release on one lock. Each method is
    its sequence of atomic actions: the interrupt flag instructions, the
    exchange and the store. [step] interleaves the actions of the processors
    in any order. *)

From S2P Require Import Prelude.

(** Where a processor is: outside, between cli and a successful exchange,
    between the exchange and the store, between the store and sti. *)
Inductive place := Outside | Spinning | Inside | Leaving.
#[export] Instance place_eq_dec : EqDecision place.
Proof. solve_decision. Defined.

Record cpu := MkCpu { pc : place; interrupts : bool }.
Record lock_state := MkLock { lock_ : Z; cpus : list cpu }.

(** acquire: asm("cli"), then one round of the exchange loop per call. *)
Definition acquire_cli (c : cpu) : cpu := MkCpu Spinning false.
Definition acquire_exchange (lock : Z) (c : cpu) : Z * cpu :=
  (1, MkCpu (if lock =? 0 then Inside else Spinning) (interrupts c)).
(** release: the store, then asm("sti"). *)
Definition release_store (c : cpu) : Z * cpu := (0, MkCpu Leaving (interrupts c)).
Definition release_sti (c : cpu) : cpu := MkCpu Outside true.

(** The next action of a processor. *)
Definition act (lock : Z) (c : cpu) : Z * cpu :=
  match pc c with
  | Outside => (lock, acquire_cli c)
  | Spinning => acquire_exchange lock c
  | Inside => release_store c
  | Leaving => (lock, release_sti c)
  end.
Definition run_cpu (i : nat) (s : lock_state) : option lock_state :=
  c ← cpus s !! i;
  let r := act (lock_ s) c in
  Some (MkLock r.1 (<[i := r.2]> (cpus s))).

Inductive step : lock_state → lock_state → Prop :=
| step_cpu i s s' : run_cpu i s = Some s' → step s s'.

Definition start (n : nat) : lock_state := MkLock 0 (replicate n (MkCpu Outside true)).
Definition reachable (n : nat) : lock_state → Prop := rtc step (start n).

(** ** The invariant *)

Definition inside (s : lock_state) (i : nat) : Prop := ∃ c, cpus s !! i = Some c ∧ pc c = Inside.
Record lock_inv (s : lock_state) : Prop := {
  li_flag : (lock_ s = 0 ∧ ∀ i, ¬ inside s i) ∨ (lock_ s = 1 ∧ ∃ i, inside s i ∧ ∀ j, inside s j → j = i);
  li_cli : ∀ i c, cpus s !! i = Some c → pc c ≠ Outside → interrupts c = false
}.

Lemma inside_insert s v i c c' j : cpus s !! i = Some c →
  inside (MkLock v (<[i := c']> (cpus s))) j ↔ (if decide (j = i) then pc c' = Inside else inside s j).
Proof.
  intros Hi. unfold inside. cbn [cpus]. case_decide as Hji.
  - subst. rewrite list_lookup_insert_eq by (by eapply lookup_lt_Some). naive_solver.
  - by rewrite list_lookup_insert_ne by done.
Qed.

Lemma start_inv n : lock_inv (start n).
Proof.
  split; cbn.
  - left. split; [done|]. intros i (c & [-> _]%lookup_replicate & [=]).
  - by intros i c [-> _]%lookup_replicate.
Qed.

(** The owner part of the invariant, as a property of the set of processors
    inside. *)
Definition owned (v : Z) (P : nat → Prop) : Prop :=
  (v = 0 ∧ ∀ i, ¬ P i) ∨ (v = 1 ∧ ∃ i, P i ∧ ∀ j, P j → j = i).
#[local] Instance owned_proper : Proper (eq ==> pointwise_relation nat iff ==> iff) owned.
Proof. intros v ? <- P Q H. unfold owned. by setoid_rewrite H. Qed.

Lemma act_owned v c i P : owned v P → (P i ↔ pc c = Inside) →
  owned (act v c).1 (λ j, if decide (j = i) then pc (act v c).2 = Inside else P j).
Proof.
  intros Ho Hi. unfold act. destruct (pc c) eqn:Hpc; cbn.
  - assert (H : pointwise_relation nat iff (λ j, if decide (j = i) then Spinning = Inside else P j) P).
    { intros j. case_decide; [subst; naive_solver|done]. }
    by rewrite H.
  - destruct Ho as [[-> Hno]|[-> (k & Hk & Hu)]]; cbn.
    + right. split; [done|]. exists i. rewrite decide_True by done. split; [done|]. intros j. case_decide; naive_solver.
    + right. split; [done|]. exists k. split; [rewrite decide_False by naive_solver; done|].
      intros j. case_decide; [done|apply Hu].
  - destruct Ho as [[-> Hno]|[-> (k & Hk & Hu)]]; [naive_solver|]. left. split; [done|]. intros j. case_decide; [done|].
    intros Hj. assert (i = k) by naive_solver. assert (j = k) by naive_solver. congruence.
  - assert (H : pointwise_relation nat iff (λ j, if decide (j = i) then Outside = Inside else P j) P).
    { intros j. case_decide; [subst; naive_solver|done]. }
    by rewrite H.
Qed.

Lemma run_cpu_inv i s s' : lock_inv s → run_cpu i s = Some s' → lock_inv s'.
Proof.
  intros [Hflag Hcli] Hrun. unfold run_cpu in Hrun. apply bind_Some in Hrun as (c & Hi & [= <-]).
  pose proof (Hcli i c Hi) as Hci. split.
  - change (owned (act (lock_ s) c).1 (inside (MkLock (act (lock_ s) c).1 (<[i:=(act (lock_ s) c).2]> (cpus s))))).
    eapply owned_proper; [reflexivity|intros j; apply (inside_insert s _ i c _ j Hi)|].
    apply act_owned; [exact Hflag|]. unfold inside. rewrite Hi. naive_solver.
  - cbn [cpus]. intros j cj Hj Hne. destruct (decide (j = i)) as [->|].
    + rewrite list_lookup_insert_eq in Hj by (by eapply lookup_lt_Some). injection Hj as <-.
      unfold act in *. destruct (pc c) eqn:Hpc; cbn in *; try done; by apply Hci.
    + rewrite list_lookup_insert_ne in Hj by done. by eapply Hcli.
Qed.

Lemma reachable_inv n s : reachable n s → lock_inv s.
Proof.
  unfold reachable. generalize (start_inv n). generalize (start n). intros s0 H0 Hr.
  induction Hr as [|s1 s2 s3 [i s1' s2' Hs] _ IH]; [done|]. apply IH. by eapply run_cpu_inv.
Qed.

(** C27: However the processors interleave, at most one is between acquire and
    release, its interrupts are off, and the lock word is zero exactly when
    nobody is: a processor that then tries the exchange gets the lock. *)
Theorem spinlock_mutual_exclusion (n : nat) (s : lock_state) (Hs : reachable n s) :
  (∀ i j, inside s i → inside s j → i = j) ∧
  (∀ i c, cpus s !! i = Some c → pc c = Inside → interrupts c = false) ∧
  (lock_ s = 0 ↔ ∀ i, ¬ inside s i) ∧
  (∀ i c s', (∀ j, ¬ inside s j) → cpus s !! i = Some c → pc c = Spinning → run_cpu i s = Some s' → inside s' i).
Proof.
  destruct (reachable_inv n s Hs) as [Hflag Hcli]. split_and!.
  - intros i j Hi Hj. destruct Hflag as [[_ Hno]|(_ & k & _ & Hu)]; [by destruct (Hno i)|].
    by rewrite (Hu i Hi), (Hu j Hj).
  - intros i c Hc Hp. apply (Hcli i c Hc). by rewrite Hp.
  - destruct Hflag as [[-> Hno]|(-> & k & Hk & Hu)]; [done|]. split; [done|]. intros Hno. by destruct (Hno k).
  - intros i c s' Hno Hc Hp Hrun. unfold run_cpu in Hrun. rewrite Hc in Hrun. injection Hrun as <-.
    apply (inside_insert s _ i c _ i Hc). rewrite decide_True by done. unfold act. rewrite Hp. cbn.
    destruct Hflag as [[-> _]|(_ & k & Hk & _)]; [done|by destruct (Hno k)].
Qed.

(** Two processors: the first is inside, the second spins. *)
Definition contended : lock_state := MkLock 1 [MkCpu Inside false; MkCpu Spinning false].
Lemma contended_reachable : reachable 2 contended.
Proof.
  unfold reachable.
  eapply rtc_l; [by apply (step_cpu 0)|]. eapply rtc_l; [by apply (step_cpu 1)|].
  eapply rtc_l; [by apply (step_cpu 0)|]. eapply rtc_l; [by apply (step_cpu 1)|]. reflexivity.
Qed.
Lemma spinlock_mutual_exclusion_witness :
  (∀ i j, inside contended i → inside contended j → i = j) ∧
  (∀ i c, cpus contended !! i = Some c → pc c = Inside → interrupts c = false) ∧
  (lock_ contended = 0 ↔ ∀ i, ¬ inside contended i) ∧
  (∀ i c s', (∀ j, ¬ inside contended j) → cpus contended !! i = Some c → pc c = Spinning →
    run_cpu i contended = Some s' → inside s' i).
Proof. apply (spinlock_mutual_exclusion 2 contended contended_reachable). Defined.
