(* ===== verification/Ioapic.v ===== *)
(** * Interrupt routing: src/ioapic.cpp

    An I/O APIC is reached through two memory words: the first selects a
    register, the fifth is the selected register. [iodev] holds the registers
    of every controller by the address it is mapped at. *)

From S2P Require Import Prelude Paging Madt.

Record IoApicInstance := MkInst { virt_base : Z; inst_phys : Z; inst_gsi : Z; max_rte : Z }.
Definition MAX_IOAPICS : Z := 8.
Definition RDT_LOW_BASE : Z := 16.
Definition MASK_BIT : Z := Z.shiftl 1 16.

Record ioapic_state := MkIo {
  g_ioapics : list IoApicInstance;   (** its length is g_ioapic_count *)
  select_reg : Z → Z;                (** the register each controller has selected *)
  iodev : Z → Z → Z;                 (** controller, register *)
  io_paging : paging_state
}.

Section Ioapic.
Context (hhdm : Z) (info : ApicInfo).
Abbreviation M := (K ioapic_state).

Definition set_dev (sel : Z → Z) (d : Z → Z → Z) (s : ioapic_state) : ioapic_state :=
  MkIo (g_ioapics s) sel d (io_paging s).
Definition upd {X} (f : Z → X) (k : Z) (v : X) : Z → X := λ i, if i =? k then v else f i.

(** virt_base[0] = reg, reg being an uint8_t *)
Definition select (inst : IoApicInstance) (reg : Z) : M unit :=
  k_modify (λ s, set_dev (upd (select_reg s) (virt_base inst) (u8 reg)) (iodev s) s).
Definition read_reg (inst : IoApicInstance) (reg : Z) : M Z :=
  select inst reg ≫= λ _,
  k_gets (λ s, iodev s (virt_base inst) (select_reg s (virt_base inst))).
Definition write_reg (inst : IoApicInstance) (reg val : Z) : M unit :=
  select inst reg ≫= λ _,
  k_modify (λ s,
    let r := select_reg s (virt_base inst) in
    set_dev (select_reg s) (upd (iodev s) (virt_base inst) (upd (iodev s (virt_base inst)) r (u32 val))) s).

Fixpoint isa_lookup (l : list IsoEntry) (irq : Z) : Z :=
  match l with
  | [] => irq
  | e :: l' => if isa_irq e =? irq then gsi e else isa_lookup l' irq
  end.
Definition isa_to_gsi (irq : Z) : Z := isa_lookup (isos info) irq.

Fixpoint find_ioapic (l : list IoApicInstance) (g : Z) : option IoApicInstance :=
  match l with
  | [] => None
  | i :: l' => if (inst_gsi i <=? g) && (g <? u32 (inst_gsi i + max_rte i)) then Some i else find_ioapic l' g
  end.
Definition find_ioapic_for_gsi (g : Z) : M (option IoApicInstance) :=
  l ← k_gets g_ioapics; mret (find_ioapic l g).

(** Mask every redirection entry. *)
Fixpoint mask_loop (k : nat) (i : Z) (inst : IoApicInstance) : M unit :=
  match k with
  | O => mret tt
  | S k' =>
      write_reg inst (RDT_LOW_BASE + 2 * i) MASK_BIT ≫= λ _,
      write_reg inst (RDT_LOW_BASE + 2 * i + 1) 0 ≫= λ _,
      mask_loop k' (i + 1) inst
  end.

Definition map_regs (phys virt : Z) : M unit := λ s,
  match map_ioapic hhdm phys virt (io_paging s) with
  | Ret (_, p) => Ret (tt, MkIo (g_ioapics s) (select_reg s) (iodev s) p)
  | Panic w => Panic w | Fault => Fault | Diverge => Diverge
  end.

Definition init (phys gsi_start : Z) : M unit :=
  count ← k_gets (λ s, Z.of_nat (length (g_ioapics s)));
  if MAX_IOAPICS <=? count then k_panic "ioapic: Too many IOAPICs!" else
  let virt_addr := IOAPIC_VIRT_BASE + count * 4096 in
  map_regs phys virt_addr ≫= λ _,
  let inst := MkInst virt_addr (u32 phys) gsi_start 0 in
  ver ← read_reg inst 1;
  let inst := MkInst virt_addr (u32 phys) gsi_start (Z.land (Z.shiftr ver 16) 255 + 1) in
  _ ← read_reg inst 0;
  mask_loop (Z.to_nat (max_rte inst)) 0 inst ≫= λ _,
  k_modify (λ s, MkIo (g_ioapics s ++ [inst]) (select_reg s) (iodev s) (io_paging s)).

(** The register of the redirection entry of a global interrupt. *)
Definition rte_low (inst : IoApicInstance) (g : Z) : Z := u32 (RDT_LOW_BASE + 2 * u32 (g - inst_gsi inst)).

Definition route_irq (irq dest_apic_id vector : Z) : M unit :=
  count ← k_gets (λ s, length (g_ioapics s));
  if (count =? 0)%nat then k_panic "ioapic: Not initialized" else
  let g := isa_to_gsi irq in
  inst ← find_ioapic_for_gsi g;
  match inst with
  | None => mret tt
  | Some inst =>
      low ← read_reg inst (rte_low inst g);
      write_reg inst (rte_low inst g) (Z.lor low MASK_BIT) ≫= λ _,
      write_reg inst (u32 (rte_low inst g + 1)) (u32 (Z.shiftl dest_apic_id 24)) ≫= λ _,
      write_reg inst (rte_low inst g) vector
  end.

Definition mask_irq (irq : Z) (masked : bool) : M unit :=
  count ← k_gets (λ s, length (g_ioapics s));
  if (count =? 0)%nat then mret tt else
  let g := isa_to_gsi irq in
  inst ← find_ioapic_for_gsi g;
  match inst with
  | None => mret tt
  | Some inst =>
      low ← read_reg inst (rte_low inst g);
      write_reg inst (rte_low inst g)
        (if masked then Z.lor low MASK_BIT else Z.land low (u32 (Z.lnot MASK_BIT)))
  end.

(** ** Routing does what it says *)

Implicit Types s : ioapic_state.

Lemma ioapic_read_ret inst reg s : ∃ sel,
  read_reg inst reg s = Ret (iodev s (virt_base inst) (u8 reg), set_dev sel (iodev s) s).
Proof.
  eexists. unfold read_reg, select. krun. unfold k_gets, set_dev, upd. cbn. by rewrite Z.eqb_refl.
Qed.
Definition poke (inst : IoApicInstance) (reg val : Z) (d : Z → Z → Z) : Z → Z → Z :=
  upd d (virt_base inst) (upd (d (virt_base inst)) (u8 reg) (u32 val)).
Lemma ioapic_write_ret inst reg val s : ∃ sel,
  write_reg inst reg val s = Ret (tt, set_dev sel (poke inst reg val (iodev s)) s).
Proof.
  eexists. unfold write_reg, select. krun. unfold k_modify, poke, set_dev, upd. cbn. by rewrite Z.eqb_refl.
Qed.
Lemma poke_get inst reg val d b r : poke inst reg val d b r =
  if (b =? virt_base inst) && (r =? u8 reg) then u32 val else d b r.
Proof. unfold poke, upd. by destruct (Z.eqb_spec b (virt_base inst)) as [->|]. Qed.

Lemma find_ioapic_Some l g i : find_ioapic l g = Some i →
  i ∈ l ∧ inst_gsi i ≤ g < u32 (inst_gsi i + max_rte i).
Proof.
  induction l as [|x l IH]; [done|]. cbn [find_ioapic]. destruct (_ && _) eqn:E.
  - intros [= <-]. zbool. split; [by left|done].
  - intros H. destruct (IH H). split; [by right|done].
Qed.

Lemma rte_low_small inst g : 0 ≤ g - inst_gsi inst < 120 → rte_low inst g = 16 + 2 * (g - inst_gsi inst).
Proof. intros Hn. unfold rte_low, RDT_LOW_BASE. rewrite !u32_small; [done|rewrite ?u32_small; lia..]. Qed.

(** The redirection entry [n] of a controller: both words. *)
Definition rte (s : ioapic_state) (inst : IoApicInstance) (n : Z) : Z * Z :=
  (iodev s (virt_base inst) (16 + 2 * n), iodev s (virt_base inst) (17 + 2 * n)).

(** routing an ISA interrupt programs the right redirection entry and no
    other register: the first override for the interrupt gives its global
    number, the entry of the controller that serves it holds the vector,
    unmasked, and the destination, and every other register of every
    controller is as before. The register number is 8 bits wide, so this is
    for the first 120 entries of a controller. *)
Theorem route_irq_programs (irq dest vector : Z) (inst : IoApicInstance) (s : ioapic_state)
    (Hfind : find_ioapic (g_ioapics s) (isa_to_gsi irq) = Some inst)
    (Hn : isa_to_gsi irq - inst_gsi inst < 120)
    (Hdest : 0 ≤ dest < 256) (Hvec : 0 ≤ vector < 256) :
  ∃ s', route_irq irq dest vector s = Ret (tt, s') ∧ g_ioapics s' = g_ioapics s ∧
    rte s' inst (isa_to_gsi irq - inst_gsi inst) = (vector, dest * 2 ^ 24) ∧
    (∀ b r, (b ≠ virt_base inst ∨
             r ≠ 16 + 2 * (isa_to_gsi irq - inst_gsi inst) ∧ r ≠ 17 + 2 * (isa_to_gsi irq - inst_gsi inst)) →
       iodev s' b r = iodev s b r).
Proof.
  destruct (find_ioapic_Some _ _ _ Hfind) as [Hin Hg]. unfold route_irq. krun.
  rewrite (proj2 (Nat.eqb_neq _ _)) by (destruct (g_ioapics s); [by apply elem_of_nil in Hin|done]).
  unfold find_ioapic_for_gsi. krun. rewrite Hfind. set (n := isa_to_gsi irq - inst_gsi inst) in *.
  rewrite (rte_low_small inst (isa_to_gsi irq)) by (fold n; lia). fold n.
  destruct (ioapic_read_ret inst (16 + 2 * n) s) as [sel1 H1]. rewrite (K_bind_ret _ _ _ _ _ H1).
  set (low := iodev s _ _). set (s1 := set_dev _ _ s).
  destruct (ioapic_write_ret inst (16 + 2 * n) (Z.lor low MASK_BIT) s1) as [sel2 H2]. rewrite (K_bind_ret _ _ _ _ _ H2).
  set (s2 := set_dev _ _ s1).
  destruct (ioapic_write_ret inst (u32 (16 + 2 * n + 1)) (u32 (Z.shiftl dest 24)) s2) as [sel3 H3].
  rewrite (K_bind_ret _ _ _ _ _ H3). set (s3 := set_dev _ _ s2).
  destruct (ioapic_write_ret inst (16 + 2 * n) vector s3) as [sel4 H4]. rewrite H4.
  eexists. split; [reflexivity|]. split; [reflexivity|].
  assert (E1 : u8 (16 + 2 * n) = 16 + 2 * n) by (apply u8_small; lia).
  assert (E2 : u8 (u32 (16 + 2 * n + 1)) = 17 + 2 * n) by (rewrite u32_small, u8_small by lia; lia).
  cbn [iodev set_dev s3 s2 s1]. split.
  - unfold rte. cbn [iodev set_dev]. rewrite !poke_get, E1, E2, !Z.eqb_refl. cbn [andb].
    rewrite (proj2 (Z.eqb_neq (17 + 2 * n) (16 + 2 * n))) by lia.
    rewrite (u32_small vector), Z.shiftl_mul_pow2, !u32_small by (rewrite ?u32_small; lia). done.
  - intros b r Hbr. rewrite !poke_get, E1, E2.
    destruct (Z.eqb_spec b (virt_base inst)) as [->|]; [|done]. cbn [andb].
    rewrite !(proj2 (Z.eqb_neq r _)) by (destruct Hbr; [done|lia]). done.
Qed.

(** mask_irq changes the mask bit of the entry and nothing else. *)
Lemma mask_irq_toggles irq masked inst s :
  find_ioapic (g_ioapics s) (isa_to_gsi irq) = Some inst → isa_to_gsi irq - inst_gsi inst < 120 →
  (∀ b r, 0 ≤ iodev s b r < 2 ^ 32) →
  ∃ s', mask_irq irq masked s = Ret (tt, s') ∧
    ∀ b r k, 0 ≤ k → Z.testbit (iodev s' b r) k =
      if (b =? virt_base inst) && (r =? 16 + 2 * (isa_to_gsi irq - inst_gsi inst)) && (k =? 16)
      then masked else Z.testbit (iodev s b r) k.
Proof.
  intros Hfind Hn Hword. destruct (find_ioapic_Some _ _ _ Hfind) as [Hin Hg]. unfold mask_irq. krun.
  rewrite (proj2 (Nat.eqb_neq _ _)) by (destruct (g_ioapics s); [by apply elem_of_nil in Hin|done]).
  unfold find_ioapic_for_gsi. krun. rewrite Hfind. set (n := isa_to_gsi irq - inst_gsi inst) in *.
  rewrite (rte_low_small inst (isa_to_gsi irq)) by (fold n; lia). fold n.
  destruct (ioapic_read_ret inst (16 + 2 * n) s) as [sel1 H1]. rewrite (K_bind_ret _ _ _ _ _ H1).
  destruct (ioapic_write_ret inst (16 + 2 * n)
    (let low := iodev s (virt_base inst) (u8 (16 + 2 * n)) in
     if masked then Z.lor low MASK_BIT else Z.land low (u32 (Z.lnot MASK_BIT))) (set_dev sel1 (iodev s) s)) as [sel2 H2].
  cbv zeta in H2. rewrite H2. eexists. split; [reflexivity|]. intros b r k Hk. cbn [iodev set_dev].
  rewrite poke_get, (u8_small (16 + 2 * n)) by lia.
  destruct (Z.eqb_spec b (virt_base inst)) as [->|]; [|done].
  destruct (Z.eqb_spec r (16 + 2 * n)) as [->|]; [|done]. cbn [andb].
  specialize (Hword (virt_base inst) (16 + 2 * n)). set (low := iodev s _ _) in *. unfold u32.
  assert (Hhigh : 32 ≤ k → Z.testbit low k = false).
  { intros H32. destruct (decide (low = 0)) as [->|]; [apply Z.testbit_0_l|].
    apply Z.bits_above_log2; [lia|]. apply Z.log2_lt_pow2; [lia|].
    eapply Z.lt_le_trans; [apply Hword|]. apply Z.pow_le_mono_r; lia. }
  destruct (decide (k < 32)).
  - rewrite Z.mod_pow2_bits_low by lia. unfold MASK_BIT. destruct masked.
    + rewrite Z.lor_spec, testbit_shiftl1 by lia. destruct (Z.eqb_spec k 16); [apply orb_true_r|apply orb_false_r].
    + rewrite Z.land_spec, Z.mod_pow2_bits_low, Z.lnot_spec, testbit_shiftl1 by lia.
      destruct (Z.eqb_spec k 16); [apply andb_false_r|apply andb_true_r].
  - rewrite Z.mod_pow2_bits_high by lia. rewrite (proj2 (Z.eqb_neq k 16)) by lia. by rewrite Hhigh by lia.
Qed.

End Ioapic.

(** The timer's override 0 -> 2 on a controller of 24 entries. *)
Definition sample_madt : ApicInfo := MkInfo 4276092928 0 [MkDesc 4273995776 0 2] [MkIso 0 2 0].
Definition sample_io : ioapic_state :=
  MkIo [MkInst IOAPIC_VIRT_BASE 4273995776 0 24] (λ _, 0) (λ _ _, MASK_BIT)
    (PagingState (Pmm.Machine (λ _, 0) 0 0 0) 0).
Lemma route_irq_programs_witness :
  ∃ s', route_irq sample_madt 0 3 32 sample_io = Ret (tt, s') ∧
    rte s' (MkInst IOAPIC_VIRT_BASE 4273995776 0 24) 2 = (32, 3 * 2 ^ 24).
Proof.
  destruct (route_irq_programs sample_madt 0 3 32 (MkInst IOAPIC_VIRT_BASE 4273995776 0 24) sample_io)
    as (s' & Hrun & _ & Hrte & _).
  - vm_compute. reflexivity.
  - vm_compute. reflexivity.
  - lia.
  - lia.
  - exists s'. split; [exact Hrun|exact Hrte].
Defined.
