(* ===== verification/ElfExec.v ===== *)
(** * The program loader: proc/elf_exec.cpp

    An address space is a tree of page tables in memory; the loader builds a
    new one, copies the segments and the initial stack into its pages through
    the direct map, applies relative relocations and hands the result over in
    an [ExecImage]. The functions on address spaces work on the page allocator
    and memory; load_image also on the file system. A table is given by its
    address in the direct map. *)

From S2P Require Import Prelude Bytes Mem KString Errno Pmm Paging Alloc Vfs Elf Apic UserCopy.

Definition PIE_BASE : Z := 1073741824.
Definition USER_STACK_TOP : Z := 140737488289792.
Definition USER_STACK_PAGES : Z := 8.
Definition MAX_PROGRAM_HEADERS : Z := 128.
Definition MAX_EXEC_FILE_SIZE : Z := 67108864.
Definition MAX_STACK_STRINGS : Z := 16384.
Definition PTE_ADDRESS : Z := 4503599627366400.
Definition PTE_LARGE : Z := Z.shiftl 1 7.
Definition CPUID_EXTENDED_FEATURES : Z := 2147483649.
Definition CPUID_NX_BIT : Z := Z.shiftl 1 20.
Definition EFER_NXE : Z := Z.shiftl 1 11.
Definition stack_size : Z := USER_STACK_PAGES * PAGE_SIZE.
Definition stack_bottom : Z := USER_STACK_TOP - stack_size.

Record ExecImage := MkImage {
  root_phys : Z; x_entry : Z; x_stack : Z; x_argc : Z; x_argv : Z; x_envp : Z
}.
Definition no_image : ExecImage := MkImage 0 0 0 0 0 0.

(** ** Arithmetic on segments *)

Definition range_valid (offset length total : Z) : bool := (offset <=? total) && (length <=? total - offset).

Definition aligned_valid (p : ProgramHeader) : bool :=
  if p_align p <=? 1 then true
  else if negb (Z.land (p_align p) (p_align p - 1) =? 0) then false
  else Z.land (p_vaddr p) (p_align p - 1) =? Z.land (p_offset p) (p_align p - 1).

(** The addresses a segment takes, if they are acceptable. *)
Definition segment_range (p : ProgramHeader) (bias : Z) : option (Z * Z) :=
  if UINT64_MAX - bias <? p_vaddr p then None else
  let start := p_vaddr p + bias in
  if UINT64_MAX - start <? p_memsz p then None else
  let end_ := start + p_memsz p in
  if (end_ <=? USER_TOP) && ((p_memsz p =? 0) || (PAGE_SIZE <=? start)) &&
     ((p_memsz p =? 0) || (end_ <=? stack_bottom))
  then Some (start, end_) else None.

Definition overlaps (start end_ other_start other_end : Z) : bool :=
  (start <? other_end) && (other_start <? end_).

Definition writable_and_executable (p : ProgramHeader) : bool :=
  Z.land (p_flags p) (Z.lor PF_W PF_X) =? Z.lor PF_W PF_X.

(** ** Address spaces *)

Section Space.
Context (hhdm : Z).
Abbreviation M := (K paging_state).

Definition allocate_zeroed_page : M Z :=
  phys ← pmm_allocPage hhdm;
  if phys =? 0 then mret 0
  else zero_page (phys_to_virt hhdm phys) ≫= λ _, mret phys.
Definition pmm_freePage (phys : Z) : M unit :=
  k_modify (λ s, PagingState (freePage hhdm phys (pg_mach s)) (pml4_base s)).

(** The present entries of a table, in order. *)
Fixpoint for_entries (k : nat) (i table : Z) (f : Z → M unit) : M unit :=
  match k with
  | O => mret tt
  | S k' =>
      entry ← peek (entry_at table i);
      (if Z.land entry PTE_PRESENT =? 0 then mret tt else f entry) ≫= λ _,
      for_entries k' (i + 1) table f
  end.

(** [level] counts the tables below: 0 is a table of pages. *)
Fixpoint destroy_table_tree (level : nat) (table_phys : Z) : M unit :=
  for_entries 512 0 (phys_to_virt hhdm table_phys)
    (λ entry,
      match level with
      | O => pmm_freePage (Z.land entry PTE_ADDRESS)
      | S l => if Z.land entry PTE_LARGE =? 0 then destroy_table_tree l (Z.land entry PTE_ADDRESS)
               else mret tt
      end) ≫= λ _,
  pmm_freePage table_phys.

Definition destroy_address_space (root : Z) : M unit :=
  if root =? 0 then mret tt else
  for_entries 256 0 (phys_to_virt hhdm root)
    (λ entry, if Z.land entry PTE_LARGE =? 0 then destroy_table_tree 2 (Z.land entry PTE_ADDRESS) else mret tt)
    ≫= λ _,
  pmm_freePage root.

Fixpoint copy_entries (k : nat) (i from to : Z) : M unit :=
  match k with
  | O => mret tt
  | S k' => e ← peek (entry_at from i); poke (entry_at to i) e ≫= λ _, copy_entries k' (i + 1) from to
  end.

(** The physical root of the new space, 0 when there is no memory. *)
Definition create_address_space : M Z :=
  base ← k_gets pml4_base;
  if base =? 0 then mret 0 else
  root ← allocate_zeroed_page;
  if root =? 0 then mret 0 else
  copy_entries 256 256 base (phys_to_virt hhdm root) ≫= λ _, mret root.

(** Three levels down, to the entry of the page. *)
Fixpoint locate_loop (table : Z) (ix : list Z) : M (option Z) :=
  match ix with
  | [] => mret None
  | [i] => mret (Some (entry_at table i))
  | i :: ix' =>
      entry ← peek (entry_at table i);
      if (Z.land entry PTE_PRESENT =? 0) || negb (Z.land entry PTE_LARGE =? 0) then mret None
      else locate_loop (phys_to_virt hhdm (Z.land entry PTE_ADDRESS)) ix'
  end.
Definition locate_pte (root va : Z) : M (option Z) :=
  if 256 <=? PGD_INDEX va then mret None
  else locate_loop root [PGD_INDEX va; PUD_INDEX va; PMD_INDEX va; PTE_INDEX va].

Fixpoint map_loop (table : Z) (ix : list Z) (flags : Z) : M bool :=
  match ix with
  | [] => mret false
  | [i] =>
      leaf ← peek (entry_at table i);
      if Z.land leaf PTE_PRESENT =? 0 then
        page_phys ← allocate_zeroed_page;
        if page_phys =? 0 then mret false
        else poke (entry_at table i) (Z.lor (Z.lor (Z.lor page_phys PTE_PRESENT) PTE_USER) flags) ≫= λ _, mret true
      else
        let leaf := Z.lor leaf (Z.land flags PTE_WRITABLE) in
        let leaf := if Z.land flags PTE_NX =? 0 then Z.land leaf (u64 (Z.lnot PTE_NX)) else leaf in
        poke (entry_at table i) leaf ≫= λ _, mret true
  | i :: ix' =>
      entry ← peek (entry_at table i);
      if Z.land entry PTE_PRESENT =? 0 then
        table_phys ← allocate_zeroed_page;
        if table_phys =? 0 then mret false
        else
          let entry := Z.lor (Z.lor (Z.lor table_phys PTE_PRESENT) PTE_WRITABLE) PTE_USER in
          poke (entry_at table i) entry ≫= λ _,
          map_loop (phys_to_virt hhdm (Z.land entry PTE_ADDRESS)) ix' flags
      else if negb (Z.land entry PTE_LARGE =? 0) then mret false
      else
        let entry := Z.lor entry PTE_USER in
        poke (entry_at table i) entry ≫= λ _,
        map_loop (phys_to_virt hhdm (Z.land entry PTE_ADDRESS)) ix' flags
  end.
Definition map_user_page (root va flags : Z) : M bool :=
  if 256 <=? PGD_INDEX va then mret false
  else map_loop root [PGD_INDEX va; PUD_INDEX va; PMD_INDEX va; PTE_INDEX va] flags.

(** memcpy to and from a page of the space, through the direct map. *)
Definition write_bytes (a : Z) (bs : list Z) : M unit :=
  k_modify (λ s, PagingState (set_mem (store_bytes (mem (pg_mach s)) a bs) (pg_mach s)) (pml4_base s)).
Definition read_bytes (a n : Z) : M (list Z) := k_gets (λ s, load_bytes (mem (pg_mach s)) a (Z.to_nat n)).

(** The bytes of one address that a chunk covers: [None] when the page is not
    there. *)
Definition chunk_at (root address copied size : Z) : M (option (Z * Z)) :=
  if (USER_TOP <=? address) || (USER_TOP - address <? copied) then mret None else
  pte ← locate_pte root (u64 (address + copied));
  match pte with
  | None => mret None
  | Some pte =>
      e ← peek pte;
      if Z.land e PTE_PRESENT =? 0 then mret None else
      let in_page := Z.land (u64 (address + copied)) (PAGE_SIZE - 1) in
      let chunk := PAGE_SIZE - in_page in
      let chunk := if size - copied <? chunk then size - copied else chunk in
      mret (Some (phys_to_virt hhdm (Z.land e PTE_ADDRESS) + in_page, chunk))
  end.

Fixpoint copy_to_loop (fuel : nat) (root address : Z) (source : list Z) (copied : Z) : M bool :=
  match fuel with
  | O => k_diverge
  | S f =>
      if copied <? blen source then
        c ← chunk_at root address copied (blen source);
        match c with
        | None => mret false
        | Some (destination, chunk) =>
            write_bytes destination (take (Z.to_nat chunk) (drop (Z.to_nat copied) source)) ≫= λ _,
            copy_to_loop f root address source (copied + chunk)
        end
      else mret true
  end.
(** Every iteration copies a byte at least. *)
Definition copy_to_space (root address : Z) (source : list Z) : M bool :=
  copy_to_loop (S (length source)) root address source 0.

Fixpoint copy_from_loop (fuel : nat) (root address size copied : Z) (got : list Z) : M (option (list Z)) :=
  match fuel with
  | O => k_diverge
  | S f =>
      if copied <? size then
        c ← chunk_at root address copied size;
        match c with
        | None => mret None
        | Some (source, chunk) =>
            bs ← read_bytes source chunk;
            copy_from_loop f root address size (copied + chunk) (got ++ bs)
        end
      else mret (Some got)
  end.
Definition copy_from_space (root address size : Z) : M (option (list Z)) :=
  copy_from_loop (S (Z.to_nat size)) root address size 0 [].

(** ** Segments, relocations, stack *)

Fixpoint map_pages (k : nat) (root page flags : Z) : M bool :=
  match k with
  | O => mret true
  | S k' => ok ← map_user_page root page flags;
            if negb ok then mret false else map_pages k' root (page + PAGE_SIZE) flags
  end.

Definition page_down (x : Z) : Z := Z.land x (u64 (Z.lnot (PAGE_SIZE - 1))).

(** The checks map_segment and load_image both make of a segment. *)
Definition segment_valid (p : ProgramHeader) (bias file_size : Z) : option (Z * Z) :=
  if (p_memsz p <? p_filesz p) || negb (range_valid (p_offset p) (p_filesz p) file_size) ||
     negb (aligned_valid p) then None
  else match segment_range p bias with
       | None => None
       | Some r => if writable_and_executable p then None else Some r
       end.

Definition map_segment (root : Z) (file : list Z) (segment : ProgramHeader) (bias : Z) (nx_enabled : bool) : M bool :=
  match segment_valid segment bias (blen file) with
  | None => mret false
  | Some (start, end_) =>
      if p_memsz segment =? 0 then mret true else
      let page_start := page_down start in
      if UINT64_MAX - (PAGE_SIZE - 1) <? end_ then mret false else
      let page_end := page_down (end_ + PAGE_SIZE - 1) in
      let flags := if Z.land (p_flags segment) PF_W =? 0 then 0 else PTE_WRITABLE in
      let flags := if nx_enabled && (Z.land (p_flags segment) PF_X =? 0) then Z.lor flags PTE_NX else flags in
      ok ← map_pages (Z.to_nat ((page_end - page_start) / PAGE_SIZE)) root page_start flags;
      if negb ok then mret false
      else
        bytes ← k_lift (buf_get (p_offset segment) (p_filesz segment) file);
        copy_to_space root start bytes
  end.

Fixpoint writable_loop (segments : list ProgramHeader) (address length bias : Z) : bool :=
  match segments with
  | [] => false
  | p :: rest =>
      if Z.land (p_flags p) PF_W =? 0 then writable_loop rest address length bias
      else match segment_range p bias with
           | None => writable_loop rest address length bias
           | Some (start, end_) =>
               if (start <=? address) && (address + length <=? end_) then true
               else writable_loop rest address length bias
           end
  end.
Definition segment_is_writable (segments : list ProgramHeader) (address length bias : Z) : bool :=
  if UINT64_MAX - address <? length then false else writable_loop segments address length bias.

(** What the dynamic table says about RELA relocations. *)
Record rela_info := MkRelaInfo {
  rela_address : option Z; rela_size : option Z; rela_entry_size : Z; rela_terminated : bool
}.
Definition forbidden_tag (t : Z) : bool :=
  (t =? DT_NEEDED) || (t =? DT_REL) || (t =? DT_RELSZ) || (t =? DT_TEXTREL) || (t =? DT_JMPREL) ||
  (t =? DT_PLTRELSZ) || (t =? DT_PLTREL).
Definition record_rela (e : DynamicEntry) (r : rela_info) : rela_info :=
  if d_tag e =? DT_RELA then MkRelaInfo (Some (d_value e)) (rela_size r) (rela_entry_size r) (rela_terminated r)
  else if d_tag e =? DT_RELASZ then MkRelaInfo (rela_address r) (Some (d_value e)) (rela_entry_size r) (rela_terminated r)
  else if d_tag e =? DT_RELAENT then MkRelaInfo (rela_address r) (rela_size r) (d_value e) (rela_terminated r)
  else r.

(** [None] is the false return. *)
Fixpoint dynamic_loop (fuel : nat) (root position end_ : Z) (r : rela_info) : M (option rela_info) :=
  match fuel with
  | O => k_diverge
  | S f =>
      if position <=? end_ - sizeof_DynamicEntry then
        b ← copy_from_space root position sizeof_DynamicEntry;
        match b with
        | None => mret None
        | Some b =>
            let entry := read_DynamicEntry b in
            if d_tag entry =? DT_NULL
            then mret (Some (MkRelaInfo (rela_address r) (rela_size r) (rela_entry_size r) true))
            else if forbidden_tag (d_tag entry) then mret None
            else dynamic_loop f root (position + sizeof_DynamicEntry) end_ (record_rela entry r)
        end
      else mret (Some r)
  end.

Fixpoint relocate_loop (fuel : nat) (root address size bias offset : Z) (segments : list ProgramHeader) : M bool :=
  match fuel with
  | O => k_diverge
  | S f =>
      if offset <? size then
        b ← copy_from_space root (u64 (address + offset)) sizeof_Rela;
        match b with
        | None => mret false
        | Some b =>
            let r := read_Rela b in
            if negb (u32 (r_info r) =? R_X86_64_RELATIVE) || negb (u32 (Z.shiftr (r_info r) 32) =? 0) ||
               (UINT64_MAX - bias <? r_offset r) then mret false
            else
              let target := r_offset r + bias in
              if negb (segment_is_writable segments target 8 bias) then mret false
              else
                ok ← copy_to_space root target (le_bytes 8 (u64 (bias + u64 (r_addend r))));
                if negb ok then mret false
                else relocate_loop f root address size bias (offset + sizeof_Rela) segments
        end
      else mret true
  end.

Definition apply_relative_relocations (root : Z) (dynamic : ProgramHeader) (bias : Z) (segments : list ProgramHeader)
    : M bool :=
  if (p_memsz dynamic <? sizeof_DynamicEntry) || (UINT64_MAX - bias <? p_vaddr dynamic) then mret false else
  let cursor := p_vaddr dynamic + bias in
  let end_ := u64 (cursor + p_memsz dynamic) in
  if (end_ <? cursor) || (USER_TOP <? end_) then mret false else
  info ← dynamic_loop (S (S (Z.to_nat (p_memsz dynamic / sizeof_DynamicEntry)))) root cursor end_
           (MkRelaInfo None None sizeof_Rela false);
  match info with
  | None => mret false
  | Some r =>
      let has_rela := bool_decide (is_Some (rela_address r)) in
      let size := default 0 (rela_size r) in
      if negb (rela_terminated r) || negb (eqb has_rela (bool_decide (is_Some (rela_size r)))) ||
         negb (rela_entry_size r =? sizeof_Rela) then mret false
      else if negb has_rela || (size =? 0) then mret true
      else if negb (size mod sizeof_Rela =? 0) || (UINT64_MAX - bias <? default 0 (rela_address r)) then mret false
      else
        let address := default 0 (rela_address r) + bias in
        if u64 (USER_TOP - address) <? size then mret false
        else relocate_loop (S (Z.to_nat (size / sizeof_Rela))) root address size bias 0 segments
  end.

(** Strings from the last one down: their addresses, the cursor and the bytes
    used, or [None]. *)
Fixpoint push_strings (root : Z) (strings : list (list Z)) (cursor total : Z) : M (option (list Z * Z * Z)) :=
  match strings with
  | [] => mret (Some ([], cursor, total))
  | str :: rest =>
      r ← push_strings root rest cursor total;
      match r with
      | None => mret None
      | Some (addrs, cursor, total) =>
          let length := blen str + 1 in
          if (MAX_STACK_STRINGS - total <? length) || (cursor - stack_bottom <? length) then mret None
          else
            let cursor := cursor - length in
            ok ← copy_to_space root cursor (str ++ [0]);
            if negb ok then mret None else mret (Some (cursor :: addrs, cursor, total + length))
      end
  end.

(** The words of the initial stack, from the stack pointer up. *)
Fixpoint push_words (root address : Z) (words : list Z) : M bool :=
  match words with
  | [] => mret true
  | w :: rest =>
      ok ← copy_to_space root address (le_bytes 8 w);
      if negb ok then mret false else push_words root (address + 8) rest
  end.

Definition auxv (phdr phentsize phnum entry execfn : Z) : list Z :=
  [3; phdr; 4; phentsize; 5; phnum; 6; PAGE_SIZE; 7; 0; 9; entry; 31; execfn; 0; 0].

Definition map_user_stack (root : Z) (nx_enabled : bool) (argv envp : list (list Z)) (path : list Z)
    (phdr phentsize phnum entry : Z) : M (option ExecImage) :=
  let flags := Z.lor PTE_WRITABLE (if nx_enabled then PTE_NX else 0) in
  ok ← map_pages (Z.to_nat USER_STACK_PAGES) root stack_bottom flags;
  if negb ok then mret None else
  e ← push_strings root envp USER_STACK_TOP 0;
  match e with
  | None => mret None
  | Some (envp_addresses, cursor, total) =>
  a ← push_strings root argv cursor total;
  match a with
  | None => mret None
  | Some (argv_addresses, cursor, total) =>
  let path_length := blen path + 1 in
  if (MAX_STACK_STRINGS - total <? path_length) || (cursor - stack_bottom <? path_length) then mret None else
  let execfn := cursor - path_length in
  ok ← copy_to_space root execfn (path ++ [0]);
  if negb ok then mret None else
  let argc := blen argv_addresses in
  let envc := blen envp_addresses in
  let vector_words := 1 + argc + 1 + envc + 1 + 7 * 2 + 2 in
  if (execfn - stack_bottom) / 8 <? vector_words then mret None else
  let stack_pointer := Z.land (execfn - vector_words * 8) (u64 (Z.lnot 15)) in
  if stack_pointer <? stack_bottom then mret None else
  ok ← push_words root stack_pointer
         ([argc] ++ argv_addresses ++ [0] ++ envp_addresses ++ [0] ++ auxv phdr phentsize phnum entry execfn);
  if negb ok then mret None
  else mret (Some (MkImage 0 0 stack_pointer argc (stack_pointer + 8) (stack_pointer + 8 * (argc + 2))))
  end end.

End Space.
