(* ===== verification/Exec.v ===== *)
(** * Program images: load_image and its callers in proc/elf_exec.cpp, and
    syscall::init of proc/syscall.cpp

    load_image reads an executable through the file system, validates it and
    builds its address space; activate and terminate_current switch address
    spaces. The state joins the file system, the base of the kernel's page
    tables, the address space that is active, and the registers of the processor these functions
    write. A null string or vector pointer is [None]; the image is the
    caller's local variable, returned with the result. *)

From S2P Require Import Prelude Bytes Mem KString Errno Pmm Paging Alloc Vfs Gdt Elf Apic UserCopy ElfExec.

Record xstate (A : Type) := MkX {
  x_fs : fs_state A;
  x_pml4 : Z;                  (** paging's pml4_base *)
  active_root_phys : Z;
  x_cr3 : Z;
  x_msr : Z → Z;
  x_cpu : PerCpuData           (** per_cpu_data[0] *)
}.
Arguments MkX {A}. Arguments x_fs {A}. Arguments x_pml4 {A}. Arguments active_root_phys {A}.
Arguments x_cr3 {A}. Arguments x_msr {A}. Arguments x_cpu {A}.

(** struct RegisterFrame *)
Record RegisterFrame := MkFrame {
  rax : Z; rbx : Z; rcx : Z; rdx : Z; rsi : Z; rdi : Z; rbp : Z; r8 : Z; r9 : Z; r10 : Z; r11 : Z; r12 : Z;
  r13 : Z; r14 : Z; r15 : Z; rip : Z; rflags : Z; rsp : Z
}.

Definition MSR_EFER : Z := 3221225600.          (* 0xC0000080 *)
Definition MSR_STAR : Z := 3221225601.
Definition MSR_LSTAR : Z := 3221225602.
Definition MSR_FMASK : Z := 3221225604.
Definition MSR_GS_BASE : Z := 3221225729.       (* 0xC0000101 *)
Definition MSR_KERNEL_GS_BASE : Z := 3221225730.
Definition EFER_SCE : Z := 1.
Definition SYSCALL_FMASK : Z :=
  Z.lor (Z.lor (Z.lor (Z.shiftl 1 8) (Z.shiftl 1 9)) (Z.shiftl 1 10)) (Z.shiftl 1 18).
Definition STAR_VALUE : Z := 5348058934575104.  (* 0x0013000800000000 *)

(** ** Validation of the file: no state *)

Definition exec_header_ok (h : ElfHeader) (file_size : Z) : bool :=
  ident_ok h && (e_version h =? EV_CURRENT) && (e_ehsize h =? sizeof_ElfHeader) &&
  (e_phentsize h =? sizeof_ProgramHeader) && negb (e_phnum h =? 0) && (e_phnum h <=? MAX_PROGRAM_HEADERS) &&
  range_valid (e_phoff h) (e_phnum h * sizeof_ProgramHeader) file_size &&
  ((e_type h =? ET_EXEC) || (e_type h =? ET_DYN)) && (e_machine h =? EM_X86_64).

(** The program header table in the file. *)
Definition read_phdr (file : list Z) (h : ElfHeader) (i : Z) : outcome ProgramHeader :=
  b ← buf_get (e_phoff h + i * sizeof_ProgramHeader) sizeof_ProgramHeader file; Ret (read_ProgramHeader b).

(** What the scan of the program headers collects. *)
Record scan := MkScan {
  sc_segments : list ProgramHeader; sc_dynamic : option ProgramHeader; sc_interp : bool; sc_tls : bool
}.
Definition scan_header (p : ProgramHeader) (file_size : Z) (a : scan) : option scan :=
  let interp := sc_interp a || (p_type p =? PT_INTERP) in
  let tls := sc_tls a || (p_type p =? PT_TLS) in
  if p_type p =? PT_DYNAMIC then
    if bool_decide (is_Some (sc_dynamic a)) || (p_memsz p <? p_filesz p) ||
       negb (range_valid (p_offset p) (p_filesz p) file_size) then None
    else Some (MkScan (sc_segments a) (Some p) interp tls)
  else if p_type p =? PT_LOAD then
    if Z.of_nat (length (sc_segments a)) =? MAX_PROGRAM_HEADERS then None
    else Some (MkScan (sc_segments a ++ [p]) (sc_dynamic a) interp tls)
  else Some (MkScan (sc_segments a) (sc_dynamic a) interp tls).

(** [None]: the file is refused. *)
Fixpoint scan_loop (k : nat) (file : list Z) (h : ElfHeader) (i : Z) (a : scan) : outcome (option scan) :=
  match k with
  | O => Ret (Some a)
  | S k' =>
      p ← read_phdr file h i;
      match scan_header p (blen file) a with
      | None => Ret None
      | Some a => scan_loop k' file h (i + 1) a
      end
  end.

(** The inner loop: no earlier segment may share an address. *)
Fixpoint no_overlap (p : ProgramHeader) (start end_ bias : Z) (earlier : list ProgramHeader) : bool :=
  match earlier with
  | [] => true
  | q :: rest =>
      match segment_range q bias with
      | None => false
      | Some (other_start, other_end) =>
          if negb (p_memsz p =? 0) && negb (p_memsz q =? 0) && overlaps start end_ other_start other_end then false
          else no_overlap p start end_ bias rest
      end
  end.

(** The outer loop; the result is entry_executable, [None] a refusal. *)
Fixpoint segments_loop (segments earlier : list ProgramHeader) (bias entry file_size : Z) (executable : bool)
    : option bool :=
  match segments with
  | [] => Some executable
  | p :: rest =>
      match segment_valid p bias file_size with
      | None => None
      | Some (start, end_) =>
          let here := negb (p_memsz p =? 0) && negb (Z.land (p_flags p) PF_X =? 0) &&
                      (start <=? entry) && (entry <? end_) in
          if no_overlap p start end_ bias earlier
          then segments_loop rest (earlier ++ [p]) bias entry file_size (executable || here)
          else None
      end
  end.

(** A validated executable. *)
Record program := MkProgram {
  g_header : ElfHeader; g_bias : Z; g_entry : Z; g_segments : list ProgramHeader; g_dynamic : option ProgramHeader
}.
(** Everything load_image checks of the bytes before it builds anything. *)
Definition validate (file : list Z) : outcome (option program) :=
  b ← buf_get 0 sizeof_ElfHeader file;
  let header := read_ElfHeader b in
  if negb (exec_header_ok header (blen file)) then Ret None else
  let bias := if e_type header =? ET_DYN then PIE_BASE else 0 in
  if UINT64_MAX - bias <? e_entry header then Ret None else
  let entry := e_entry header + bias in
  a ← scan_loop (Z.to_nat (e_phnum header)) file header 0 (MkScan [] None false false);
  match a with
  | None => Ret None
  | Some a =>
      if sc_interp a || sc_tls a || bool_decide (sc_segments a = []) ||
         ((e_type header =? ET_EXEC) && bool_decide (is_Some (sc_dynamic a))) then Ret None
      else match segments_loop (sc_segments a) [] bias entry (blen file) false with
           | Some true => Ret (Some (MkProgram header bias entry (sc_segments a) (sc_dynamic a)))
           | _ => Ret None
           end
  end.

(** The address of the program headers for the auxiliary vector. [inl]: the
    first PT_PHDR entry has an address that overflows. *)
Fixpoint phdr_loop (k : nat) (file : list Z) (h : ElfHeader) (bias i : Z) : outcome (unit + Z) :=
  match k with
  | O => Ret (inr 0)
  | S k' =>
      p ← read_phdr file h i;
      if p_type p =? PT_PHDR then
        Ret (if UINT64_MAX - bias <? p_vaddr p then inl tt else inr (p_vaddr p + bias))
      else phdr_loop k' file h bias (i + 1)
  end.
Fixpoint phdr_in_segments (segments : list ProgramHeader) (h : ElfHeader) (bias : Z) : Z :=
  match segments with
  | [] => 0
  | p :: rest =>
      let table_size := e_phnum h * sizeof_ProgramHeader in
      if (p_offset p <=? e_phoff h) && (table_size <=? p_filesz p) &&
         (e_phoff h - p_offset p <=? p_filesz p - table_size) &&
         (p_vaddr p <=? u64 (UINT64_MAX - bias - (e_phoff h - p_offset p)))
      then u64 (bias + p_vaddr p + (e_phoff h - p_offset p))
      else phdr_in_segments rest h bias
  end.
Definition find_phdr (file : list Z) (g : program) : outcome (bool * Z) :=
  r ← phdr_loop (Z.to_nat (e_phnum (g_header g))) file (g_header g) (g_bias g) 0;
  let phdr := match r with inl _ => 0 | inr a => a end in
  Ret (match r with inl _ => false | inr _ => true end,
       if phdr =? 0 then phdr_in_segments (g_segments g) (g_header g) (g_bias g) else phdr).

(** ** Loading *)

Section Exec.
Context {A : Type} `{Allocator A} `{OnMachine A} (vt : vtables (fs_state A)) (hhdm : Z) (query : Z → cpuid_result)
  (percpu syscall_entry : Z).
Abbreviation M := (K (xstate A)).
Implicit Types s : xstate A.

(** The page tables are on the machine the file system's memory is from. *)
Definition x_pg s : paging_state := PagingState (machine_of (heap (x_fs s))) (x_pml4 s).

Definition set_x_fs f s : xstate A := MkX f (x_pml4 s) (active_root_phys s) (x_cr3 s) (x_msr s) (x_cpu s).
Definition set_x_pg p s : xstate A :=
  MkX (set_heap (set_machine (pg_mach p) (heap (x_fs s))) (x_fs s)) (pml4_base p)
    (active_root_phys s) (x_cr3 s) (x_msr s) (x_cpu s).
Definition set_active r s : xstate A := MkX (x_fs s) (x_pml4 s) r (x_cr3 s) (x_msr s) (x_cpu s).
Definition set_cr3 r s : xstate A := MkX (x_fs s) (x_pml4 s) (active_root_phys s) r (x_msr s) (x_cpu s).
Definition set_x_msr m s : xstate A := MkX (x_fs s) (x_pml4 s) (active_root_phys s) (x_cr3 s) m (x_cpu s).
Definition set_x_cpu c s : xstate A := MkX (x_fs s) (x_pml4 s) (active_root_phys s) (x_cr3 s) (x_msr s) c.

Definition x_on_fs {B} (m : K (fs_state A) B) : M B := λ s,
  match m (x_fs s) with
  | Ret (b, f) => Ret (b, set_x_fs f s)
  | Panic w => Panic w | Fault => Fault | Diverge => Diverge
  end.
Definition x_on_pg {B} (m : K paging_state B) : M B := λ s,
  match m (x_pg s) with
  | Ret (b, p) => Ret (b, set_x_pg p s)
  | Panic w => Panic w | Fault => Fault | Diverge => Diverge
  end.
Definition rdmsr (id : Z) : M Z := k_gets (λ s, x_msr s id).
Definition write_msr (id value : Z) : M unit :=
  k_modify (λ s, set_x_msr (λ i, if i =? id then u64 value else x_msr s i) s).

Definition max_extended_leaf : Z := eax (query 2147483648).
Definition cpu_has_nx : M bool :=
  if (max_extended_leaf <? CPUID_EXTENDED_FEATURES) ||
     (Z.land (edx (query CPUID_EXTENDED_FEATURES)) CPUID_NX_BIT =? 0) then mret false
  else
    efer ← rdmsr MSR_EFER;
    write_msr MSR_EFER (Z.lor efer EFER_NXE) ≫= λ _, mret true.

(** The whole file, [inl] the error. The buffer at [file_data] holds what read
    delivers; it is used only when it is full. *)
Definition read_opened (file : Z) : K (fs_state A) (Z + Z * list Z) :=
  f ← get_file file;
  d ← get_dentry (f_dentry f);
  i ← get_inode (d_inode d);
  let file_size := i_size i in
  if (file_size <? sizeof_ElfHeader) || (MAX_EXEC_FILE_SIZE <? file_size)
  then close vt file ≫= λ _, mret (inl (-8)) else
  file_data ← alloc file_size;
  if file_data =? 0 then close vt file ≫= λ _, mret (inl (-12)) else
  rb ← read vt file file_size;
  let '(bytes_read, bytes) := rb in
  close vt file ≫= λ _,
  if negb (bytes_read =? file_size) then free file_data file_size ≫= λ _, mret (inl (-8))
  else mret (inr (file_data, bytes)).
Definition read_file (path : list Z) : K (fs_state A) (Z + Z * list Z) :=
  file ← open vt path O_RDONLY;
  if file =? 0 then mret (inl (-2)) else
  if IS_ERR file then mret (inl (s32 (PTR_ERR file))) else
  read_opened file.

Fixpoint map_segments (root : Z) (file : list Z) (segments : list ProgramHeader) (bias : Z) (nx : bool)
    : K paging_state bool :=
  match segments with
  | [] => mret true
  | p :: rest =>
      ok ← map_segment hhdm root file p bias nx;
      if negb ok then mret false else map_segments root file rest bias nx
  end.

(** The relocations of a position-independent program, once its segments are
    in place. *)
Definition relocate_step (root : Z) (g : program) (loaded : bool) : K paging_state bool :=
  match loaded, g_dynamic g with
  | true, Some dynamic =>
      if e_type (g_header g) =? ET_DYN
      then apply_relative_relocations hhdm root dynamic (g_bias g) (g_segments g) else mret false
  | _, _ => mret loaded
  end.

(** The address space of a validated program; [None] when anything fails. *)
Definition populate (root_phys : Z) (nx : bool) (file : list Z) (g : program) (argv envp : list (list Z))
    (path : list Z) : K paging_state (option ExecImage) :=
  let root := phys_to_virt hhdm root_phys in
  loaded ← map_segments root file (g_segments g) (g_bias g) nx;
  loaded ← relocate_step root g loaded;
  r ← k_lift (find_phdr file g);
  let '(phdr_ok, phdr) := r in
  if loaded && phdr_ok
  then map_user_stack hhdm root nx argv envp path phdr (e_phentsize (g_header g)) (e_phnum (g_header g)) (g_entry g)
  else mret None.

(** The strings a vector of [n] pointers names. *)
Definition vector_strings (v : option (list (list Z))) (n : Z) : outcome (list (list Z)) :=
  match v with
  | None => Ret []
  | Some l => if (Z.to_nat n <=? length l)%nat then Ret (take (Z.to_nat n) l) else Fault
  end.

(** What is done with the bytes of the file, in the buffer at [file_data]. *)
Definition load_file (file_data : Z) (file : list Z) (args envs : list (list Z)) (path : list Z) : M (Z * ExecImage) :=
  let release := x_on_fs (free file_data (blen file)) in
  g ← k_lift (validate file);
  match g with
  | None => release ≫= λ _, mret (-8, no_image)
  | Some g =>
      root_phys ← x_on_pg (create_address_space hhdm);
      if root_phys =? 0 then release ≫= λ _, mret (-12, no_image) else
      nx ← cpu_has_nx;
      image ← x_on_pg (populate root_phys nx file g args envs path);
      release ≫= λ _,
      match image with
      | None => x_on_pg (destroy_address_space hhdm root_phys) ≫= λ _, mret (-8, no_image)
      | Some im => mret (0, MkImage root_phys (g_entry g) (x_stack im) (x_argc im) (x_argv im) (x_envp im))
      end
  end.

Definition load_image (path : option (list Z)) (argv : option (list (list Z))) (argc : Z)
    (envp : option (list (list Z))) (envc : Z) : M (Z * ExecImage) :=
  match path with
  | None => mret (-22, no_image)
  | Some path =>
  if (128 <? argc) || (128 <? envc) || (negb (argc =? 0) && bool_decide (argv = None)) ||
     (negb (envc =? 0) && bool_decide (envp = None)) then mret (-22, no_image) else
  args ← k_lift (vector_strings argv argc);
  envs ← k_lift (vector_strings envp envc);
  got ← x_on_fs (read_file path);
  match got with
  | inl e => mret (e, no_image)
  | inr (file_data, file) => load_file file_data file args envs path
  end
  end.

Definition prepare := load_image.

Definition discard (image : ExecImage) : M ExecImage :=
  if root_phys image =? 0 then mret image
  else x_on_pg (destroy_address_space hhdm (root_phys image)) ≫= λ _, mret no_image.

(** The image and the frame after the call. *)
Definition activate (image : ExecImage) (frame : RegisterFrame) : M (ExecImage * RegisterFrame) :=
  if root_phys image =? 0 then mret (image, frame) else
  old_root ← k_gets active_root_phys;
  k_modify (set_cr3 (root_phys image)) ≫= λ _,
  k_modify (set_active (root_phys image)) ≫= λ _,
  let frame :=
    MkFrame (rax frame) 0 (rcx frame) (x_envp image) (x_argv image) (x_argc image) 0 0 0 0 (r11 frame)
      0 0 0 0 (x_entry image) 514 (x_stack image) in
  let image := MkImage 0 (x_entry image) (x_stack image) (x_argc image) (x_argv image) (x_envp image) in
  (if old_root =? 0 then mret tt else x_on_pg (destroy_address_space hhdm old_root)) ≫= λ _,
  mret (image, frame).

Definition terminate_current : M unit :=
  old_root ← k_gets active_root_phys;
  if old_root =? 0 then mret tt else
  base ← k_gets x_pml4;
  k_modify (set_cr3 (virt_to_phys hhdm base)) ≫= λ _,
  k_modify (set_active 0) ≫= λ _,
  x_on_pg (destroy_address_space hhdm old_root).

(** syscall::init *)
Definition syscall_init : M unit :=
  k_modify (λ s, let c := x_cpu s in
    set_x_cpu (MkPerCpu (gdt c) (gp_limit c) (gp_base c) (tss c) (rsp0 (tss c)) 0) s) ≫= λ _,
  write_msr MSR_GS_BASE 0 ≫= λ _,
  write_msr MSR_KERNEL_GS_BASE percpu ≫= λ _,
  write_msr MSR_STAR STAR_VALUE ≫= λ _,
  write_msr MSR_LSTAR syscall_entry ≫= λ _,
  write_msr MSR_FMASK SYSCALL_FMASK ≫= λ _,
  efer ← rdmsr MSR_EFER;
  write_msr MSR_EFER (Z.lor efer EFER_SCE).

(** [inr] the arguments of enter_user, which does not return. *)
Definition launch_static (path : option (list Z)) : M (Z + Z * Z) :=
  r ← prepare path None 0 None 0;
  let '(result, image) := r in
  if result <? 0 then mret (inl result) else
  syscall_init ≫= λ _,
  k_modify (set_active (root_phys image)) ≫= λ _,
  k_modify (set_cr3 (root_phys image)) ≫= λ _,
  mret (inr (x_entry image, x_stack image)).

End Exec.
