(* ===== verification/Asm.v ===== *)
(** * The assembly routines: proc/syscall_entry.S, proc/enter_user.S,
    proc/switch_context.S, the interrupt stubs of src/idt.cpp

    The instructions the routines use, with their effect on the general
    registers, memory and the registers SYSRET and IRETQ load. Each routine
    is the list of its instructions, line by line. The C function a routine
    calls is a parameter. *)

From S2P Require Import Prelude Mem.

Inductive reg :=
| RAX | RBX | RCX | RDX | RSI | RDI | RBP | RSP | R8 | R9 | R10 | R11 | R12 | R13 | R14 | R15.
#[export] Instance reg_eq_dec : EqDecision reg.
Proof. solve_decision. Defined.
Definition reg_eqb (a b : reg) : bool :=
  match a, b with
  | RAX, RAX | RBX, RBX | RCX, RCX | RDX, RDX | RSI, RSI | RDI, RDI | RBP, RBP | RSP, RSP
  | R8, R8 | R9, R9 | R10, R10 | R11, R11 | R12, R12 | R13, R13 | R14, R14 | R15, R15 => true
  | _, _ => false
  end.

Record cpu_state := MkCpuState {
  gpr : reg → Z;
  mem : ram;
  gs_base : Z; kernel_gs_base : Z;
  ip : Z; cs : Z; ss : Z; flags : Z
}.

Definition set_reg (r : reg) (v : Z) (s : cpu_state) : cpu_state :=
  MkCpuState (λ x, if reg_eqb x r then v else gpr s x) (mem s) (gs_base s) (kernel_gs_base s) (ip s) (cs s) (ss s) (flags s).
Definition set_mem (m : ram) (s : cpu_state) : cpu_state :=
  MkCpuState (gpr s) m (gs_base s) (kernel_gs_base s) (ip s) (cs s) (ss s) (flags s).

(** d(%reg) and %gs:d *)
Inductive operand := At (d : Z) (r : reg) | Gs (d : Z).
Definition address (o : operand) (s : cpu_state) : Z :=
  match o with At d r => u64 (gpr s r + d) | Gs d => u64 (gs_base s + d) end.

Inductive instr :=
| SWAPGS
| LOAD (o : operand) (r : reg)        (* movq o, %r *)
| STORE (r : reg) (o : operand)       (* movq %r, o *)
| MOV (src dst : reg)
| SUB (n : Z) (r : reg)
| PUSHI (n : Z)
| PUSH (r : reg)
| POP (r : reg)
| ADD (n : Z) (r : reg)
| CALL                                (* the C function *)
| RET
| SYSRETQ
| IRETQ.

(** The kernel's STAR: user segments from 0x13. *)
Definition SYSRET_BASE : Z := 19.
(** SYSRET loads the flags without RF and VM. *)
Definition sysret_flags (r11 : Z) : Z := Z.lor (Z.land r11 3964887) 2.

Section Run.
(** The C function: it sees the registers and memory. *)
Context (callee : (reg → Z) → ram → (reg → Z) * ram).

Definition push (v : Z) (s : cpu_state) : cpu_state :=
  let sp := u64 (gpr s RSP - 8) in set_mem (store64 (mem s) sp v) (set_reg RSP sp s).

Definition exec (i : instr) (s : cpu_state) : cpu_state :=
  match i with
  | SWAPGS => MkCpuState (gpr s) (mem s) (kernel_gs_base s) (gs_base s) (ip s) (cs s) (ss s) (flags s)
  | LOAD o r => set_reg r (load64 (mem s) (address o s)) s
  | STORE r o => set_mem (store64 (mem s) (address o s) (gpr s r)) s
  | MOV src dst => set_reg dst (gpr s src) s
  | SUB n r => set_reg r (u64 (gpr s r - n)) s
  | PUSHI n => push n s
  | PUSH r => push (gpr s r) s
  | POP r =>
      let sp := gpr s RSP in set_reg r (load64 (mem s) sp) (set_reg RSP (u64 (sp + 8)) s)
  | ADD n r => set_reg r (u64 (gpr s r + n)) s
  | CALL =>
      let r := callee (gpr s) (mem s) in
      MkCpuState r.1 r.2 (gs_base s) (kernel_gs_base s) (ip s) (cs s) (ss s) (flags s)
  | RET =>
      let sp := gpr s RSP in
      let s' := set_reg RSP (u64 (sp + 8)) s in
      MkCpuState (gpr s') (mem s') (gs_base s') (kernel_gs_base s') (load64 (mem s) sp) (cs s') (ss s') (flags s')
  | SYSRETQ =>
      MkCpuState (gpr s) (mem s) (gs_base s) (kernel_gs_base s) (gpr s RCX) (Z.lor (SYSRET_BASE + 16) 3)
        (Z.lor (SYSRET_BASE + 8) 3) (sysret_flags (gpr s R11))
  | IRETQ =>
      let sp := gpr s RSP in
      let s' := set_reg RSP (load64 (mem s) (u64 (sp + 24))) s in
      MkCpuState (gpr s') (mem s') (gs_base s') (kernel_gs_base s') (load64 (mem s) sp) (load64 (mem s) (u64 (sp + 8)))
        (load64 (mem s) (u64 (sp + 32))) (load64 (mem s) (u64 (sp + 16)))
  end.
Definition run (l : list instr) (s : cpu_state) : cpu_state := foldl (λ s i, exec i s) s l.
End Run.

(** ** The routines *)

Definition syscall_save : list instr :=
  [ SWAPGS; STORE RSP (Gs 200); LOAD (Gs 192) RSP; SUB 192 RSP;
    STORE RAX (At 0 RSP); STORE RBX (At 8 RSP); STORE RCX (At 16 RSP); STORE RDX (At 24 RSP);
    STORE RSI (At 32 RSP); STORE RDI (At 40 RSP); STORE RBP (At 48 RSP); STORE R8 (At 56 RSP);
    STORE R9 (At 64 RSP); STORE R10 (At 72 RSP); STORE R11 (At 80 RSP); STORE R12 (At 88 RSP);
    STORE R13 (At 96 RSP); STORE R14 (At 104 RSP); STORE R15 (At 112 RSP); STORE RCX (At 120 RSP);
    STORE R11 (At 128 RSP); LOAD (Gs 200) RAX; STORE RAX (At 136 RSP); MOV RSP RDI ].
Definition syscall_restore : list instr :=
  [ STORE RAX (At 0 RSP);
    LOAD (At 8 RSP) RBX; LOAD (At 24 RSP) RDX; LOAD (At 32 RSP) RSI; LOAD (At 40 RSP) RDI;
    LOAD (At 48 RSP) RBP; LOAD (At 56 RSP) R8; LOAD (At 64 RSP) R9; LOAD (At 72 RSP) R10;
    LOAD (At 88 RSP) R12; LOAD (At 96 RSP) R13; LOAD (At 104 RSP) R14; LOAD (At 112 RSP) R15;
    LOAD (At 120 RSP) RCX; LOAD (At 128 RSP) R11; LOAD (At 0 RSP) RAX; LOAD (At 136 RSP) RSP;
    SWAPGS; SYSRETQ ].
Definition syscall_entry : list instr := syscall_save ++ [CALL] ++ syscall_restore.

Definition enter_user : list instr := [ PUSHI 27; PUSH RSI; PUSHI 514; PUSHI 35; PUSH RDI; IRETQ ].

Definition switch_context_save : list instr :=
  [ STORE RBX (At 8 RDI); STORE RBP (At 40 RDI); STORE R12 (At 48 RDI); STORE R13 (At 56 RDI);
    STORE R14 (At 64 RDI); STORE R15 (At 72 RDI); STORE RSP (At 80 RDI) ].
Definition switch_context_load : list instr :=
  [ LOAD (At 8 RSI) RBX; LOAD (At 40 RSI) RBP; LOAD (At 48 RSI) R12; LOAD (At 56 RSI) R13;
    LOAD (At 64 RSI) R14; LOAD (At 72 RSI) R15; LOAD (At 80 RSI) RSP ].
Definition switch_context_S : list instr := switch_context_save ++ switch_context_load ++ [RET].

(** The interrupt stubs; the processor has pushed ss, rsp, rflags, cs, rip and,
    for some exceptions, an error code. *)
Definition push_all : list instr :=
  [ PUSH RAX; PUSH RBX; PUSH RCX; PUSH RDX; PUSH RSI; PUSH RDI; PUSH RBP; PUSH R8; PUSH R9; PUSH R10; PUSH R11;
    PUSH R12; PUSH R13; PUSH R14; PUSH R15 ].
Definition pop_all : list instr :=
  [ POP R15; POP R14; POP R13; POP R12; POP R11; POP R10; POP R9; POP R8; POP RBP; POP RDI; POP RSI; POP RDX;
    POP RCX; POP RBX; POP RAX ].
Definition isr_entry : list instr :=
  push_all ++ [MOV RSP RDI; LOAD (At 128 RSP) RSI; CALL] ++ pop_all ++ [ADD 16 RSP; IRETQ].
Definition irq_entry : list instr := push_all ++ [MOV RSP RDI; CALL] ++ pop_all ++ [ADD 16 RSP; IRETQ].

Definition isr_stub_generic : list instr := [PUSHI 0; PUSHI 255] ++ isr_entry.
Definition isr_stub_0 : list instr := [PUSHI 0; PUSHI 0] ++ isr_entry.
Definition isr_stub_6 : list instr := [PUSHI 0; PUSHI 6] ++ isr_entry.
Definition isr_stub_9 : list instr := [PUSHI 0; PUSHI 9] ++ isr_entry.
(** The processor's error code takes the place of the zero. *)
Definition isr_stub_13 : list instr := [PUSHI 13] ++ isr_entry.
Definition isr_stub_14 : list instr := [PUSHI 14] ++ isr_entry.
Definition irq_stub_0 : list instr := [PUSHI 0; PUSHI 32] ++ irq_entry.
Definition irq_stub_1 : list instr := [PUSHI 0; PUSHI 33] ++ irq_entry.
