(* ===== verification/AsmSpec.v ===== *)
(** * The assembly routines keep their contracts

    syscall_entry hands the C dispatcher a RegisterFrame with the user's
    registers and loads them back from it; switch_context stores and loads
    exactly the words Sched.v models; enter_user starts user code. *)

From S2P Require Import Prelude Mem Asm.
From S2P Require Exec Sched.

(** struct RegisterFrame in memory. *)
Definition frame_at (m : ram) (p : Z) : Exec.RegisterFrame :=
  let w k := load64 m (p + 8 * k) in
  Exec.MkFrame (w 0) (w 1) (w 2) (w 3) (w 4) (w 5) (w 6) (w 7) (w 8) (w 9) (w 10) (w 11) (w 12) (w 13) (w 14)
    (w 15) (w 16) (w 17).

(** The user's registers at a system call: SYSCALL has put the return address
    into rcx and the flags into r11. *)
Definition user_frame (g : reg → Z) : Exec.RegisterFrame :=
  Exec.MkFrame (g RAX) (g RBX) (g RCX) (g RDX) (g RSI) (g RDI) (g RBP) (g R8) (g R9) (g R10) (g R11) (g R12) (g R13)
    (g R14) (g R15) (g RCX) (g R11) (g RSP).

Definition words_ok (g : reg → Z) : Prop := ∀ r, 0 ≤ g r < 2 ^ 64.

(** [symx] runs a list of instructions, [ld] reads back stored words. *)
Ltac symx := cbn [run foldl exec set_reg set_mem push gpr mem gs_base kernel_gs_base ip cs ss flags address reg_eqb
  syscall_save syscall_restore enter_user switch_context_save switch_context_load app fst snd] in *.
Ltac ld := repeat first [rewrite load64_store64_eq | rewrite load64_store64_ne by lia].

Ltac fields := cbn [Exec.rax Exec.rbx Exec.rcx Exec.rdx Exec.rsi Exec.rdi Exec.rbp Exec.r8 Exec.r9 Exec.r10 Exec.r11
  Exec.r12 Exec.r13 Exec.r14 Exec.r15 Exec.rip Exec.rflags Exec.rsp].

Section Syscall.
Context (callee : (reg → Z) → ram → (reg → Z) * ram).

(** The kernel's per-CPU block at [g] and the kernel stack below [top]. *)
Record entry_ok (s : cpu_state) (g top : Z) : Prop := {
  en_regs : words_ok (gpr s);
  en_gs : kernel_gs_base s = g ∧ 0 ≤ g ∧ g + 208 < 2 ^ 64;
  en_top : load64 (mem s) (g + 192) = top ∧ 192 ≤ top;
  en_apart : g + 208 ≤ top - 192 ∨ top ≤ g + 192
}.

Lemma syscall_save_spec s g top : entry_ok s g top →
  let s1 := run callee syscall_save s in
  frame_at (mem s1) (top - 192) = user_frame (gpr s) ∧ gpr s1 RDI = top - 192 ∧ gpr s1 RSP = top - 192 ∧
  gs_base s1 = g ∧ kernel_gs_base s1 = gs_base s ∧
  ∀ x, (x < top - 192 ∨ top - 48 ≤ x) → (x < g + 200 ∨ g + 208 ≤ x) → mem s1 x = mem s x.
Proof.
  intros [Hr (Hg & Hg0 & Hg1) [Ht Ht0] Hap] s1. subst s1. symx. rewrite Hg.
  pose proof (load64_range (mem s) (g + 192)) as Htr. rewrite Ht in Htr.
  rewrite !(u64_small (g + _)) by lia. rewrite load64_store64_ne, Ht by lia.
  rewrite !(u64_small (top - 192)) by lia. rewrite !(u64_small (top - 192 + _)) by lia.
  split; [|split_and!; try done; intros x Hx Hx'; unfold store64; by rewrite !store_le_out by lia].
  unfold frame_at, user_frame. f_equal; ld; rewrite ?(u64_small (u64 _)) by apply u64_range; apply u64_small, Hr.
Qed.

(** What the user sees after the return, from the frame in memory. *)
Record returns_to (f : Exec.RegisterFrame) (result : Z) (s : cpu_state) : Prop := {
  rt_regs : gpr s RBX = Exec.rbx f ∧ gpr s RDX = Exec.rdx f ∧ gpr s RSI = Exec.rsi f ∧ gpr s RDI = Exec.rdi f ∧
    gpr s RBP = Exec.rbp f ∧ gpr s R8 = Exec.r8 f ∧ gpr s R9 = Exec.r9 f ∧ gpr s R10 = Exec.r10 f ∧
    gpr s R12 = Exec.r12 f ∧ gpr s R13 = Exec.r13 f ∧ gpr s R14 = Exec.r14 f ∧ gpr s R15 = Exec.r15 f;
  rt_result : gpr s RAX = result;
  rt_stack : gpr s RSP = Exec.rsp f;
  rt_ip : ip s = Exec.rip f;
  rt_flags : flags s = sysret_flags (Exec.rflags f);
  rt_segments : cs s = 35 ∧ ss s = 27
}.

Lemma syscall_restore_spec s p : gpr s RSP = p → 0 ≤ p → p + 192 < 2 ^ 64 → 0 ≤ gpr s RAX < 2 ^ 64 →
  let s1 := run callee syscall_restore s in
  returns_to (frame_at (mem s) p) (gpr s RAX) s1 ∧ gs_base s1 = kernel_gs_base s ∧ kernel_gs_base s1 = gs_base s.
Proof.
  intros Hp H0 H1 Ha s1. subst s1. symx. rewrite !Hp. rewrite !(u64_small (p + _)) by lia.
  split; [|done].
  split; symx; unfold frame_at; fields; split_and?; ld; rewrite ?u64_small by done; done.
Qed.
End Syscall.

(** STAR is set up so that SYSRET returns to the segments of the user. *)
Lemma sysret_base_star : SYSRET_BASE = Z.shiftr Exec.STAR_VALUE 48.
Proof. reflexivity. Qed.

Lemma run_app callee l1 l2 s : run callee (l1 ++ l2) s = run callee l2 (run callee l1 s).
Proof. apply foldl_app. Qed.

(** From the call on. *)
Lemma syscall_return_spec callee s1 p : gpr s1 RSP = p → 0 ≤ p → p + 192 < 2 ^ 64 →
  (∀ r m, (callee r m).1 RSP = r RSP) → (∀ r m, 0 ≤ (callee r m).1 RAX < 2 ^ 64) →
  let s2 := run callee ([CALL] ++ syscall_restore) s1 in
  returns_to (frame_at (callee (gpr s1) (mem s1)).2 p) ((callee (gpr s1) (mem s1)).1 RAX) s2 ∧
  gs_base s2 = kernel_gs_base s1 ∧ kernel_gs_base s2 = gs_base s1.
Proof.
  intros Hp H0 H1 Hsp Hres. rewrite run_app.
  apply (syscall_restore_spec callee (run callee [CALL] s1) p); [|done|done|apply Hres].
  etrans; [apply Hsp|exact Hp].
Qed.

(** C21: A system call: syscall_entry gives the dispatcher a RegisterFrame in
    which every field is the user's register of that name, with rip and
    rflags from where SYSCALL put them and the user's stack pointer; when the
    dispatcher returns, the user continues with the registers of that frame,
    which execve may have replaced, and the result in rax, at the frame's rip
    and stack, in the user's segments, with the GS bases as before. *)
Theorem syscall_entry_frame (callee : (reg → Z) → ram → (reg → Z) * ram) (s : cpu_state) (g top : Z)
    (Hentry : entry_ok s g top) (Hsp : ∀ r m, (callee r m).1 RSP = r RSP)
    (Hres : ∀ r m, 0 ≤ (callee r m).1 RAX < 2 ^ 64) :
  ∃ s1, run callee syscall_save s = s1 ∧
    gpr s1 RDI = top - 192 ∧ frame_at (mem s1) (top - 192) = user_frame (gpr s) ∧
    ∃ s2, run callee syscall_entry s = s2 ∧
      returns_to (frame_at (callee (gpr s1) (mem s1)).2 (top - 192)) ((callee (gpr s1) (mem s1)).1 RAX) s2 ∧
      gs_base s2 = gs_base s ∧ kernel_gs_base s2 = kernel_gs_base s.
Proof.
  pose proof (syscall_save_spec callee s g top Hentry) as Hsave. cbv zeta in Hsave.
  pose proof (run_app callee syscall_save ([CALL] ++ syscall_restore) s) as Hrun.
  destruct Hentry as [_ (Hg & Hg0 & Hg1) [Ht Ht0] _]. pose proof (load64_range (mem s) (g + 192)) as Htr. rewrite Ht in Htr.
  exists (run callee syscall_save s). split; [reflexivity|]. generalize dependent (run callee syscall_save s).
  intros s1 (Hf & Hdi & Hrsp & Hgs & Hkgs & _) Hrun. split; [exact Hdi|]. split; [exact Hf|].
  destruct (syscall_return_spec callee s1 (top - 192) Hrsp ltac:(lia) ltac:(lia) Hsp Hres) as (Hret & Hg2 & Hk2).
  eexists. split; [exact Hrun|]. split; [exact Hret|]. rewrite Hg2, Hk2, Hkgs, Hgs, Hg. by split.
Qed.

(** ** switch_context and enter_user *)

Definition ctx_at (m : ram) (p : Z) : Sched.CpuContext :=
  let w k := load64 m (p + 8 * k) in
  Sched.MkContext (w 0) (w 1) (w 2) (w 3) (w 4) (w 5) (w 6) (w 7) (w 8) (w 9) (w 10) (w 11) (w 12) (w 13) (w 14).
Definition regs_of (g : reg → Z) : Sched.Regs := Sched.MkRegs (g RBX) (g RBP) (g R12) (g R13) (g R14) (g R15) (g RSP).

(** C36: The assembly of switch_context does what the scheduler's model says:
    it saves the callee-saved registers and the stack pointer into the old
    task's context as [save_context] does, leaves the new task's context
    alone, and loads the registers [load_context] gives, returning through
    the new stack. *)
Theorem switch_context_refines (callee : (reg → Z) → ram → (reg → Z) * ram) (s : cpu_state) (old new : Z)
    (Hregs : words_ok (gpr s)) (Hold : gpr s RDI = old) (Hnew : gpr s RSI = new)
    (Hend : old + 120 < 2 ^ 64 ∧ new + 120 < 2 ^ 64) (Hapart : old + 120 ≤ new ∨ new + 120 ≤ old) :
  let s' := run callee switch_context_S s in
  let r := Sched.load_context (ctx_at (mem s) new) in
  ctx_at (mem s') old = Sched.save_context (regs_of (gpr s)) (ctx_at (mem s) old) ∧
  ctx_at (mem s') new = ctx_at (mem s) new ∧
  regs_of (gpr s') = Sched.MkRegs (Sched.c_rbx r) (Sched.c_rbp r) (Sched.c_r12 r) (Sched.c_r13 r) (Sched.c_r14 r)
    (Sched.c_r15 r) (u64 (Sched.c_rsp r + 8)) ∧
  ip s' = load64 (mem s') (Sched.c_rsp r).
Proof.
  intros s' r. pose proof (Hregs RDI) as H1. pose proof (Hregs RSI) as H2. rewrite Hold in H1. rewrite Hnew in H2.
  subst s' r. unfold switch_context_S. symx. rewrite !Hold, !Hnew.
  rewrite !(u64_small (old + _)), !(u64_small (new + _)) by lia.
  unfold ctx_at, regs_of, Sched.save_context, Sched.load_context.
  cbn [Sched.rax Sched.rbx Sched.rcx Sched.rdx Sched.rsi Sched.rdi Sched.rbp Sched.r8 Sched.r9 Sched.r10 Sched.r11
    Sched.r12 Sched.r13 Sched.r14 Sched.r15 Sched.c_rbx Sched.c_rbp Sched.c_r12 Sched.c_r13 Sched.c_r14 Sched.c_r15
    Sched.c_rsp].
  split; [f_equal; ld; rewrite ?u64_small by apply Hregs; done|].
  split; [f_equal; ld; reflexivity|]. split; [f_equal; ld; reflexivity|].
  f_equal. ld. reflexivity.
Qed.

(** enter_user starts the program: at its entry point and stack, in ring
    3 with interrupts enabled. *)
Theorem enter_user_starts (callee : (reg → Z) → ram → (reg → Z) * ram) (s : cpu_state)
    (Hregs : words_ok (gpr s)) (Hsp : 40 ≤ gpr s RSP) :
  let s' := run callee enter_user s in
  ip s' = gpr s RDI ∧ gpr s' RSP = gpr s RSI ∧ cs s' = 35 ∧ ss s' = 27 ∧ flags s' = 514 ∧ Z.testbit (flags s') 9 = true.
Proof.
  intros s'. pose proof (Hregs RSP). subst s'. symx. set (sp := gpr s RSP) in *.
  rewrite (u64_small (sp - 8)) by lia. rewrite (u64_small (sp - 8 - 8)) by lia.
  rewrite (u64_small (sp - 8 - 8 - 8)) by lia. rewrite (u64_small (sp - 8 - 8 - 8 - 8)) by lia.
  rewrite (u64_small (sp - 8 - 8 - 8 - 8 - 8)) by lia. rewrite !(u64_small (sp - 8 - 8 - 8 - 8 - 8 + _)) by lia.
  replace (sp - 8 - 8 - 8 - 8 - 8 + 8) with (sp - 8 - 8 - 8 - 8) by lia.
  replace (sp - 8 - 8 - 8 - 8 - 8 + 16) with (sp - 8 - 8 - 8) by lia.
  replace (sp - 8 - 8 - 8 - 8 - 8 + 24) with (sp - 8 - 8) by lia.
  replace (sp - 8 - 8 - 8 - 8 - 8 + 32) with (sp - 8) by lia.
  split_and!; ld; rewrite ?u64_small by (done || apply Hregs); reflexivity.
Qed.

(** ** Witnesses *)

(** A dispatcher that answers 7 and leaves everything else alone. *)
Definition answer_7 (r : reg → Z) (m : ram) : (reg → Z) * ram := (λ x, if reg_eqb x RAX then 7 else r x, m).
Definition caller_state : cpu_state :=
  MkCpuState (λ _, 1000) (store64 (λ _, 0) (4096 + 192) 65536) 0 4096 0 35 27 514.

Lemma syscall_entry_frame_witness :
  ∃ s1, run answer_7 syscall_save caller_state = s1 ∧
    gpr s1 RDI = 65536 - 192 ∧ frame_at (mem s1) (65536 - 192) = user_frame (λ _, 1000) ∧
    ∃ s2, run answer_7 syscall_entry caller_state = s2 ∧
      returns_to (frame_at (answer_7 (gpr s1) (mem s1)).2 (65536 - 192)) ((answer_7 (gpr s1) (mem s1)).1 RAX) s2 ∧
      gs_base s2 = 0 ∧ kernel_gs_base s2 = 4096.
Proof.
  apply (syscall_entry_frame answer_7 caller_state 4096 65536).
  - split; cbn [gpr kernel_gs_base mem caller_state]; [intros r; lia|lia| |lia].
    rewrite load64_store64_eq. split; [reflexivity|lia].
  - reflexivity.
  - intros r m. cbn. lia.
Defined.

Definition switch_state : cpu_state :=
  MkCpuState (λ r, if reg_eqb r RDI then 4096 else if reg_eqb r RSI then 8192 else 1000) (λ _, 0) 0 0 0 8 16 514.
Lemma switch_context_refines_witness :
  ctx_at (mem (run answer_7 switch_context_S switch_state)) 4096
  = Sched.save_context (regs_of (gpr switch_state)) (ctx_at (λ _, 0) 4096).
Proof.
  apply (switch_context_refines answer_7 switch_state 4096 8192).
  - intros r. cbn. destruct (reg_eqb r RDI), (reg_eqb r RSI); lia.
  - reflexivity.
  - reflexivity.
  - lia.
  - lia.
Defined.

Lemma enter_user_starts_witness :
  ip (run answer_7 enter_user switch_state) = 4096 ∧ gpr (run answer_7 enter_user switch_state) RSP = 8192 ∧
  cs (run answer_7 enter_user switch_state) = 35 ∧ ss (run answer_7 enter_user switch_state) = 27 ∧
  flags (run answer_7 enter_user switch_state) = 514 ∧ Z.testbit (flags (run answer_7 enter_user switch_state)) 9 = true.
Proof.
  apply (enter_user_starts answer_7 switch_state).
  - intros r. cbn. destruct (reg_eqb r RDI), (reg_eqb r RSI); lia.
  - cbn. lia.
Defined.
