(* ===== verification/IntAsm.v ===== *)
(** * The interrupt stubs: src/idt.cpp

    What an interrupt does to the code it interrupts, from the words the
    processor pushes to the return by iretq, and what the C handler finds.
    The handler is a parameter; it keeps the stack pointer and the frame, as
    the calling convention and its code require. *)

From S2P Require Import Prelude Mem Asm AsmSpec.

(** What the processor pushes: the words from rip on. *)
Record iret_frame := MkIret { i_rip : Z; i_cs : Z; i_flags : Z; i_rsp : Z; i_ss : Z }.
Definition iret_at (m : ram) (b : Z) : iret_frame :=
  MkIret (load64 m b) (load64 m (b + 8)) (load64 m (b + 16)) (load64 m (b + 24)) (load64 m (b + 32)).

Lemma u64_sub_l x y : u64 (u64 x - y) = u64 (x - y).
Proof. unfold u64. apply Zminus_mod_idemp_l. Qed.
Lemma u64_add_l x y : u64 (u64 x + y) = u64 (x + y).
Proof. unfold u64. apply Zplus_mod_idemp_l. Qed.

Lemma reg_eqb_decide a b : reg_eqb a b = bool_decide (a = b).
Proof. by destruct a, b. Qed.
Lemma load64_agree m m' a : (∀ x, a ≤ x < a + 8 → m' x = m x) → load64 m' a = load64 m a.
Proof. intros Hx. apply load_le_agree. intros x Hx'. apply Hx. lia. Qed.

Section Entry.
Context (callee : (reg → Z) → ram → (reg → Z) * ram).

(** The registers the entry code saves, in the order of the pushes. *)
Definition saved : list reg := [RAX; RBX; RCX; RDX; RSI; RDI; RBP; R8; R9; R10; R11; R12; R13; R14; R15].

(** Word [k] below the top [b] holds the [k]th register of the list. *)
Fixpoint saved_at (m : ram) (b : Z) (l : list reg) (g : reg → Z) : Prop :=
  match l with [] => True | r :: l' => load64 m (b - 8) = g r ∧ saved_at m (b - 8) l' g end.

Lemma saved_at_regs m b l g g' : (∀ q, q ∈ l → g q = g' q) → saved_at m b l g → saved_at m b l g'.
Proof.
  revert b. induction l as [|r l IH]; intros b Hg; cbn [saved_at]; [done|]. intros [H1 H2].
  split; [rewrite H1; apply Hg; set_solver|]. apply IH; [set_solver|done].
Qed.
Lemma saved_at_agree m m' b l g : (∀ x, b - 8 * Z.of_nat (length l) ≤ x < b → m' x = m x) → saved_at m b l g → saved_at m' b l g.
Proof.
  revert b. induction l as [|r l IH]; intros b Hm; cbn [saved_at length]; [done|]. intros [H1 H2]. split.
  - rewrite <- H1. apply load64_agree. intros x Hx. apply Hm. cbn [length]. lia.
  - apply IH; [|done]. intros x Hx. apply Hm. cbn [length]. lia.
Qed.

(** Pushing a list of registers. *)
Lemma push_list l s b : words_ok (gpr s) → gpr s RSP = b → RSP ∉ l → 8 * Z.of_nat (length l) ≤ b < 2 ^ 64 →
  let s1 := run callee (PUSH <$> l) s in
  saved_at (mem s1) b l (gpr s) ∧ gpr s1 RSP = b - 8 * Z.of_nat (length l) ∧ (∀ r, r ≠ RSP → gpr s1 r = gpr s r) ∧
  (∀ x, ¬ (b - 8 * Z.of_nat (length l) ≤ x < b) → mem s1 x = mem s x).
Proof.
  revert s b. induction l as [|r l IH]; intros s b Hw Hb Hsp Hr; cbn [fmap list_fmap run foldl saved_at length] in *.
  { split; [done|]. split; [lia|done]. }
  apply not_elem_of_cons in Hsp as [Hsp1 Hsp2]. cbn [exec]. unfold push. rewrite Hb, (u64_small (b - 8)) by lia.
  set (s0 := set_mem _ _).
  assert (Hg : ∀ q, q ≠ RSP → gpr s0 q = gpr s q) by (intros q Hq; destruct q; done).
  assert (Hw0 : words_ok (gpr s0)).
  { intros q. destruct (decide (q = RSP)) as [->|Hq]; [change (0 ≤ b - 8 < 2 ^ 64); lia|rewrite Hg by done; apply Hw]. }
  destruct (IH s0 (b - 8) Hw0 eq_refl Hsp2 ltac:(lia)) as (H1 & H2 & H3 & H4). unfold run in *. split_and!.
  - rewrite (load64_agree (mem s0)) by (intros x Hx; apply H4; lia). change (mem s0) with (store64 (mem s) (b - 8) (gpr s r)).
    rewrite load64_store64_eq. apply u64_small, Hw.
  - eapply saved_at_regs; [|exact H1]. intros q Hq. apply Hg. by intros ->.
  - rewrite H2. lia.
  - intros q Hq. rewrite H3, Hg by done. done.
  - intros x Hx. rewrite H4 by lia. change (mem s0) with (store64 (mem s) (b - 8) (gpr s r)).
    unfold store64. rewrite store_le_out by lia. done.
Qed.

(** Popping them in the opposite order. *)
Lemma pop_list l s b g : gpr s RSP = b - 8 * Z.of_nat (length l) → saved_at (mem s) b l g → RSP ∉ l →
  8 * Z.of_nat (length l) ≤ b < 2 ^ 64 →
  let s1 := run callee (POP <$> rev l) s in
  gpr s1 RSP = b ∧ mem s1 = mem s ∧ (∀ r, r ∈ l → gpr s1 r = g r) ∧ (∀ r, r ∉ l → r ≠ RSP → gpr s1 r = gpr s r).
Proof.
  revert s b. induction l as [|r l IH]; intros s b Hp Hs Hsp Hr; cbn [rev length saved_at] in *.
  { split; [cbn; lia|]. split; [done|]. split; [set_solver|done]. }
  apply not_elem_of_cons in Hsp as [Hsp1 Hsp2]. destruct Hs as [H1 H2]. rewrite fmap_app. cbv zeta. rewrite run_app.
  destruct (IH s (b - 8)) as (I1 & I2 & I3 & I4); [lia|done|done|lia|]. set (s0 := run callee (POP <$> rev l) s) in *.
  assert (Hq : ∀ q, gpr (run callee (POP <$> [r]) s0) q = if decide (q = r) then g r else if decide (q = RSP) then b else gpr s0 q).
  { intros q. cbn [fmap list_fmap run foldl exec set_reg gpr mem]. rewrite I1, I2, H1. rewrite (u64_small (b - 8 + 8)) by lia.
    rewrite !reg_eqb_decide. repeat case_bool_decide; repeat case_decide; done || lia. }
  split; [|split; [|split]].
  - rewrite Hq. rewrite decide_False, decide_True by done. done.
  - exact I2.
  - intros q [->|Hin]%elem_of_cons; rewrite Hq; [by rewrite decide_True|]. destruct (decide (q = r)) as [->|]; [done|].
    rewrite decide_False by (by intros ->). by apply I3.
  - intros q [Hn1 Hn2]%not_elem_of_cons Hn3. rewrite Hq, !decide_False by done. by apply I4.
Qed.
(** ** From the entry code on *)

(** The handler keeps the stack pointer and the words of the frame. *)
Definition keeps_frame : Prop := ∀ r m,
  (callee r m).1 RSP = r RSP ∧ ∀ x, r RSP ≤ x < r RSP + 176 → (callee r m).2 x = m x.

(** The state at the call: the frame begins at [p]. *)
Record at_call (s0 s : cpu_state) (p v err : Z) : Prop := {
  ac_frame : gpr s RDI = p ∧ gpr s RSP = p;
  ac_vector : load64 (mem s) (p + 120) = v ∧ load64 (mem s) (p + 128) = err;
  ac_regs : saved_at (mem s) (p + 120) saved (gpr s0);
  ac_iret : iret_at (mem s) (p + 136) = iret_at (mem s0) (p + 136)
}.
(** The interrupted code goes on. *)
Record resumed (s0 s : cpu_state) (f : iret_frame) : Prop := {
  rs_regs : ∀ q, q ≠ RSP → gpr s q = gpr s0 q;
  rs_stack : gpr s RSP = i_rsp f ∧ ss s = i_ss f;
  rs_code : ip s = i_rip f ∧ cs s = i_cs f ∧ flags s = i_flags f
}.

Lemma iret_agree m m' b : (∀ x, b ≤ x < b + 40 → m' x = m x) → iret_at m' b = iret_at m b.
Proof. intros Hm. unfold iret_at. f_equal; apply load64_agree; intros x Hx; apply Hm; lia. Qed.

Lemma saved_all q : q ≠ RSP → q ∈ saved.
Proof. intros Hq. apply (bool_decide_unpack _). by destruct q. Qed.
Lemma saved_no_rsp : RSP ∉ saved.
Proof. apply (bool_decide_unpack _). vm_compute. exact I. Qed.

(** Saving the registers. *)
Lemma frame_passed s0 s1 p v err : gpr s1 RSP = p → load64 (mem s1) (p + 120) = v → load64 (mem s1) (p + 128) = err →
  saved_at (mem s1) (p + 120) saved (gpr s0) → iret_at (mem s1) (p + 136) = iret_at (mem s0) (p + 136) →
  at_call s0 (exec callee (MOV RSP RDI) s1) p v err.
Proof. intros Hp Hv He Hs Hi. split; cbn [exec set_reg gpr mem reg_eqb]; done. Qed.

Lemma entry_saves s e v err : words_ok (gpr s) → gpr s RSP = e → 120 ≤ e → e + 56 < 2 ^ 64 →
  load64 (mem s) e = v → load64 (mem s) (e + 8) = err →
  at_call s (run callee (push_all ++ [MOV RSP RDI]) s) (e - 120) v err.
Proof.
  intros Hw He H0 H1 Hv Herr. rewrite run_app. change push_all with (PUSH <$> saved).
  pose proof (push_list saved s e Hw He saved_no_rsp) as Hp. cbv zeta in Hp. change (8 * Z.of_nat (length saved)) with 120 in Hp.
  generalize dependent (run callee (PUSH <$> saved) s). intros s1 Hp. destruct Hp as (Hs & Hsp & _ & Hm); [lia|].
  unfold run. cbn [foldl].
  apply frame_passed; [exact Hsp| | | |].
  - rewrite <- Hv. replace (e - 120 + 120) with e by lia. apply load64_agree. intros x Hx. apply Hm. lia.
  - rewrite <- Herr. replace (e - 120 + 128) with (e + 8) by lia. apply load64_agree. intros x Hx. apply Hm. lia.
  - replace (e - 120 + 120) with e by lia. exact Hs.
  - apply iret_agree. intros x Hx. apply Hm. lia.
Qed.

(** addq $16, %rsp; iretq *)
Lemma iret_leaves s0 s2 p : gpr s2 RSP = p + 120 → iret_at (mem s2) (p + 136) = iret_at (mem s0) (p + 136) →
  (∀ q, q ≠ RSP → gpr s2 q = gpr s0 q) → 0 ≤ p → p + 176 < 2 ^ 64 →
  resumed s0 (run callee [ADD 16 RSP; IRETQ] s2) (iret_at (mem s0) (p + 136)).
Proof.
  intros Hp Hf Hq H0 H1. rewrite <- Hf. cbn [run foldl exec set_reg gpr mem].
  assert (E : gpr (set_reg RSP (u64 (gpr s2 RSP + 16)) s2) RSP = p + 136).
  { cbn [set_reg gpr reg_eqb]. rewrite Hp, u64_small by lia. lia. }
  split; cbn [gpr set_reg mem ip cs ss flags iret_at i_rip i_cs i_flags i_rsp i_ss reg_eqb] in *; rewrite ?E, ?(u64_small (p + 136 + _)) by lia; try done.
  intros q Hn. rewrite !reg_eqb_decide, !bool_decide_eq_false_2 by done. by apply Hq.
Qed.

(** The call and the way back. *)
Lemma entry_returns s0 s p v err : keeps_frame → at_call s0 s p v err → 0 ≤ p → p + 176 < 2 ^ 64 →
  resumed s0 (run callee ([CALL] ++ pop_all ++ [ADD 16 RSP; IRETQ]) s) (iret_at (mem s0) (p + 136)).
Proof.
  intros Hk [[_ Hsp] _ Hs Hi] H0 H1. destruct (Hk (gpr s) (mem s)) as [Hksp Hkm]. rewrite Hsp in Hksp, Hkm.
  rewrite !run_app. change pop_all with (POP <$> rev saved).
  assert (Hc : gpr (run callee [CALL] s) RSP = p ∧ mem (run callee [CALL] s) = (callee (gpr s) (mem s)).2) by (split; [exact Hksp|reflexivity]).
  generalize dependent (run callee [CALL] s). intros s1 [Hsp1 Hm1].
  assert (Hs1 : saved_at (mem s1) (p + 120) saved (gpr s0)).
  { rewrite Hm1. eapply saved_at_agree; [|exact Hs]. intros x Hx. apply Hkm. change (8 * Z.of_nat (length saved)) with 120 in Hx. lia. }
  pose proof (pop_list saved s1 (p + 120) (gpr s0)) as Hp. cbv zeta in Hp. change (8 * Z.of_nat (length saved)) with 120 in Hp.
  generalize dependent (run callee (POP <$> rev saved) s1). intros s2 Hp.
  destruct Hp as (P1 & P2 & P3 & _); [lia|exact Hs1|apply saved_no_rsp|lia|].
  apply (iret_leaves s0 s2 p); [exact P1| | |done|done].
  - rewrite P2, Hm1, <- Hi. apply iret_agree. intros x Hx. apply Hkm. lia.
  - intros q Hq. apply P3, saved_all, Hq.
Qed.
(** movq 128(%rsp), %rsi *)
Lemma error_passed s0 s p v err : at_call s0 s p v err → 0 ≤ p → p + 176 < 2 ^ 64 →
  at_call s0 (exec callee (LOAD (At 128 RSP) RSI) s) p v err ∧ gpr (exec callee (LOAD (At 128 RSP) RSI) s) RSI = err.
Proof.
  intros [[Hd Hsp] [Hv He] Hs Hi] H0 H1. cbn [exec set_reg gpr mem reg_eqb address]. rewrite Hsp, u64_small by lia.
  split; [|exact He]. split; cbn [gpr mem reg_eqb]; try done.
Qed.

(** struct InterruptFrame at [p]; its first field is called rax. *)
Definition frame_word (m : ram) (p k : Z) : Z := load64 m (p + 8 * k).
Definition frame_rax (m : ram) (p : Z) : Z := frame_word m p 0.
Definition frame_int_no (m : ram) (p : Z) : Z := frame_word m p 15.
Definition frame_err_code (m : ram) (p : Z) : Z := frame_word m p 16.
Definition frame_rip (m : ram) (p : Z) : Z := frame_word m p 17.
Lemma at_call_fields s0 s p v err : at_call s0 s p v err →
  frame_int_no (mem s) p = v ∧ frame_err_code (mem s) p = err ∧ frame_rip (mem s) p = load64 (mem s0) (p + 136) ∧
  frame_rax (mem s) p = gpr s0 R15.
Proof.
  intros [_ [Hv He] Hs Hi]. unfold frame_int_no, frame_err_code, frame_rip, frame_rax, frame_word. split_and!; [done|done| |].
  - unfold iret_at in Hi. by injection Hi.
  - cbn [saved saved_at] in Hs. destruct_and! Hs.
    match goal with H : load64 (mem s) ?a = gpr s0 R15 |- _ => rewrite <- H; f_equal; lia end.
Qed.

(** ** The stubs *)

(** The words a stub pushes, below [b]: the vector and the error word. *)
Lemma stub_pushes s b (e : bool) v : words_ok (gpr s) → gpr s RSP = (if e then b - 8 else b) → 136 ≤ b → b + 40 < 2 ^ 64 → 0 ≤ v < 2 ^ 64 →
  let err := if e then load64 (mem s) (b - 8) else 0 in
  let s1 := run callee (if e then [PUSHI v] else [PUSHI 0; PUSHI v]) s in
  words_ok (gpr s1) ∧ gpr s1 RSP = b - 16 ∧ load64 (mem s1) (b - 16) = v ∧ load64 (mem s1) (b - 8) = err ∧
  (∀ q, q ≠ RSP → gpr s1 q = gpr s q) ∧ iret_at (mem s1) b = iret_at (mem s) b.
Proof.
  intros Hw Hsp Hb H1 Hv err s1.
  assert (Hstep : ∀ s a w, words_ok (gpr s) → gpr s RSP = a → 8 ≤ a < 2 ^ 64 →
    words_ok (gpr (push w s)) ∧ gpr (push w s) RSP = a - 8 ∧ (∀ q, q ≠ RSP → gpr (push w s) q = gpr s q) ∧
    mem (push w s) = store64 (mem s) (a - 8) w).
  { intros t a w Ht Ha Hr. unfold push. rewrite Ha, u64_small by lia. cbn [set_mem set_reg gpr mem]. split_and!; try done.
    - intros q. rewrite reg_eqb_decide. case_bool_decide; [lia|apply Ht].
    - intros q Hq. rewrite reg_eqb_decide. by case_bool_decide. }
  unfold s1, err. clear s1 err. destruct e; unfold run; cbn [foldl exec].
  - destruct (Hstep s (b - 8) v Hw Hsp ltac:(lia)) as (I1 & I2 & I3 & I4). rewrite I4. split_and!; [done|lia| | |done|].
    + replace (b - 8 - 8) with (b - 16) by lia. rewrite load64_store64_eq, u64_small by lia. done.
    + rewrite load64_store64_ne by lia. done.
    + apply iret_agree. intros x Hx. unfold store64. rewrite store_le_out by lia. done.
  - destruct (Hstep s b 0 Hw Hsp ltac:(lia)) as (I1 & I2 & I3 & I4).
    destruct (Hstep (push 0 s) (b - 8) v I1 I2 ltac:(lia)) as (J1 & J2 & J3 & J4). rewrite J4, I4. split_and!; [done|lia| | | |].
    + replace (b - 8 - 8) with (b - 16) by lia. rewrite load64_store64_eq, u64_small by lia. done.
    + rewrite load64_store64_ne, load64_store64_eq by lia. done.
    + intros q Hq. rewrite J3, I3 by done. done.
    + apply iret_agree. intros x Hx. unfold store64. rewrite !store_le_out by lia. done.
Qed.

(** vector, whether the processor pushes an error code, code *)
Definition stub_table : list (Z * bool * list instr) :=
  [(255, false, isr_stub_generic); (0, false, isr_stub_0); (6, false, isr_stub_6); (9, false, isr_stub_9);
   (13, true, isr_stub_13); (14, true, isr_stub_14); (32, false, irq_stub_0); (33, false, irq_stub_1)].

(** The common shape of the stubs. *)
Definition stub_head (e : bool) (v : Z) : list instr := if e then [PUSHI v] else [PUSHI 0; PUSHI v].
Definition is_irq (v : Z) : bool := (v =? 32) || (v =? 33).
Definition stub_args (v : Z) : list instr := if is_irq v then [] else [LOAD (At 128 RSP) RSI].
Definition before_call (e : bool) (v : Z) : list instr := stub_head e v ++ (push_all ++ [MOV RSP RDI]) ++ stub_args v.
Definition from_call : list instr := [CALL] ++ pop_all ++ [ADD 16 RSP; IRETQ].
Lemma stub_shape v e code : (v, e, code) ∈ stub_table → code = before_call e v ++ from_call ∧ 0 ≤ v < 2 ^ 64.
Proof.
  intros Hin. repeat (apply elem_of_cons in Hin as [[= -> -> ->]|Hin]; [split; [reflexivity|lia]|]). by apply elem_of_nil in Hin.
Qed.

Lemma handler_reached s b e v : words_ok (gpr s) → gpr s RSP = (if e : bool then b - 8 else b) → 136 ≤ b → b + 40 < 2 ^ 64 → 0 ≤ v < 2 ^ 64 →
  let err := if e then load64 (mem s) (b - 8) else 0 in
  let s1 := run callee (before_call e v) s in
  at_call s s1 (b - 136) v err ∧ (is_irq v = false → gpr s1 RSI = err).
Proof.
  intros Hw Hsp Hb H1 Hv err s1. unfold s1, before_call. clear s1. rewrite run_app, (run_app _ (push_all ++ [MOV RSP RDI])).
  pose proof (stub_pushes s b e v Hw Hsp Hb H1 Hv) as Hst. cbv zeta in Hst. fold err in Hst. unfold stub_head.
  generalize dependent (run callee (if e then [PUSHI v] else [PUSHI 0; PUSHI v]) s). intros s1 (Hw1 & Hsp1 & Hv1 & He1 & Hq1 & Hi1).
  pose proof (entry_saves s1 (b - 16) v err Hw1 Hsp1 ltac:(lia) ltac:(lia) Hv1) as Hsv.
  replace (b - 16 + 8) with (b - 8) in Hsv by lia. specialize (Hsv He1). replace (b - 16 - 120) with (b - 136) in Hsv by lia.
  generalize dependent (run callee (push_all ++ [MOV RSP RDI]) s1). intros s2 Hsv.
  assert (Hac : at_call s s2 (b - 136) v err).
  { destruct Hsv as [A1 A2 A3 A4]. split; [done|done| |].
    - eapply saved_at_regs; [|exact A3]. intros q Hq. apply Hq1. intros ->. by apply saved_no_rsp.
    - rewrite A4. replace (b - 136 + 136) with b by lia. exact Hi1. }
  unfold stub_args. destruct (is_irq v); [split; [exact Hac|done]|].
  destruct (error_passed s s2 (b - 136) v err Hac ltac:(lia) ltac:(lia)). unfold run. cbn [foldl]. split; [done|]. by intros _.
Qed.
End Entry.


(** A page fault with error code 2 in user code at 4096, the stack at 8192. *)
Definition fault_state : cpu_state :=
  MkCpuState (λ r, match r with RSP => 1992 | RAX => 7 | _ => 0 end)
    (store64 (store64 (λ _, 0) 1992 2) 2000 4096) 0 0 0 0 0 0.
Definition idle_handler (r : reg → Z) (m : ram) : (reg → Z) * ram := (λ q, match q with RSP => r RSP | _ => 99 end, m).

