(* ===== verification/ExecSpec.v ===== *)
(** * The executables load_image accepts

    [validate] reads inside the file and accepts only executables whose
    segments can be mapped: inside the user range, disjoint, never both
    writable and executable. *)

From S2P Require Import Prelude Bytes Mem KString Errno Pmm Paging Alloc Vfs Gdt Elf Apic UserCopy ElfExec Exec.

(** ** Accepted executables *)

Definition seg_start (g : program) (p : ProgramHeader) : Z := p_vaddr p + g_bias g.
Definition seg_end (g : program) (p : ProgramHeader) : Z := seg_start g p + p_memsz p.
Definition executable (p : ProgramHeader) : bool := Z.testbit (p_flags p) 0.
Definition writable (p : ProgramHeader) : bool := Z.testbit (p_flags p) 1.

Definition sane_segment (bias size : Z) (p : ProgramHeader) : Prop :=
  p_type p = PT_LOAD ∧ p_filesz p ≤ p_memsz p ∧ p_offset p + p_filesz p ≤ size ∧
  (0 < p_memsz p → PAGE_SIZE ≤ p_vaddr p + bias ∧ p_vaddr p + bias + p_memsz p ≤ stack_bottom) ∧
  (1 < p_align p → ∃ k, 0 ≤ k ∧ p_align p = 2 ^ k ∧ p_vaddr p mod 2 ^ k = p_offset p mod 2 ^ k) ∧
  ¬ (writable p = true ∧ executable p = true).
Definition disjoint_segments (bias : Z) (p q : ProgramHeader) : Prop :=
  0 < p_memsz p → 0 < p_memsz q →
  p_vaddr p + bias + p_memsz p ≤ p_vaddr q + bias ∨ p_vaddr q + bias + p_memsz q ≤ p_vaddr p + bias.

Record loadable (size : Z) (g : program) : Prop := {
  ld_sane : Forall (sane_segment (g_bias g) size) (g_segments g);
  ld_disjoint : ForallOrdPairs (disjoint_segments (g_bias g)) (g_segments g);
  ld_entry : ∃ p, p ∈ g_segments g ∧ executable p = true ∧ seg_start g p ≤ g_entry g < seg_end g p;
  ld_count : (length (g_segments g) ≤ 128)%nat;
  ld_static : e_type (g_header g) = ET_EXEC → g_dynamic g = None ∧ g_bias g = 0
}.

Lemma land_pred_pow2 x : 0 < x → Z.land x (x - 1) = 0 → ∃ k, 0 ≤ k ∧ x = 2 ^ k.
Proof.
  intros Hx Hl. pose proof (Z.log2_spec x Hx) as [H1 H2]. pose proof (Z.log2_nonneg x).
  exists (Z.log2 x). split; [done|]. destruct (decide (x = 2 ^ Z.log2 x)) as [|Hne]; [done|].
  exfalso. assert (Hbit : Z.testbit (Z.land x (x - 1)) (Z.log2 x) = true).
  { rewrite Z.land_spec, Z.bit_log2 by lia. cbn [andb].
    replace (Z.log2 x) with (Z.log2 (x - 1)) at 1; [apply Z.bit_log2; lia|].
    apply Z.log2_unique; lia. }
  by rewrite Hl, Z.bits_0 in Hbit.
Qed.

Lemma land_one_bit x k : 0 ≤ k → (Z.land x (2 ^ k) =? 0) = negb (Z.testbit x k).
Proof.
  intros Hk. destruct (Z.testbit x k) eqn:E; cbn [negb].
  - apply Z.eqb_neq. intros H0. assert (Hb : Z.testbit (Z.land x (2 ^ k)) k = true).
    { by rewrite Z.land_spec, E, Z.pow2_bits_true. }
    by rewrite H0, Z.bits_0 in Hb.
  - apply Z.eqb_eq. apply Z.bits_inj_0. intros n. rewrite Z.land_spec.
    destruct (decide (n = k)) as [->|]; [by rewrite E|]. rewrite Z.pow2_bits_false by lia. by rewrite andb_false_r.
Qed.

Lemma land_bit_set x k : 0 ≤ k → Z.land x (2 ^ k) ≠ 0 → Z.testbit x k = true.
Proof. intros Hk Hn%Z.eqb_neq. rewrite land_one_bit in Hn by done. by destruct (Z.testbit x k). Qed.

Lemma not_wx p : writable_and_executable p = false → ¬ (writable p = true ∧ executable p = true).
Proof.
  unfold writable_and_executable, writable, executable. intros He [Hw Hx]. apply Z.eqb_neq in He. apply He.
  change (Z.lor PF_W PF_X) with 3. apply Z.bits_inj'. intros n Hn. rewrite Z.land_spec.
  destruct (decide (n = 0)) as [->|]; [by rewrite Hx|]. destruct (decide (n = 1)) as [->|]; [by rewrite Hw|].
  rewrite (Z.bits_above_log2 3 n) by (change (Z.log2 3) with 1; lia). by rewrite andb_false_r.
Qed.

Lemma segment_range_inv p bias r : segment_range p bias = Some r →
  r = (p_vaddr p + bias, p_vaddr p + bias + p_memsz p) ∧
  (p_memsz p ≠ 0 → PAGE_SIZE ≤ p_vaddr p + bias ∧ p_vaddr p + bias + p_memsz p ≤ stack_bottom).
Proof.
  unfold segment_range. destruct (_ <? _); [done|]. destruct (_ <? _); [done|].
  destruct (_ && _) eqn:E; [|done]. intros [= <-]. split; [done|]. intros Hn. zbool.
  rewrite (proj2 (Z.eqb_neq _ _) Hn) in *. cbn [orb] in *. by zbool.
Qed.

Lemma aligned_valid_inv p : phdr_ok p → aligned_valid p = true → 1 < p_align p →
  ∃ k, 0 ≤ k ∧ p_align p = 2 ^ k ∧ p_vaddr p mod 2 ^ k = p_offset p mod 2 ^ k.
Proof.
  intros Hp Hv Ha. unfold aligned_valid in Hv. rewrite (proj2 (Z.leb_gt (p_align p) 1)) in Hv by done.
  destruct (negb _) eqn:En; [done|]. zbool.
  destruct (land_pred_pow2 (p_align p)) as (k & Hk & Hpow); [lia|done|].
  exists k. split; [done|]. split; [done|]. by rewrite Hpow, !land_ones_mod in Hv.
Qed.

Lemma segment_valid_inv p bias size r : phdr_ok p → p_type p = PT_LOAD → segment_valid p bias size = Some r →
  sane_segment bias size p ∧ r = (p_vaddr p + bias, p_vaddr p + bias + p_memsz p).
Proof.
  intros Hp Ht. unfold segment_valid. destruct (_ || _) eqn:E1; [done|].
  destruct (segment_range p bias) as [r'|] eqn:Er; [|done].
  destruct (writable_and_executable p) eqn:Ew; [done|]. intros [= ->].
  apply segment_range_inv in Er as [-> Hr]. zbool. unfold range_valid in *. zbool.
  split; [|done]. split; [done|]. split; [lia|]. split; [lia|].
  split; [intros; apply Hr; lia|]. split; [by apply aligned_valid_inv|by apply not_wx].
Qed.

(** *** The loops *)

Lemma read_phdr_returns file h i : Forall is_byte file → 0 ≤ e_phoff h → 0 ≤ i →
  e_phoff h + (i + 1) * sizeof_ProgramHeader ≤ blen file →
  ∃ p, read_phdr file h i = Ret p ∧ phdr_ok p.
Proof.
  unfold sizeof_ProgramHeader. intros Hb Ho Hi Hle. unfold read_phdr.
  destruct (buf_get (e_phoff h + i * sizeof_ProgramHeader) sizeof_ProgramHeader file) as [b| | |] eqn:E;
    try (by rewrite buf_get_ok in E by (unfold sizeof_ProgramHeader; lia)).
  apply buf_get_bytes in E as [Hbs Hl]; [|done]. eexists. split; [done|]. by apply read_phdr_ok.
Qed.

Definition scan_inv (a : scan) : Prop :=
  Forall (λ p, phdr_ok p ∧ p_type p = PT_LOAD) (sc_segments a) ∧ (length (sc_segments a) ≤ 128)%nat ∧
  (∀ p, sc_dynamic a = Some p → phdr_ok p).

Lemma scan_header_inv p size a a' : phdr_ok p → scan_inv a → scan_header p size a = Some a' → scan_inv a'.
Proof.
  intros Hp (Hs & Hl & Hd). unfold scan_header. destruct (_ =? PT_DYNAMIC) eqn:E1.
  - destruct (_ || _); [done|]. intros [= <-]. split; [done|]. split; [done|]. by intros q [= <-].
  - destruct (_ =? PT_LOAD) eqn:E2; [|by intros [= <-]].
    destruct (_ =? MAX_PROGRAM_HEADERS) eqn:E3; [done|]. intros [= <-].
    unfold MAX_PROGRAM_HEADERS in *. zbool. split_and!; cbn [sc_segments].
    + apply Forall_app_2; [done|]. by apply Forall_singleton.
    + rewrite length_app. simpl. lia.
    + done.
Qed.

Lemma scan_loop_returns file h k i a : Forall is_byte file → 0 ≤ e_phoff h → 0 ≤ i → scan_inv a →
  e_phoff h + (i + Z.of_nat k) * sizeof_ProgramHeader ≤ blen file →
  ∃ r, scan_loop k file h i a = Ret r ∧ ∀ a', r = Some a' → scan_inv a'.
Proof.
  intros Hb Ho. revert i a. induction k as [|k IH]; intros i a Hi Ha Hle; simpl.
  - eexists. split; [done|]. by intros ? [= <-].
  - destruct (read_phdr_returns file h i) as (p & Hp & Hok); try done; [unfold sizeof_ProgramHeader in *; lia|].
    rewrite Hp. cbn [mbind outcome_bind]. destruct (scan_header p (blen file) a) as [a1|] eqn:E.
    + apply IH; [lia|by eapply scan_header_inv|]. rewrite <- Hle. apply Z.eq_le_incl. f_equal. lia.
    + eexists. split; done.
Qed.

Lemma no_overlap_inv p bias earlier :
  no_overlap p (p_vaddr p + bias) (p_vaddr p + bias + p_memsz p) bias earlier = true →
  Forall (λ q, disjoint_segments bias q p) earlier.
Proof.
  induction earlier as [|q rest IH]; [by constructor|]. simpl.
  destruct (segment_range q bias) as [[os oe]|] eqn:Er; [|done].
  apply segment_range_inv in Er as [[= -> ->] _].
  destruct (_ && _) eqn:E; [done|]. intros Hrest. constructor; [|by apply IH].
  intros Hq Hp. rewrite !(proj2 (Z.eqb_neq _ _)) in E by lia. cbn [negb andb] in E.
  unfold overlaps in E. apply andb_false_iff in E as [E|E]; zbool; lia.
Qed.

(** Ordered pairs, built from the end. *)
Lemma ForallOrdPairs_snoc {T} (R : T → T → Prop) l x :
  ForallOrdPairs R l → Forall (λ y, R y x) l → ForallOrdPairs R (l ++ [x]).
Proof.
  induction 1 as [|a l Ha Hl IH]; intros Hx; simpl.
  - repeat constructor.
  - apply Forall_cons in Hx as [Hax Hx]. constructor; [|by apply IH].
    apply Forall_app_2; [done|]. by apply Forall_singleton.
Qed.

Definition entry_in (bias entry : Z) (p : ProgramHeader) : Prop :=
  executable p = true ∧ p_vaddr p + bias ≤ entry < p_vaddr p + bias + p_memsz p.

(** What validation establishes of each segment. *)
Definition accepted (bias size : Z) (p : ProgramHeader) : Prop :=
  phdr_ok p ∧ segment_valid p bias size = Some (p_vaddr p + bias, p_vaddr p + bias + p_memsz p) ∧
  sane_segment bias size p.

Lemma segments_loop_inv segments earlier bias entry size ex b :
  Forall (λ p, phdr_ok p ∧ p_type p = PT_LOAD) segments →
  Forall (accepted bias size) earlier → ForallOrdPairs (disjoint_segments bias) earlier →
  (ex = true → ∃ p, p ∈ earlier ∧ entry_in bias entry p) →
  segments_loop segments earlier bias entry size ex = Some b →
  let all := earlier ++ segments in
  Forall (accepted bias size) all ∧ ForallOrdPairs (disjoint_segments bias) all ∧
  (b = true → ∃ p, p ∈ all ∧ entry_in bias entry p).
Proof.
  intros Hok. revert earlier ex. induction segments as [|p rest IH]; intros earlier ex He Hd Hx; simpl.
  - intros [= <-]. by rewrite app_nil_r.
  - apply Forall_cons in Hok as [[Hp Ht] Hok].
    destruct (segment_valid p bias size) as [[start end_]|] eqn:Ev; [|done]. pose proof Ev as Ev0.
    apply segment_valid_inv in Ev as [Hs [= -> ->]]; [|done..].
    destruct (no_overlap _ _ _ _ _) eqn:En; [|done]. apply no_overlap_inv in En. intros Hl.
    replace (earlier ++ p :: rest) with ((earlier ++ [p]) ++ rest) by by rewrite <- app_assoc.
    apply (IH Hok) in Hl; [done|apply Forall_app_2; [done|by apply Forall_singleton]|by apply ForallOrdPairs_snoc|].
    intros [Hex|Hhere]%orb_true_iff.
    + destruct (Hx Hex) as (q & Hq & Hin). exists q. split; [|done]. apply elem_of_app. by left.
    + exists p. split; [apply elem_of_app; right; by left|]. zbool. split; [|lia].
      by apply (land_bit_set _ 0).
Qed.

(** The program headers lie in the file. *)
Definition table_inside (h : ElfHeader) (size : Z) : Prop :=
  0 ≤ e_phoff h ∧ 0 ≤ e_phnum h ∧ e_phoff h + e_phnum h * sizeof_ProgramHeader ≤ size.

Lemma validate_spec (file : list Z) : Forall is_byte file → sizeof_ElfHeader ≤ blen file →
  ∃ r, validate file = Ret r ∧ ∀ g, r = Some g →
    loadable (blen file) g ∧ Forall (accepted (g_bias g) (blen file)) (g_segments g) ∧
    (g_bias g = 0 ∨ g_bias g = PIE_BASE) ∧ (∀ p, g_dynamic g = Some p → phdr_ok p) ∧
    table_inside (g_header g) (blen file).
Proof.
  intros Hb Hlen. unfold validate. destruct (buf_get 0 sizeof_ElfHeader file) as [b| | |] eqn:E;
    try (by rewrite buf_get_ok in E by (unfold sizeof_ElfHeader in *; lia)).
  apply buf_get_bytes in E as [Hbs Hbl]; [|done]. cbn [mbind outcome_bind].
  destruct (read_ehdr_range b Hbs Hbl) as (Hn & Ho & He). set (h := read_ElfHeader b) in *.
  destruct (negb _) eqn:Eh; [by eexists|]. apply negb_false_iff in Eh. unfold exec_header_ok, range_valid in Eh. zbool.
  set (bias := if e_type h =? ET_DYN then PIE_BASE else 0).
  destruct (_ <? e_entry h) eqn:Ee; [by eexists|].
  destruct (scan_loop_returns file h (Z.to_nat (e_phnum h)) 0 (MkScan [] None false false)) as (r & Hr & Hinv);
    try done; [lia|split_and!; [constructor|simpl; lia|done]|rewrite Z2Nat.id by lia; lia|].
  rewrite Hr. cbn [mbind outcome_bind]. destruct r as [a|]; [|by eexists].
  destruct (Hinv a eq_refl) as (Hseg & Hcount & Hdyn).
  match goal with |- context [if ?c then _ else _] => destruct c eqn:E2; [by eexists|] end.
  destruct (segments_loop _ _ _ _ _ _) as [[]|] eqn:Es; [|by eexists..].
  eexists. split; [done|]. intros g [= <-].
  apply segments_loop_inv in Es as (Hacc & Hdis & Hent); [|done|constructor..|done].
  cbn [g_bias g_segments g_dynamic g_header]. split; [|split; [done|]].
  2:{ split; [unfold bias; destruct (_ =? ET_DYN); auto|]. split; [done|]. unfold table_inside. lia. }
  split; cbn [g_segments g_bias g_header g_entry g_dynamic]; try done.
  - eapply Forall_impl; [exact Hacc|]. by intros p (_ & _ & Hs).
  - by destruct (Hent eq_refl) as (p & Hp & Hin); exists p.
  - intros Ht. unfold bias. rewrite Ht. split; [|done]. zbool.
    match goal with H : _ && bool_decide _ = false |- _ => rewrite Ht in H; cbn in H end.
    destruct (sc_dynamic a); [|done]. by rewrite bool_decide_eq_true_2 in *.
Qed.

Lemma phdr_loop_returns file h bias k i : Forall is_byte file → 0 ≤ e_phoff h → 0 ≤ i →
  e_phoff h + (i + Z.of_nat k) * sizeof_ProgramHeader ≤ blen file → ∃ r, phdr_loop k file h bias i = Ret r.
Proof.
  intros Hb Ho. revert i. induction k as [|k IH]; intros i Hi Hle; cbn [phdr_loop]; [by eexists|].
  destruct (read_phdr_returns file h i) as (p & Hp & Hok); try done; [unfold sizeof_ProgramHeader in *; lia|].
  rewrite Hp. cbn [mbind outcome_bind]. destruct (_ =? PT_PHDR); [by eexists|].
  apply IH; [lia|]. rewrite <- Hle. apply Z.eq_le_incl. f_equal. lia.
Qed.
Lemma find_phdr_returns file g : Forall is_byte file → table_inside (g_header g) (blen file) →
  ∃ r, find_phdr file g = Ret r.
Proof.
  intros Hb (Ho & Hn & Ht). unfold find_phdr.
  destruct (phdr_loop_returns file (g_header g) (g_bias g) (Z.to_nat (e_phnum (g_header g))) 0) as (r & Hr);
    [done|done|lia|rewrite Z2Nat.id; lia|]. rewrite Hr. by eexists.
Qed.

(** C16: [validate], the checks load_image makes of the bytes of a file before
    it builds an address space, never reads outside the file and always
    returns; and a file it accepts has at most 128 segments, each inside the
    file, in the user range between the first page and the stack, with the
    file offset congruent to the address modulo a power-of-two alignment, none
    both writable and executable, no two sharing an address, and the entry
    point lies in an executable one. A fixed-address executable has no bias
    and no dynamic section. *)
Theorem validate_accepts_only_loadable (file : list Z) (Hb : Forall is_byte file)
    (Hlen : sizeof_ElfHeader ≤ blen file) :
  ∃ r, validate file = Ret r ∧ ∀ g, r = Some g → loadable (blen file) g.
Proof.
  destruct (validate_spec file Hb Hlen) as (r & Hr & Hg). exists r. split; [done|]. intros g Eg. by apply Hg.
Qed.

(** A static executable: one read-execute segment that holds the file. *)
Definition sample_exec : list Z :=
  let w n v := le_bytes (Z.to_nat n) v in
  [127; 69; 76; 70; 2; 1; 1; 0; 0; 0; 0; 0; 0; 0; 0; 0] ++
  w 2 ET_EXEC ++ w 2 EM_X86_64 ++ w 4 1 ++ w 8 4194424 ++ w 8 64 ++ w 8 0 ++ w 4 0 ++ w 2 64 ++ w 2 56 ++
  w 2 1 ++ w 2 0 ++ w 2 0 ++ w 2 0 ++
  (w 4 PT_LOAD ++ w 4 5 ++ w 8 0 ++ w 8 4194304 ++ w 8 4194304 ++ w 8 128 ++ w 8 4000 ++ w 8 4096) ++
  [235; 254; 144; 144; 144; 144; 144; 144].

Lemma validate_accepts_only_loadable_witness :
  ∃ g, validate sample_exec = Ret (Some g) ∧ loadable 128 g ∧ g_entry g = 4194424.
Proof.
  destruct (validate_accepts_only_loadable sample_exec) as (r & Hr & Hg).
  - apply bytes_of_bool. vm_compute. reflexivity.
  - vm_compute. discriminate.
  - destruct r as [g|]; [|vm_compute in Hr; discriminate]. exists g. split; [exact Hr|].
    split; [exact (Hg g eq_refl)|]. vm_compute in Hr. injection Hr as <-. reflexivity.
Defined.
