(* ===== verification/SpaceSpec.v ===== *)
(** * Address spaces under construction

    The loader owns every page it puts into the user half of an address space.
    [space_inv s root own] says how: [own] gives each page its level (0 for the
    root, 4 for a page of data) and the number of the region it serves, so the
    pages of level 4 are the map from virtual pages to frames. The lemmas show
    that map_user_page extends this map by zeroed pages, that copy_to_space
    and copy_from_space access the bytes the map gives, and that nothing else
    in memory changes. *)

From S2P Require Import Prelude Bytes Mem KString Errno Pmm Pages Paging PagingSpec Alloc Vfs Elf Apic UserCopy.
From S2P Require Import UserCopySpec ElfExec.

Section Space.
Context (hhdm : Z).
Implicit Types (s : paging_state) (m : ram) (own : gmap Z (Z * Z)).
Abbreviation page_va := (page_va hhdm).
Abbreviation memory s := (mem (pg_mach s)).

(** The page an entry leads to. *)
Definition child m p i : option Z :=
  let e := load64 m (entry_at (page_va p) i) in
  if present e then Some (Z.land e PTE_ADDRESS / PAGE_SIZE) else None.
Fixpoint descend m p (ix : list Z) : option Z :=
  match ix with [] => Some p | i :: ix' => child m p i ≫= λ q, descend m q ix' end.

(** What the processor finds at a user address. *)
Definition frame_of s root va : option Z := descend (memory s) root (indices va).
Definition ubyte s root va : option Z := (λ q, memory s (page_va q + va mod 4096)) <$> frame_of s root va.

Lemma compose_inj ix ix' : length ix = length ix' → Forall (λ i, 0 ≤ i < 512) ix → Forall (λ i, 0 ≤ i < 512) ix' →
  compose 0 ix = compose 0 ix' → ix = ix'.
Proof.
  unfold compose. revert ix'. induction ix as [|i ix IH] using rev_ind; intros ix' Hl H1 H2 Hc.
  - by destruct ix'.
  - destruct ix' as [|j ix' _] using rev_ind; rewrite !length_app in Hl; simpl in Hl; [lia|].
    rewrite !foldl_app in Hc. simpl in Hc. rewrite !Forall_app, !Forall_singleton in *.
    destruct H1 as [H1 Hi], H2 as [H2 Hj]. assert (i = j) as -> by lia. f_equal. apply IH; [lia|done|done|lia].
Qed.

(** The slots of a table that belong to user space. *)
Definition slot (l i : Z) : Prop := 0 ≤ i < (if l =? 0 then 256 else 512).

Record space_inv s root own : Prop := {
  sp_phys : phys_ok hhdm (pg_mach s);
  sp_small : total_pages (pg_mach s) ≤ 2 ^ 40;
  sp_root : ∀ q x, own !! q = Some (0, x) ↔ q = root ∧ x = 0;
  sp_used : ∀ p l x, own !! p = Some (l, x) →
    (0 ≤ l ≤ 4) ∧ (0 < p < total_pages (pg_mach s)) ∧ (p ∉ free_set hhdm (pg_mach s)) ∧
    clear_page hhdm (pg_mach s) p;
  sp_inj : ∀ p q k, own !! p = Some k → own !! q = Some k → p = q;
  sp_down : ∀ p l x i q, own !! p = Some (l, x) → l < 4 → slot l i → child (memory s) p i = Some q →
    own !! q = Some (l + 1, x * 512 + i);
  sp_up : ∀ q l y, own !! q = Some (l, y) → 0 < l →
    ∃ p x i, own !! p = Some (l - 1, x) ∧ slot (l - 1) i ∧ y = x * 512 + i ∧ child (memory s) p i = Some q;
  sp_large : ∀ p l x i, own !! p = Some (l, x) → l < 3 → slot l i →
    present (load64 (memory s) (entry_at (page_va p) i)) = true →
    Z.land (load64 (memory s) (entry_at (page_va p) i)) PTE_LARGE = 0
}.

(** Index lists that lead through user slots, from level [l]. *)
Fixpoint slots (l : Z) (ix : list Z) : Prop :=
  match ix with [] => True | i :: ix' => slot l i ∧ slots (l + 1) ix' end.

Lemma slot_range l i : slot l i → 0 ≤ i < 512.
Proof. unfold slot. destruct (l =? 0); lia. Qed.
Lemma slots_range l ix : slots l ix → Forall (λ i, 0 ≤ i < 512) ix.
Proof.
  revert l. induction ix as [|i ix IH]; intros l; simpl; [constructor|].
  intros [Hi%slot_range Hs]. constructor; [done|by eapply IH].
Qed.
Lemma indices_slots va : 0 ≤ va < USER_TOP → slots 0 (indices va).
Proof.
  intros Hva. pose proof (indices_range va) as Hr. unfold indices in *. rewrite !Forall_cons in Hr.
  destruct Hr as (H1 & H2 & H3 & H4 & _). cbn [slots]. unfold slot.
  change (0 =? 0) with true. change (0 + 1 =? 0) with false. change (0 + 1 + 1 =? 0) with false.
  change (0 + 1 + 1 + 1 =? 0) with false. cbv iota. repeat split; try lia.
  unfold PGD_INDEX. rewrite index_mod by lia. unfold USER_TOP in Hva.
  assert (0 ≤ va / 2 ^ 39 < 256) by (split; [apply Z.div_pos|apply Z.div_lt_upper_bound]; lia).
  rewrite Z.mod_small by lia. lia.
Qed.

Lemma address_mask e : Z.land e PTE_ADDRESS = (e / 4096) mod 2 ^ 40 * 4096.
Proof. change PTE_ADDRESS with (Z.shiftl (2 ^ 40 - 1) 12). by rewrite land_field by lia. Qed.
Lemma child_address m p i q : child m p i = Some q →
  Z.land (load64 m (entry_at (page_va p) i)) PTE_ADDRESS = q * PAGE_SIZE ∧
  present (load64 m (entry_at (page_va p) i)) = true.
Proof.
  unfold child. destruct (present _) eqn:E; [|done]. intros [= <-]. split; [|done].
  rewrite address_mask. unfold PAGE_SIZE. by rewrite Z.div_mul.
Qed.

(** *** The tree *)

Section Tree.
Context {s : paging_state} {root : Z} {own : gmap Z (Z * Z)} (Hinv : space_inv s root own).

Lemma descend_own ix p l x q : own !! p = Some (l, x) → l + Z.of_nat (length ix) ≤ 4 → slots l ix →
  descend (memory s) p ix = Some q → own !! q = Some (l + Z.of_nat (length ix), compose x ix).
Proof.
  revert p l x. induction ix as [|i ix IH]; intros p l x Hp Hl Hs; simpl.
  - intros [= <-]. rewrite Hp. do 2 f_equal. lia.
  - destruct Hs as [Hi Hs]. cbn [length] in Hl.
    destruct (child (memory s) p i) as [r|] eqn:Ec; [|done]. simpl. intros Hd.
    apply (sp_down _ _ _ Hinv _ l x) in Ec; [|done|lia|done].
    apply (IH _ (l + 1) (x * 512 + i)) in Hd; [|done|lia|done]. rewrite Hd. do 2 f_equal. lia.
Qed.

Lemma own_root : own !! root = Some (0, 0).
Proof. by apply (sp_root _ _ _ Hinv). Qed.

Lemma descend_snoc m p ix i : descend m p (ix ++ [i]) = descend m p ix ≫= λ q, child m q i.
Proof.
  revert p. induction ix as [|j ix IH]; intros p; simpl.
  - by destruct (child m p i).
  - destruct (child m p j); simpl; [apply IH|done].
Qed.
Lemma slots_snoc l ix i : slots l ix → slot (l + Z.of_nat (length ix)) i → slots l (ix ++ [i]).
Proof.
  revert l. induction ix as [|j ix IH]; intros l; simpl.
  - rewrite Z.add_0_r. done.
  - intros [Hj Hs] Hi. split; [done|]. apply IH; [done|]. by replace (l + 1 + Z.of_nat (length ix))
      with (l + Z.of_nat (S (length ix))) by lia.
Qed.
Lemma own_descend (n : nat) q y : own !! q = Some (Z.of_nat n, y) →
  ∃ ix, length ix = n ∧ slots 0 ix ∧ compose 0 ix = y ∧ descend (memory s) root ix = Some q.
Proof.
  revert q y. induction n as [|n IH]; intros q y Hq.
  - apply (sp_root _ _ _ Hinv) in Hq as [-> ->]. by exists [].
  - destruct (sp_up _ _ _ Hinv q _ _ Hq ltac:(lia)) as (p & x & i & Hp & Hi & -> & Hc).
    replace (Z.of_nat (S n) - 1) with (Z.of_nat n) in * by lia.
    destruct (IH p x Hp) as (ix & Hl & Hs & Hx & Hd). exists (ix ++ [i]).
    split; [rewrite length_app; simpl; lia|]. split; [apply slots_snoc; [done|by rewrite Hl]|].
    split; [unfold compose in *; by rewrite foldl_app, Hx|]. by rewrite descend_snoc, Hd.
Qed.

(** An address is mapped to the page that serves its page number. *)
Lemma frame_own va q : 0 ≤ va < USER_TOP → frame_of s root va = Some q ↔ own !! q = Some (4, vpn va).
Proof.
  intros Hva. unfold frame_of. rewrite vpn_compose. pose proof (indices_slots va Hva) as Hs. split.
  - intros Hd. by apply (descend_own _ _ 0 0) in Hd; [|apply own_root|done|done].
  - intros Hq. destruct (own_descend 4 q _ Hq) as (ix & Hl & His & Hc & Hd).
    enough (ix = indices va) as <- by done. apply compose_inj; [by rewrite Hl|by eapply slots_range|apply indices_range|done].
Qed.

Lemma own_page q l x : own !! q = Some (l, x) →
  phys_to_virt hhdm (q * PAGE_SIZE) = page_va q.
Proof.
  intros Hq. destruct (sp_used _ _ _ Hinv _ _ _ Hq) as (_ & Hr & _).
  apply (phys_to_virt_page hhdm (pg_mach s)); [apply (sp_phys _ _ _ Hinv)|lia].
Qed.
(** Following a present entry of a table. *)
Lemma child_next p l x i : own !! p = Some (l, x) → l < 4 → slot l i →
  let e := load64 (memory s) (entry_at (page_va p) i) in
  if Z.land e PTE_PRESENT =? 0 then child (memory s) p i = None
  else ∃ q, child (memory s) p i = Some q ∧ own !! q = Some (l + 1, x * 512 + i) ∧
    phys_to_virt hhdm (Z.land e PTE_ADDRESS) = page_va q ∧ Z.land e PTE_ADDRESS = q * PAGE_SIZE ∧
    (l < 3 → Z.land e PTE_LARGE = 0).
Proof.
  intros Hp Hl Hi e. destruct (Z.land e PTE_PRESENT =? 0) eqn:E.
  - unfold child. fold e. unfold present. by rewrite E.
  - assert (Hpr : present e = true) by (unfold present; by rewrite E).
    destruct (child (memory s) p i) as [q|] eqn:Ec; [|unfold child in Ec; fold e in Ec; by rewrite Hpr in Ec].
    exists q. split; [done|]. pose proof (sp_down _ _ _ Hinv _ _ _ _ _ Hp Hl Hi Ec) as Hq. split; [done|].
    apply child_address in Ec as [Ha _]. fold e in Ha. rewrite Ha. split; [by eapply own_page|]. split; [done|].
    intros Hl3. by apply (sp_large _ _ _ Hinv p l x i).
Qed.

Lemma locate_loop_spec ix p l x : own !! p = Some (l, x) → ix ≠ [] → l + Z.of_nat (length ix) = 4 → slots l ix →
  ∃ o, locate_loop hhdm (page_va p) ix s = Ret (o, s) ∧
    match o with
    | Some a => ∃ t y i, own !! t = Some (3, y) ∧ slot 3 i ∧ a = entry_at (page_va t) i ∧
                  descend (memory s) p ix = child (memory s) t i
    | None => descend (memory s) p ix = None
    end.
Proof.
  revert p l x. induction ix as [|i ix IH]; intros p l x Hp Hne Hl Hs; [done|]. destruct Hs as [Hi Hs].
  cbn [length] in Hl. destruct ix as [|j ix].
  - assert (l = 3) as -> by (cbn in Hl; lia). eexists. split; [done|]. exists p, x, i. repeat split; try done; try apply Hi.
    simpl. by destruct (child _ _ _).
  - cbn [length] in Hl. pose proof (child_next p l x i Hp ltac:(lia) Hi) as Hc. cbv zeta in Hc.
    change (locate_loop hhdm (page_va p) (i :: j :: ix) s) with
      ((e ← peek (entry_at (page_va p) i);
        if (Z.land e PTE_PRESENT =? 0) || negb (Z.land e PTE_LARGE =? 0) then mret None
        else locate_loop hhdm (phys_to_virt hhdm (Z.land e PTE_ADDRESS)) (j :: ix)) s).
    erewrite K_bind_ret by reflexivity. set (e := load64 _ _) in *.
    destruct (Z.land e PTE_PRESENT =? 0).
    + eexists. split; [done|]. simpl. by rewrite Hc.
    + destruct Hc as (q & Hc & Hq & Hv & _ & Hlg). rewrite Hlg by lia. cbn [orb negb Z.eqb]. rewrite Hv.
      destruct (IH q _ _ Hq) as (o & Ho & Hd); [done|cbn [length]; lia|done|].
      exists o. split; [done|]. cbn [descend]. rewrite Hc. done.
Qed.

Lemma locate_pte_spec va : 0 ≤ va < USER_TOP →
  ∃ o, locate_pte hhdm (page_va root) va s = Ret (o, s) ∧
    match o with
    | Some a => ∃ t y i, own !! t = Some (3, y) ∧ slot 3 i ∧ a = entry_at (page_va t) i ∧
                  frame_of s root va = child (memory s) t i
    | None => frame_of s root va = None
    end.
Proof.
  intros Hva. pose proof (indices_slots va Hva) as Hs. unfold locate_pte.
  pose proof Hs as [Hi _]. rewrite (proj2 (Z.leb_gt _ _)) by (apply Hi).
  apply (locate_loop_spec (indices va) root 0 0); [apply own_root|done|done|done].
Qed.

Lemma chunk_at_spec address copied size : 0 ≤ address → 0 ≤ copied < size → address + size ≤ USER_TOP →
  chunk_at hhdm (page_va root) address copied size s =
    Ret ((λ q, (page_va q + (address + copied) mod 4096, chunk_of (address + copied) (size - copied))) <$>
           frame_of s root (address + copied), s).
Proof.
  intros Ha Hc Ht. unfold chunk_at. rewrite (proj2 (Z.leb_gt USER_TOP address)) by lia.
  rewrite (proj2 (Z.ltb_ge (USER_TOP - address) copied)) by lia. cbn [orb].
  rewrite u64_small by (unfold USER_TOP in *; lia).
  destruct (locate_pte_spec (address + copied)) as (o & Ho & Hf); [lia|]. rewrite (K_bind_ret _ _ _ _ _ Ho).
  destruct o as [a|]; [|by rewrite Hf]. destruct Hf as (t & y & i & Ht3 & Hi & -> & ->).
  erewrite K_bind_ret by reflexivity. pose proof (child_next t 3 y i Ht3 ltac:(lia) Hi) as Hn. cbv zeta in Hn.
  set (e := load64 _ _) in *. destruct (Z.land e PTE_PRESENT =? 0); [by rewrite Hn|].
  destruct Hn as (q & -> & _ & Hv & _). rewrite Hv. cbn [fmap option_fmap option_map]. unfold chunk_of.
  do 4 f_equal. change (PAGE_SIZE - 1) with (2 ^ 12 - 1). by rewrite land_ones_mod by lia.
Qed.
End Tree.

(** *** Writes to data pages *)

Definition with_mem m s : paging_state := PagingState (set_mem m (pg_mach s)) (pml4_base s).
(** Only pages of data differ. *)
Definition data_only own m m' : Prop :=
  ∀ a, (∀ q x, own !! q = Some (4, x) → ¬ in_page hhdm q a) → m' a = m a.
#[export] Instance data_only_preorder own : PreOrder (data_only own).
Proof. split; [done|]. intros m1 m2 m3 H1 H2 a Ha. by rewrite (H2 a Ha), (H1 a Ha). Qed.

Lemma child_frame m m' p i : 0 ≤ i < 512 → (∀ a, in_page hhdm p a → m' a = m a) → child m' p i = child m p i.
Proof.
  intros Hi Hm. unfold child. rewrite (load64_frame m m'); [done|].
  intros a Ha. apply Hm. by eapply entry_in_page.
Qed.

Section Frame.
Context {s : paging_state} {root : Z} {own : gmap Z (Z * Z)} (Hinv : space_inv s root own).

Lemma data_only_table m' p l x a : data_only own (memory s) m' → own !! p = Some (l, x) → l < 4 →
  in_page hhdm p a → m' a = memory s a.
Proof.
  intros Hd Hp Hl Ha. apply Hd. intros q y Hq Hqa. assert (q = p) as -> by (by eapply in_page_inj).
  rewrite Hq in Hp. injection Hp as <- _. lia.
Qed.

(** Memory in which every user slot leads where it did holds the same tree. *)
Lemma same_children_inv m' :
  (∀ a, in_bitmap hhdm (pg_mach s) a → m' a = memory s a) →
  (∀ p l x i, own !! p = Some (l, x) → l < 4 → slot l i → child m' p i = child (memory s) p i ∧
     (l < 3 → present (load64 m' (entry_at (page_va p) i)) = true →
      Z.land (load64 m' (entry_at (page_va p) i)) PTE_LARGE = 0)) →
  space_inv (with_mem m' s) root own.
Proof.
  intros Hbm Hch. split; cbn [with_mem pg_mach].
  - by apply phys_ok_frame; [apply (sp_phys _ _ _ Hinv)|].
  - apply (sp_small _ _ _ Hinv).
  - apply (sp_root _ _ _ Hinv).
  - rewrite free_set_frame by done. apply (sp_used _ _ _ Hinv).
  - apply (sp_inj _ _ _ Hinv).
  - intros p l x i q Hp Hl Hi Hc. cbn [mem set_mem] in Hc. rewrite (proj1 (Hch p l x i Hp Hl Hi)) in Hc.
    by apply (sp_down _ _ _ Hinv p l x i).
  - intros q l y Hq Hl. destruct (sp_up _ _ _ Hinv q l y Hq Hl) as (p & x & i & Hp & Hi & -> & Hc).
    exists p, x, i. cbn [mem set_mem]. apply (sp_used _ _ _ Hinv) in Hq as (Hr & _).
    rewrite (proj1 (Hch p (l - 1) x i Hp ltac:(lia) Hi)). done.
  - intros p l x i Hp Hl Hi. cbn [mem set_mem]. by apply (Hch p l x i Hp ltac:(lia) Hi).
Qed.

Lemma data_only_bitmap m' a : data_only own (memory s) m' → in_bitmap hhdm (pg_mach s) a → m' a = memory s a.
Proof.
  intros Hd Ha. apply Hd. intros q x Hq Hin.
  by apply (sp_used _ _ _ Hinv) in Hq as (_ & _ & _ & Hcl); eapply Hcl.
Qed.
Lemma data_only_inv m' : data_only own (memory s) m' → space_inv (with_mem m' s) root own.
Proof.
  intros Hd. apply same_children_inv; [intros a; by apply data_only_bitmap|].
  intros p l x i Hp Hl Hi.
  assert (Hpg : ∀ a, in_page hhdm p a → m' a = memory s a) by (intros a; by eapply data_only_table).
  split; [apply child_frame; [by eapply slot_range|done]|].
  intros Hl3. rewrite (load64_frame (memory s) m'); [by apply (sp_large _ _ _ Hinv p l x i)|].
  intros a Ha. apply Hpg. eapply entry_in_page; [by eapply slot_range|done].
Qed.
End Frame.

(** Two invariants with the same pages map the same addresses. *)
Lemma frame_same s s' root own va : space_inv s root own → space_inv s' root own → 0 ≤ va < USER_TOP →
  frame_of s' root va = frame_of s root va.
Proof.
  intros H1 H2 Hva. apply option_eq. intros q. by rewrite (frame_own H1), (frame_own H2).
Qed.

Lemma store_bytes_spec m a bs x :
  store_bytes m a bs x = if (a <=? x) && (x <? a + blen bs) then byte_at bs (x - a) else m x.
Proof.
  revert m a. unfold byte_at, blen. induction bs as [|b bs IH]; intros m a; cbn [store_bytes length].
  - destruct (Z.leb_spec a x), (Z.ltb_spec x (a + Z.of_nat 0)); simpl; lia || done.
  - rewrite IH. unfold store8. destruct (Z.eqb_spec x a) as [->|].
    + replace (a - a) with 0 by lia. repeat zcase; simpl; try lia; done.
    + repeat zcase; simpl; try lia; try done.
      replace (Z.to_nat (x - a)) with (S (Z.to_nat (x - (a + 1)))) by lia. done.
Qed.
Lemma load_bytes_spec m a n i : 0 ≤ i < Z.of_nat n → byte_at (load_bytes m a n) i = m (a + i).
Proof.
  unfold byte_at. revert a i. induction n as [|n IH]; intros a i Hi; [lia|]. cbn [load_bytes].
  destruct (decide (i = 0)) as [->|]; [simpl; f_equal; lia|].
  replace (Z.to_nat i) with (S (Z.to_nat (i - 1))) by lia. cbn [nth]. rewrite IH by lia. f_equal. lia.
Qed.
Lemma load_bytes_length m a n : length (load_bytes m a n) = n.
Proof. revert a. induction n; intros; simpl; auto. Qed.

Lemma vpn_eq va va' : 0 ≤ va < USER_TOP → 0 ≤ va' < USER_TOP → vpn va = vpn va' ↔ va / 4096 = va' / 4096.
Proof.
  unfold USER_TOP, vpn. intros H1 H2. rewrite !Z.mod_small; [done|..];
    (split; [apply Z.div_pos|apply Z.div_lt_upper_bound]; lia).
Qed.

(** Writing inside one page, seen from the process. *)
Lemma write_page s root own a q bs : space_inv s root own → 0 ≤ a → a mod 4096 + blen bs ≤ 4096 →
  a + blen bs ≤ USER_TOP → 0 < blen bs → frame_of s root a = Some q →
  let m' := store_bytes (memory s) (page_va q + a mod 4096) bs in
  data_only own (memory s) m' ∧
  ∀ va, 0 ≤ va < USER_TOP →
    ubyte (with_mem m' s) root va =
      if (a <=? va) && (va <? a + blen bs) then Some (byte_at bs (va - a)) else ubyte s root va.
Proof.
  intros Hinv Ha Hp Ht Hb Hf m'. pose proof Hf as Hq. rewrite (frame_own Hinv) in Hq by lia.
  pose proof (Z.mod_pos_bound a 4096 ltac:(lia)) as Hm.
  assert (Hd : data_only own (memory s) m').
  { intros x Hx. unfold m'. rewrite store_bytes_spec. destruct (_ && _) eqn:E; [|done]. zbool. exfalso.
    apply (Hx q (vpn a) Hq). unfold in_page, PAGE_SIZE. lia. }
  split; [done|]. intros va Hva. unfold ubyte.
  rewrite (frame_same s _ root own) by (done || by apply data_only_inv).
  destruct ((a <=? va) && (va <? a + blen bs)) eqn:E.
  - zbool. assert (Hdv : va / 4096 = a / 4096) by div_mod.
    assert (Hfv : frame_of s root va = Some q).
    { apply (frame_own Hinv); [done|]. by rewrite (proj2 (vpn_eq va a ltac:(lia) ltac:(lia)) Hdv). }
    rewrite Hfv. cbn [fmap option_fmap option_map with_mem pg_mach mem set_mem]. f_equal. unfold m'.
    rewrite store_bytes_spec.
    assert (va mod 4096 = a mod 4096 + (va - a)) as -> by div_mod.
    rewrite (proj2 (Z.leb_le _ _)), (proj2 (Z.ltb_lt _ _)) by lia. simpl. f_equal. lia.
  - destruct (frame_of s root va) as [r|] eqn:Hr; [|done].
    cbn [fmap option_fmap option_map with_mem pg_mach mem set_mem]. f_equal. unfold m'. rewrite store_bytes_spec.
    match goal with |- context [if ?c then _ else _] => destruct c eqn:E2; [|done] end. exfalso.
    apply andb_true_iff in E2 as [E3%Z.leb_le E4%Z.ltb_lt]. pose proof (Z.mod_pos_bound va 4096 ltac:(lia)).
    rewrite (frame_own Hinv) in Hr by done. assert (r = q) as ->.
    { unfold Pages.page_va, PAGE_SIZE in *. lia. }
    rewrite Hq in Hr. injection Hr as Hr. apply vpn_eq in Hr; [|lia|done].
    apply andb_false_iff in E as [E|E]; zbool; div_mod.
Qed.

(** *** The copy loops *)

Lemma ubyte_mapped s root va : is_Some (ubyte s root va) ↔ is_Some (frame_of s root va).
Proof. unfold ubyte. by rewrite fmap_is_Some. Qed.

Lemma sub_bytes (l : list Z) off n i : 0 ≤ off → 0 ≤ i < n → off + n ≤ blen l →
  byte_at (take (Z.to_nat n) (drop (Z.to_nat off) l)) i = byte_at l (off + i) ∧
  blen (take (Z.to_nat n) (drop (Z.to_nat off) l)) = n.
Proof.
  unfold blen, byte_at. intros Ho Hi Hl. split.
  - rewrite nth_firstn, nth_skipn. rewrite (proj2 (Nat.ltb_lt _ _)) by lia. f_equal. lia.
  - rewrite length_take, length_drop. lia.
Qed.

(** What a copy to the space leaves behind: [b] is its result. *)
Record copied_to s root own address source copied (b : bool) (m' : ram) : Prop := {
  ct_data : data_only own (memory s) m';
  ct_out : ∀ va, 0 ≤ va < USER_TOP → ¬ (address + copied ≤ va < address + blen source) →
    ubyte (with_mem m' s) root va = ubyte s root va;
  ct_in : b = true → ∀ va, address + copied ≤ va < address + blen source →
    ubyte (with_mem m' s) root va = Some (byte_at source (va - address));
  ct_fail : b = false → ∃ va, address + copied ≤ va < address + blen source ∧ frame_of s root va = None
}.

Lemma copy_to_loop_spec fuel s root own address source copied :
  space_inv s root own → 0 ≤ address → address + blen source ≤ USER_TOP → 0 ≤ copied ≤ blen source →
  blen source - copied < Z.of_nat fuel →
  ∃ b m', copy_to_loop hhdm fuel (page_va root) address source copied s = Ret (b, with_mem m' s) ∧
    copied_to s root own address source copied b m'.
Proof.
  revert s copied. induction fuel as [|f IH]; intros s copied Hinv Ha Ht Hc Hf; [lia|]. cbn [copy_to_loop].
  destruct (Z.ltb_spec copied (blen source)) as [Hlt|Hge].
  2:{ exists true, (memory s). split; [by destruct s as [[]]|]. split; [done| |intros _ va Hva; lia|done].
      intros va Hva _. by destruct s as [[]]. }
  rewrite (K_bind_ret _ _ _ _ _ (chunk_at_spec Hinv address copied (blen source) Ha ltac:(lia) Ht)).
  set (a := address + copied). destruct (frame_of s root a) as [q|] eqn:Hq.
  2:{ exists false, (memory s). split; [by destruct s as [[]]|]. split; [done| |done|].
      - intros va Hva _. by destruct s as [[]].
      - intros _. exists a. split; [unfold a; lia|done]. }
  cbn [fmap option_fmap option_map]. set (k := chunk_of a (blen source - copied)).
  destruct (chunk_of_spec a (blen source - copied)) as [Hk Hpg]; [unfold a; lia|lia|]. fold k in Hk, Hpg.
  set (bs := take (Z.to_nat k) (drop (Z.to_nat copied) source)).
  assert (Hbs : ∀ i, 0 ≤ i < k → byte_at bs i = byte_at source (copied + i)).
  { intros i Hi. by apply (sub_bytes source copied k i); lia. }
  assert (Hbl : blen bs = k) by (apply (sub_bytes source copied k 0); lia).
  destruct (write_page s root own a q bs) as [Hd1 Hb1]; [done|unfold a; lia|lia|unfold a; lia|lia|done|].
  set (m1 := store_bytes (memory s) (page_va q + a mod 4096) bs) in *.
  rewrite (K_bind_ret _ _ s tt (with_mem m1 s)) by done.
  destruct (IH (with_mem m1 s) (copied + k)) as (b & m2 & Hrun & Hct); [by apply data_only_inv|done|done|lia|lia|].
  exists b, m2. split; [exact Hrun|]. destruct Hct as [Hd2 Ho2 Hi2 Hf2]. cbn [with_mem pg_mach mem set_mem] in Hd2.
  split.
  - by transitivity m1.
  - intros va Hva Hout. change (with_mem m2 s) with (with_mem m2 (with_mem m1 s)). rewrite Ho2, Hb1 by lia.
    destruct (_ && _) eqn:E; [|done]. zbool. unfold a in *. lia.
  - intros Hb va Hin. change (with_mem m2 s) with (with_mem m2 (with_mem m1 s)).
    destruct (decide (address + (copied + k) ≤ va)); [apply Hi2; [done|lia]|].
    rewrite Ho2, Hb1 by lia. rewrite (proj2 (Z.leb_le a va)), (proj2 (Z.ltb_lt va (a + blen bs))) by (unfold a; lia).
    cbn [andb]. rewrite Hbs by (unfold a; lia). do 2 f_equal. unfold a. lia.
  - intros Hb. destruct (Hf2 Hb) as (va & Hva & Hn). exists va. split; [lia|].
    rewrite (frame_same s _ root own) in Hn; [done|done|by apply data_only_inv|lia].
Qed.

Lemma copy_to_space_spec s root own address source :
  space_inv s root own → 0 ≤ address → address + blen source ≤ USER_TOP →
  ∃ b m', copy_to_space hhdm (page_va root) address source s = Ret (b, with_mem m' s) ∧
    copied_to s root own address source 0 b m'.
Proof.
  intros Hinv Ha Ht. apply copy_to_loop_spec; try done; unfold blen; lia.
Qed.

Lemma copy_from_loop_spec fuel s root own address size copied got :
  space_inv s root own → 0 ≤ address → address + size ≤ USER_TOP → 0 ≤ copied ≤ size →
  size - copied < Z.of_nat fuel → blen got = copied →
  (∀ i, 0 ≤ i < copied → ubyte s root (address + i) = Some (byte_at got i)) →
  ∃ r, copy_from_loop hhdm fuel (page_va root) address size copied got s = Ret (r, s) ∧
    match r with
    | Some bs => blen bs = size ∧ ∀ i, 0 ≤ i < size → ubyte s root (address + i) = Some (byte_at bs i)
    | None => ∃ i, 0 ≤ i < size ∧ frame_of s root (address + i) = None
    end.
Proof.
  intros Hinv Ha Ht. revert copied got. induction fuel as [|f IH]; intros copied got Hc Hf Hg Hb; [lia|].
  cbn [copy_from_loop]. destruct (Z.ltb_spec copied size) as [Hlt|Hge].
  2:{ exists (Some got). split; [done|]. split; [lia|]. intros i Hi. apply Hb. lia. }
  rewrite (K_bind_ret _ _ _ _ _ (chunk_at_spec Hinv address copied size Ha ltac:(lia) Ht)).
  set (a := address + copied). destruct (frame_of s root a) as [q|] eqn:Hq.
  2:{ exists None. split; [done|]. exists copied. split; [lia|done]. }
  cbn [fmap option_fmap option_map]. set (k := chunk_of a (size - copied)).
  destruct (chunk_of_spec a (size - copied)) as [Hk Hpg]; [unfold a; lia|lia|]. fold k in Hk, Hpg.
  erewrite K_bind_ret by reflexivity. set (bs := load_bytes _ _ _).
  assert (Hbl : blen bs = k) by (unfold blen, bs; rewrite load_bytes_length; lia).
  apply IH; [lia|lia|unfold blen in *; rewrite length_app; lia|].
  intros i Hi. unfold byte_at. destruct (decide (i < copied)).
  - rewrite app_nth1 by (unfold blen in *; lia). apply Hb. lia.
  - rewrite app_nth2 by (unfold blen in *; lia).
    replace (Z.to_nat i - length got)%nat with (Z.to_nat (i - copied)) by (unfold blen in *; lia).
    fold (byte_at bs (i - copied)). unfold bs. rewrite load_bytes_spec by lia. unfold ubyte.
    assert (Hd : (address + i) / 4096 = a / 4096) by (unfold a in *; div_mod).
    assert (Hfr : frame_of s root (address + i) = Some q).
    { apply (frame_own Hinv); [lia|]. rewrite (proj2 (vpn_eq (address + i) a ltac:(lia) ltac:(unfold a; lia)) Hd).
      apply (frame_own Hinv); [unfold a; lia|done]. }
    rewrite Hfr. cbn [fmap option_fmap option_map]. do 2 f_equal. unfold a in *. div_mod.
Qed.
End Space.
