(* ===== verification/SpaceMap.v ===== *)
(** * Mapping pages into an address space

    map_user_page adds what is missing on the way to a page: tables and, at the
    end, a zeroed page of data. [grows] is what such steps do to an address
    space: they keep everything that was mapped, add zeroed pages, and touch
    only pages that were free and the space's own tables. *)

From S2P Require Import Prelude Bytes Mem KString Errno Pmm Pages Paging PagingSpec Alloc Vfs Elf Apic UserCopy.
From S2P Require Import UserCopySpec ElfExec SpaceSpec.

Section SpaceMap.
Context (hhdm : Z).
Implicit Types (s : paging_state) (m : ram) (own : gmap Z (Z * Z)).
Abbreviation page_va := (page_va hhdm).
Abbreviation memory s := (mem (pg_mach s)).
Abbreviation space_inv := (space_inv hhdm).
Abbreviation child := (child hhdm).
Abbreviation free s := (free_set hhdm (pg_mach s)).

(** ** Entries *)

Lemma land_u64 e mask : Z.land (Z.ones 64) mask = mask → Z.land (u64 e) mask = Z.land e mask.
Proof. intros H. unfold u64. by rewrite <- Z.land_ones, <- Z.land_assoc, H by lia. Qed.

(** The entry leads to page [q] and is not a large page. *)
Definition leads (e q : Z) : Prop :=
  Z.land e PTE_PRESENT = PTE_PRESENT ∧ Z.land e PTE_ADDRESS = q * PAGE_SIZE.
Lemma leads_child m t i e q :
  load64 m (entry_at (page_va t) i) = u64 e → leads e q → child m t i = Some q.
Proof.
  intros Hl [Hp Ha]. unfold SpaceSpec.child, present. rewrite Hl, !land_u64 by done. rewrite Hp, Ha. cbn [negb].
  unfold PAGE_SIZE. by rewrite Z.div_mul.
Qed.

Lemma child_leads m t i q : child m t i = Some q → leads (load64 m (entry_at (page_va t) i)) q.
Proof.
  intros [Ha Hp]%child_address. split; [|done]. apply present_odd in Hp. unfold PTE_PRESENT.
  change 1 with (2 ^ 1 - 1) at 1. by rewrite land_ones_mod by lia.
Qed.

Definition good_flags (f : Z) : Prop := Z.land f PTE_ADDRESS = 0.
Lemma leads_lor e q f : leads e q → good_flags f → leads (Z.lor e f) q.
Proof.
  intros [Hp Ha] Hf. split.
  - rewrite Z.land_lor_distr_l, Hp. apply Z.bits_inj'. intros n Hn. rewrite Z.lor_spec, Z.land_spec.
    by destruct (Z.testbit PTE_PRESENT n); rewrite ?andb_false_r.
  - by rewrite Z.land_lor_distr_l, Ha, Hf, Z.lor_0_r.
Qed.
Lemma leads_unnx e q : leads e q → leads (Z.land e (u64 (Z.lnot PTE_NX))) q.
Proof. intros [Hp Ha]. split; by rewrite <- Z.land_assoc. Qed.
Lemma leads_page n : 0 ≤ n < 2 ^ 40 → leads (Z.lor (n * PAGE_SIZE) PTE_PRESENT) n.
Proof.
  intros Hn. split.
  - rewrite Z.land_lor_distr_l. apply Z.bits_inj'. intros k Hk. rewrite Z.lor_spec, !Z.land_spec.
    by destruct (Z.testbit PTE_PRESENT k); rewrite ?andb_false_r, ?orb_true_r.
  - rewrite Z.land_lor_distr_l. change (Z.land PTE_PRESENT PTE_ADDRESS) with 0. rewrite Z.lor_0_r, address_mask.
    unfold PAGE_SIZE. rewrite Z.div_mul, Z.mod_small by lia. done.
Qed.
Lemma not_large_page n : Z.land (n * PAGE_SIZE) PTE_LARGE = 0.
Proof.
  unfold PAGE_SIZE. change 4096 with (2 ^ 12). apply Z.bits_inj'. intros k Hk. rewrite Z.land_spec, Z.bits_0.
  destruct (decide (k = 7)) as [->|].
  - rewrite Z.mul_pow2_bits_low by lia. done.
  - change PTE_LARGE with (2 ^ 7). rewrite Z.pow2_bits_false by lia. apply andb_false_r.
Qed.

(** ** Growth *)

Record grows (P : Z → Prop) root s own s' own' : Prop := {
  gr_inv : space_inv s' root own';
  gr_sub : own ⊆ own';
  gr_base : pml4_base s' = pml4_base s;
  gr_total : total_pages (pg_mach s') = total_pages (pg_mach s);
  gr_bitmap : bitmap (pg_mach s') = bitmap (pg_mach s);
  gr_free : free s' ⊆ free s;
  gr_kept : ∀ q, q ∈ free s → q ∈ free s' ∨ is_Some (own' !! q);
  gr_new : ∀ q l y, own' !! q = Some (l, y) → own !! q = None →
    q ∈ free s ∧ (l = 4 → P y ∧ ∀ a, in_page hhdm q a → memory s' a = 0);
  gr_data : ∀ q y a, own !! q = Some (4, y) → in_page hhdm q a → memory s' a = memory s a;
  gr_out : ∀ a, (∀ q, is_Some (own' !! q) → ¬ in_page hhdm q a) → ¬ in_bitmap hhdm (pg_mach s) a →
    memory s' a = memory s a;
  gr_kernel : ∀ i, 256 ≤ i < 512 →
    load64 (memory s') (entry_at (page_va root) i) = load64 (memory s) (entry_at (page_va root) i)
}.

Lemma grows_refl P root s own : space_inv s root own → grows P root s own s own.
Proof. intros Hinv. split; try done; [by left|]. intros q l y H1 H2. congruence. Qed.

Lemma grows_trans P root s1 o1 s2 o2 s3 o3 :
  grows P root s1 o1 s2 o2 → grows P root s2 o2 s3 o3 → grows P root s1 o1 s3 o3.
Proof.
  intros A B. split.
  - apply (gr_inv _ _ _ _ _ _ B).
  - etrans; [apply (gr_sub _ _ _ _ _ _ A)|apply (gr_sub _ _ _ _ _ _ B)].
  - rewrite (gr_base _ _ _ _ _ _ B). apply (gr_base _ _ _ _ _ _ A).
  - rewrite (gr_total _ _ _ _ _ _ B). apply (gr_total _ _ _ _ _ _ A).
  - rewrite (gr_bitmap _ _ _ _ _ _ B). apply (gr_bitmap _ _ _ _ _ _ A).
  - etrans; [apply (gr_free _ _ _ _ _ _ B)|apply (gr_free _ _ _ _ _ _ A)].
  - intros q [Hq|[k Hq]]%(gr_kept _ _ _ _ _ _ A); [by apply (gr_kept _ _ _ _ _ _ B)|right].
    exists k. eapply lookup_weaken; [done|apply (gr_sub _ _ _ _ _ _ B)].
  - intros q l y H3 H1. destruct (o2 !! q) as [[l2 y2]|] eqn:H2.
    + assert (E : o3 !! q = Some (l2, y2)) by (eapply lookup_weaken; [done|apply (gr_sub _ _ _ _ _ _ B)]).
      rewrite H3 in E. injection E as <- <-. destruct (gr_new _ _ _ _ _ _ A q l y H2 H1) as [Hf Hz].
      split; [done|]. intros ->. destruct (Hz eq_refl) as [Hp Hz']. split; [done|]. intros a Ha.
      rewrite (gr_data _ _ _ _ _ _ B q y a) by done. by apply Hz'.
    + destruct (gr_new _ _ _ _ _ _ B q l y H3 H2) as [Hf Hz]. split; [|done].
      by apply (gr_free _ _ _ _ _ _ A).
  - intros q y a Hq Ha. rewrite (gr_data _ _ _ _ _ _ B q y a), (gr_data _ _ _ _ _ _ A q y a); try done.
    eapply lookup_weaken; [done|apply (gr_sub _ _ _ _ _ _ A)].
  - intros a Hout Hbm. rewrite (gr_out _ _ _ _ _ _ B), (gr_out _ _ _ _ _ _ A); try done.
    + intros q [k Hk]. apply Hout. exists k. eapply lookup_weaken; [done|apply (gr_sub _ _ _ _ _ _ B)].
    + unfold in_bitmap. by rewrite (gr_bitmap _ _ _ _ _ _ A), (gr_total _ _ _ _ _ _ A).
  - intros i Hi. by rewrite (gr_kernel _ _ _ _ _ _ B), (gr_kernel _ _ _ _ _ _ A).
Qed.

(** *** A new page in an empty slot *)

Section Link.
Context (s s2 : paging_state) (root : Z) (own : gmap Z (Z * Z)) (t l x i n : Z).
Context (Hinv : space_inv s root own) (Ht : own !! t = Some (l, x)) (Hl : l < 4) (Hi : slot l i).
Context (Hnone : child (memory s) t i = None) (Hfree : n ∈ free s).
Context (Hphys : phys_ok hhdm (pg_mach s2)) (Htot : total_pages (pg_mach s2) = total_pages (pg_mach s))
  (Hbm : bitmap (pg_mach s2) = bitmap (pg_mach s)) (Hfs : free s2 = free s ∖ {[n]}) (Hn0 : 0 < n).
Context (Hout : ∀ a, ¬ in_page hhdm n a → ¬ in_bitmap hhdm (pg_mach s) a →
  ¬ (entry_at (page_va t) i ≤ a < entry_at (page_va t) i + 8) → memory s2 a = memory s a).
Context (Hnew : child (memory s2) t i = Some n)
  (Hlarge : l < 3 → Z.land (load64 (memory s2) (entry_at (page_va t) i)) PTE_LARGE = 0)
  (Hzero : ∀ a, in_page hhdm n a → memory s2 a = 0).
Abbreviation own' := (<[n := (l + 1, x * 512 + i)]> own).

Lemma fresh p k : own !! p = Some k → p ≠ n.
Proof. destruct k. intros Hp ->. by apply (sp_used _ _ _ _ Hinv) in Hp as (_ & _ & Hp & _). Qed.
Lemma fresh_none : own !! n = None.
Proof. destruct (own !! n) as [k|] eqn:E; [|done]. by apply fresh in E. Qed.

Lemma keep p k a : own !! p = Some k → in_page hhdm p a →
  ¬ (entry_at (page_va t) i ≤ a < entry_at (page_va t) i + 8) → memory s2 a = memory s a.
Proof.
  destruct k as [kl kx]. intros Hp Ha He. apply Hout; [| |done].
  - intros Hn. apply fresh in Hp as Hne. apply Hne. by eapply in_page_inj.
  - by apply (sp_used _ _ _ _ Hinv) in Hp as (_ & _ & _ & Hp); apply Hp.
Qed.
Lemma load_other p k j : own !! p = Some k → 0 ≤ j < 512 → (p, j) ≠ (t, i) →
  load64 (memory s2) (entry_at (page_va p) j) = load64 (memory s) (entry_at (page_va p) j).
Proof.
  intros Hp Hj Hne. apply load64_frame. intros a Ha. eapply keep; [done|by eapply entry_in_page|].
  destruct (entry_disjoint hhdm p j t i Hj (slot_range _ _ Hi) Hne); lia.
Qed.
Lemma child_other p k j : own !! p = Some k → 0 ≤ j < 512 → (p, j) ≠ (t, i) → child (memory s2) p j = child (memory s) p j.
Proof. intros. unfold SpaceSpec.child. by erewrite load_other. Qed.
Lemma child_new j : 0 ≤ j < 512 → load64 (memory s2) (entry_at (page_va n) j) = 0.
Proof.
  intros Hj. rewrite (load64_frame (λ _, 0)); [done|]. intros a Ha. apply Hzero. by eapply entry_in_page.
Qed.
Lemma key_new p : own !! p = Some (l + 1, x * 512 + i) → False.
Proof.
  intros Hp. destruct (sp_used _ _ _ _ Hinv _ _ _ Ht) as (Hr & _).
  destruct (sp_up _ _ _ _ Hinv p _ _ Hp ltac:(lia)) as (p' & x' & i' & Hp' & Hi' & He & Hc).
  replace (l + 1 - 1) with l in * by lia. pose proof (slot_range _ _ Hi). pose proof (slot_range _ _ Hi').
  assert (x' = x) as -> by lia. assert (i' = i) as -> by lia.
  rewrite (sp_inj _ _ _ _ Hinv p' t _ Hp' Ht) in Hc. congruence.
Qed.

Lemma link_inv : space_inv s2 root own'.
Proof.
  destruct (sp_used _ _ _ _ Hinv _ _ _ Ht) as (Hlr & _).
  assert (Hcl : ∀ p, clear_page hhdm (pg_mach s) p → clear_page hhdm (pg_mach s2) p).
  { intros p Hp a Ha. unfold in_bitmap. rewrite Hbm, Htot. by apply Hp. }
  split.
  - done.
  - rewrite Htot. apply (sp_small _ _ _ _ Hinv).
  - intros q y. rewrite <- (sp_root _ _ _ _ Hinv q y). destruct (decide (q = n)) as [->|Hne].
    + rewrite lookup_insert_eq, fresh_none. split; [|done]. intros [= ?]. lia.
    + by rewrite lookup_insert_ne.
  - intros p l' x' Hp. rewrite Hfs, Htot. apply lookup_insert_Some in Hp as [[<- [= <- <-]]|[Hne Hp]].
    + pose proof Hfree as Hf. apply elem_of_free_set in Hf as [Hf _].
      split; [lia|]. split; [lia|]. split; [set_solver|]. by apply Hcl, (po_bitmap _ _ (sp_phys _ _ _ _ Hinv)).
    + destruct (sp_used _ _ _ _ Hinv _ _ _ Hp) as (? & ? & ? & ?). repeat split; try lia; [set_solver|by apply Hcl].
  - intros p q k Hp Hq. apply lookup_insert_Some in Hp as [[<- <-]|[Hpn Hp]];
      apply lookup_insert_Some in Hq as [[<- Hk]|[Hqn Hq]]; try done.
    + by apply key_new in Hq.
    + subst k. by apply key_new in Hp.
    + by eapply (sp_inj _ _ _ _ Hinv).
  - intros p l' x' j q Hp Hl' Hj Hc. pose proof (slot_range _ _ Hj) as Hjr.
    apply lookup_insert_Some in Hp as [[<- _]|[Hpn Hp]].
    { unfold SpaceSpec.child in Hc. by rewrite child_new in Hc. }
    destruct (decide ((p, j) = (t, i))) as [[= -> ->]|Hne].
    + rewrite Hnew in Hc. injection Hc as <-. rewrite Ht in Hp. injection Hp as <- <-. apply lookup_insert_eq.
    + erewrite child_other in Hc by done. apply (sp_down _ _ _ _ Hinv _ _ _ _ _ Hp Hl' Hj) in Hc.
      by rewrite lookup_insert_ne by (apply not_eq_sym; by eapply fresh).
  - intros q l' y Hq Hl'. apply lookup_insert_Some in Hq as [[<- [= <- <-]]|[Hqn Hq]].
    + exists t, x, i. replace (l + 1 - 1) with l by lia.
      by rewrite lookup_insert_ne by (apply not_eq_sym; by eapply fresh).
    + destruct (sp_up _ _ _ _ Hinv q l' y Hq Hl') as (p & x' & j & Hp & Hj & -> & Hc).
      exists p, x', j. rewrite lookup_insert_ne by (apply not_eq_sym; by eapply fresh). do 3 (split; [done|]).
      erewrite child_other; [done|done|by eapply slot_range|]. intros [= -> ->]. congruence.
  - intros p l' x' j Hp Hl' Hj. pose proof (slot_range _ _ Hj) as Hjr.
    apply lookup_insert_Some in Hp as [[<- _]|[Hpn Hp]]; [by rewrite child_new|].
    destruct (decide ((p, j) = (t, i))) as [[= -> ->]|Hne].
    + rewrite Ht in Hp. injection Hp as <- <-. intros _. by apply Hlarge.
    + erewrite load_other by done. by apply (sp_large _ _ _ _ Hinv p l' x' j).
Qed.

Lemma link_grows (P : Z → Prop) : pml4_base s2 = pml4_base s → (l = 3 → P (x * 512 + i)) →
  grows P root s own s2 own'.
Proof.
  intros Hb HP. split.
  - apply link_inv.
  - apply insert_subseteq, fresh_none.
  - done.
  - done.
  - done.
  - rewrite Hfs. set_solver.
  - intros q Hq. destruct (decide (q = n)) as [->|]; [right; by rewrite lookup_insert_eq|left; rewrite Hfs; set_solver].
  - intros q l' y Hq Hq0. apply lookup_insert_Some in Hq as [[<- [= <- <-]]|[_ Hq]]; [|congruence].
    split; [done|]. intros Hl4. split; [apply HP; lia|done].
  - intros q y a Hq Ha. eapply keep; [done|done|]. intros He.
    assert (Hta : in_page hhdm t a) by (eapply entry_in_page; [by eapply slot_range|done]).
    assert (q = t) as -> by (by eapply in_page_inj). rewrite Ht in Hq. injection Hq as -> _. lia.
  - intros a Ho Hbm'. apply Hout; [|done|].
    + apply Ho. exists (l + 1, x * 512 + i). apply lookup_insert_eq.
    + intros He. apply (Ho t); [exists (l, x); by rewrite lookup_insert_ne by (apply not_eq_sym; by eapply fresh)|].
      eapply entry_in_page; [by eapply slot_range|done].
  - intros j Hj. eapply load_other; [apply (own_root _ Hinv)|lia|]. intros [= <- <-].
    rewrite (own_root _ Hinv) in Ht. injection Ht as <- _. destruct Hi as [_ Hi2]. cbn in Hi2. lia.
Qed.
End Link.

(** *** Changing the flags of an entry *)

Lemma reflag_grows P s root own t l x i q e : space_inv s root own → own !! t = Some (l, x) → l < 4 → slot l i →
  child (memory s) t i = Some q → leads e q → (l < 3 → Z.land e PTE_LARGE = 0) →
  grows P root s own (with_mem (store64 (memory s) (entry_at (page_va t) i) e) s) own.
Proof.
  intros Hinv Ht Hl Hi Hc He Hlg. pose proof (slot_range _ _ Hi) as Hir.
  set (m2 := store64 _ _ _).
  assert (Hin : ∀ a, entry_at (page_va t) i ≤ a < entry_at (page_va t) i + 8 → in_page hhdm t a)
    by (intros a Ha; by eapply entry_in_page).
  assert (Hother : ∀ p k j, own !! p = Some k → 0 ≤ j < 512 → (p, j) ≠ (t, i) →
    load64 m2 (entry_at (page_va p) j) = load64 (memory s) (entry_at (page_va p) j)).
  { intros p k j Hp Hj Hne. apply load64_store64_ne. by apply entry_disjoint. }
  assert (Hbm : ∀ a, in_bitmap hhdm (pg_mach s) a → m2 a = memory s a).
  { intros a Ha. apply store64_out. intros Hb%Hin.
    by apply (sp_used _ _ _ _ Hinv) in Ht as (_ & _ & _ & Hcl); eapply Hcl. }
  assert (Hfree : free (with_mem m2 s) = free s) by (by apply free_set_frame).
  split; try done.
  - apply (same_children_inv hhdm Hinv); [done|].
    intros p l' x' j Hp Hl' Hj. destruct (decide ((p, j) = (t, i))) as [[= -> ->]|Hne].
    + assert (Hld : load64 m2 (entry_at (page_va t) i) = u64 e) by apply load64_store64_eq.
      rewrite Hc. split; [by eapply leads_child|]. rewrite Ht in Hp. injection Hp as <- <-.
      intros Hl3 _. rewrite Hld, land_u64 by done. by apply Hlg.
    + assert (Hld := Hother p _ j Hp (slot_range _ _ Hj) Hne). unfold SpaceSpec.child. rewrite Hld.
      split; [done|]. intros Hl3. by apply (sp_large _ _ _ _ Hinv p l' x' j).
  - by rewrite Hfree.
  - rewrite Hfree. by left.
  - intros p l' y H1 H2. congruence.
  - intros p y a Hp Ha. apply store64_out. intros Hb%Hin. assert (p = t) as -> by (by eapply in_page_inj).
    rewrite Ht in Hp. injection Hp as -> _. lia.
  - intros a Ho _. apply store64_out. intros Hb%Hin. by apply (Ho t).
  - intros j Hj. eapply Hother; [apply (own_root _ Hinv)|lia|]. intros [= <- <-].
    rewrite (own_root _ Hinv) in Ht. injection Ht as <- _. destruct Hi as [_ Hi2]. cbn in Hi2. lia.
Qed.

(** *** Taking a page *)

Record taken s s1 n : Prop := {
  tk_page : 0 < n < total_pages (pg_mach s);
  tk_was : n ∈ free s;
  tk_phys : phys_ok hhdm (pg_mach s1);
  tk_total : total_pages (pg_mach s1) = total_pages (pg_mach s);
  tk_bitmap : bitmap (pg_mach s1) = bitmap (pg_mach s);
  tk_free : free s1 = free s ∖ {[n]};
  tk_base : pml4_base s1 = pml4_base s;
  tk_zero : ∀ a, in_page hhdm n a → memory s1 a = 0;
  tk_out : ∀ a, ¬ in_page hhdm n a → ¬ in_bitmap hhdm (pg_mach s) a → memory s1 a = memory s a
}.

Lemma allocate_spec s : phys_ok hhdm (pg_mach s) →
  allocate_zeroed_page hhdm s = Ret (0, s) ∧ free s = ∅ ∨
  ∃ n s1, allocate_zeroed_page hhdm s = Ret (n * PAGE_SIZE, s1) ∧ taken s s1 n.
Proof.
  intros Hok. unfold allocate_zeroed_page. destruct (allocPage hhdm (pg_mach s)) as [p mc] eqn:Ha.
  rewrite (K_bind_ret (pmm_allocPage hhdm) _ s p (PagingState mc (pml4_base s)))
    by (unfold pmm_allocPage; by rewrite Ha).
  destruct (allocPages_pages hhdm (pg_mach s) 1 p mc Hok ltac:(lia) Ha) as (Hok1 & Hob & Hcase).
  assert (H1 : ∀ n, page_range n 1 = {[n]}).
  { intros n. apply set_eq. intros k. rewrite elem_of_page_range, elem_of_singleton. lia. }
  destruct Hcase as [(-> & -> & Hno)|(n & -> & Hn & Htot & Hsub & Hfs)].
  - left. split; [by destruct s|]. apply set_eq. intros k. split; [|set_solver]. intros Hk. exfalso.
    apply (Hno k). unfold free_run. rewrite H1. set_solver.
  - right. rewrite H1 in Hsub, Hfs. rewrite (proj2 (Z.eqb_neq _ _)) by (unfold PAGE_SIZE; lia).
    rewrite (phys_to_virt_page hhdm (pg_mach s)) by (done || lia).
    erewrite K_bind_ret by reflexivity. eexists n, _. split; [done|].
    assert (Hnf : n ∈ free s) by set_solver.
    assert (Hcl : clear_page hhdm (pg_mach s) n) by (by apply (po_bitmap _ _ Hok)).
    cbn [pg_mach pml4_base].
    assert (Hms : ∀ a, (memset (page_va n) 0 4096 (mem mc)).2 a = if decide (in_page hhdm n a) then 0 else mem mc a).
    { intros a. rewrite memset_spec by lia. unfold in_page, PAGE_SIZE.
      destruct (decide _); repeat zcase; simpl; try lia; done. }
    assert (Hbm : ∀ a, in_bitmap hhdm mc a → (memset (page_va n) 0 4096 (mem mc)).2 a = mem mc a).
    { intros a Hb. rewrite Hms. destruct (decide _) as [Hin|]; [|done]. exfalso.
      by eapply (clear_page_stable hhdm (pg_mach s) mc n). }
    split; cbn [pg_mach pml4_base]; try done.
    + lia.
    + by apply phys_ok_frame.
    + apply (ob_total _ _ _ Hob).
    + apply (ob_bitmap _ _ _ Hob).
    + rewrite free_set_frame by done. exact Hfs.
    + intros a Hin. cbn [mem set_mem]. rewrite Hms. by destruct (decide _).
    + intros a Hin Hb. cbn [mem set_mem]. rewrite Hms. destruct (decide _); [done|]. by apply (ob_mem _ _ _ Hob).
Qed.

(** A page taken and linked. *)
Lemma take_link P s s1 root own t l x i n e : space_inv s root own → own !! t = Some (l, x) → l < 4 → slot l i →
  child (memory s) t i = None → taken s s1 n → leads e n → (l < 3 → Z.land e PTE_LARGE = 0) →
  (l = 3 → P (x * 512 + i)) →
  ∃ s2, poke (entry_at (page_va t) i) e s1 = Ret (tt, s2) ∧
    grows P root s own s2 (<[n := (l + 1, x * 512 + i)]> own).
Proof.
  intros Hinv Ht Hl Hi Hc Htk He Hlg HP. pose proof (slot_range _ _ Hi) as Hir. eexists. split; [done|].
  destruct (sp_used _ _ _ _ Hinv _ _ _ Ht) as (_ & _ & Htf & Htc).
  assert (Hin : ∀ a, entry_at (page_va t) i ≤ a < entry_at (page_va t) i + 8 → in_page hhdm t a)
    by (intros a Ha; by eapply entry_in_page).
  assert (Hbm : ∀ a, in_bitmap hhdm (pg_mach s1) a →
    store64 (memory s1) (entry_at (page_va t) i) e a = memory s1 a).
  { intros a Ha. apply store64_out. intros Hb%Hin. apply (Htc a Hb). revert Ha. unfold in_bitmap.
    by rewrite (tk_bitmap _ _ _ Htk), (tk_total _ _ _ Htk). }
  apply (link_grows s _ root own t l x i n); try done; cbn [pg_mach mem set_mem pml4_base].
  - apply (tk_was _ _ _ Htk).
  - apply phys_ok_frame; [apply (tk_phys _ _ _ Htk)|done].
  - apply (tk_total _ _ _ Htk).
  - apply (tk_bitmap _ _ _ Htk).
  - rewrite free_set_frame by done. apply (tk_free _ _ _ Htk).
  - apply (tk_page _ _ _ Htk).
  - intros a Hn Hb Hne. rewrite store64_out by done. by apply (tk_out _ _ _ Htk).
  - eapply leads_child; [apply load64_store64_eq|done].
  - intros Hl3. rewrite load64_store64_eq, land_u64 by done. by apply Hlg.
  - intros a Ha. rewrite store64_out; [by apply (tk_zero _ _ _ Htk)|]. intros Hb%Hin.
    assert (n = t) as -> by (by eapply in_page_inj). apply Htf, (tk_was _ _ _ Htk).
  - apply (tk_base _ _ _ Htk).
Qed.

(** ** map_user_page *)

Definition mapped_or_full (b : bool) s own (v : Z) : Prop :=
  if b then ∃ q, own !! q = Some (4, v) else free s = ∅.

Lemma map_leaf_spec P s root own t y i flags : space_inv s root own → own !! t = Some (3, y) → slot 3 i →
  good_flags flags → P (y * 512 + i) →
  ∃ b s' own', map_loop hhdm (page_va t) [i] flags s = Ret (b, s') ∧ grows P root s own s' own' ∧
    mapped_or_full b s' own' (y * 512 + i).
Proof.
  intros Hinv Ht Hi Hfl HP. pose proof (child_next hhdm Hinv t 3 y i Ht ltac:(lia) Hi) as Hc. cbv zeta in Hc.
  cbn [map_loop]. erewrite K_bind_ret by reflexivity. set (e := load64 _ _) in *.
  destruct (Z.land e PTE_PRESENT =? 0) eqn:Ep.
  - destruct (allocate_spec s (sp_phys _ _ _ _ Hinv)) as [[Ha Hf]|(n & s1 & Ha & Htk)]; rewrite (K_bind_ret _ _ _ _ _ Ha).
    { exists false, s, own. split; [done|]. split; [by apply grows_refl|done]. }
    pose proof (tk_page _ _ _ Htk) as Hn. rewrite (proj2 (Z.eqb_neq _ _)) by (unfold PAGE_SIZE; lia).
    destruct (take_link P s s1 root own t 3 y i n
      (Z.lor (Z.lor (Z.lor (n * PAGE_SIZE) PTE_PRESENT) PTE_USER) flags)) as (s2 & Hp & Hg); try done.
    { apply leads_lor; [apply leads_lor; [apply leads_page; pose proof (sp_small _ _ _ _ Hinv); lia|done]|done]. }
    rewrite (K_bind_ret _ _ _ _ _ Hp). exists true, s2, (<[n:=(3 + 1, y * 512 + i)]> own). split; [done|].
    split; [done|]. exists n. apply lookup_insert_eq.
  - destruct Hc as (q & Hc & Hq & _ & Ha & _).
    assert (He : leads e q) by (by apply child_leads).
    assert (He' : leads (Z.lor e (Z.land flags PTE_WRITABLE)) q).
    { apply leads_lor; [done|]. unfold good_flags. rewrite <- Z.land_assoc. apply Z.land_0_r. }
    exists true. eexists _, own. split.
    + erewrite K_bind_ret by reflexivity. done.
    + split; [|by exists q]. apply (reflag_grows P s root own t 3 y i q); try done.
      destruct (Z.land flags PTE_NX =? 0); [by apply leads_unnx|done].
Qed.

Lemma map_loop_cons table i ix flags : ix ≠ [] →
  map_loop hhdm table (i :: ix) flags =
    (entry ← peek (entry_at table i);
     if Z.land entry PTE_PRESENT =? 0 then
       table_phys ← allocate_zeroed_page hhdm;
       if table_phys =? 0 then mret false
       else
         let entry := Z.lor (Z.lor (Z.lor table_phys PTE_PRESENT) PTE_WRITABLE) PTE_USER in
         poke (entry_at table i) entry ≫= λ _,
         map_loop hhdm (phys_to_virt hhdm (Z.land entry PTE_ADDRESS)) ix flags
     else if negb (Z.land entry PTE_LARGE =? 0) then mret false
     else
       let entry := Z.lor entry PTE_USER in
       poke (entry_at table i) entry ≫= λ _,
       map_loop hhdm (phys_to_virt hhdm (Z.land entry PTE_ADDRESS)) ix flags).
Proof. by destruct ix. Qed.

Lemma map_loop_spec P ix s root own p l x flags : space_inv s root own → own !! p = Some (l, x) → ix ≠ [] →
  l + Z.of_nat (length ix) = 4 → slots l ix → good_flags flags → P (compose x ix) →
  ∃ b s' own', map_loop hhdm (page_va p) ix flags s = Ret (b, s') ∧ grows P root s own s' own' ∧
    mapped_or_full b s' own' (compose x ix).
Proof.
  revert s own p l x. induction ix as [|i ix IH]; intros s own p l x Hinv Hp Hne Hl Hs Hfl HP; [done|].
  destruct Hs as [Hi Hs]. cbn [length] in Hl. destruct ix as [|j ix].
  { assert (l = 3) as -> by (cbn in Hl; lia). by apply map_leaf_spec. }
  pose proof (child_next hhdm Hinv p l x i Hp ltac:(cbn [length] in Hl; lia) Hi) as Hc. cbv zeta in Hc.
  remember (j :: ix) as ix' eqn:Eix. assert (Hne' : ix' ≠ []) by (by subst). assert (Hl3 : l < 3) by (subst; cbn [length] in Hl; lia).
  assert (Hgo : ∀ s1 own1 q, grows P root s own s1 own1 → own1 !! q = Some (l + 1, x * 512 + i) →
    ∃ b s' own', map_loop hhdm (page_va q) ix' flags s1 = Ret (b, s') ∧ grows P root s own s' own' ∧
      mapped_or_full b s' own' (compose x (i :: ix'))).
  { intros s1 own1 q Hg Hq. destruct (IH s1 own1 q _ _ (gr_inv _ _ _ _ _ _ Hg) Hq) as (b & s' & own' & Hr & Hg2 & Hm);
      [done|lia|done|done|done|]. exists b, s', own'. split; [done|]. split; [by eapply grows_trans|done]. }
  rewrite map_loop_cons by done. erewrite K_bind_ret by reflexivity. set (e := load64 _ _) in *.
  destruct (Z.land e PTE_PRESENT =? 0) eqn:Ep.
  - destruct (allocate_spec s (sp_phys _ _ _ _ Hinv)) as [[Ha Hf]|(n & s1 & Ha & Htk)]; rewrite (K_bind_ret _ _ _ _ _ Ha).
    { exists false, s, own. split; [done|]. split; [by apply grows_refl|done]. }
    pose proof (tk_page _ _ _ Htk) as Hn. pose proof (sp_small _ _ _ _ Hinv) as Hsm.
    rewrite (proj2 (Z.eqb_neq _ _)) by (unfold PAGE_SIZE; lia).
    set (e' := Z.lor (Z.lor (Z.lor (n * PAGE_SIZE) PTE_PRESENT) PTE_WRITABLE) PTE_USER).
    assert (He : leads e' n) by (apply leads_lor; [apply leads_lor; [apply leads_page; lia|done]|done]).
    destruct (take_link P s s1 root own p l x i n e') as (s2 & Hpk & Hg); try done; [lia| |lia|].
    { intros _. unfold e'. by rewrite !Z.land_lor_distr_l, not_large_page. }
    rewrite (K_bind_ret _ _ _ _ _ Hpk). rewrite (proj2 He).
    rewrite (phys_to_virt_page hhdm (pg_mach s)) by (try apply (sp_phys _ _ _ _ Hinv); lia).
    apply (Hgo s2 (<[n := (l + 1, x * 512 + i)]> own)); [done|apply lookup_insert_eq].
  - destruct Hc as (q & Hc & Hq & _ & Ha & Hlg). rewrite Hlg by done. cbn [negb Z.eqb].
    assert (He : leads (Z.lor e PTE_USER) q).
    { apply leads_lor; [by apply child_leads|done]. }
    erewrite K_bind_ret by reflexivity. rewrite (proj2 He), (own_page hhdm Hinv q _ _ Hq). apply (Hgo _ own); [|done].
    apply (reflag_grows P s root own p l x i q); try done; [lia|].
    intros _. by rewrite Z.land_lor_distr_l, Hlg.
Qed.

Lemma map_user_page_spec P s root own va flags : space_inv s root own → 0 ≤ va < USER_TOP → good_flags flags →
  P (vpn va) →
  ∃ b s' own', map_user_page hhdm (page_va root) va flags s = Ret (b, s') ∧ grows P root s own s' own' ∧
    mapped_or_full b s' own' (vpn va).
Proof.
  intros Hinv Hva Hfl HP. pose proof (indices_slots va Hva) as Hs. unfold map_user_page.
  pose proof Hs as [Hi _]. rewrite (proj2 (Z.leb_gt _ _)) by (apply Hi). rewrite vpn_compose in *.
  apply (map_loop_spec P (indices va) s root own root 0 0); [done|apply (own_root hhdm Hinv)|done..].
Qed.

(** The pages from [page] on, [k] of them. *)
Lemma map_pages_spec P k s root own page flags : space_inv s root own → 0 ≤ page → page mod 4096 = 0 →
  page + Z.of_nat k * 4096 ≤ USER_TOP → good_flags flags → (∀ va, page ≤ va < page + Z.of_nat k * 4096 → P (vpn va)) →
  ∃ b s' own', map_pages hhdm k (page_va root) page flags s = Ret (b, s') ∧ grows P root s own s' own' ∧
    if b : bool then ∀ va, page ≤ va < page + Z.of_nat k * 4096 → ∃ q, own' !! q = Some (4, vpn va)
    else free s' = ∅.
Proof.
  intros Hinv. revert s own page Hinv. induction k as [|k IH]; intros s own page Hinv Hp Hal Ht Hfl HP; cbn [map_pages].
  { exists true, s, own. split; [done|]. split; [by apply grows_refl|]. intros va Hva. lia. }
  destruct (map_user_page_spec P s root own page flags) as (b & s1 & own1 & Hr & Hg & Hm);
    [done|lia|done|apply HP; lia|]. rewrite (K_bind_ret _ _ _ _ _ Hr). destruct b; cbn [negb].
  2:{ exists false, s1, own1. done. }
  destruct (IH s1 own1 (page + PAGE_SIZE)) as (b & s' & own' & Hr2 & Hg2 & Hm2); unfold PAGE_SIZE in *;
    [apply (gr_inv _ _ _ _ _ _ Hg)|lia|div_mod|lia|done|intros va Hva; apply HP; lia|].
  exists b, s', own'. split; [done|]. split; [by eapply grows_trans|]. destruct b; [|done].
  intros va Hva. destruct (decide (page + 4096 ≤ va)); [apply Hm2; lia|].
  destruct Hm as [q Hq]. exists q. rewrite (proj2 (vpn_eq va page ltac:(lia) ltac:(lia))) by div_mod.
  eapply lookup_weaken; [done|apply (gr_sub _ _ _ _ _ _ Hg2)].
Qed.

(** ** What any step of the loader does to the machine *)

Record evolves root s own s' own' : Prop := {
  ev_inv : space_inv s' root own';
  ev_sub : own ⊆ own';
  ev_base : pml4_base s' = pml4_base s;
  ev_total : total_pages (pg_mach s') = total_pages (pg_mach s);
  ev_bitmap : bitmap (pg_mach s') = bitmap (pg_mach s);
  ev_free : free s' ⊆ free s;
  ev_kept : ∀ q, q ∈ free s → q ∈ free s' ∨ is_Some (own' !! q);
  ev_new : ∀ q, is_Some (own' !! q) → own !! q = None → q ∈ free s;
  ev_out : ∀ a, (∀ q, is_Some (own' !! q) → ¬ in_page hhdm q a) → ¬ in_bitmap hhdm (pg_mach s) a →
    memory s' a = memory s a;
  ev_kernel : ∀ i, 256 ≤ i < 512 →
    load64 (memory s') (entry_at (page_va root) i) = load64 (memory s) (entry_at (page_va root) i)
}.

Lemma evolves_refl root s own : space_inv s root own → evolves root s own s own.
Proof. intros Hinv. split; try done; [by left|]. intros q [k H1] H2. congruence. Qed.
Lemma evolves_trans root s1 o1 s2 o2 s3 o3 :
  evolves root s1 o1 s2 o2 → evolves root s2 o2 s3 o3 → evolves root s1 o1 s3 o3.
Proof.
  intros A B. split.
  - apply (ev_inv _ _ _ _ _ B).
  - etrans; [apply (ev_sub _ _ _ _ _ A)|apply (ev_sub _ _ _ _ _ B)].
  - rewrite (ev_base _ _ _ _ _ B). apply (ev_base _ _ _ _ _ A).
  - rewrite (ev_total _ _ _ _ _ B). apply (ev_total _ _ _ _ _ A).
  - rewrite (ev_bitmap _ _ _ _ _ B). apply (ev_bitmap _ _ _ _ _ A).
  - etrans; [apply (ev_free _ _ _ _ _ B)|apply (ev_free _ _ _ _ _ A)].
  - intros q [Hq|[k Hq]]%(ev_kept _ _ _ _ _ A); [by apply (ev_kept _ _ _ _ _ B)|right].
    exists k. eapply lookup_weaken; [done|apply (ev_sub _ _ _ _ _ B)].
  - intros q H3 H1. destruct (o2 !! q) as [k|] eqn:H2; [by apply (ev_new _ _ _ _ _ A)|].
    apply (ev_free _ _ _ _ _ A). by apply (ev_new _ _ _ _ _ B).
  - intros a Hout Hbm. rewrite (ev_out _ _ _ _ _ B), (ev_out _ _ _ _ _ A); try done.
    + intros q [k Hk]. apply Hout. exists k. eapply lookup_weaken; [done|apply (ev_sub _ _ _ _ _ B)].
    + unfold in_bitmap. by rewrite (ev_bitmap _ _ _ _ _ A), (ev_total _ _ _ _ _ A).
  - intros i Hi. by rewrite (ev_kernel _ _ _ _ _ B), (ev_kernel _ _ _ _ _ A).
Qed.

Lemma grows_evolves P root s own s' own' : grows P root s own s' own' → evolves root s own s' own'.
Proof.
  intros [Hi Hs Hb Ht Hbm Hf Hkp Hn Hd Ho Hk]. split; try done. intros q [[l y] Hq] H0. by apply (Hn q l y).
Qed.
Lemma data_evolves root s own m' : space_inv s root own → data_only hhdm own (memory s) m' →
  evolves root s own (with_mem m' s) own.
Proof.
  intros Hinv Hd.
  assert (Hfree : free (with_mem m' s) = free s) by (apply free_set_frame; intros a; by eapply data_only_bitmap).
  split; try done.
  - by apply data_only_inv.
  - by rewrite Hfree.
  - rewrite Hfree. by left.
  - intros q [k H1] H2. congruence.
  - intros a Ho _. apply Hd. intros q x Hq. apply Ho. by eexists.
  - intros i Hi. apply load64_frame. intros a Ha. eapply data_only_table; [done|apply (own_root hhdm Hinv)|lia|].
    eapply entry_in_page; [|done]. lia.
Qed.

(** The process's view of a space that grew. *)
Lemma grows_ubyte P root s own s' own' va : space_inv s root own → grows P root s own s' own' → 0 ≤ va < USER_TOP →
  ubyte hhdm s' root va = ubyte hhdm s root va ∨
  P (vpn va) ∧ ubyte hhdm s root va = None ∧ ubyte hhdm s' root va = Some 0.
Proof.
  intros Hinv Hg Hva. pose proof (gr_inv _ _ _ _ _ _ Hg) as Hinv'. unfold ubyte.
  assert (Hin : ∀ q, in_page hhdm q (page_va q + va mod 4096)).
  { intros q. unfold in_page, PAGE_SIZE. pose proof (Z.mod_pos_bound va 4096 ltac:(lia)). lia. }
  destruct (frame_of hhdm s root va) as [q|] eqn:Hq.
  - left. pose proof Hq as Hq'. apply (frame_own hhdm Hinv) in Hq'; [|done].
    assert (Hq2 : frame_of hhdm s' root va = Some q).
    { apply (frame_own hhdm Hinv'); [done|]. eapply lookup_weaken; [done|apply (gr_sub _ _ _ _ _ _ Hg)]. }
    rewrite Hq2. simpl. f_equal. by apply (gr_data _ _ _ _ _ _ Hg q (vpn va)).
  - destruct (frame_of hhdm s' root va) as [q|] eqn:Hq'; [|by left]. right.
    apply (frame_own hhdm Hinv') in Hq'; [|done].
    destruct (gr_new _ _ _ _ _ _ Hg q 4 (vpn va) Hq') as [_ Hz].
    { destruct (own !! q) as [k|] eqn:E; [|done].
      assert (E' : own' !! q = Some k) by (eapply lookup_weaken; [done|apply (gr_sub _ _ _ _ _ _ Hg)]).
      rewrite Hq' in E'. injection E' as <-. apply (frame_own hhdm Hinv) in E; [|done]. congruence. }
    destruct (Hz eq_refl) as [HP Hz']. split; [done|]. split; [done|]. simpl. by rewrite Hz'.
Qed.
End SpaceMap.
