(* ===== verification/LoadSpec.v ===== *)
(** * What a loaded program sees

    The segments of a validated executable, mapped into a fresh address space:
    the process finds the bytes of the file where the program headers put
    them, zeros in the rest of their pages, and nothing mapped elsewhere. *)

From S2P Require Import Prelude Bytes Mem KString Errno Pmm Pages Paging PagingSpec Alloc Vfs Gdt Elf Apic UserCopy.
From S2P Require Import UserCopySpec ElfExec Exec ExecSpec SpaceSpec SpaceMap.

(** The addresses whose bytes come from the file, and the pages a segment
    takes. *)
Definition in_file (bias va : Z) (p : ProgramHeader) : bool :=
  (p_vaddr p + bias <=? va) && (va <? p_vaddr p + bias + p_filesz p).
Definition covers (bias va : Z) (p : ProgramHeader) : bool :=
  negb (p_memsz p =? 0) && ((p_vaddr p + bias) / 4096 <=? va / 4096) &&
  (va / 4096 <=? (p_vaddr p + bias + p_memsz p - 1) / 4096).
(** The byte the program headers ask for at [va]. *)
Definition image_byte (file : list Z) (bias : Z) (segments : list ProgramHeader) (va : Z) : option Z :=
  match find (in_file bias va) segments with
  | Some p => Some (byte_at file (p_offset p + (va - (p_vaddr p + bias))))
  | None => if existsb (covers bias va) segments then Some 0 else None
  end.

Section Load.
Context (hhdm : Z) (root : Z).
Implicit Types (s : paging_state) (own : gmap Z (Z * Z)).
Abbreviation page_va := (page_va hhdm).
Abbreviation space_inv := (space_inv hhdm).
Abbreviation ubyte := (ubyte hhdm).
Abbreviation evolves := (evolves hhdm root).
Abbreviation free s := (free_set hhdm (pg_mach s)).

Lemma page_down_spec x : 0 ≤ x < 2 ^ 64 → page_down x = x - x mod 4096.
Proof. intros Hx. unfold page_down, PAGE_SIZE. change (4096 - 1) with (2 ^ 12 - 1). by rewrite land_lnot_u64 by lia. Qed.

Lemma covers_iff bias va p : 0 ≤ p_vaddr p + bias → 0 < p_memsz p →
  covers bias va p = true ↔
    (p_vaddr p + bias) / 4096 * 4096 ≤ va < (p_vaddr p + bias + p_memsz p + 4095) / 4096 * 4096.
Proof.
  intros Hs Hm. unfold covers. rewrite (proj2 (Z.eqb_neq _ _)) by lia. cbn [negb andb].
  rewrite andb_true_iff, !Z.leb_le. split; intros H; div_mod.
Qed.

(** The pages of a segment. *)
Definition seg_first (start : Z) : Z := start - start mod 4096.
Definition seg_last (start size : Z) : Z := start + size + 4096 - 1 - (start + size + 4096 - 1) mod 4096.
Lemma seg_pages start size : 0 ≤ start → 0 ≤ size →
  seg_first start = start / 4096 * 4096 ∧ seg_last start size = (start + size + 4095) / 4096 * 4096 ∧
  seg_first start + Z.of_nat (Z.to_nat ((seg_last start size - seg_first start) / 4096)) * 4096 = seg_last start size.
Proof.
  intros Hs Hz. assert (E1 : seg_first start = start / 4096 * 4096) by (unfold seg_first; div_mod).
  assert (E2 : seg_last start size = (start + size + 4095) / 4096 * 4096).
  { unfold seg_last. replace (start + size + 4096 - 1) with (start + size + 4095) by lia. div_mod. }
  split_and!; [done|done|]. rewrite E1, E2.
  assert (start / 4096 ≤ (start + size + 4095) / 4096) by (apply Z.div_le_mono; lia).
  rewrite <- Z.mul_sub_distr_r, Z.div_mul, Z2Nat.id by lia. lia.
Qed.

(** What the process sees once the pages are mapped and the bytes copied. *)
Definition seg_bytes file p : list Z := take (Z.to_nat (p_filesz p)) (drop (Z.to_nat (p_offset p)) file).
Lemma segment_view s own s1 own1 m' file p bias va : space_inv s root own →
  grows hhdm (λ v, ∃ va, covers bias va p = true ∧ 0 ≤ va < USER_TOP ∧ vpn va = v) root s own s1 own1 →
  (∀ va, covers bias va p = true → ∃ q, own1 !! q = Some (4, vpn va)) →
  copied_to hhdm s1 root own1 (p_vaddr p + bias) (seg_bytes file p) 0 true m' →
  0 ≤ p_offset p → 0 ≤ p_filesz p → p_offset p + p_filesz p ≤ blen file → 0 ≤ va < USER_TOP →
  ubyte (with_mem m' s1) root va =
    if in_file bias va p then Some (byte_at file (p_offset p + (va - (p_vaddr p + bias))))
    else match ubyte s root va with Some b => Some b | None => if covers bias va p then Some 0 else None end.
Proof.
  intros Hinv Hg Hm Hct Ho Hfs Hoff Hva. pose proof (gr_inv _ _ _ _ _ _ _ Hg) as Hinv1. set (start := p_vaddr p + bias) in *.
  assert (Hbl : blen (seg_bytes file p) = p_filesz p) by (unfold seg_bytes, blen in *; rewrite length_take, length_drop; lia).
  assert (Hfile : in_file bias va p = true ↔ start ≤ va < start + p_filesz p).
  { unfold in_file. fold start. rewrite andb_true_iff, Z.leb_le, Z.ltb_lt. lia. }
  destruct (in_file bias va p) eqn:Ef.
  - rewrite (ct_in _ _ _ _ _ _ _ _ _ Hct) by (done || lia). f_equal. unfold seg_bytes.
    by rewrite (proj1 (sub_bytes file (p_offset p) (p_filesz p) (va - start) ltac:(lia) ltac:(lia) ltac:(lia))).
  - assert (Hnf : ¬ (start ≤ va < start + p_filesz p)) by (rewrite <- Hfile; congruence).
    rewrite (ct_out _ _ _ _ _ _ _ _ _ Hct) by (done || lia).
    destruct (grows_ubyte _ _ _ _ _ _ _ va Hinv Hg Hva) as [E|((va' & Hc' & Hu' & Hv') & -> & ->)].
    + rewrite E. destruct (ubyte s root va) as [x|] eqn:Ex; [done|].
      destruct (covers bias va p) eqn:Ec; [|done]. exfalso. destruct (Hm va Ec) as [q Hq].
      apply (frame_own hhdm Hinv1) in Hq; [|done]. unfold SpaceSpec.ubyte in E. by rewrite Hq in E.
    + assert (covers bias va p = true) as ->; [|done]. apply vpn_eq in Hv'; [|done..].
      unfold covers in *. by rewrite <- Hv'.
Qed.

Lemma map_segment_spec s own file p bias nx : space_inv s root own → 0 ≤ bias → accepted bias (blen file) p →
  ∃ b s' own', map_segment hhdm (page_va root) file p bias nx s = Ret (b, s') ∧ evolves s own s' own' ∧
    if b : bool then
      ∀ va, 0 ≤ va < USER_TOP →
        ubyte s' root va =
          if in_file bias va p then Some (byte_at file (p_offset p + (va - (p_vaddr p + bias))))
          else match ubyte s root va with
               | Some b => Some b
               | None => if covers bias va p then Some 0 else None
               end
    else free s' = ∅.
Proof.
  intros Hinv Hbias (Hok & Hv & Hsane). unfold map_segment. rewrite Hv. cbv zeta.
  destruct Hsane as (_ & Hfm & Hoff & Hrange & _). destruct Hok as [Ho Hva0 Hfs Hms _ _].
  set (start := p_vaddr p + bias) in *.
  destruct (Z.eqb_spec (p_memsz p) 0) as [E0|E0].
  { exists true, s, own. split; [done|]. split; [by apply evolves_refl|]. intros va Hva. unfold in_file, covers.
    fold start. rewrite E0. assert (p_filesz p = 0) as -> by lia.
    destruct ((start <=? va) && (va <? start + 0)) eqn:E; [zbool; lia|]. by destruct (ubyte s root va). }
  specialize (Hrange ltac:(lia)). assert (Hst : 0 ≤ start) by (unfold start; lia).
  assert (Htop : stack_bottom + 4096 ≤ USER_TOP) by (vm_compute; discriminate).
  unfold USER_TOP in Htop. rewrite (proj2 (Z.ltb_ge _ _)) by (unfold UINT64_MAX, PAGE_SIZE; lia).
  rewrite !page_down_spec by (unfold PAGE_SIZE; lia). unfold PAGE_SIZE.
  set (flags := if nx && _ then _ else _). fold (seg_first start) (seg_last start (p_memsz p)).
  destruct (seg_pages start (p_memsz p) Hst ltac:(lia)) as (Hps & Hpe & Hk).
  assert (Hcov : ∀ va, covers bias va p = true ↔ seg_first start ≤ va < seg_last start (p_memsz p)).
  { intros va. rewrite Hps, Hpe. apply covers_iff; unfold start in *; lia. }
  destruct (map_pages_spec hhdm (λ v, ∃ va, covers bias va p = true ∧ 0 ≤ va < USER_TOP ∧ vpn va = v)
    (Z.to_nat ((seg_last start (p_memsz p) - seg_first start) / 4096)) s root own (seg_first start) flags) as (b & s1 & own1 & Hr & Hg & Hm);
    [done|rewrite Hps; pose proof (Z.div_pos start 4096); lia|rewrite Hps; by apply Z.mod_mul|
     rewrite Hk, Hpe; unfold USER_TOP; div_mod| | |].
  { unfold flags. by destruct nx, (Z.land (p_flags p) PF_X =? 0), (Z.land (p_flags p) PF_W =? 0). }
  { rewrite Hk. intros va Hva. exists va. split; [by apply Hcov|]. split; [|done].
    rewrite Hps, Hpe in Hva. unfold USER_TOP. pose proof (Z.div_pos start 4096). div_mod. }
  rewrite (K_bind_ret _ _ _ _ _ Hr). pose proof (grows_evolves _ _ _ _ _ _ _ Hg) as Hev.
  destruct b; cbn [negb]; [|by exists false, s1, own1].
  rewrite Hk in Hm. pose proof (gr_inv _ _ _ _ _ _ _ Hg) as Hinv1.
  rewrite (K_bind_ret _ _ s1 (seg_bytes file p) s1) by (unfold k_lift; by rewrite buf_get_ok by lia).
  assert (Hbl : blen (seg_bytes file p) = p_filesz p) by (unfold seg_bytes, blen in *; rewrite length_take, length_drop; lia).
  destruct (copy_to_space_spec hhdm s1 root own1 start (seg_bytes file p)) as (b & m' & Hc & Hct); [done|lia|unfold USER_TOP; lia|].
  exists b, (with_mem m' s1), own1. split; [done|].
  split; [eapply evolves_trans; [done|]; apply data_evolves; [done|apply (ct_data _ _ _ _ _ _ _ _ _ Hct)]|].
  destruct b.
  - intros va Hva. eapply segment_view; [done|done|intros va' Hv'; by apply Hm, Hcov|exact Hct|lia..].
  - exfalso. destruct (ct_fail _ _ _ _ _ _ _ _ _ Hct eq_refl) as (va & Hva & Hn). rewrite Hbl in Hva.
    destruct (Hm va) as [q Hq]; [rewrite Hps, Hpe; div_mod|].
    apply (frame_own hhdm Hinv1) in Hq; [congruence|unfold USER_TOP; lia].
Qed.

Lemma find_app_l {T} (f : T → bool) l1 l2 :
  find f (l1 ++ l2) = match find f l1 with Some x => Some x | None => find f l2 end.
Proof. induction l1 as [|x l1 IH]; simpl; [done|]. by destruct (f x). Qed.

Lemma ordered_last {T} (R : T → T → Prop) (l : list T) x r :
  ForallOrdPairs R ((l ++ [x]) ++ r) → Forall (λ y, R y x) l.
Proof.
  induction l as [|y l IH]; simpl; [constructor|]. inversion 1 as [|? ? Hy Hl]; subst. constructor; [|by apply IH].
  rewrite !Forall_app, Forall_singleton in Hy. tauto.
Qed.

(** Processing the segments one by one. *)
Lemma image_byte_snoc file bias done p va :
  Forall (λ q, disjoint_segments bias q p) done → Forall (λ q, p_filesz q ≤ p_memsz q) (done ++ [p]) →
  image_byte file bias (done ++ [p]) va =
    if in_file bias va p then Some (byte_at file (p_offset p + (va - (p_vaddr p + bias))))
    else match image_byte file bias done va with
         | Some b => Some b
         | None => if covers bias va p then Some 0 else None
         end.
Proof.
  intros Hd Hf. unfold image_byte. rewrite find_app_l, existsb_app. cbn [find existsb]. rewrite orb_false_r.
  apply Forall_app in Hf as [Hf Hp]. rewrite Forall_singleton in Hp.
  destruct (find (in_file bias va) done) as [q|] eqn:Eq.
  - apply find_some in Eq as [Hq Hin]. rewrite List.Forall_forall in Hd, Hf. specialize (Hd q Hq). specialize (Hf q Hq).
    destruct (in_file bias va p) eqn:Ep; [|done]. exfalso. unfold in_file, disjoint_segments in *. zbool.
    cbv beta in *. destruct Hd; lia.
  - destruct (in_file bias va p); [done|]. by destruct (existsb _ _), (covers bias va p).
Qed.

Lemma map_segments_spec s own file bias nx done todo : space_inv s root own → 0 ≤ bias →
  Forall (accepted bias (blen file)) (done ++ todo) → ForallOrdPairs (disjoint_segments bias) (done ++ todo) →
  (∀ va, 0 ≤ va < USER_TOP → ubyte s root va = image_byte file bias done va) →
  ∃ b s' own', map_segments hhdm (page_va root) file todo bias nx s = Ret (b, s') ∧ evolves s own s' own' ∧
    if b : bool then ∀ va, 0 ≤ va < USER_TOP → ubyte s' root va = image_byte file bias (done ++ todo) va
    else free s' = ∅.
Proof.
  revert s own done. induction todo as [|p todo IH]; intros s own done Hinv Hbias Hacc Hdis Hu; cbn [map_segments].
  { exists true, s, own. rewrite app_nil_r. split; [done|]. by split; [apply evolves_refl|]. }
  replace (done ++ p :: todo) with ((done ++ [p]) ++ todo) in * by by rewrite <- app_assoc.
  pose proof Hacc as [Hacc1 _]%Forall_app. pose proof Hacc1 as [_ Hp]%Forall_app. rewrite Forall_singleton in Hp.
  destruct (map_segment_spec s own file p bias nx Hinv Hbias Hp) as (b & s1 & own1 & Hr & Hev & Hb).
  rewrite (K_bind_ret _ _ _ _ _ Hr). destruct b; cbn [negb]; [|by exists false, s1, own1].
  destruct (IH s1 own1 (done ++ [p]) (ev_inv _ _ _ _ _ _ Hev) Hbias Hacc Hdis) as (b & s' & own' & Hr' & Hev' & Hb').
  - intros va Hva. rewrite Hb, Hu by done. symmetry. apply image_byte_snoc.
    + by eapply ordered_last.
    + eapply Forall_impl; [exact Hacc1|]. by intros q (_ & _ & _ & Hq & _).
  - exists b, s', own'. split; [done|]. split; [by eapply evolves_trans|done].
Qed.
End Load.

(** ** A fresh address space *)

Section Create.
Context (hhdm : Z).
Implicit Types (s : paging_state) (own : gmap Z (Z * Z)).
Abbreviation page_va := (page_va hhdm).
Abbreviation memory s := (mem (pg_mach s)).
Abbreviation free s := (free_set hhdm (pg_mach s)).

(** The kernel's own root table is a page in use. *)
Record kernel_space s kroot : Prop := {
  ks_phys : phys_ok hhdm (pg_mach s);
  ks_small : total_pages (pg_mach s) ≤ 2 ^ 40;
  ks_base : pml4_base s = page_va kroot;
  ks_hhdm : 0 < hhdm + kroot * PAGE_SIZE;
  ks_used : kroot ∉ free s;
  ks_clear : clear_page hhdm (pg_mach s) kroot
}.

Lemma copy_entries_spec k s i p q : p ≠ q → 0 ≤ i → i + Z.of_nat k ≤ 512 →
  ∃ m', copy_entries k i (page_va p) (page_va q) s = Ret (tt, with_mem m' s) ∧
    (∀ a, ¬ (entry_at (page_va q) i ≤ a < entry_at (page_va q) (i + Z.of_nat k)) → m' a = memory s a) ∧
    (∀ j, i ≤ j < i + Z.of_nat k → load64 m' (entry_at (page_va q) j) = load64 (memory s) (entry_at (page_va p) j)).
Proof.
  intros Hne. revert s i. induction k as [|k IH]; intros s i Hi Hk; cbn [copy_entries].
  { exists (memory s). split; [by destruct s as [[]]|]. split; [done|]. intros j Hj. lia. }
  krun. set (e := load64 _ _). set (m1 := store64 _ _ _). fold (with_mem m1 s).
  destruct (IH (with_mem m1 s) (i + 1)) as (m' & Hr & Hout & Hin); [lia|lia|]. cbn [with_mem pg_mach mem set_mem] in *.
  exists m'. split; [exact Hr|].
  assert (Hm1 : ∀ a, ¬ (entry_at (page_va q) i ≤ a < entry_at (page_va q) i + 8) → m1 a = memory s a).
  { intros a Ha. by apply store64_out. }
  split.
  - intros a Ha. unfold entry_at in *. rewrite Hout, Hm1; [done|lia|lia].
  - intros j Hj. destruct (decide (j = i)) as [->|].
    + rewrite (load64_frame m1 m') by (intros a Ha; apply Hout; unfold entry_at in *; lia).
      unfold m1. rewrite load64_store64_eq. apply u64_small, load64_range.
    + rewrite Hin by lia. apply load64_frame. intros a Ha. apply Hm1.
      destruct (entry_disjoint hhdm p j q i); [lia|lia|congruence|..]; lia.
Qed.

(** A page with an empty user half is an address space with nothing mapped. *)
Lemma fresh_space s s1 n m' : phys_ok hhdm (pg_mach s) → total_pages (pg_mach s) ≤ 2 ^ 40 → taken hhdm s s1 n →
  (∀ a, in_bitmap hhdm (pg_mach s1) a → m' a = memory s1 a) →
  (∀ i, 0 ≤ i < 256 → load64 m' (entry_at (page_va n) i) = 0) → space_inv hhdm (with_mem m' s1) n {[n := (0, 0)]}.
Proof.
  intros Hok Hsm Htk Hbm Hempty. pose proof (tk_page _ _ _ _ Htk) as Hn.
  assert (Hncl : clear_page hhdm (pg_mach s) n) by (apply (po_bitmap _ _ Hok), (tk_was _ _ _ _ Htk)).
  assert (Hbms : ∀ a, in_bitmap hhdm (pg_mach s1) a ↔ in_bitmap hhdm (pg_mach s) a).
  { intros a. unfold in_bitmap. by rewrite (tk_bitmap _ _ _ _ Htk), (tk_total _ _ _ _ Htk). }
  assert (Hown : ∀ p lx, ({[n := (0, 0)]} : gmap Z (Z * Z)) !! p = Some lx → p = n ∧ lx = (0, 0)).
  { intros p lx Hp. by apply lookup_singleton_Some in Hp as [-> <-]. }
  assert (Hslot : ∀ i, slot 0 i → load64 m' (entry_at (page_va n) i) = 0).
  { intros i Hi. apply Hempty. unfold slot in Hi. exact Hi. }
  split; cbn [with_mem pg_mach].
  - apply phys_ok_frame; [apply (tk_phys _ _ _ _ Htk)|done].
  - change (total_pages (set_mem m' (pg_mach s1))) with (total_pages (pg_mach s1)). by rewrite (tk_total _ _ _ _ Htk).
  - intros q x. split; [by intros [-> [= ->]]%Hown|]. intros [-> ->]. apply lookup_singleton_eq.
  - intros p l x [-> [= -> ->]]%Hown. rewrite free_set_frame by done. rewrite (tk_free _ _ _ _ Htk).
    change (total_pages (set_mem m' (pg_mach s1))) with (total_pages (pg_mach s1)). rewrite (tk_total _ _ _ _ Htk).
    split; [lia|]. split; [lia|]. split; [set_solver|]. intros a Hp Hbs. by apply (Hncl a Hp), Hbms.
  - by intros p q k [-> _]%Hown [-> _]%Hown.
  - intros p l x i q [-> [= -> ->]]%Hown _ Hi. unfold child. cbn [mem set_mem]. by rewrite Hslot.
  - intros q l y [-> [= -> ->]]%Hown. lia.
  - intros p l x i [-> [= -> ->]]%Hown _ Hi. cbn [mem set_mem]. by rewrite Hslot.
Qed.

Lemma create_spec s kroot : kernel_space s kroot →
  create_address_space hhdm s = Ret (0, s) ∧ free s = ∅ ∨
  ∃ root s1, create_address_space hhdm s = Ret (root * PAGE_SIZE, s1) ∧ 0 < root ∧ root ∈ free s ∧
    space_inv hhdm s1 root {[root := (0, 0)]} ∧ pml4_base s1 = pml4_base s ∧ free s1 = free s ∖ {[root]} ∧
    phys_to_virt hhdm (root * PAGE_SIZE) = page_va root ∧
    total_pages (pg_mach s1) = total_pages (pg_mach s) ∧ bitmap (pg_mach s1) = bitmap (pg_mach s) ∧
    (∀ i, 256 ≤ i < 512 →
       load64 (memory s1) (entry_at (page_va root) i) = load64 (memory s) (entry_at (page_va kroot) i)) ∧
    (∀ a, ¬ in_page hhdm root a → ¬ in_bitmap hhdm (pg_mach s) a → memory s1 a = memory s a).
Proof.
  intros [Hok Hsm Hb Hh Hu Hcl]. unfold create_address_space. krun.
  rewrite Hb, (proj2 (Z.eqb_neq _ _)) by (unfold Pages.page_va; lia).
  destruct (allocate_spec hhdm s Hok) as [[Ha Hf]|(n & s1 & Ha & Htk)]; rewrite (K_bind_ret _ _ _ _ _ Ha).
  { by left. }
  right. pose proof (tk_page _ _ _ _ Htk) as Hn. rewrite (proj2 (Z.eqb_neq _ _)) by (unfold PAGE_SIZE; lia).
  rewrite (phys_to_virt_page hhdm (pg_mach s)) by (done || lia).
  assert (Hne : kroot ≠ n) by (intros ->; apply Hu, (tk_was _ _ _ _ Htk)).
  destruct (copy_entries_spec 256 s1 256 kroot n Hne) as (m' & Hr & Hout & Hin); [lia|lia|].
  rewrite (K_bind_ret _ _ _ _ _ Hr). clear Hr Ha. exists n, (with_mem m' s1). split; [done|]. split; [lia|].
  split; [apply (tk_was _ _ _ _ Htk)|].
  assert (Hrange : ∀ a, entry_at (page_va n) 256 ≤ a < entry_at (page_va n) (256 + Z.of_nat 256) → in_page hhdm n a).
  { unfold entry_at, in_page, PAGE_SIZE. lia. }
  assert (Hncl : clear_page hhdm (pg_mach s) n) by (apply (po_bitmap _ _ Hok), (tk_was _ _ _ _ Htk)).
  assert (Hbms : ∀ a, in_bitmap hhdm (pg_mach s1) a ↔ in_bitmap hhdm (pg_mach s) a).
  { intros a. unfold in_bitmap. by rewrite (tk_bitmap _ _ _ _ Htk), (tk_total _ _ _ _ Htk). }
  assert (Hbm : ∀ a, in_bitmap hhdm (pg_mach s1) a → m' a = memory s1 a).
  { intros a Hab. apply Hout. intros Hp%Hrange. by apply (Hncl a Hp), Hbms. }
  assert (Hempty : ∀ i, 0 ≤ i < 256 → load64 m' (entry_at (page_va n) i) = 0).
  { intros i Hi. rewrite (load64_frame (λ _, 0)); [done|]. intros a Ha'. rewrite Hout by (unfold entry_at in *; lia).
    apply (tk_zero _ _ _ _ Htk). eapply entry_in_page; [|done]. lia. }
  assert (Hfr : free (with_mem m' s1) = free s ∖ {[n]}).
  { cbn [with_mem pg_mach]. rewrite free_set_frame by done. apply (tk_free _ _ _ _ Htk). }
  split; [by apply (fresh_space s)|]. split; [rewrite <- Hb; apply (tk_base _ _ _ _ Htk)|]. split; [done|].
  split; [apply (phys_to_virt_page hhdm (pg_mach s)); [done|lia]|]. split; [apply (tk_total _ _ _ _ Htk)|].
  split; [apply (tk_bitmap _ _ _ _ Htk)|]. split.
  - intros i Hi. cbn [with_mem pg_mach mem set_mem]. rewrite Hin by lia. apply load64_frame. intros a Ha'.
    assert (Hka : in_page hhdm kroot a) by (eapply entry_in_page; [|done]; lia).
    apply (tk_out _ _ _ _ Htk); [|by apply Hcl]. intros Hna. apply Hne. by eapply in_page_inj.
  - intros a Hna Hnb. cbn [with_mem pg_mach mem set_mem]. rewrite Hout by (intros Hp%Hrange; done).
    by apply (tk_out _ _ _ _ Htk).
Qed.

Lemma fresh_empty s root va : space_inv hhdm s root {[root := (0, 0)]} → 0 ≤ va < USER_TOP → ubyte hhdm s root va = None.
Proof.
  intros Hinv Hva. unfold ubyte. destruct (frame_of hhdm s root va) as [q|] eqn:E; [|done].
  apply (frame_own hhdm Hinv) in E; [|done]. by apply lookup_singleton_Some in E as [_ [= ?]].
Qed.

End Create.

(** The sample executable on the sample machine. *)
Lemma kernel_sample : kernel_space 0 pg_sample 2.
Proof.
  destruct (pi_used _ _ _ _ pg_sample_inv 2 0 0) as (_ & Hu & Hc); [by vm_compute|].
  split; [apply (pi_phys _ _ _ _ pg_sample_inv)|by vm_compute|by vm_compute|by vm_compute|done|done].
Qed.
Definition sample_program : program :=
  match validate sample_exec with Ret (Some g) => g | _ => MkProgram (read_ElfHeader []) 0 0 [] None end.
Definition sample_loads : bool :=
  match create_address_space 0 pg_sample with
  | Ret (r, s1) =>
      negb (r =? 0) &&
      match map_segments 0 (phys_to_virt 0 r) sample_exec (g_segments sample_program) (g_bias sample_program) true s1 with
      | Ret (b, _) => b
      | _ => false
      end
  | _ => false
  end.

