(* ===== verification/StackSpec.v ===== *)
(** * The initial stack of a process

    map_user_stack maps the stack, copies the environment, the arguments and
    the path below its top and puts the vectors the System V ABI asks for at
    the stack pointer. *)

From S2P Require Import Prelude Bytes Mem KString Errno Pmm Pages Paging PagingSpec Alloc Vfs Elf Apic UserCopy.
From S2P Require Import UserCopySpec ElfExec SpaceSpec SpaceMap LoadSpec.

Section Stack.
Context (hhdm : Z) (root : Z).
Implicit Types (s : paging_state) (own : gmap Z (Z * Z)).
Abbreviation page_va := (page_va hhdm).
Abbreviation memory s := (mem (pg_mach s)).
Abbreviation space_inv := (space_inv hhdm).
Abbreviation ubyte := (ubyte hhdm).
Abbreviation free s := (free_set hhdm (pg_mach s)).

(** The process finds the bytes [bs] at [va]. *)
Definition holds s va (bs : list Z) : Prop := ∀ i, 0 ≤ i < blen bs → ubyte s root (va + i) = Some (byte_at bs i).
(** Nothing the process can see changed, except in the range. *)
Definition only_range s s' lo hi : Prop :=
  ∀ va, 0 ≤ va < USER_TOP → ¬ (lo ≤ va < hi) → ubyte s' root va = ubyte s root va.

Lemma only_range_trans s1 s2 s3 lo hi lo' hi' lo'' hi'' : only_range s1 s2 lo hi → only_range s2 s3 lo' hi' →
  lo'' ≤ lo → lo'' ≤ lo' → hi ≤ hi'' → hi' ≤ hi'' → only_range s1 s3 lo'' hi''.
Proof. intros A B ? ? ? ? va Hva Ho. rewrite B, A by lia. done. Qed.
Lemma holds_keep s s' lo hi va bs : holds s va bs → only_range s s' lo hi → 0 ≤ va → va + blen bs ≤ USER_TOP →
  (va + blen bs ≤ lo ∨ hi ≤ va) → holds s' va bs.
Proof. intros Hh Ho H0 Ht Hd i Hi. rewrite Ho by lia. by apply Hh. Qed.
Lemma holds_concat s va a b : holds s va a → holds s (va + blen a) b → holds s va (a ++ b).
Proof.
  unfold holds, blen, byte_at. intros Ha Hb i Hi. rewrite length_app in Hi.
  destruct (decide (i < Z.of_nat (length a))).
  - rewrite app_nth1 by lia. apply Ha. lia.
  - rewrite app_nth2 by lia. replace (va + i) with (va + Z.of_nat (length a) + (i - Z.of_nat (length a))) by lia.
    replace (Z.to_nat i - length a)%nat with (Z.to_nat (i - Z.of_nat (length a))) by lia. apply Hb. lia.
Qed.

(** ** Writing to mapped memory *)

(** Every address of the range is mapped. *)
Definition mapped own lo hi : Prop := ∀ va, lo ≤ va < hi → ∃ q, own !! q = Some (4, vpn va).

Lemma copy_mapped s own address source : space_inv s root own → mapped own address (address + blen source) →
  0 ≤ address → address + blen source ≤ USER_TOP →
  ∃ m', copy_to_space hhdm (page_va root) address source s = Ret (true, with_mem m' s) ∧
    data_only hhdm own (memory s) m' ∧
    only_range s (with_mem m' s) address (address + blen source) ∧ holds (with_mem m' s) address source.
Proof.
  intros Hinv Hm H0 Ht. destruct (copy_to_space_spec hhdm s root own address source Hinv H0 Ht) as (b & m' & Hr & Hct).
  destruct b.
  - exists m'. split; [done|]. split; [apply (ct_data _ _ _ _ _ _ _ _ _ Hct)|]. split.
    + intros va Hva Ho. apply (ct_out _ _ _ _ _ _ _ _ _ Hct); [done|lia].
    + intros i Hi. rewrite (ct_in _ _ _ _ _ _ _ _ _ Hct) by (done || lia). do 2 f_equal. lia.
  - exfalso. destruct (ct_fail _ _ _ _ _ _ _ _ _ Hct eq_refl) as (va & Hva & Hn).
    destruct (Hm va) as [q Hq]; [lia|]. apply (frame_own hhdm Hinv) in Hq; [congruence|lia].
Qed.

(** ** Strings *)

Definition strings_size (l : list (list Z)) : Z := foldr (λ str n, blen str + 1 + n) 0 l.
Lemma strings_size_nonneg l : 0 ≤ strings_size l.
Proof. induction l as [|x l IH]; simpl; unfold blen in *; lia. Qed.

Record pushed s own cursor total strings addrs cursor' total' (m' : ram) : Prop := {
  pu_data : data_only hhdm own (memory s) m';
  pu_range : only_range s (with_mem m' s) cursor' cursor;
  pu_cursor : cursor' = cursor - strings_size strings;
  pu_total : total' = total + strings_size strings;
  pu_fits : total' ≤ MAX_STACK_STRINGS;
  pu_holds : Forall2 (λ a str, cursor' ≤ a ∧ a + blen str + 1 ≤ cursor ∧ holds (with_mem m' s) a (str ++ [0]))
               addrs strings
}.

Lemma push_strings_spec s own strings cursor total : space_inv s root own → mapped own stack_bottom USER_STACK_TOP →
  cursor = USER_STACK_TOP - total → 0 ≤ total ≤ MAX_STACK_STRINGS →
  ∃ r m', push_strings hhdm (page_va root) strings cursor total s = Ret (r, with_mem m' s) ∧
    data_only hhdm own (memory s) m' ∧ only_range s (with_mem m' s) stack_bottom USER_STACK_TOP ∧
    match r with
    | Some (addrs, cursor', total') => pushed s own cursor total strings addrs cursor' total' m'
    | None => MAX_STACK_STRINGS < total + strings_size strings
    end.
Proof.
  intros Hinv Hm Hc Ht. induction strings as [|str rest IH]; cbn [push_strings].
  { exists (Some ([], cursor, total)), (memory s). split; [by destruct s as [[]]|]. split; [done|].
    assert (E : with_mem (memory s) s = s) by (by destruct s as [[]]). rewrite E. split; [done|].
    split; rewrite ?E; simpl; try done; lia. }
  destruct IH as (r & m1 & Hr & Hd1 & Ho1 & Hres). rewrite (K_bind_ret _ _ _ _ _ Hr).
  cbn [strings_size foldr]. fold (strings_size rest). set (len := blen str + 1).
  assert (Hlen : 0 < len) by (unfold len, blen; lia).
  destruct r as [[[addrs c1] t1]|]; [|by exists None, m1; unfold len in *; repeat split; [..|lia]].
  destruct Hres as [_ Hrg Hcu Hto Hfit Hhold]. pose proof (strings_size_nonneg rest) as Hnn.
  assert (Hst : stack_bottom = USER_STACK_TOP - 32768) by reflexivity.
  assert (Htop : USER_STACK_TOP ≤ USER_TOP) by (vm_compute; discriminate).
  assert (Hbot : 0 < stack_bottom) by reflexivity.
  destruct (Z.ltb_spec (MAX_STACK_STRINGS - t1) len) as [Hlt|Hge]; cbn [orb].
  { exists None, m1. split; [done|]. split; [done|]. split; [done|]. lia. }
  unfold MAX_STACK_STRINGS in *. rewrite (proj2 (Z.ltb_ge _ _)) by lia.
  pose proof (data_only_inv hhdm Hinv m1 Hd1) as Hinv1.
  assert (Hbl : blen (str ++ [0]) = len) by (unfold blen, len, blen; rewrite length_app; simpl; lia).
  destruct (copy_mapped (with_mem m1 s) own (c1 - len) (str ++ [0])) as (m2 & Hw & Hd2 & Ho2 & Hh2);
    [done|intros va Hva; apply Hm; lia|lia|lia|]. rewrite Hbl in *.
  rewrite (K_bind_ret _ _ _ _ _ Hw). cbn [negb]. change (with_mem m2 (with_mem m1 s)) with (with_mem m2 s) in *.
  replace (c1 - len + len) with c1 in Ho2 by lia.
  exists (Some (c1 - len :: addrs, c1 - len, t1 + len)), m2. split; [done|].
  assert (Hd : data_only hhdm own (memory s) m2) by (by transitivity m1).
  assert (Hrange : only_range s (with_mem m2 s) (c1 - len) cursor).
  { eapply (only_range_trans s (with_mem m1 s)); [exact Hrg|exact Ho2|lia..]. }
  split; [done|]. split; [intros va Hva Hn; apply Hrange; [done|lia]|].
  assert (Hsz : strings_size (str :: rest) = len + strings_size rest) by done.
  split; [done|done|lia|lia|unfold MAX_STACK_STRINGS; lia|]. constructor.
  - split; [lia|]. split; [unfold len; lia|done].
  - eapply Forall2_impl; [exact Hhold|]. intros a x (Ha1 & Ha2 & Ha3). split; [lia|]. split; [lia|].
    eapply holds_keep; [exact Ha3|exact Ho2|lia|unfold blen in *; rewrite length_app; simpl; lia|lia].
Qed.

(** ** Words *)

Definition words_bytes (ws : list Z) : list Z := concat (le_bytes 8 <$> ws).
Lemma words_bytes_len ws : blen (words_bytes ws) = 8 * Z.of_nat (length ws).
Proof.
  unfold words_bytes, blen. induction ws as [|w ws IH]; [done|]. cbn [fmap list_fmap concat length].
  rewrite length_app, le_bytes_length. lia.
Qed.

Lemma push_words_spec s own words address : space_inv s root own →
  mapped own address (address + 8 * Z.of_nat (length words)) → 0 ≤ address →
  address + 8 * Z.of_nat (length words) ≤ USER_TOP →
  ∃ m', push_words hhdm (page_va root) address words s = Ret (true, with_mem m' s) ∧
    data_only hhdm own (memory s) m' ∧
    only_range s (with_mem m' s) address (address + 8 * Z.of_nat (length words)) ∧
    holds (with_mem m' s) address (words_bytes words).
Proof.
  revert s address. induction words as [|w ws IH]; intros s address Hinv Hm H0 Ht; cbn [push_words].
  { exists (memory s). split; [by destruct s as [[]]|]. split; [done|]. split; [by destruct s as [[]]|].
    intros i Hi. unfold words_bytes, blen in Hi. simpl in Hi. lia. }
  cbn [length] in *. assert (H8 : blen (le_bytes 8 w) = 8) by (unfold blen; by rewrite le_bytes_length).
  destruct (copy_mapped s own address (le_bytes 8 w)) as (m1 & Hw & Hd1 & Ho1 & Hh1); rewrite ?H8 in *;
    [done|intros va Hva; apply Hm; lia|done|lia|]. rewrite (K_bind_ret _ _ _ _ _ Hw). cbn [negb].
  destruct (IH (with_mem m1 s) (address + 8)) as (m2 & Hr & Hd2 & Ho2 & Hh2);
    [by apply data_only_inv|intros va Hva; apply Hm; lia|lia|lia|].
  change (with_mem m2 (with_mem m1 s)) with (with_mem m2 s) in *.
  exists m2. split; [done|]. split; [by transitivity m1|]. split.
  - eapply (only_range_trans s (with_mem m1 s)); [exact Ho1|exact Ho2|lia..].
  - unfold words_bytes. cbn [fmap list_fmap concat]. apply holds_concat; [|rewrite H8; exact Hh2].
    eapply holds_keep; [exact Hh1|exact Ho2|lia..].
Qed.

(** ** The whole stack *)

(** The stack the ABI describes: at the stack pointer the argument count, the
    argument pointers and a null, the environment pointers and a null, and the
    auxiliary vector; above them the strings. *)
Definition initial_stack s (argv envp : list (list Z)) (path : list Z) (phdr phentsize phnum entry : Z)
    (im : ExecImage) : Prop :=
  let sp := x_stack im in
  let argc := Z.of_nat (length argv) in
  ∃ argv_at envp_at execfn,
    let words := [argc] ++ argv_at ++ [0] ++ envp_at ++ [0] ++ auxv phdr phentsize phnum entry execfn in
    let string_at a str := sp + 8 * Z.of_nat (length words) ≤ a ∧ a + blen str + 1 ≤ USER_STACK_TOP ∧
                           holds s a (str ++ [0]) in
    sp mod 16 = 0 ∧ stack_bottom ≤ sp ∧
    x_argc im = argc ∧ x_argv im = sp + 8 ∧ x_envp im = sp + 8 * (argc + 2) ∧
    holds s sp (words_bytes words) ∧
    Forall2 string_at argv_at argv ∧ Forall2 string_at envp_at envp ∧ string_at execfn path.

Lemma strings_keep s s' lo hi lo' hi' addrs strings (P : Z → list Z → Prop) :
  Forall2 (λ a str, lo ≤ a ∧ a + blen str + 1 ≤ hi ∧ holds s a (str ++ [0])) addrs strings →
  only_range s s' lo' hi' → hi' ≤ lo → 0 ≤ lo → hi ≤ USER_TOP →
  (∀ a str, lo ≤ a → a + blen str + 1 ≤ hi → holds s' a (str ++ [0]) → P a str) →
  Forall2 P addrs strings.
Proof.
  intros Hf Ho Hlo H0 Ht HP. eapply Forall2_impl; [exact Hf|]. intros a str (H1 & H2 & H3). apply HP; [done|done|].
  eapply holds_keep; [done|done|lia|unfold blen in *; rewrite length_app; simpl; lia|lia].
Qed.

Lemma stack_mapped s own nx : space_inv s root own →
  ∃ b s' own', map_pages hhdm (Z.to_nat USER_STACK_PAGES) (page_va root) stack_bottom
      (Z.lor PTE_WRITABLE (if nx : bool then PTE_NX else 0)) s = Ret (b, s') ∧
    evolves hhdm root s own s' own' ∧ only_range s s' stack_bottom USER_STACK_TOP ∧
    if b then mapped own' stack_bottom USER_STACK_TOP else free s' = ∅.
Proof.
  intros Hinv.
  assert (Hin : ∀ va, stack_bottom ≤ va < stack_bottom + Z.of_nat (Z.to_nat USER_STACK_PAGES) * 4096 →
    stack_bottom ≤ va < USER_STACK_TOP) by (unfold stack_bottom, stack_size, USER_STACK_PAGES, USER_STACK_TOP, PAGE_SIZE; lia).
  destruct (map_pages_spec hhdm (λ v, ∃ va, stack_bottom ≤ va < USER_STACK_TOP ∧ vpn va = v)
    (Z.to_nat USER_STACK_PAGES) s root own stack_bottom (Z.lor PTE_WRITABLE (if nx then PTE_NX else 0)))
    as (b & s' & own' & Hr & Hg & Hm); [done|by vm_compute|by vm_compute|by vm_compute|by destruct nx| |].
  { intros va Hva%Hin. by exists va. }
  exists b, s', own'. split; [done|]. split; [by eapply grows_evolves|]. split; [|destruct b; [|done]].
  - intros va Hva Hn. destruct (grows_ubyte _ _ _ _ _ _ _ va Hinv Hg Hva) as [E|((va' & Hv & E) & _)]; [done|].
    exfalso. apply Hn. assert (0 ≤ va' < USER_TOP) by (split; [|etrans; [apply Hv|by vm_compute]]; etrans; [|apply Hv]; by vm_compute).
    apply vpn_eq in E; [|done..]. unfold stack_bottom, stack_size, USER_STACK_PAGES, USER_STACK_TOP, PAGE_SIZE in *. div_mod.
  - intros va Hva. apply Hm. unfold stack_bottom, stack_size, USER_STACK_PAGES, USER_STACK_TOP, PAGE_SIZE in *. lia.
Qed.

(** The vectors below the strings. *)
Lemma vectors_spec s own argv_at envp_at argv envp path cursor phdr phentsize phnum entry :
  space_inv s root own → mapped own stack_bottom USER_STACK_TOP →
  (length argv_at ≤ 128)%nat → (length envp_at ≤ 128)%nat →
  USER_STACK_TOP - MAX_STACK_STRINGS ≤ cursor - (blen path + 1) → cursor ≤ USER_STACK_TOP →
  Forall2 (λ a str, cursor ≤ a ∧ a + blen str + 1 ≤ USER_STACK_TOP ∧ holds s a (str ++ [0])) argv_at argv →
  Forall2 (λ a str, cursor ≤ a ∧ a + blen str + 1 ≤ USER_STACK_TOP ∧ holds s a (str ++ [0])) envp_at envp →
  let execfn := cursor - (blen path + 1) in
  ∃ im m', (ok ← copy_to_space hhdm (page_va root) execfn (path ++ [0]);
     if negb ok then mret None else
     let argc := blen argv_at in
     let envc := blen envp_at in
     let vector_words := 1 + argc + 1 + envc + 1 + 7 * 2 + 2 in
     if (execfn - stack_bottom) / 8 <? vector_words then mret None else
     let stack_pointer := Z.land (execfn - vector_words * 8) (u64 (Z.lnot 15)) in
     if stack_pointer <? stack_bottom then mret None else
     ok ← push_words hhdm (page_va root) stack_pointer
            ([argc] ++ argv_at ++ [0] ++ envp_at ++ [0] ++ auxv phdr phentsize phnum entry execfn);
     if negb ok then mret None
     else mret (Some (MkImage 0 0 stack_pointer argc (stack_pointer + 8) (stack_pointer + 8 * (argc + 2))))) s
    = Ret (Some im, with_mem m' s) ∧ data_only hhdm own (memory s) m' ∧
    only_range s (with_mem m' s) stack_bottom USER_STACK_TOP ∧
    initial_stack (with_mem m' s) argv envp path phdr phentsize phnum entry im.
Proof.
  intros Hinv Hm Ha He Hcur Htop Harg Henv execfn.
  assert (Hex : execfn = cursor - (blen path + 1)) by done.
  assert (Hst : stack_bottom = USER_STACK_TOP - 32768) by reflexivity.
  assert (Hut : USER_STACK_TOP ≤ USER_TOP) by (vm_compute; discriminate).
  assert (Hb0 : 0 < stack_bottom) by reflexivity. assert (Hu64 : USER_STACK_TOP < 2 ^ 64) by reflexivity.
  assert (Hpl : blen (path ++ [0]) = blen path + 1) by (unfold blen; rewrite length_app; simpl; lia).
  assert (Hp0 : 0 ≤ blen path) by (unfold blen; lia). unfold MAX_STACK_STRINGS in *.
  destruct (copy_mapped s own execfn (path ++ [0])) as (m1 & Hw & Hd1 & Ho1 & Hh1);
    [done|intros va Hva; apply Hm; lia|lia|lia|]. rewrite Hpl in Ho1. replace (execfn + (blen path + 1)) with cursor in Ho1 by lia.
  rewrite (K_bind_ret _ _ _ _ _ Hw). cbn [negb]. cbv zeta.
  set (vw := 1 + blen argv_at + 1 + blen envp_at + 1 + 7 * 2 + 2).
  assert (Hvw : vw = 19 + Z.of_nat (length argv_at) + Z.of_nat (length envp_at)) by (unfold vw, blen; lia).
  rewrite (proj2 (Z.ltb_ge _ _)) by (apply Z.div_le_lower_bound; lia).
  change 15 with (2 ^ 4 - 1). rewrite land_lnot_u64 by lia. change (2 ^ 4) with 16.
  set (sp := execfn - vw * 8 - (execfn - vw * 8) mod 16).
  pose proof (Z.mod_pos_bound (execfn - vw * 8) 16 ltac:(lia)) as Hmod.
  assert (Hsp : sp = execfn - vw * 8 - (execfn - vw * 8) mod 16) by done.
  rewrite (proj2 (Z.ltb_ge _ _)) by lia.
  set (words := [blen argv_at] ++ _).
  assert (Hwl : Z.of_nat (length words) = vw).
  { unfold words, vw, auxv, blen. rewrite !length_app. cbn [length]. lia. }
  pose proof (data_only_inv hhdm Hinv m1 Hd1) as Hinv1.
  destruct (push_words_spec (with_mem m1 s) own words sp) as (m2 & Hr & Hd2 & Ho2 & Hh2);
    [done|intros va Hva; apply Hm; lia|lia|lia|]. rewrite Hwl in Ho2.
  change (with_mem m2 (with_mem m1 s)) with (with_mem m2 s) in *. rewrite (K_bind_ret _ _ _ _ _ Hr). cbn [negb].
  eexists _, m2. split; [done|]. split; [by transitivity m1|].
  assert (Hrng : only_range s (with_mem m2 s) sp cursor)
    by (eapply (only_range_trans s (with_mem m1 s)); [exact Ho1|exact Ho2|lia..]).
  split; [intros va Hva Hn; apply Hrng; [done|lia]|].
  assert (Hla : length argv_at = length argv) by (by eapply Forall2_length).
  exists argv_at, envp_at, execfn. cbn [x_stack x_argc x_argv x_envp]. rewrite <- Hla.
  change ([Z.of_nat (length argv_at)] ++ argv_at ++ [0] ++ envp_at ++ [0] ++
          auxv phdr phentsize phnum entry execfn) with words. rewrite Hwl.
  split; [unfold sp; div_mod|]. split; [lia|]. do 3 (split; [done|]). split; [exact Hh2|].
  split; [|split; [|split; [lia|split; [lia|]]]].
  - eapply strings_keep; [exact Harg|exact Hrng|lia..|]. intros a str H1 H2 H3. repeat split; [lia|lia|exact H3].
  - eapply strings_keep; [exact Henv|exact Hrng|lia..|]. intros a str H1 H2 H3. repeat split; [lia|lia|exact H3].
  - eapply holds_keep; [exact Hh1|exact Ho2|lia..].
Qed.

(** What map_user_stack leaves once the pages are mapped and only their
    content changes. *)
Definition stack_result (s1 : paging_state) argv envp path phdr phentsize phnum entry (r : option ExecImage) : Prop :=
  match r with
  | Some im => initial_stack s1 argv envp path phdr phentsize phnum entry im
  | None => MAX_STACK_STRINGS < strings_size envp + strings_size argv + (blen path + 1)
  end.
Lemma stack_done s own s1 own1 argv envp path phdr phentsize phnum entry r m :
  evolves hhdm root s own s1 own1 → only_range s s1 stack_bottom USER_STACK_TOP →
  data_only hhdm own1 (memory s1) m → only_range s1 (with_mem m s1) stack_bottom USER_STACK_TOP →
  stack_result (with_mem m s1) argv envp path phdr phentsize phnum entry r →
  ∃ r' s' own', Ret (r, with_mem m s1) = Ret (r', s') ∧ evolves hhdm root s own s' own' ∧
    only_range s s' stack_bottom USER_STACK_TOP ∧
    match r' with
    | Some im => initial_stack s' argv envp path phdr phentsize phnum entry im
    | None => free s' = ∅ ∨ MAX_STACK_STRINGS < strings_size envp + strings_size argv + (blen path + 1)
    end.
Proof.
  intros Hev Ho1 Hd Ho Hres. pose proof (ev_inv _ _ _ _ _ _ Hev) as Hinv1. exists r, (with_mem m s1), own1. split; [done|].
  split; [eapply evolves_trans; [done|by apply data_evolves]|].
  split; [eapply (only_range_trans s s1); [exact Ho1|exact Ho|lia..]|]. destruct r; [done|by right].
Qed.

Lemma map_user_stack_spec (s : paging_state) (own : gmap Z (Z * Z)) (nx : bool) (argv envp : list (list Z))
    (path : list Z) (phdr phentsize phnum entry : Z) (Hinv : space_inv s root own)
    (Hargc : (length argv ≤ 128)%nat) (Henvc : (length envp ≤ 128)%nat) :
  ∃ r s' own', map_user_stack hhdm (page_va root) nx argv envp path phdr phentsize phnum entry s = Ret (r, s') ∧
    evolves hhdm root s own s' own' ∧ only_range s s' stack_bottom USER_STACK_TOP ∧
    match r with
    | Some im => initial_stack s' argv envp path phdr phentsize phnum entry im
    | None => free s' = ∅ ∨ MAX_STACK_STRINGS < strings_size envp + strings_size argv + (blen path + 1)
    end.
Proof.
  destruct (stack_mapped s own nx Hinv) as (b & s1 & own1 & Hr1 & Hev1 & Ho1 & Hb). unfold map_user_stack.
  rewrite (K_bind_ret _ _ _ _ _ Hr1). pose proof (ev_inv _ _ _ _ _ _ Hev1) as Hinv1.
  destruct b; cbn [negb]; [|exists None, s1, own1; split; [done|split; [done|split; [done|by left]]]].
  pose proof (stack_done s own s1 own1 argv envp path phdr phentsize phnum entry) as Hdone'.
  assert (Hdone := λ r m, Hdone' r m Hev1 Ho1). clear Hdone'. unfold stack_result in Hdone.
  pose proof (strings_size_nonneg argv). pose proof (strings_size_nonneg envp).
  assert (Hp0 : 0 ≤ blen path) by (unfold blen; lia).
  assert (Hst : stack_bottom = USER_STACK_TOP - 32768) by reflexivity.
  assert (Hut : USER_STACK_TOP ≤ USER_TOP) by (vm_compute; discriminate). assert (Hb0 : 0 < stack_bottom) by reflexivity.
  destruct (push_strings_spec s1 own1 envp USER_STACK_TOP 0 Hinv1 Hb) as (re & m2 & Hr2 & Hd2 & Ho2 & He);
    [lia|by vm_compute|]. rewrite (K_bind_ret _ _ _ _ _ Hr2). destruct re as [[[envp_at c2] t2]|]; [|apply Hdone; [done|done|lia]].
  destruct He as [_ Hrg2 Hc2 Ht2 Hf2 Hh2]. pose proof (data_only_inv hhdm Hinv1 m2 Hd2) as Hinv2.
  destruct (push_strings_spec (with_mem m2 s1) own1 argv c2 t2 Hinv2 Hb) as (ra & m3 & Hr3 & Hd3 & Ho3 & Ha); [lia|lia|].
  rewrite (K_bind_ret _ _ _ _ _ Hr3). change (with_mem m3 (with_mem m2 s1)) with (with_mem m3 s1) in *.
  assert (Hd3' : data_only hhdm own1 (memory s1) m3) by (by transitivity m2).
  assert (Ho3' : only_range s1 (with_mem m3 s1) stack_bottom USER_STACK_TOP)
    by (eapply (only_range_trans s1 (with_mem m2 s1)); [exact Ho2|exact Ho3|lia..]).
  destruct ra as [[[argv_at c3] t3]|]; [|apply Hdone; [done|done|lia]].
  destruct Ha as [_ Hrg3 Hc3 Ht3 Hf3 Hh3]. change (with_mem m3 (with_mem m2 s1)) with (with_mem m3 s1) in *.
  unfold MAX_STACK_STRINGS in *. destruct (Z.ltb_spec (16384 - t3) (blen path + 1)) as [Hlt|Hge]; cbn [orb].
  { apply Hdone; [done|done|lia]. }
  rewrite (proj2 (Z.ltb_ge _ _)) by lia.
  destruct (vectors_spec (with_mem m3 s1) own1 argv_at envp_at argv envp path c3 phdr phentsize phnum entry)
    as (im & m4 & Hr4 & Hd4 & Ho4 & Hs4).
  - by apply data_only_inv.
  - done.
  - by rewrite (Forall2_length _ _ _ Hh3).
  - by rewrite (Forall2_length _ _ _ Hh2).
  - unfold MAX_STACK_STRINGS. lia.
  - lia.
  - eapply Forall2_impl; [exact Hh3|]. intros a str (H1 & H2 & H3). split; [done|]. split; [lia|done].
  - eapply strings_keep; [exact Hh2|exact Hrg3|lia..|]. intros a str H1 H2 H3. repeat split; [lia|lia|exact H3].
  - change (with_mem m4 (with_mem m3 s1)) with (with_mem m4 s1) in *.
    destruct (Hdone (Some im) m4) as (r' & s' & own' & Heq & Hrest); [by transitivity m3| |done|].
    { eapply (only_range_trans s1 (with_mem m3 s1)); [exact Ho3'|exact Ho4|lia..]. }
    exists r', s', own'. split; [rewrite <- Heq; exact Hr4|exact Hrest].
Qed.

End Stack.

(** A machine with sixteen pages, three of them in use. *)
Definition stack_sample : paging_state :=
  PagingState (Machine (λ a, if a =? 4096 then 7 else 0) 4096 16 13) 8192.
Lemma kernel_stack_sample : kernel_space 0 stack_sample 2.
Proof.
  assert (Hfs : free_set 0 (pg_mach stack_sample) =
    list_to_set [3; 4; 5; 6; 7; 8; 9; 10; 11; 12; 13; 14; 15]) by (vm_compute; reflexivity).
  assert (Hcl : ∀ p, 2 ≤ p → clear_page 0 (pg_mach stack_sample) p).
  { intros p Hp a Ha Hb. unfold in_page, page_va, PAGE_SIZE in Ha. unfold in_bitmap in Hb.
    change (phys_to_virt 0 (bitmap (pg_mach stack_sample))) with 4096 in Hb.
    change ((total_pages (pg_mach stack_sample) + 7) / 8) with 2 in Hb. lia. }
  split; [split; [done|vm_compute; discriminate| |]|vm_compute; discriminate|done|done| |by apply Hcl].
  - split; [rewrite Hfs; reflexivity|vm_compute; split; discriminate|rewrite Hfs; set_solver].
  - intros p Hp. apply Hcl. rewrite Hfs in Hp. set_solver by lia.
  - rewrite Hfs. set_solver.
Qed.

(** /bin/sh with one argument. *)
Definition sample_argv : list (list Z) := [[115; 104]].
Definition sample_path : list Z := [47; 98; 105; 110; 47; 115; 104].

