(* ===== verification/SpaceFree.v ===== *)
(** * Tearing an address space down

    destroy_address_space walks the user half of the tree and gives every page
    of it back, a table after the pages below it. The walk reads tables while
    it frees pages: it is right because freePage writes the bitmap only. *)

From S2P Require Import Prelude Bytes Mem KString Errno Pmm Pages Paging PagingSpec Alloc Vfs Elf Apic UserCopy.
From S2P Require Import UserCopySpec ElfExec Exec SpaceSpec SpaceMap LoadSpec.

Section SpaceFree.
Context (hhdm : Z).
Implicit Types (s : paging_state) (F : Z → Prop).
Abbreviation page_va := (page_va hhdm).
Abbreviation memory s := (mem (pg_mach s)).
Abbreviation space_inv := (space_inv hhdm).
Abbreviation child := (child hhdm).
Abbreviation free s := (free_set hhdm (pg_mach s)).

Section Tree.
Context {s0 : paging_state} {root : Z} {own : gmap Z (Z * Z)} (Hinv : space_inv s0 root own).

(** What has been given back since [s0]. *)
Record freed s F : Prop := {
  fd_base : pml4_base s = pml4_base s0;
  fd_phys : phys_ok hhdm (pg_mach s);
  fd_only : only_bitmap hhdm (pg_mach s0) (pg_mach s);
  fd_free : ∀ q, q ∈ free s ↔ q ∈ free s0 ∨ F q
}.

Lemma freed_nothing : freed s0 (λ _, False).
Proof. split; [done|apply (sp_phys _ _ _ _ Hinv)|done|]. intros q. tauto. Qed.
Lemma freed_iff s F F' : (∀ q, F q ↔ F' q) → freed s F → freed s F'.
Proof. intros HF [Hb Hp Ho Hf]. split; try done. intros q. by rewrite Hf, HF. Qed.

Lemma pmm_freePage_spec s F q k : freed s F → own !! q = Some k →
  ∃ s', pmm_freePage hhdm (q * PAGE_SIZE) s = Ret (tt, s') ∧ freed s' (λ r, F r ∨ r = q).
Proof.
  destruct k as [l x]. intros Hfd Hq. eexists. split; [done|].
  destruct (sp_used _ _ _ _ Hinv _ _ _ Hq) as (_ & Hr & _ & Hcl).
  pose proof (fd_only _ _ Hfd) as Ho. pose proof (ob_total _ _ _ Ho) as Ht.
  destruct (freePage_spec hhdm (pg_mach s) q (po_pmm _ _ (fd_phys _ _ Hfd)) ltac:(lia)) as (Hi & Ho' & Hf).
  assert (E : {[q]} ∩ page_range 0 (total_pages (pg_mach s)) = ({[q]} : gset Z)).
  { apply set_eq. intros r. rewrite elem_of_intersection, elem_of_singleton, elem_of_page_range. lia. }
  rewrite E in Hf. split; cbn [pml4_base pg_mach].
  - apply (fd_base _ _ Hfd).
  - destruct (fd_phys _ _ Hfd) as [H0 Htop _ Hb]. split; [done|by rewrite (ob_total _ _ _ Ho')|done|].
    intros r. rewrite Hf. intros [Hr'|Hr']%elem_of_union; (eapply clear_page_stable; [exact Ho'|]); [by apply Hb|].
    apply elem_of_singleton in Hr' as ->. by eapply clear_page_stable.
  - by etrans.
  - intros r. rewrite Hf, elem_of_union, elem_of_singleton, (fd_free _ _ Hfd). tauto.
Qed.

(** The tables still read as they did. *)
Lemma freed_entry s F t k i : freed s F → own !! t = Some k → 0 ≤ i < 512 →
  load64 (memory s) (entry_at (page_va t) i) = load64 (memory s0) (entry_at (page_va t) i).
Proof.
  destruct k as [l x]. intros Hfd Ht Hi. apply load64_frame. intros a Ha. apply (ob_mem _ _ _ (fd_only _ _ Hfd)).
  destruct (sp_used _ _ _ _ Hinv _ _ _ Ht) as (_ & _ & _ & Hcl). apply Hcl. by eapply entry_in_page.
Qed.

(** *** The pages below a table *)

Definition below (l x r : Z) : Prop :=
  ∃ (d : nat) y, own !! r = Some (l + Z.of_nat d, y) ∧ y / 512 ^ Z.of_nat d = x.

Lemma div_step y (d : nat) : y / 512 ^ Z.of_nat (S d) = y / 512 / 512 ^ Z.of_nat d.
Proof. rewrite Nat2Z.inj_succ, Z.pow_succ_r by lia. rewrite Z.div_div by lia. done. Qed.

Lemma div_slot y (d : nat) x j : y / 512 ^ Z.of_nat d = x * 512 + j → 0 ≤ j < 512 → y / 512 ^ Z.of_nat (S d) = x.
Proof.
  intros Hy Hj. by rewrite div_step, Z.div_div, Z.mul_comm, <- Z.div_div, Hy, Z.div_add_l, Z.div_small, Z.add_0_r by lia.
Qed.

Lemma ancestor (d : nat) l q y : own !! q = Some (l + Z.of_nat d, y) → 0 ≤ l →
  ∃ r, own !! r = Some (l, y / 512 ^ Z.of_nat d).
Proof.
  intros Hq Hl. revert q y Hq. induction d as [|d IH]; intros q y Hq.
  - exists q. rewrite Hq. cbn. rewrite Z.div_1_r. do 2 f_equal. lia.
  - destruct (sp_up _ _ _ _ Hinv q _ _ Hq ltac:(lia)) as (p & x & i & Hp & Hi%slot_range & -> & _).
    replace (l + Z.of_nat (S d) - 1) with (l + Z.of_nat d) in Hp by lia. destruct (IH p x Hp) as [r Hr].
    exists r. by rewrite div_step, Z.div_add_l, (Z.div_small i), Z.add_0_r by lia.
Qed.

Lemma below_self l x r : own !! r = Some (l, x) → below l x r.
Proof. intros Hr. exists 0%nat, x. rewrite Z.add_0_r. cbn. by rewrite Z.div_1_r. Qed.

Lemma below_split t l x r : own !! t = Some (l, x) →
  below l x r ↔ (∃ j, slot l j ∧ is_Some (child (memory s0) t j) ∧ below (l + 1) (x * 512 + j) r) ∨ r = t.
Proof.
  intros Ht. destruct (sp_used _ _ _ _ Hinv _ _ _ Ht) as (Hl & _). split.
  - intros ([|d] & y & Hr & Hx).
    + right. cbn in Hx. rewrite Z.div_1_r in Hx. rewrite Z.add_0_r, Hx in Hr. by eapply (sp_inj _ _ _ _ Hinv).
    + left. replace (l + Z.of_nat (S d)) with (l + 1 + Z.of_nat d) in Hr by lia.
      destruct (ancestor d (l + 1) r y Hr ltac:(lia)) as [r' Hr'].
      destruct (sp_up _ _ _ _ Hinv r' _ _ Hr' ltac:(lia)) as (p & x' & j & Hp & Hj & Hy & Hc).
      replace (l + 1 - 1) with l in * by lia. pose proof (slot_range _ _ Hj) as Hjr.
      assert (x' = x) as -> by (rewrite <- Hx; symmetry; by eapply div_slot).
      rewrite (sp_inj _ _ _ _ Hinv p t _ Hp Ht) in Hc. exists j. split; [done|]. split; [by exists r'|].
      exists d, y. done.
  - intros [(j & Hj%slot_range & _ & d & y & Hr & Hy)| ->]; [|by apply below_self].
    exists (S d), y. split; [rewrite Hr; do 2 f_equal; lia|by eapply div_slot].
Qed.

(** Pages of data have nothing below them. *)
Lemma below_data y r : below 4 y r ↔ own !! r = Some (4, y).
Proof.
  split; [|apply below_self]. intros (d & y' & Hr & Hy). destruct (sp_used _ _ _ _ Hinv _ _ _ Hr) as (Hl & _).
  assert (d = 0%nat) as -> by lia. cbn in Hy. rewrite Z.div_1_r in Hy. by rewrite Hr, Hy.
Qed.
Lemma below_root r : below 0 0 r ↔ is_Some (own !! r).
Proof.
  split; [intros (d & y & Hr & _); by eexists|]. intros [[l y] Hr].
  destruct (sp_used _ _ _ _ Hinv _ _ _ Hr) as (Hl & _). exists (Z.to_nat l), y. rewrite Z.add_0_l, Z2Nat.id by lia.
  split; [done|]. destruct (ancestor (Z.to_nat l) 0 r y) as [r' Hr']; [rewrite Hr; do 2 f_equal; lia|lia|].
  rewrite Z2Nat.id in Hr' by lia. by apply (sp_root _ _ _ _ Hinv) in Hr' as [_ ->].
Qed.

(** *** The walk *)

(** A body that gives back what is below an entry gives back, over a table,
    what is below its entries. *)
Lemma for_entries_spec t l x (f : Z → K paging_state unit) : own !! t = Some (l, x) → l < 4 →
  (∀ i q s F, slot l i → child (memory s0) t i = Some q → freed s F →
     ∃ s', f (load64 (memory s0) (entry_at (page_va t) i)) s = Ret (tt, s') ∧
       freed s' (λ r, F r ∨ below (l + 1) (x * 512 + i) r)) →
  ∀ k i s F, (∀ j, i ≤ j < i + Z.of_nat k → slot l j) → freed s F →
    ∃ s', for_entries k i (page_va t) f s = Ret (tt, s') ∧
      freed s' (λ r, F r ∨ ∃ j, i ≤ j < i + Z.of_nat k ∧ is_Some (child (memory s0) t j) ∧ below (l + 1) (x * 512 + j) r).
Proof.
  intros Ht Hl Hf k. induction k as [|k IH]; intros i s F Hk Hfd; cbn [for_entries].
  { exists s. split; [done|]. eapply freed_iff; [|done]. intros q. split; [by left|].
    intros [?|(j & Hj & _)]; [done|lia]. }
  assert (Hi : slot l i) by (apply Hk; lia). pose proof (slot_range _ _ Hi) as Hir.
  erewrite K_bind_ret by reflexivity. rewrite (freed_entry s F t _ i) by done.
  pose proof (child_next hhdm Hinv t l x i Ht Hl Hi) as Hc. cbv zeta in Hc. set (e := load64 _ _) in *.
  assert (Hbody : ∃ s1, (if Z.land e PTE_PRESENT =? 0 then mret tt else f e) s = Ret (tt, s1) ∧
    freed s1 (λ r, F r ∨ is_Some (child (memory s0) t i) ∧ below (l + 1) (x * 512 + i) r)).
  { destruct (Z.land e PTE_PRESENT =? 0).
    - exists s. split; [done|]. eapply freed_iff; [|done]. intros q. rewrite Hc. split; [by left|].
      intros [?|[[? [=]] _]]. done.
    - destruct Hc as (q & Hc & _). destruct (Hf i q s F Hi Hc Hfd) as (s1 & Hr & Hs1). exists s1. split; [done|].
      eapply freed_iff; [|done]. intros r. rewrite Hc. split; [|tauto]. intros [?|?]; [by left|right; by split; [eexists|]]. }
  destruct Hbody as (s1 & Hr & Hs1). rewrite (K_bind_ret _ _ _ _ _ Hr).
  destruct (IH (i + 1) s1 _ ltac:(intros j Hj; apply Hk; lia) Hs1) as (s' & Hr' & Hs'). exists s'. split; [done|].
  eapply freed_iff; [|done]. intros r. split.
  - intros [[?|[Hc' Hb]]|(j & Hj & Hc' & Hb)]; [by left|right; exists i; split; [lia|done]|right; exists j; split; [lia|done]].
  - intros [?|(j & Hj & Hc' & Hb)]; [by do 2 left|]. destruct (decide (j = i)) as [->|]; [left; right; done|].
    right. exists j. split; [lia|done].
Qed.

(** All entries, then the table itself. *)
Lemma table_freed n t l x (f : Z → K paging_state unit) s F : own !! t = Some (l, x) → l < 4 →
  (∀ i, slot l i ↔ 0 ≤ i < Z.of_nat n) →
  (∀ i q s F, slot l i → child (memory s0) t i = Some q → freed s F →
     ∃ s', f (load64 (memory s0) (entry_at (page_va t) i)) s = Ret (tt, s') ∧
       freed s' (λ r, F r ∨ below (l + 1) (x * 512 + i) r)) →
  freed s F →
  ∃ s', (for_entries n 0 (phys_to_virt hhdm (t * PAGE_SIZE)) f ≫= λ _, pmm_freePage hhdm (t * PAGE_SIZE)) s = Ret (tt, s') ∧
    freed s' (λ r, F r ∨ below l x r).
Proof.
  intros Ht Hl Hn Hf Hfd. rewrite (own_page hhdm Hinv t _ _ Ht).
  destruct (for_entries_spec t l x f Ht Hl Hf n 0 s F) as (s1 & Hr & Hs1); [intros j Hj; by apply Hn|done|].
  rewrite (K_bind_ret _ _ _ _ _ Hr). destruct (pmm_freePage_spec s1 _ t _ Hs1 Ht) as (s' & Hr' & Hs').
  exists s'. split; [done|]. eapply freed_iff; [|done]. intros r. rewrite (below_split t l x r Ht).
  setoid_rewrite Hn. tauto.
Qed.

Lemma destroy_table_tree_spec lev t x s F : own !! t = Some (3 - Z.of_nat lev, x) → (lev ≤ 2)%nat → freed s F →
  ∃ s', destroy_table_tree hhdm lev (t * PAGE_SIZE) s = Ret (tt, s') ∧
    freed s' (λ r, F r ∨ below (3 - Z.of_nat lev) x r).
Proof.
  revert t x s F. induction lev as [|lev IH]; intros t x s F Ht Hlev Hfd; cbn [destroy_table_tree];
    (apply table_freed; [done|lia|intros i; unfold slot; rewrite (proj2 (Z.eqb_neq _ 0)) by lia; done| |done]);
    intros i q s1 F1 Hi Hc Hfd1; pose proof (sp_down _ _ _ _ Hinv _ _ _ _ _ Ht ltac:(lia) Hi Hc) as Hq;
    pose proof (child_address _ _ _ _ _ Hc) as [-> Hp].
  - destruct (pmm_freePage_spec s1 F1 q _ Hfd1 Hq) as (s' & Hr' & Hs'). exists s'. split; [done|].
    eapply freed_iff; [|done]. intros r. change (3 - Z.of_nat 0 + 1) with 4 in *. rewrite below_data.
    split; (intros [?|Hr]; [by left|right]); [by rewrite Hr|by eapply (sp_inj _ _ _ _ Hinv)].
  - rewrite (sp_large _ _ _ _ Hinv _ _ _ _ Ht ltac:(lia) Hi Hp).
    replace (3 - Z.of_nat (S lev) + 1) with (3 - Z.of_nat lev) in * by lia. apply IH; [done|lia|done].
Qed.

Lemma destroy_spec : ∃ s', destroy_address_space hhdm (root * PAGE_SIZE) s0 = Ret (tt, s') ∧
  freed s' (λ q, is_Some (own !! q)).
Proof.
  pose proof (own_root hhdm Hinv) as Hroot. destruct (sp_used _ _ _ _ Hinv _ _ _ Hroot) as (_ & Hr & _).
  unfold destroy_address_space. rewrite (proj2 (Z.eqb_neq _ 0)) by (unfold PAGE_SIZE; lia).
  edestruct (table_freed 256 root 0 0) as (s' & Hd & Hs'); [done|lia|done| |apply freed_nothing|].
  2:{ exists s'. split; [exact Hd|]. eapply freed_iff; [|done]. intros q. cbv beta. rewrite below_root. tauto. }
  intros i q s1 F1 Hi Hc Hfd1. pose proof (sp_down _ _ _ _ Hinv _ _ _ _ _ Hroot ltac:(lia) Hi Hc) as Hq.
  pose proof (child_address _ _ _ _ _ Hc) as [-> Hp]. rewrite (sp_large _ _ _ _ Hinv _ _ _ _ Hroot ltac:(lia) Hi Hp).
  by apply (destroy_table_tree_spec 2).
Qed.
End Tree.

(** ** A new space *)

(** What is true of a space built since [s]: its pages were free. *)
Record built s s' root own : Prop := {
  bt_inv : space_inv s' root own;
  bt_base : pml4_base s' = pml4_base s;
  bt_total : total_pages (pg_mach s') = total_pages (pg_mach s);
  bt_bitmap : bitmap (pg_mach s') = bitmap (pg_mach s);
  bt_free : ∀ q, q ∈ free s ↔ q ∈ free s' ∨ is_Some (own !! q);
  bt_out : ∀ a, (∀ q, q ∈ free s → ¬ in_page hhdm q a) → ¬ in_bitmap hhdm (pg_mach s) a → memory s' a = memory s a
}.

Lemma built_evolves s s1 s2 root own1 own2 : built s s1 root own1 → evolves hhdm root s1 own1 s2 own2 →
  built s s2 root own2.
Proof.
  intros [Hi Hb Ht Hbm Hf Ho] Hev. pose proof (ev_sub _ _ _ _ _ _ Hev) as Hsub.
  assert (Hown : ∀ q, is_Some (own2 !! q) → q ∈ free s).
  { intros q Hq. apply Hf. destruct (own1 !! q) as [k|] eqn:E; [right; by exists k|left].
    by apply (ev_new _ _ _ _ _ _ Hev). }
  split.
  - apply (ev_inv _ _ _ _ _ _ Hev).
  - by rewrite (ev_base _ _ _ _ _ _ Hev).
  - by rewrite (ev_total _ _ _ _ _ _ Hev).
  - by rewrite (ev_bitmap _ _ _ _ _ _ Hev).
  - intros q. split.
    + intros [Hq|[k Hq]]%Hf; [by apply (ev_kept _ _ _ _ _ _ Hev)|right]. exists k. by eapply lookup_weaken.
    + intros [Hq|Hq]; [apply Hf; left; by apply (ev_free _ _ _ _ _ _ Hev)|by apply Hown].
  - intros a Ha Hna. rewrite (ev_out _ _ _ _ _ _ Hev); [by apply Ho|intros q Hq; by apply Ha, Hown|].
    unfold in_bitmap. by rewrite Ht, Hbm.
Qed.

Lemma create_built s kroot : kernel_space hhdm s kroot →
  create_address_space hhdm s = Ret (0, s) ∧ free s = ∅ ∨
  ∃ root s1, create_address_space hhdm s = Ret (root * PAGE_SIZE, s1) ∧ 0 < root ∧
    built s s1 root {[root := (0, 0)]} ∧ phys_to_virt hhdm (root * PAGE_SIZE) = page_va root ∧
    (∀ i, 256 ≤ i < 512 →
       load64 (memory s1) (entry_at (page_va root) i) = load64 (memory s) (entry_at (page_va kroot) i)).
Proof.
  intros Hk. destruct (create_spec hhdm s kroot Hk)
    as [?|(root & s1 & Hc & Hr & Hrf & Hinv & Hb & Hfree & Hva & Htot & Hbm & Hkern & Hout)]; [by left|right].
  exists root, s1. split_and!; try done. split; try done.
  - intros q. rewrite Hfree. destruct (decide (q = root)) as [->|Hne].
    + rewrite lookup_singleton_eq. split; [right; by eexists|done].
    + rewrite lookup_singleton_ne by done. split; [set_solver|]. intros [Hq|[? [=]]]. set_solver.
  - intros a Ha. apply Hout. by apply Ha.
Qed.

End SpaceFree.
