(* ===== verification/RelocSpec.v ===== *)
(** * Relative relocations of a program

    apply_relative_relocations reads the dynamic table and the relocation
    table out of the new address space and patches words in it. The tables
    come from the file, so nothing is assumed of them: whatever they hold, the
    loop ends and writes only into writable segments. For a table of RELATIVE
    relocations it writes what the ABI asks for. *)

From S2P Require Import Prelude Bytes Mem KString Errno Pmm Pages Paging PagingSpec Alloc Vfs Elf Apic UserCopy.
From S2P Require Import UserCopySpec ElfExec Exec ExecSpec SpaceSpec SpaceMap LoadSpec StackSpec.

(** The address lies in a writable segment. *)
Definition writable_at (segments : list ProgramHeader) (bias va : Z) : Prop :=
  ∃ p start end_, p ∈ segments ∧ Z.land (p_flags p) PF_W ≠ 0 ∧ segment_range p bias = Some (start, end_) ∧
    start ≤ va < end_.

Lemma segment_range_top p bias start end_ : segment_range p bias = Some (start, end_) → end_ ≤ USER_TOP.
Proof. unfold segment_range. repeat case_match; intros [= <- <-]. zbool. lia. Qed.

Lemma segment_is_writable_spec segments address bias : segment_is_writable segments address 8 bias = true →
  address + 8 ≤ USER_TOP ∧ ∀ va, address ≤ va < address + 8 → writable_at segments bias va.
Proof.
  unfold segment_is_writable. destruct (_ <? _); [done|]. induction segments as [|p rest IH]; [done|].
  assert (Hrest : writable_loop rest address 8 bias = true →
    address + 8 ≤ USER_TOP ∧ ∀ va, address ≤ va < address + 8 → writable_at (p :: rest) bias va).
  { intros [Ht Hw]%IH. split; [done|]. intros va Hva. destruct (Hw va Hva) as (q & st & e & Hq & Hr).
    exists q, st, e. split; [by right|done]. }
  cbn [writable_loop]. destruct (Z.eqb_spec (Z.land (p_flags p) PF_W) 0); [exact Hrest|].
  destruct (segment_range p bias) as [[start end_]|] eqn:Er; [|exact Hrest].
  destruct (_ && _) eqn:E; [|exact Hrest]. intros _. pose proof (segment_range_top _ _ _ _ Er). zbool.
  split; [lia|]. intros va Hva. exists p, start, end_. split; [by left|]. split; [done|]. split; [done|lia].
Qed.

Section Reloc.
Context (hhdm : Z) (root : Z) (own : gmap Z (Z * Z)).
Implicit Types (s : paging_state).
Abbreviation page_va := (page_va hhdm).
Abbreviation memory s := (mem (pg_mach s)).
Abbreviation space_inv := (space_inv hhdm).
Abbreviation ubyte := (ubyte hhdm).
Abbreviation holds := (holds hhdm root).
Abbreviation copy_from := (copy_from_space hhdm (page_va root)).

(** The process's memory consists of bytes. *)
Definition byte_view s : Prop := ∀ va x, 0 ≤ va < USER_TOP → ubyte s root va = Some x → is_byte x.

Lemma copy_from_spec s a size : space_inv s root own → 0 ≤ a → 0 ≤ size → a + size ≤ USER_TOP →
  ∃ r, copy_from a size s = Ret (r, s) ∧
    match r with
    | Some bs => blen bs = size ∧ holds s a bs
    | None => ∃ i, 0 ≤ i < size ∧ frame_of hhdm s root (a + i) = None
    end.
Proof.
  intros Hinv Ha Hs Ht. destruct (copy_from_loop_spec hhdm (S (Z.to_nat size)) s root own a size 0 [])
    as (r & Hr & Hres); [done|done|done|lia|lia|done|intros i Hi; lia|].
  exists r. split; [exact Hr|]. destruct r as [bs|]; [|done]. destruct Hres as [Hl Hb]. split; [done|].
  intros i Hi. apply Hb. lia.
Qed.

Lemma holds_bytes s a bs : byte_view s → holds s a bs → 0 ≤ a → a + blen bs ≤ USER_TOP → Forall is_byte bs.
Proof.
  intros Hv Hh Ha Ht. apply List.Forall_forall. intros x Hx. apply (In_nth _ _ 0) in Hx as (n & Hn & Hx).
  apply (Hv (a + Z.of_nat n)); [unfold blen in *; lia|]. rewrite Hh by (unfold blen; lia). unfold byte_at.
  by rewrite Nat2Z.id, Hx.
Qed.

Lemma holds_inj s a bs bs' : holds s a bs → holds s a bs' → blen bs = blen bs' → bs = bs'.
Proof.
  intros H1 H2 Hl. apply (nth_ext _ _ 0 0); [unfold blen in Hl; lia|]. intros n Hn.
  specialize (H1 (Z.of_nat n) ltac:(unfold blen; lia)). specialize (H2 (Z.of_nat n) ltac:(unfold blen in *; lia)).
  rewrite H1 in H2. injection H2 as H2. unfold byte_at in H2. by rewrite Nat2Z.id in H2.
Qed.

(** What the process can see has changed only where it may write. *)
Definition only_writable segments bias s s' : Prop :=
  ∀ va, 0 ≤ va < USER_TOP → ¬ writable_at segments bias va → ubyte s' root va = ubyte s root va.

(** A patched word. *)
Record patched segments bias s target v (b : bool) m' : Prop := {
  pa_data : data_only hhdm own (memory s) m';
  pa_only : only_writable segments bias s (with_mem m' s);
  pa_view : b = true → byte_view (with_mem m' s);
  pa_word : b = true → holds (with_mem m' s) target (le_bytes 8 v);
  pa_rest : only_range hhdm root s (with_mem m' s) target (target + 8);
  pa_fail : b = false → ¬ mapped own target (target + 8)
}.
Lemma patch_spec segments bias s target v : space_inv s root own → byte_view s → 0 ≤ target →
  segment_is_writable segments target 8 bias = true →
  ∃ b m', copy_to_space hhdm (page_va root) target (le_bytes 8 v) s = Ret (b, with_mem m' s) ∧
    patched segments bias s target v b m'.
Proof.
  intros Hinv Hv Ht [Htop Hw]%segment_is_writable_spec.
  assert (Hl : blen (le_bytes 8 v) = 8) by (unfold blen; by rewrite le_bytes_length).
  destruct (copy_to_space_spec hhdm s root own target (le_bytes 8 v)) as (b & m' & Hr & [Hd Ho Hi Hf]); [done|done|lia|].
  rewrite Hl, Z.add_0_r in *. exists b, m'. split; [done|]. split.
  - done.
  - intros va Hva Hn. apply Ho; [done|]. intros Hin. by apply Hn, Hw.
  - intros Hb va x Hva. destruct (decide (target ≤ va < target + 8)) as [Hin|Hin].
    + rewrite Hi by done. intros [= <-]. pose proof (le_bytes_bytes 8 v) as Hbs.
      rewrite List.Forall_forall in Hbs. apply Hbs, nth_In. rewrite le_bytes_length. lia.
    + rewrite Ho by done. by apply Hv.
  - intros Hb i Hin. rewrite Hl in Hin. rewrite Hi by (done || lia). do 2 f_equal. lia.
  - intros va Hva Hn. by apply Ho.
  - intros Hb Hm. destruct (Hf Hb) as (va & Hva & Hn). destruct (Hm va Hva) as [q Hq].
    apply (frame_own hhdm Hinv) in Hq; [congruence|lia].
Qed.

(** ** Whatever the tables hold *)

(** The state after some patches. *)
Definition relocating segments bias s s' : Prop :=
  ∃ m', s' = with_mem m' s ∧ data_only hhdm own (memory s) m' ∧ only_writable segments bias s s'.
Lemma relocating_refl segments bias s : relocating segments bias s s.
Proof. exists (memory s). split; [by destruct s as [[]]|done]. Qed.
Lemma relocating_stop segments bias s (b : bool) :
  ∃ b' s', (mret b : K paging_state bool) s = Ret (b', s') ∧ relocating segments bias s s'.
Proof. exists b, s. split; [done|apply relocating_refl]. Qed.
Lemma relocating_step segments bias s m1 s' : data_only hhdm own (memory s) m1 →
  only_writable segments bias s (with_mem m1 s) → relocating segments bias (with_mem m1 s) s' →
  relocating segments bias s s'.
Proof.
  intros Hd Ho (m2 & -> & Hd2 & Ho2). exists m2. split; [done|]. split; [by transitivity m1|].
  intros va Hva Hn. by rewrite Ho2, Ho.
Qed.

(** The numbers the dynamic table gives are words. *)
Definition info_ok (r : rela_info) : Prop :=
  (∀ a, rela_address r = Some a → 0 ≤ a < 2 ^ 64) ∧ (∀ n, rela_size r = Some n → 0 ≤ n < 2 ^ 64).
Lemma record_rela_ok e r : 0 ≤ d_value e < 2 ^ 64 → info_ok r → info_ok (record_rela e r).
Proof. intros He [Ha Hn]. unfold record_rela. repeat case_match; split; cbn; try done; intros x [= <-]; done. Qed.

Lemma dynamic_loop_returns fuel s position end_ r : space_inv s root own → byte_view s → info_ok r →
  0 ≤ position → end_ ≤ USER_TOP → (0 < fuel)%nat → end_ - position < 16 * Z.of_nat fuel →
  ∃ o, dynamic_loop hhdm fuel (page_va root) position end_ r s = Ret (o, s) ∧ ∀ r', o = Some r' → info_ok r'.
Proof.
  intros Hinv Hv. revert position r. induction fuel as [|f IH]; intros position r Hr Hp He Hf0 Hf; [lia|].
  cbn [dynamic_loop]. unfold sizeof_DynamicEntry. destruct (Z.leb_spec position (end_ - 16)) as [Hle|Hgt].
  2:{ exists (Some r). split; [done|]. by intros r' [= <-]. }
  destruct (copy_from_spec s position 16 Hinv Hp ltac:(lia) ltac:(lia)) as (o & Ho & Hres).
  rewrite (K_bind_ret _ _ _ _ _ Ho). destruct o as [b|]; [|by exists None]. destruct Hres as [Hl Hh].
  assert (Hb : Forall is_byte b) by (eapply holds_bytes; [done|done|done|lia]).
  destruct (_ =? DT_NULL). { eexists. split; [done|]. intros r' [= <-]. exact Hr. }
  destruct (forbidden_tag _); [by exists None|].
  apply IH; [apply record_rela_ok; [by apply read_dyn_range|done]|lia..].
Qed.

Lemma relocate_loop_safe segments bias address size fuel s offset : space_inv s root own → byte_view s → 0 ≤ bias →
  0 ≤ address → address + size ≤ USER_TOP → 0 ≤ offset → size mod 24 = 0 → offset mod 24 = 0 →
  (0 < fuel)%nat → size - offset < 24 * Z.of_nat fuel →
  ∃ b s', relocate_loop hhdm fuel (page_va root) address size bias offset segments s = Ret (b, s') ∧
    relocating segments bias s s'.
Proof.
  intros Hinv Hv Hb Ha Ht Ho Hsm. revert s offset Hinv Hv Ho. induction fuel as [|f IH]; intros s offset Hinv Hv Ho Hom Hf0 Hf; [lia|].
  cbn [relocate_loop]. unfold sizeof_Rela. destruct (Z.ltb_spec offset size) as [Hlt|Hge]; [|apply relocating_stop].
  assert (Hroom : offset + 24 ≤ size) by div_mod.
  rewrite u64_small by (unfold USER_TOP in *; lia).
  destruct (copy_from_spec s (address + offset) 24 Hinv ltac:(lia) ltac:(lia) ltac:(lia)) as (o & Hr & Hres).
  rewrite (K_bind_ret _ _ _ _ _ Hr). destruct o as [b|]; [|apply relocating_stop]. destruct Hres as [Hl Hh].
  assert (Hbs : Forall is_byte b) by (eapply holds_bytes; [done|done|lia|lia]).
  destruct (read_rela_range b Hbs Hl) as [Hro _]. destruct (_ || _); [apply relocating_stop|]. cbv zeta.
  destruct (segment_is_writable segments _ 8 bias) eqn:Ew; cbn [negb]; [|apply relocating_stop].
  destruct (patch_spec segments bias s (r_offset (read_Rela b) + bias) (u64 (bias + u64 (r_addend (read_Rela b)))) Hinv Hv ltac:(lia) Ew)
    as (ok & m1 & Hc & Hpa). rewrite (K_bind_ret _ _ _ _ _ Hc).
  assert (Hgo : ∀ s', relocating segments bias (with_mem m1 s) s' → relocating segments bias s s')
    by (intros s'; apply relocating_step; apply Hpa).
  destruct ok; cbn [negb]; [|exists false, (with_mem m1 s); split; [done|apply Hgo, relocating_refl]].
  destruct (IH (with_mem m1 s) (offset + 24)) as (b' & s' & Hrun & Hrel);
    [apply data_only_inv; [done|apply Hpa]|by apply Hpa|lia|div_mod|lia|lia|].
  exists b', s'. split; [done|by apply Hgo].
Qed.

(** The first read of a table above user memory fails. *)
Lemma relocate_above fuel s address size bias segments : USER_TOP ≤ address < 2 ^ 64 → 0 < size →
  relocate_loop hhdm (S fuel) (page_va root) address size bias 0 segments s = Ret (false, s).
Proof.
  intros Ha Hs. cbn [relocate_loop]. rewrite (proj2 (Z.ltb_lt _ _)) by lia. rewrite (Z.add_0_r address), (u64_small address) by (unfold USER_TOP in *; lia).
  rewrite (K_bind_ret _ _ s None s); [done|]. unfold copy_from_space. cbn [copy_from_loop]. change (0 <? sizeof_Rela) with true. cbv iota.
  rewrite (K_bind_ret _ _ s None s); [done|]. unfold chunk_at. by rewrite (proj2 (Z.leb_le _ _)) by lia.
Qed.

Lemma apply_safe segments dynamic bias s : space_inv s root own → byte_view s → 0 ≤ bias →
  0 ≤ p_vaddr dynamic → 0 ≤ p_memsz dynamic < 2 ^ 64 →
  ∃ b s', apply_relative_relocations hhdm (page_va root) dynamic bias segments s = Ret (b, s') ∧
    relocating segments bias s s'.
Proof.
  intros Hinv Hv Hb Hva Hms.
  unfold apply_relative_relocations. destruct (_ || _) eqn:E1; [apply relocating_stop|]. cbv zeta.
  destruct (_ || (USER_TOP <? _)) eqn:E2; [apply relocating_stop|]. zbool. unfold UINT64_MAX in *.
  set (cursor := p_vaddr dynamic + bias) in *.
  assert (Hend : u64 (cursor + p_memsz dynamic) = cursor + p_memsz dynamic).
  { unfold u64 in *. unfold USER_TOP in *. destruct (decide (cursor + p_memsz dynamic < 2 ^ 64)); [by apply Z.mod_small; lia|].
    exfalso. assert ((cursor + p_memsz dynamic) mod 2 ^ 64 = cursor + p_memsz dynamic - 2 ^ 64); [|lia].
    rewrite <- (Z.mod_small (cursor + p_memsz dynamic - 2 ^ 64) (2 ^ 64)) by lia.
    rewrite <- (Z_mod_plus_full (cursor + p_memsz dynamic - 2 ^ 64) 1). f_equal. lia. }
  rewrite Hend in *.
  destruct (dynamic_loop_returns (S (S (Z.to_nat (p_memsz dynamic / sizeof_DynamicEntry)))) s cursor
    (cursor + p_memsz dynamic) (MkRelaInfo None None sizeof_Rela false)) as (o & Ho & Hok);
    [done|done|by split|lia|lia|lia|unfold sizeof_DynamicEntry; div_mod|].
  rewrite (K_bind_ret _ _ _ _ _ Ho). destruct o as [r|]; [|apply relocating_stop]. destruct (Hok r eq_refl) as [Hra Hrs].
  destruct (negb (rela_terminated r) || _ || _); [apply relocating_stop|].
  destruct (rela_address r) as [a|]; [|apply relocating_stop]. destruct (rela_size r) as [n|]; [|apply relocating_stop].
  specialize (Hra a eq_refl). specialize (Hrs n eq_refl). change (bool_decide (is_Some (Some a))) with true.
  change (default 0 (Some n)) with n. change (default 0 (Some a)) with a. cbn [negb orb]. unfold sizeof_Rela.
  destruct (Z.eqb_spec n 0); [apply relocating_stop|].
  destruct (Z.eqb_spec (n mod 24) 0); cbn [negb orb]; [|apply relocating_stop].
  destruct (Z.ltb_spec (2 ^ 64 - 1 - bias) a); [apply relocating_stop|]. destruct (Z.ltb_spec (u64 (USER_TOP - (a + bias))) n) as [|Hfit]; [apply relocating_stop|].
  destruct (decide (a + bias ≤ USER_TOP)).
  - rewrite u64_small in Hfit by (unfold USER_TOP in *; lia).
    apply relocate_loop_safe; try done; [lia|lia|lia|div_mod].
  - eexists false, s. split; [|apply relocating_refl]. apply relocate_above; lia.
Qed.

(** ** Tables of relative relocations *)

(** The process's memory holds the structures [xs], [size] bytes each, at [a]. *)
Definition array_at {T} (read : list Z → T) (size : Z) s (a : Z) (xs : list T) : Prop :=
  ∀ k x, xs !! k = Some x → ∃ b, blen b = size ∧ holds s (a + size * Z.of_nat k) b ∧ read b = x.
Lemma array_at_cons {T} (read : list Z → T) size s a x xs : array_at read size s a (x :: xs) →
  (∃ b, blen b = size ∧ holds s a b ∧ read b = x) ∧ array_at read size s (a + size) xs.
Proof.
  intros H. split.
  - destruct (H 0%nat x eq_refl) as (b & Hl & Hh & Hr). exists b. by rewrite Z.mul_0_r, Z.add_0_r in Hh.
  - intros k y Hk. destruct (H (S k) y Hk) as (b & Hl & Hh & Hr). exists b.
    replace (a + size + size * Z.of_nat k) with (a + size * Z.of_nat (S k)) by lia. done.
Qed.

(** Reading the first structure. *)
Lemma copy_from_array {T} (read : list Z → T) size s a x xs : space_inv s root own → 0 ≤ a → 0 ≤ size →
  a + size ≤ USER_TOP → array_at read size s a (x :: xs) →
  ∃ b, copy_from a size s = Ret (Some b, s) ∧ read b = x.
Proof.
  intros Hinv Ha Hs Ht [(b & Hl & Hh & Hr) _]%array_at_cons.
  destruct (copy_from_spec s a size Hinv Ha Hs Ht) as ([b'|] & Hc & Hres).
  - destruct Hres as [Hl' Hh']. exists b'. split; [done|]. by rewrite (holds_inj s a b' b) by (done || lia).
  - destruct Hres as (i & Hi & Hn). specialize (Hh i ltac:(lia)). unfold SpaceSpec.ubyte in Hh. by rewrite Hn in Hh.
Qed.

Definition entry_fine (e : DynamicEntry) : Prop := d_tag e ≠ DT_NULL ∧ forbidden_tag (d_tag e) = false.
Definition recorded (ds : list DynamicEntry) (r : rela_info) : rela_info := foldl (λ r e, record_rela e r) r ds.

Lemma dynamic_loop_reads ds null fuel s position end_ r : space_inv s root own → 0 ≤ position → end_ ≤ USER_TOP →
  array_at read_DynamicEntry 16 s position (ds ++ [null]) → Forall entry_fine ds → d_tag null = DT_NULL →
  position + 16 * (Z.of_nat (length ds) + 1) ≤ end_ → (length ds < fuel)%nat →
  dynamic_loop hhdm fuel (page_va root) position end_ r s =
    Ret (Some (let r' := recorded ds r in MkRelaInfo (rela_address r') (rela_size r') (rela_entry_size r') true), s).
Proof.
  intros Hinv. revert fuel position r. induction ds as [|e ds IH]; intros [|fuel] position r Hp He Hat Hf Hn Hroom Hfu;
    cbn [length] in *; try lia; cbn [dynamic_loop app] in *; unfold sizeof_DynamicEntry;
    rewrite (proj2 (Z.leb_le _ _)) by lia;
    destruct (copy_from_array read_DynamicEntry 16 s position _ _ Hinv Hp ltac:(lia) ltac:(lia) Hat) as (b & Hc & Hr);
    rewrite (K_bind_ret _ _ _ _ _ Hc), Hr.
  - by rewrite Hn, Z.eqb_refl.
  - apply Forall_cons in Hf as [[Hnz Hfb] Hf]. rewrite (proj2 (Z.eqb_neq _ _)), Hfb by done.
    apply array_at_cons in Hat as [_ Hat]. apply IH; [lia|done|done|done|done|lia|lia].
Qed.

Section Relative.
Context (segments : list ProgramHeader) (bias address size : Z).
Definition rel_target (r : Rela) : Z := r_offset r + bias.
Definition rel_value (r : Rela) : list Z := le_bytes 8 (u64 (bias + u64 (r_addend r))).
(** A relocation of a mapped, writable word outside the table. *)
Record rel_good (r : Rela) : Prop := {
  rg_relative : is_relative r;
  rg_offset : 0 ≤ r_offset r ≤ UINT64_MAX - bias;
  rg_writable : segment_is_writable segments (rel_target r) 8 bias = true;
  rg_mapped : mapped own (rel_target r) (rel_target r + 8);
  rg_apart : rel_target r + 8 ≤ address ∨ address + size ≤ rel_target r
}.
(** The words are patched and nothing else the process sees has changed. *)
Record rel_done (rs : list Rela) s s' : Prop := {
  rd_words : ∀ r, r ∈ rs → holds s' (rel_target r) (rel_value r);
  rd_rest : ∀ va, 0 ≤ va < USER_TOP → (∀ r, r ∈ rs → ¬ rel_target r ≤ va < rel_target r + 8) →
    ubyte s' root va = ubyte s root va
}.

Lemma array_at_keep {T} (read : list Z → T) n s s' a xs lo hi : array_at read n s a xs → only_range hhdm root s s' lo hi →
  0 ≤ a → 0 ≤ n → a + n * Z.of_nat (length xs) ≤ USER_TOP → (hi ≤ a ∨ a + n * Z.of_nat (length xs) ≤ lo) →
  array_at read n s' a xs.
Proof.
  intros Hat Ho Ha Hn Ht Hd k x Hk. destruct (Hat k x Hk) as (b & Hl & Hh & Hr). exists b. split; [done|].
  split; [|done]. apply lookup_lt_Some in Hk.
  assert (n * Z.of_nat k + n ≤ n * Z.of_nat (length xs)) by nia.
  eapply holds_keep; [done|done|lia|lia|]. rewrite Hl. lia.
Qed.

Lemma elf_relocate_loop rs fuel s offset : space_inv s root own → byte_view s → 0 ≤ bias → 0 ≤ address → 0 ≤ offset →
  address + size ≤ USER_TOP → size = offset + 24 * Z.of_nat (length rs) → (length rs < fuel)%nat →
  array_at read_Rela 24 s (address + offset) rs → Forall rel_good rs → spread (rel_target <$> rs) →
  ∃ m', relocate_loop hhdm fuel (page_va root) address size bias offset segments s = Ret (true, with_mem m' s) ∧
    data_only hhdm own (memory s) m' ∧ rel_done rs s (with_mem m' s).
Proof.
  intros Hinv Hv Hb Ha Ho Ht. revert fuel s offset Hinv Hv Ho.
  induction rs as [|r rs IH]; intros [|fuel] s offset Hinv Hv Ho Hsz Hfu Hat Hg Hsp; cbn [length] in *; try lia; cbn [relocate_loop].
  { rewrite (proj2 (Z.ltb_ge _ _)) by lia. exists (memory s). split; [by destruct s as [[]]|]. split; [done|].
    split; [intros r Hr; by apply elem_of_nil in Hr|]. intros va Hva _. by destruct s as [[]]. }
  rewrite (proj2 (Z.ltb_lt _ _)), u64_small by (unfold USER_TOP in *; lia). unfold sizeof_Rela.
  destruct (copy_from_array read_Rela 24 s (address + offset) _ _ Hinv ltac:(lia) ltac:(lia) ltac:(lia) Hat) as (b & Hc & Hr).
  rewrite (K_bind_ret _ _ _ _ _ Hc), Hr. apply Forall_cons in Hg as [[[Hrel Hsym] Hoff Hw Hm Hap] Hg].
  rewrite Hrel, Hsym, (proj2 (Z.ltb_ge _ _)) by lia. cbn [negb orb Z.eqb]. rewrite Z.eqb_refl. cbv zeta. cbn [negb orb].
  fold (rel_target r). rewrite Hw. cbn [negb].
  destruct (patch_spec segments bias s (rel_target r) (u64 (bias + u64 (r_addend r))) Hinv Hv) as (ok & m1 & Hcp & Hpa);
    [unfold rel_target; lia|done|]. rewrite (K_bind_ret _ _ _ _ _ Hcp).
  destruct ok; [|by destruct (pa_fail _ _ _ _ _ _ _ Hpa)]. cbn [negb]. destruct Hsp as [Hsp1 Hsp].
  rewrite Forall_fmap in Hsp1. pose proof (pa_rest _ _ _ _ _ _ _ Hpa) as Hrest.
  apply array_at_cons in Hat as [_ Hat].
  destruct (IH fuel (with_mem m1 s) (offset + 24)) as (m2 & Hrun & Hd & [Hwd Hrs]);
    [apply data_only_inv; [done|apply Hpa]|by apply Hpa|lia|lia|lia| |done|done|].
  { rewrite Z.add_assoc. eapply array_at_keep; [done|done|lia..]. }
  exists m2. split; [done|]. split; [etrans; [apply Hpa|done]|]. change (with_mem m2 (with_mem m1 s)) with (with_mem m2 s) in *.
  split.
  - intros q [->|Hq]%elem_of_cons; [|by apply Hwd]. intros i Hi. unfold rel_value, blen in Hi. rewrite le_bytes_length in Hi.
    pose proof (segment_is_writable_spec _ _ _ Hw) as [Htop _]. rewrite Hrs.
    + apply (pa_word _ _ _ _ _ _ _ Hpa eq_refl). unfold blen. by rewrite le_bytes_length.
    + unfold rel_target in *. lia.
    + intros q Hq. rewrite Forall_forall in Hsp1. specialize (Hsp1 q Hq). cbn in Hsp1. lia.
  - intros va Hva Hn. rewrite Hrs; [|done|intros q Hq; apply Hn; by right]. apply Hrest; [done|]. apply Hn. by left.
Qed.
End Relative.

(** A dynamic table [ds] that names a table [rs] of good relocations at [a]. *)
Record rela_tables segments bias s (dynamic : ProgramHeader) (ds : list DynamicEntry) (null : DynamicEntry)
    (a : Z) (rs : list Rela) : Prop := {
  rt_dynamic : array_at read_DynamicEntry 16 s (p_vaddr dynamic + bias) (ds ++ [null]);
  rt_fine : Forall entry_fine ds;
  rt_null : d_tag null = DT_NULL;
  rt_room : 16 * (Z.of_nat (length ds) + 1) ≤ p_memsz dynamic;
  rt_top : p_vaddr dynamic + bias + p_memsz dynamic ≤ USER_TOP;
  rt_info : recorded ds (MkRelaInfo None None sizeof_Rela false) =
    MkRelaInfo (Some a) (Some (24 * Z.of_nat (length rs))) sizeof_Rela false;
  rt_address : 0 ≤ a ∧ a + bias + 24 * Z.of_nat (length rs) ≤ USER_TOP;
  rt_table : array_at read_Rela 24 s (a + bias) rs;
  rt_good : Forall (rel_good segments bias (a + bias) (24 * Z.of_nat (length rs))) rs;
  rt_spread : spread (rel_target bias <$> rs)
}.

Lemma apply_relative segments dynamic bias s ds null a rs : space_inv s root own → byte_view s → 0 ≤ bias →
  0 ≤ p_vaddr dynamic → rela_tables segments bias s dynamic ds null a rs →
  ∃ m', apply_relative_relocations hhdm (page_va root) dynamic bias segments s = Ret (true, with_mem m' s) ∧
    data_only hhdm own (memory s) m' ∧ rel_done bias rs s (with_mem m' s).
Proof.
  intros Hinv Hv Hb Hva [Hda Hfi Hnu Hro Htop Hin [Ha0 Hat] Htb Hgd Hsp]. unfold USER_TOP in Htop, Hat.
  unfold apply_relative_relocations, sizeof_DynamicEntry, UINT64_MAX. cbv zeta.
  rewrite (proj2 (Z.ltb_ge (p_memsz dynamic) 16)), (proj2 (Z.ltb_ge _ (p_vaddr dynamic))) by lia. cbn [orb].
  rewrite (u64_small (p_vaddr dynamic + bias + p_memsz dynamic)) by lia.
  rewrite (proj2 (Z.ltb_ge _ (p_vaddr dynamic + bias))), (proj2 (Z.ltb_ge USER_TOP _)) by (unfold USER_TOP; lia). cbn [orb].
  erewrite K_bind_ret by (eapply (dynamic_loop_reads ds null); [done|lia|unfold USER_TOP; lia|done|done|done|lia|div_mod]).
  rewrite Hin. cbn [rela_address rela_size rela_entry_size rela_terminated negb orb]. rewrite Z.eqb_refl.
  change (bool_decide (is_Some (Some a))) with true. change (default 0 (Some a)) with a.
  change (bool_decide (is_Some (Some (24 * Z.of_nat (length rs))))) with true. cbn [eqb negb orb default id].
  destruct rs as [|r rs].
  { exists (memory s). split; [by destruct s as [[]]|]. split; [done|]. split; [intros r Hr; by apply elem_of_nil in Hr|].
    intros va Hva' _. by destruct s as [[]]. }
  set (n := 24 * Z.of_nat (length (r :: rs))) in *. assert (Hn : 0 < n) by (unfold n; cbn [length]; lia).
  rewrite (proj2 (Z.eqb_neq n 0)) by lia. unfold sizeof_Rela. assert (n mod 24 = 0) as -> by (unfold n; div_mod).
  cbn [Z.eqb negb orb]. rewrite (proj2 (Z.ltb_ge _ a)) by lia.
  rewrite u64_small, (proj2 (Z.ltb_ge _ n)) by (unfold USER_TOP; lia).
  apply (elf_relocate_loop segments bias (a + bias) n (r :: rs)); try done; [lia| |by rewrite Z.add_0_r].
  unfold n. rewrite (Z.mul_comm 24), Z.div_mul by lia. lia.
Qed.

(** C12: relocating a position-independent program. Whatever the dynamic
    table and the relocation table in the image hold, apply_relative_relocations
    returns, and it changes only bytes of writable segments. When the dynamic
    table names a table of RELATIVE relocations of mapped, non-overlapping
    words in writable segments outside the table, it succeeds: each of the
    words is the load bias plus the addend and the process sees no other
    change. *)
Theorem elf_relocations_exact (s : paging_state) (dynamic : ProgramHeader) (bias : Z) (segments : list ProgramHeader)
    (Hinv : space_inv s root own) (Hv : byte_view s) (Hb : 0 ≤ bias)
    (Hva : 0 ≤ p_vaddr dynamic) (Hms : 0 ≤ p_memsz dynamic < 2 ^ 64) :
  ∃ b s', apply_relative_relocations hhdm (page_va root) dynamic bias segments s = Ret (b, s') ∧
    relocating segments bias s s' ∧
    ∀ ds null a rs, rela_tables segments bias s dynamic ds null a rs → b = true ∧ rel_done bias rs s s'.
Proof.
  destruct (apply_safe segments dynamic bias s) as (b & s' & Hr & Hrel); [done..|].
  exists b, s'. split; [done|]. split; [done|]. intros ds null a rs Hrt.
  destruct (apply_relative segments dynamic bias s ds null a rs) as (m' & Hr' & _ & Hd); [done..|].
  rewrite Hr in Hr'. injection Hr' as -> ->. done.
Qed.
End Reloc.

(** The image is made of bytes. *)
Lemma image_bytes file bias segments va x : Forall is_byte file → image_byte file bias segments va = Some x → is_byte x.
Proof.
  intros Hb. unfold image_byte. destruct (find _ _) as [p|].
  - intros [= <-]. unfold byte_at. set (i := Z.to_nat _). destruct (decide (i < length file)%nat) as [Hi|Hi].
    + rewrite List.Forall_forall in Hb. by apply Hb, nth_In.
    + rewrite nth_overflow by lia. unfold is_byte. lia.
  - destruct (existsb _ _); [intros [= <-]; unfold is_byte; lia|done].
Qed.

(** One writable segment that holds a dynamic table, one relocation and the
    word it is for, in a space of the sample machine. *)
Definition pie_data : list Z :=
  let w v := le_bytes 8 v in
  w DT_RELA ++ w 4160 ++ w DT_RELASZ ++ w 24 ++ w DT_RELAENT ++ w 24 ++ w DT_NULL ++ w 0 ++
  w 4184 ++ w R_X86_64_RELATIVE ++ w 4096 ++ w 0.
Definition pie_segment : ProgramHeader := MkPhdr PT_LOAD 6 0 4096 4096 96 96 4096.
Definition pie_dynamic : ProgramHeader := MkPhdr PT_DYNAMIC 6 0 4096 4096 64 64 8.
Definition pie_rela : Rela := MkRela 4184 R_X86_64_RELATIVE 4096.
Definition pie_loads : bool :=
  match create_address_space 0 stack_sample with
  | Ret (r, s1) =>
      match map_segments 0 (phys_to_virt 0 r) pie_data [pie_segment] PIE_BASE true s1 with Ret (b, _) => b | _ => false end
  | _ => false
  end.
Lemma pie_space : ∃ root s own, space_inv 0 s root own ∧
  ∀ va, 0 ≤ va < USER_TOP → ubyte 0 s root va = image_byte pie_data PIE_BASE [pie_segment] va.
Proof.
  assert (Hl : pie_loads = true) by (vm_compute; reflexivity). unfold pie_loads in Hl.
  destruct (create_spec 0 stack_sample 2 kernel_stack_sample) as [[_ Hf]|(root & s1 & Hc & _ & _ & Hinv & _ & _ & Hva & _)].
  { exfalso. assert (H3 : (3 : Z) ∈ free_set 0 (pg_mach stack_sample)) by (vm_compute; reflexivity). rewrite Hf in H3. by apply not_elem_of_empty in H3. }
  rewrite Hc, Hva in Hl.
  destruct (map_segments_spec 0 root s1 {[root := (0, 0)]} pie_data PIE_BASE true [] [pie_segment])
    as (b & s & own & Hr & Hev & Hb); [done|done| |by repeat constructor|intros va Hv; by apply fresh_empty|].
  - constructor; [|by constructor]. assert (Hph : phdr_ok pie_segment) by (split; cbn; lia). split; [done|].
    assert (Hs : segment_valid pie_segment PIE_BASE (blen pie_data) = Some (PIE_BASE + 4096, PIE_BASE + 4192)) by (vm_compute; reflexivity).
    split; [exact Hs|]. by apply (segment_valid_inv _ _ _ _ Hph eq_refl Hs).
  - rewrite Hr in Hl. subst b. exists root, s, own. split; [apply (ev_inv _ _ _ _ _ _ Hev)|done].
Qed.

(** Bytes of the image, read off the file. *)
Lemma image_holds root s file bias segments a bs :
  (∀ va, 0 ≤ va < USER_TOP → ubyte 0 s root va = image_byte file bias segments va) → 0 ≤ a → a + blen bs ≤ USER_TOP →
  forallb (λ i, bool_decide (image_byte file bias segments (a + i) = Some (byte_at bs i))) (seqZ 0 (blen bs)) = true →
  holds 0 root s a bs.
Proof.
  intros Hu Ha Ht Hb i Hi. rewrite Hu by lia. rewrite forallb_forall in Hb.
  assert (Hin : i ∈ seqZ 0 (blen bs)) by (apply elem_of_seqZ; lia). apply list_elem_of_In in Hin.
  by apply (bool_decide_eq_true_1 _ (Hb i Hin)).
Qed.

Lemma elf_relocations_exact_witness : ∃ root own s s',
  apply_relative_relocations 0 (page_va 0 root) pie_dynamic PIE_BASE [pie_segment] s = Ret (true, s') ∧
  rel_done 0 root PIE_BASE [pie_rela] s s' ∧ relocating 0 root own [pie_segment] PIE_BASE s s'.
Proof.
  destruct pie_space as (root & s & own & Hinv & Hu).
  destruct (elf_relocations_exact 0 root own s pie_dynamic PIE_BASE [pie_segment]) as (b & s' & Hr & Hrel & Hdone).
  - exact Hinv.
  - intros va x Hva. rewrite Hu by done. apply image_bytes, bytes_of_bool. vm_compute. reflexivity.
  - vm_compute. discriminate.
  - vm_compute. discriminate.
  - vm_compute. split; [discriminate|done].
  - exists root, own, s, s'.
    destruct (Hdone [MkDyn DT_RELA 4160; MkDyn DT_RELASZ 24; MkDyn DT_RELAENT 24] (MkDyn DT_NULL 0) 4160 [pie_rela]) as [-> Hd]; [|done].
    split.
    + intros k x Hk. exists (take 16 (drop (16 * k) pie_data)).
      do 4 (destruct k as [|k]; [injection Hk as <-; split; [reflexivity|]; split; [|vm_compute; reflexivity];
        apply (image_holds root s pie_data PIE_BASE [pie_segment]); [done|vm_compute; discriminate..|vm_compute; reflexivity]|]).
      done.
    + by repeat constructor.
    + done.
    + vm_compute. discriminate.
    + vm_compute. discriminate.
    + vm_compute. reflexivity.
    + vm_compute. split; discriminate.
    + intros [|k] x Hk; [|done]. injection Hk as <-. exists (take 24 (drop 64 pie_data)).
      split; [reflexivity|]. split; [|vm_compute; reflexivity].
      apply (image_holds root s pie_data PIE_BASE [pie_segment]); [done|vm_compute; discriminate..|vm_compute; reflexivity].
    + constructor; [|by constructor]. split; [done|vm_compute; split; discriminate|vm_compute; reflexivity| |by vm_compute; right].
      intros va Hva. change (1073746008 ≤ va < 1073746008 + 8) in Hva.
      assert (Ha : 0 ≤ va < USER_TOP) by (unfold USER_TOP; lia). pose proof (Hu va Ha) as Hb.
      destruct (frame_of 0 s root va) as [q|] eqn:Eq; [exists q; by apply (frame_own 0 Hinv)|]. exfalso.
      unfold ubyte in Hb. rewrite Eq in Hb. unfold image_byte in Hb. cbn [find existsb] in Hb.
      assert (E : in_file PIE_BASE va pie_segment = true) by (unfold in_file, PIE_BASE; cbn [p_vaddr p_filesz p_memsz pie_segment]; lia). rewrite E in Hb. done.
    + done.
Defined.
