(* ===== verification/ReadSpec.v ===== *)
(** * Reading an executable

    read_file, the part of load_image that works on the file system: it opens
    the file, checks its size, allocates a buffer, reads the file into it and
    closes the file. Whatever happens, the file system is as before. *)

From S2P Require Import Prelude Bytes KString Errno Pmm Paging Alloc Vfs Ramfs VfsTree RamfsSpec FileSpec Gdt Elf Apic UserCopy.
From S2P Require Import ElfExec Exec.

Section Read.
Context {A : Type} {Halloc : Allocator A} {Hspec : AllocatorSpec A}.
Implicit Types s : fs_state A.

(** [s] with one file [r] open on [t]. *)
Definition with_file s r t (F : File) (h : A) : fs_state A := set_files (<[r := F]> (files s)) (set_heap h (bump t 1 s)).

Section Opened.
Context (s : fs_state A) (kids : Z → list Z) (r t : Z) (dt : Dentry) (L : gmap Z Z).
Context (Hwf : fs_wf s kids) (Hrefs : refs_below s (2 ^ 31 - 2)) (Hdt : dentries s !! t = Some dt) (HA : accounted s L)
  (Hptr : kernel_ptr r) (HLr : L !! r = None).

Lemma file_fresh : files s !! r = None.
Proof. apply eq_None_not_Some. intros Hx%(acc_file _ _ HA). congruence. Qed.

(** Closing undoes the opening. *)
Lemma close_with_file F h L' : f_dentry F = t → f_ref_count F = 1 → live h L' → L' !! r = Some sizeof_File →
  ∃ h', close ramfs_vt r (with_file s r t F h) = Ret (tt, set_heap h' s) ∧ live h' (delete r L').
Proof.
  intros Hd Hc Hl HL'. pose proof (bump_lookup t 1 s t dt Hdt) as Hb. rewrite decide_True in Hb by done.
  pose proof (wf_ref _ _ Hwf _ _ Hdt). pose proof (Hrefs _ _ Hdt).
  destruct (close_last ramfs_vt (with_file s r t F h) r F (with_ref dt (d_ref_count dt + 1)) L') as (h' & Hl' & Hrun).
  - apply lookup_insert_eq.
  - by apply kernel_ptr_nonnull.
  - done.
  - rewrite Hd. by eapply wf_nonnull.
  - by rewrite Hd.
  - cbn [d_ref_count with_ref]. lia.
  - done.
  - done.
  - exists h'. split; [|done]. rewrite Hrun, Hd. do 2 f_equal. unfold with_file. cbn [files set_files].
    rewrite delete_insert_id by apply file_fresh.
    transitivity (set_files (files s) (set_heap h' (bump t (-1) (bump t 1 s)))); [reflexivity|].
    rewrite bump_bump, bump_0. by destruct s.
Qed.

Lemma with_file_readable i h data : inodes s !! d_inode dt = Some i → i_f_ops i = RAMFS_FILE_OPS → i_type i = Regular →
  content s i = Some data → i_size i = Z.of_nat (length data) →
  readable (with_file s r t (MkFile t 0 O_RDONLY (i_f_ops i) 1) h) r 0 data.
Proof.
  intros Hi Hf Ht Hc Hs. pose proof (bump_lookup t 1 s t dt Hdt) as Hb. rewrite decide_True in Hb by done.
  eexists (MkFile t 0 O_RDONLY (i_f_ops i) 1), _, i. split; [by apply kernel_ptr_nonnull|].
  split; [apply lookup_insert_eq|]. do 3 (split; [done|]). split; [exact Hb|]. done.
Qed.
Lemma seek_with_file F h off : seek (with_file s r t F h) r off = with_file s r t (file_with_offset F off) h.
Proof. unfold seek, with_file. cbn [files set_files]. by rewrite alter_insert_eq. Qed.
End Opened.

(** The path leads to a regular file that holds [data]. *)
Definition file_holds s kids root p fname (data : list Z) : Prop :=
  ∃ t dt i, names s kids root p fname t ∧ dentries s !! t = Some dt ∧ inodes s !! d_inode dt = Some i ∧
    i_type i = Regular ∧ content s i = Some data.
(** What read_file gives. *)
Definition read_result s kids root p fname L (r : Z + Z * list Z) (h : A) : Prop :=
  match r with
  | inl e => e < 0 ∧ fs_wf (set_heap h s) kids
  | inr (file_data, bytes) => file_holds s kids root p fname bytes ∧
      sizeof_ElfHeader ≤ blen bytes ≤ MAX_EXEC_FILE_SIZE ∧ Forall is_byte bytes ∧ L !! file_data = None ∧
      live h (<[file_data := blen bytes]> L)
  end.

Lemma read_opened_spec s kids root p fname L r t dt i h : fs_wf s kids → refs_below s (2 ^ 31 - 2) → accounted s L →
  names s kids root p fname t → dentries s !! t = Some dt → inodes s !! d_inode dt = Some i → inode_good s i →
  kernel_ptr r → L !! r = None → live h (<[r := sizeof_File]> L) →
  ∃ res h', read_opened ramfs_vt r (with_file s r t (MkFile t 0 O_RDONLY (i_f_ops i) 1) h) = Ret (res, set_heap h' s) ∧
    read_result s kids root p fname L res h'.
Proof.
  intros Hwf Hr HA Hnm Hdt Hi [Hops Hgood] Hk Hn Hl. set (F := MkFile t 0 O_RDONLY (i_f_ops i) 1).
  pose proof (bump_lookup t 1 s t dt Hdt) as Hb. rewrite decide_True in Hb by done.
  unfold read_opened. rewrite (K_bind_ret _ _ _ F (with_file s r t F h))
    by (unfold get_file, with_file; cbn [files set_files]; by rewrite lookup_insert_eq).
  rewrite (K_bind_ret _ _ _ (with_ref dt (d_ref_count dt + 1)) (with_file s r t F h)) by (by apply get_dentry_ret).
  rewrite (K_bind_ret _ _ _ i (with_file s r t F h)) by (by apply get_inode_ret). cbv zeta.
  assert (Hfail : ∀ h1 e, e < 0 → live h1 (<[r := sizeof_File]> L) →
    ∃ res h', (close ramfs_vt r ≫= λ _, mret (inl e : Z + Z * list Z)) (with_file s r t F h1) = Ret (res, set_heap h' s) ∧
      read_result s kids root p fname L res h').
  { intros h1 e He Hl1. destruct (close_with_file s kids r t dt L Hwf Hr Hdt HA Hk Hn F h1 _ eq_refl eq_refl Hl1)
      as (h' & Hc & Hl'); [apply lookup_insert_eq|]. rewrite (K_bind_ret _ _ _ _ _ Hc). exists (inl e), h'. split; [done|].
    split; [done|]. rewrite delete_insert_id in Hl' by done. by eapply wf_set_heap. }
  unfold sizeof_ElfHeader, MAX_EXEC_FILE_SIZE. destruct (_ || _) eqn:Esz; [by apply Hfail|]. zbool.
  destruct (decide (i_type i = Regular)) as [Ht|]; [|lia]. destruct Hgood as (data & Hc & Hs & Hlt & Hby).
  destruct (alloc_ok h _ (i_size i) Hl ltac:(lia)) as (fd & h1 & Ea & Hcase).
  rewrite (K_bind_ret _ _ _ fd (with_file s r t F h1)) by (exact (alloc_ret (with_file s r t F h) _ _ _ Ea)).
  destruct Hcase as [[-> Hl1]|(Hkf & Hnf & Hl1)]; [by apply Hfail|].
  rewrite (proj2 (Z.eqb_neq fd 0)) by (by apply kernel_ptr_nonnull).
  destruct (read_spec (with_file s r t F h1) r 0 data (i_size i)) as (s2 & Hrd & _ & ->); [|lia..|].
  { by eapply with_file_readable. }
  assert (Eb : take (Z.to_nat (i_size i)) (drop (Z.to_nat 0) data) = data) by (rewrite drop_0, take_ge by lia; done).
  rewrite Eb, seek_with_file in Hrd. rewrite (K_bind_ret _ _ _ _ _ Hrd). cbv beta iota.
  apply lookup_insert_None in Hnf as [HLf Hne].
  destruct (close_with_file s kids r t dt L Hwf Hr Hdt HA Hk Hn (file_with_offset F (0 + Z.of_nat (length data))) h1 _ eq_refl eq_refl Hl1)
    as (h' & Hcl & Hl'); [rewrite lookup_insert_ne by congruence; apply lookup_insert_eq|].
  rewrite (K_bind_ret _ _ _ _ _ Hcl), Hs, Z.eqb_refl. cbn [negb]. exists (inr (fd, data)), h'. split; [done|].
  rewrite delete_insert_ne, delete_insert_id in Hl' by congruence. unfold read_result, blen. rewrite <- Hs.
  split; [by exists t, dt, i|]. unfold sizeof_ElfHeader, MAX_EXEC_FILE_SIZE. by split; [lia|].
Qed.

Lemma read_file_spec s kids root path p fname L : fs_wf s kids → refs_below s (2 ^ 31 - 2) → mounted_root s root →
  contents_ok s → good_name path → Z.of_nat (length path) < NAME_SIZE → head path = Some SLASH →
  split_path path = (SLASH :: p, fname) → live (heap s) L → accounted s L →
  ∃ r h, read_file ramfs_vt path s = Ret (r, set_heap h s) ∧ read_result s kids root p fname L r h.
Proof.
  intros Hwf Hr Hm Hct Hg Hlen Hhd Hsp HL HA. unfold read_file.
  destruct (open_readonly s kids root path p fname L) as (r & s1 & Ho & Hcase); try done.
  rewrite (K_bind_ret _ _ _ _ _ Ho). destruct Hcase as [(e & h & He & -> & -> & Hwf')|Hdone].
  - exists (inl (s32 (PTR_ERR (ERR_PTR (- e))))), h. pose proof (IS_ERR_ERR_PTR e He) as Herr. rewrite Herr.
    destruct (Z.eqb_spec (ERR_PTR (- e)) 0) as [Ez|_]; [by rewrite Ez in Herr|]. split; [done|]. split; [|done].
    rewrite PTR_ERR_ERR_PTR by done. unfold MAX_ERRNO in He. rewrite s32_small; lia.
  - destruct Hdone as (t & dt & i & h & Hnm & Hdt & Hi & Hk & Hn & Hl & ->).
    rewrite (proj2 (Z.eqb_neq r 0)) by (by apply kernel_ptr_nonnull). rewrite (kernel_ptr_not_err r) by done.
    eapply (read_opened_spec s kids root p fname L r t dt i h); try done. by eapply Hct.
Qed.
End Read.
