(* ===== verification/ImageSpec.v ===== *)
(** * Filling the address space of a program

    populate, the part of load_image that works on the new space: segments,
    relocations and stack of a validated file, and why it may fail. *)

From S2P Require Import Prelude Bytes Mem KString Errno Pmm Pages Paging PagingSpec Alloc PagedAlloc Vfs Elf Apic UserCopy.
From S2P Require Import UserCopySpec ElfExec Exec ExecSpec SpaceSpec SpaceMap LoadSpec StackSpec SpaceFree RelocSpec.

Section Populate.
Context (hhdm root : Z).
Implicit Types (s : paging_state) (own : gmap Z (Z * Z)) (g : program) (argv envp : list (list Z)).
Abbreviation ubyte := (ubyte hhdm).
Abbreviation free s := (free_set hhdm (pg_mach s)).
Abbreviation fresh := ({[root := (0, 0)]} : gmap Z (Z * Z)).

(** What the program finds outside the stack: its segments; relocations may
    have changed writable ones. *)
Definition program_view file g s : Prop := ∀ va, 0 ≤ va < USER_TOP → ¬ (stack_bottom ≤ va < USER_STACK_TOP) →
  g_dynamic g = None ∨ ¬ writable_at (g_segments g) (g_bias g) va →
  ubyte s root va = image_byte file (g_bias g) (g_segments g) va.
(** The process as it starts. *)
Definition process_ready file g argv envp path s (im : ExecImage) : Prop :=
  program_view file g s ∧
  ∃ phdr, find_phdr file g = Ret (true, phdr) ∧
    initial_stack hhdm root s argv envp path phdr (e_phentsize (g_header g)) (e_phnum (g_header g)) (g_entry g) im.
(** Why it may not. *)
Definition populate_fails file g argv envp (path : list Z) s : Prop :=
  free s = ∅ ∨ MAX_STACK_STRINGS < strings_size envp + strings_size argv + (blen path + 1) ∨
  is_Some (g_dynamic g) ∨ ∃ a, find_phdr file g = Ret (false, a).

Lemma relocate_step_spec file g s own loaded : space_inv hhdm s root own → Forall is_byte file → 0 ≤ g_bias g →
  (∀ p, g_dynamic g = Some p → phdr_ok p) →
  (loaded = true → ∀ va, 0 ≤ va < USER_TOP → ubyte s root va = image_byte file (g_bias g) (g_segments g) va) →
  ∃ b s', relocate_step hhdm (page_va hhdm root) g loaded s = Ret (b, s') ∧ evolves hhdm root s own s' own ∧
    (b = true → loaded = true ∧ program_view file g s') ∧ (b = false → loaded = true → is_Some (g_dynamic g)) ∧ free s' = free s.
Proof.
  intros Hinv Hb Hbias Hdyn Hu. unfold relocate_step. destruct loaded.
  2:{ exists false, s. split; [done|]. by split; [apply evolves_refl|]. }
  destruct (g_dynamic g) as [d|] eqn:Ed.
  2:{ exists true, s. split; [done|]. split; [by apply evolves_refl|]. split; [|done]. intros _. split; [done|].
      intros va Hva _ _. by apply Hu. }
  destruct (_ =? ET_DYN).
  2:{ exists false, s. split; [done|]. split; [by apply evolves_refl|]. by split. }
  pose proof (Hdyn d eq_refl) as [_ Hva _ Hms _ _].
  destruct (apply_safe hhdm root own (g_segments g) d (g_bias g) s) as (b & s' & Hr & m' & -> & Hd & Ho); [done| |done|lia|done|].
  { intros va x Hva'. rewrite Hu by done. by apply image_bytes. }
  exists b, (with_mem m' s). split; [done|]. split; [by apply data_evolves|]. split_and!; [|done|].
  - intros _. split; [done|]. intros va Hva' _ [Hn|Hw]; [congruence|]. rewrite Ho by done. by apply Hu.
  - cbn [with_mem pg_mach]. rewrite free_set_frame; [done|]. intros a. by eapply data_only_bitmap.
Qed.

Lemma populate_spec s nx file g argv envp path : space_inv hhdm s root fresh → Forall is_byte file →
  sizeof_ElfHeader ≤ blen file → validate file = Ret (Some g) → (length argv ≤ 128)%nat → (length envp ≤ 128)%nat →
  ∃ o s' own', populate hhdm (root * PAGE_SIZE) nx file g argv envp path s = Ret (o, s') ∧
    evolves hhdm root s fresh s' own' ∧
    match o with
    | Some im => process_ready file g argv envp path s' im
    | None => populate_fails file g argv envp path s'
    end.
Proof.
  intros Hinv Hb Hlen Hv Harg Henv. destruct (validate_spec file Hb Hlen) as (r0 & Hr0 & Hg). rewrite Hv in Hr0. injection Hr0 as <-.
  destruct (Hg g eq_refl) as (Hld & Hacc & Hbias & Hdyn & Htab).
  assert (Hb0 : 0 ≤ g_bias g) by (destruct Hbias as [->| ->]; vm_compute; discriminate).
  unfold populate. rewrite (own_page hhdm Hinv root 0 0) by apply lookup_singleton_eq. cbv zeta.
  destruct (map_segments_spec hhdm root s fresh file (g_bias g) nx [] (g_segments g)) as (loaded & s1 & own1 & Hr1 & Hev1 & Hu);
    [done|done|done|apply (ld_disjoint _ _ Hld)|intros va Hva; by apply fresh_empty|].
  rewrite (K_bind_ret _ _ _ _ _ Hr1).
  destruct (relocate_step_spec file g s1 own1 loaded) as (b & s2 & Hr2 & Hev2 & Hb2 & Hf2 & Hfree2);
    [apply (ev_inv _ _ _ _ _ _ Hev1)|done|done|done|by intros ->|]. rewrite (K_bind_ret _ _ _ _ _ Hr2).
  pose proof (evolves_trans _ _ _ _ _ _ _ _ Hev1 Hev2) as Hev. destruct (find_phdr_returns file g Hb Htab) as [[ok phdr] Hp].
  rewrite (K_bind_ret _ _ s2 (ok, phdr) s2) by (unfold k_lift; by rewrite Hp).
  destruct b; cbn [andb].
  2:{ exists None, s2, own1. split; [done|]. split; [done|]. destruct loaded; [right; right; left; by apply Hf2|left; by rewrite Hfree2]. }
  destruct ok; [|exists None, s2, own1; split; [done|]; split; [done|]; right; right; right; by eexists].
  destruct (map_user_stack_spec hhdm root s2 own1 nx argv envp path phdr (e_phentsize (g_header g)) (e_phnum (g_header g)) (g_entry g))
    as (o & s3 & own3 & Hr3 & Hev3 & Ho3 & Hst); [apply (ev_inv _ _ _ _ _ _ Hev)|done|done|].
  exists o, s3, own3. split; [done|]. split; [by eapply evolves_trans|]. destruct o as [im|].
  - split; [|by exists phdr]. intros va Hva Hns Hw. rewrite Ho3 by done. destruct (Hb2 eq_refl) as [_ Hpv]. by apply Hpv.
  - destruct Hst as [Hst|Hst]; [by left|by right; left].
Qed.
End Populate.
