(* ===== verification/LaunchSpec.v ===== *)
(** * load_image on the machine of the file system

    The file system's allocator, the kernel's page tables and the new address
    space share one machine. load_image reads the file, builds the space
    beside the allocator's pages, and on failure gives everything back. *)

From S2P Require Import Prelude Bytes Mem KString Errno Pmm Pages Paging PagingSpec Alloc Vfs Ramfs VfsTree RamfsSpec FileSpec.
From S2P Require Import Initramfs InitramfsSpec Boot PagedAlloc.
From S2P Require Import Gdt Elf Apic UserCopy UserCopySpec ElfExec Exec ExecSpec SpaceSpec SpaceMap LoadSpec StackSpec SpaceFree.
From S2P Require Import RelocSpec ReadSpec ImageSpec.

(** ** Address spaces and the others' pages *)

Section Moves.
Context (hhdm : Z).
Implicit Types (s : paging_state) (own : gmap Z (Z * Z)) (P : gset Z).
Abbreviation memory s := (mem (pg_mach s)).
Abbreviation free s := (free_set hhdm (pg_mach s)).

(** A space whose pages are kept. *)
Lemma space_kept s root own M' base : space_inv hhdm s root own → phys_ok hhdm M' → total_pages M' ≤ 2 ^ 40 →
  (∀ p, is_Some (own !! p) → page_in_use hhdm M' p) →
  (∀ p a, is_Some (own !! p) → in_page hhdm p a → mem M' a = memory s a) →
  space_inv hhdm (PagingState M' base) root own ∧
  ∀ va, 0 ≤ va < USER_TOP → ubyte hhdm (PagingState M' base) root va = ubyte hhdm s root va.
Proof.
  intros Hinv Hph Hsm Huse Hm.
  assert (Hld : ∀ p k i, own !! p = Some k → 0 ≤ i < 512 →
    load64 (mem M') (entry_at (page_va hhdm p) i) = load64 (memory s) (entry_at (page_va hhdm p) i)).
  { intros p k i Hp Hi. apply load64_frame. intros a Ha. apply (Hm p); [by eexists|by eapply entry_in_page]. }
  assert (Hch : ∀ p k i, own !! p = Some k → 0 ≤ i < 512 → child hhdm (mem M') p i = child hhdm (memory s) p i).
  { intros p k i Hp Hi. unfold child. by erewrite Hld. }
  assert (Hinv' : space_inv hhdm (PagingState M' base) root own).
  { pose proof Hinv as [_ _ Hr Hu Hi Hd Hup Hlg]. split; cbn [pg_mach]; try done.
    - intros p l x Hp. destruct (Hu p l x Hp) as (Hl & _). destruct (Huse p ltac:(by eexists)). do 3 (split; [done|]). done.
    - intros p l x i q Hp Hl Hs. rewrite (Hch p _ i Hp (slot_range _ _ Hs)). by apply Hd.
    - intros q l y Hq Hl. destruct (Hup q l y Hq Hl) as (p & x & i & Hp & Hs & -> & Hc). exists p, x, i.
      by rewrite (Hch p _ i Hp (slot_range _ _ Hs)).
    - intros p l x i Hp Hl Hs. rewrite (Hld p _ i Hp (slot_range _ _ Hs)). by apply (Hlg p l x). }
  split; [done|]. intros va Hva. unfold ubyte. rewrite (frame_same hhdm s (PagingState M' base) root own va Hinv Hinv' Hva).
  destruct (frame_of hhdm s root va) as [q|] eqn:Eq; [|done]. cbn. f_equal. apply (frame_own hhdm Hinv) in Eq; [|done].
  apply (Hm q); [by eexists|]. unfold in_page, PAGE_SIZE. pose proof (Z.mod_pos_bound va 4096 ltac:(lia)). lia.
Qed.

(** Building a space, as the allocator sees it. *)
Lemma built_moved P s s' root own : built hhdm s s' root own → (∀ p, p ∈ P → page_in_use hhdm (pg_mach s) p) →
  moved hhdm P (pg_mach s) (P ∪ dom own) (pg_mach s').
Proof.
  intros [Hi Hb Ht Hbm Hf Ho] HP.
  assert (Hcl : ∀ p, clear_page hhdm (pg_mach s) p → clear_page hhdm (pg_mach s') p).
  { intros p Hp a Ha. unfold in_bitmap. rewrite Ht, Hbm. by apply Hp. }
  split; [apply (sp_phys _ _ _ _ Hi)|done|done| | |].
  - intros p [Hp|Hp]%elem_of_union.
    + destruct (HP p Hp) as [Hr Hu Hc]. split; [|by left]. split; [by rewrite Ht| |by apply Hcl].
      intros Hq. apply Hu, Hf. by left.
    + apply elem_of_dom in Hp as [[l x] Hp]. destruct (sp_used _ _ _ _ Hi p l x Hp) as (_ & ? & ? & ?).
      split; [by split|]. right. apply Hf. right. by eexists.
  - intros p Hp. left. apply Hf. by left.
  - intros p a Hu _ Hc Ha. apply Ho; [|by apply Hc]. intros q Hq Hqa. apply Hu. by rewrite (in_page_inj hhdm p q a).
Qed.

(** Giving it back. *)
Lemma freed_moved P s own s' : freed hhdm (s0 := s) s' (λ q, is_Some (own !! q)) →
  (∀ p, p ∈ P ∪ dom own → page_in_use hhdm (pg_mach s) p) → P ## dom own →
  moved hhdm (P ∪ dom own) (pg_mach s) P (pg_mach s').
Proof.
  intros [Hb Hph Ho Hf] HP Hd. split; [done|apply (ob_total _ _ _ Ho)|apply (ob_bitmap _ _ _ Ho)| | |].
  - intros p Hp. destruct (HP p ltac:(set_solver)) as [Hr Hu Hc]. split; [|left; set_solver].
    split; [by rewrite (ob_total _ _ _ Ho)| |by eapply clear_page_stable].
    rewrite Hf. intros [?|Hq%elem_of_dom]; [done|set_solver].
  - intros p [Hp|Hp%elem_of_dom]%Hf; [by left|right; set_solver].
  - intros p a _ _ Hc Ha. apply (ob_mem _ _ _ Ho). by apply Hc.
Qed.
End Moves.

(** ** The process sees the same *)

Section View.
Context (hhdm root : Z) (s s' : paging_state).
Context (Hview : ∀ va, 0 ≤ va < USER_TOP → ubyte hhdm s' root va = ubyte hhdm s root va).

Lemma holds_view a bs : holds hhdm root s a bs → 0 ≤ a → a + blen bs ≤ USER_TOP → holds hhdm root s' a bs.
Proof. intros Hh Ha Ht i Hi. rewrite Hview by lia. by apply Hh. Qed.

Lemma initial_stack_view argv envp path phdr phentsize phnum entry im im' :
  x_stack im' = x_stack im → x_argc im' = x_argc im → x_argv im' = x_argv im → x_envp im' = x_envp im →
  initial_stack hhdm root s argv envp path phdr phentsize phnum entry im →
  initial_stack hhdm root s' argv envp path phdr phentsize phnum entry im'.
Proof.
  intros E1 E2 E3 E4 (argv_at & envp_at & execfn & H). exists argv_at, envp_at, execfn. cbv zeta in *.
  rewrite E1, E2, E3, E4. set (words := [_] ++ _) in *.
  destruct H as (Hal & Hlo & H1 & H2 & H3 & Hw & Ha & He & Hx & Hx2 & Hx3).
  assert (Hb : 0 < stack_bottom ∧ USER_STACK_TOP ≤ USER_TOP) by (split; vm_compute; [done|discriminate]).
  assert (Hs : ∀ a str, x_stack im + 8 * Z.of_nat (length words) ≤ a ∧ a + blen str + 1 ≤ USER_STACK_TOP ∧
      holds hhdm root s a (str ++ [0]) →
    x_stack im + 8 * Z.of_nat (length words) ≤ a ∧ a + blen str + 1 ≤ USER_STACK_TOP ∧ holds hhdm root s' a (str ++ [0])).
  { intros a str (? & ? & Hh). do 2 (split; [done|]). apply holds_view; [done|lia|]. unfold blen in *. rewrite length_app. cbn. lia. }
  split_and!; try done.
  - apply holds_view; [done|lia|]. rewrite words_bytes_len. unfold blen in *. lia.
  - eapply Forall2_impl; [exact Ha|]. intros a str. apply Hs.
  - eapply Forall2_impl; [exact He|]. intros a str. apply Hs.
  - by apply (Hs execfn path).
Qed.

Lemma process_ready_view file g argv envp path im im' :
  x_stack im' = x_stack im → x_argc im' = x_argc im → x_argv im' = x_argv im → x_envp im' = x_envp im →
  process_ready hhdm root file g argv envp path s im → process_ready hhdm root file g argv envp path s' im'.
Proof.
  intros E1 E2 E3 E4 [Hv (phdr & Hp & Hst)]. split.
  - intros va Hva Hn Hw. rewrite Hview by done. by apply Hv.
  - exists phdr. split; [done|]. by eapply initial_stack_view.
Qed.
End View.

(** ** load_image *)

Section LoadImage.
Context (hhdm : Z) {A : Type} {Halloc : Allocator A} {Hmach : OnMachine A} {Hpaged : PagedAllocator hhdm A}.
Context (query : Z → cpuid_result).
Implicit Types (x : xstate A) (P : gset Z) (L : gmap Z Z).
Abbreviation free_of a := (free_set hhdm (machine_of a)).

(** The file system is well formed and its objects are the allocator's. *)
Definition files_on P (fs : fs_state A) kids : Prop := @fs_wf A Halloc (paged_spec hhdm (heap fs) P) fs kids.
Lemma files_on_heap {Hspec : AllocatorSpec A} P (fs : fs_state A) kids h L : fs_wf fs kids → accounted fs L → owns P h L →
  files_on P (set_heap h fs) kids.
Proof.
  intros [? ? ? ? ? ? ? ? _] [] Ho. split; try done. exists L. split; [by split|by split].
Qed.

(** A state in which programs can be loaded: the pages [P] are not the
    allocator's, the kernel's root table [kroot] among them. *)
Record loader_ready P kids root kroot x : Prop := {
  lr_files : files_on P (x_fs x) kids;
  lr_refs : refs_below (x_fs x) (2 ^ 31 - 2);
  lr_mount : mounted_root (x_fs x) root;
  lr_contents : contents_ok (x_fs x);
  lr_kroot : kroot ∈ P;
  lr_base : x_pml4 x = page_va hhdm kroot;
  lr_hhdm : 0 < hhdm + kroot * PAGE_SIZE
}.

(** The rest of the processor's state. *)
Definition same_rest x x' : Prop :=
  x_pml4 x' = x_pml4 x ∧ active_root_phys x' = active_root_phys x ∧ x_cr3 x' = x_cr3 x ∧ x_cpu x' = x_cpu x.

Lemma ready_heap P P' kids root kroot x x' h L : loader_ready P kids root kroot x → accounted (x_fs x) L → owns P' h L →
  kroot ∈ P' → x_fs x' = set_heap h (x_fs x) → x_pml4 x' = x_pml4 x → loader_ready P' kids root kroot x'.
Proof.
  intros [Hf Hr Hm Hc _ Hb Hh] HA Ho HP E E'. split; rewrite ?E, ?E'; try done.
  by eapply (@files_on_heap (paged_spec hhdm (heap (x_fs x)) P)).
Qed.

Lemma owns_kernel P a L kroot base : owns P a L → kroot ∈ P → base = page_va hhdm kroot → 0 < hhdm + kroot * PAGE_SIZE →
  kernel_space hhdm (PagingState (machine_of a) base) kroot.
Proof.
  intros Ho Hk Hb Hh. destruct (owns_phys P a L Ho). destruct (owns_others P a L kroot Ho Hk). by split.
Qed.

Lemma set_x_pg_same x : set_x_pg (x_pg x) x = x.
Proof. unfold set_x_pg, x_pg. cbn [pg_mach pml4_base]. rewrite set_machine_of. by destruct x as [[] ? ? ? ? ?]. Qed.
Lemma x_pg_set s x : x_pg (set_x_pg s x) = s.
Proof. unfold set_x_pg, x_pg. cbn. rewrite machine_of_set. by destruct s. Qed.
Lemma x_on_pg_ret {B} (m : K paging_state B) x b s : m (x_pg x) = Ret (b, s) → x_on_pg m x = Ret (b, set_x_pg s x).
Proof. intros E. unfold x_on_pg. by rewrite E. Qed.
Lemma x_on_fs_ret {B} (m : K (fs_state A) B) x b f : m (x_fs x) = Ret (b, f) → x_on_fs m x = Ret (b, set_x_fs f x).
Proof. intros E. unfold x_on_fs. by rewrite E. Qed.
Lemma cpu_has_nx_ret x : ∃ nx m, cpu_has_nx query x = Ret (nx, set_x_msr m x).
Proof.
  unfold cpu_has_nx. destruct (_ || _); [exists false, (x_msr x); by destruct x|].
  eexists true, _. unfold rdmsr, write_msr. krun. done.
Qed.

(** The buffer is given back. *)
Lemma release_ret P x L p n : owns P (heap (x_fs x)) (<[p := n]> L) → L !! p = None →
  ∃ h, x_on_fs (free p n) x = Ret (tt, set_x_fs (set_heap h (x_fs x)) x) ∧ owns P h L ∧
    keeps hhdm P (heap (x_fs x)) h ∧ free_of (heap (x_fs x)) ⊆ free_of h.
Proof.
  intros Ho Hp. destruct (owns_free P _ _ p n Ho) as (h & E & Hk & Ho' & Hf); [apply lookup_insert_eq|].
  rewrite delete_insert_id in Ho' by done. exists h. split; [|done]. apply x_on_fs_ret. unfold free. by rewrite E.
Qed.

(** The new space, from its creation to its content. *)
Lemma build_space P kroot x L file g args envs path : owns P (heap (x_fs x)) L → kroot ∈ P →
  x_pml4 x = page_va hhdm kroot → 0 < hhdm + kroot * PAGE_SIZE → Forall is_byte file → sizeof_ElfHeader ≤ blen file →
  validate file = Ret (Some g) → (length args ≤ 128)%nat → (length envs ≤ 128)%nat →
  x_on_pg (create_address_space hhdm) x = Ret (0, x) ∧ free_of (heap (x_fs x)) = ∅ ∨
  ∃ uroot s1 s2 own o nx m, 0 < uroot ∧ x_on_pg (create_address_space hhdm) x = Ret (uroot * PAGE_SIZE, set_x_pg s1 x) ∧
    cpu_has_nx query (set_x_pg s1 x) = Ret (nx, set_x_msr m (set_x_pg s1 x)) ∧
    x_on_pg (populate hhdm (uroot * PAGE_SIZE) nx file g args envs path) (set_x_msr m (set_x_pg s1 x)) =
      Ret (o, set_x_msr m (set_x_pg s2 x)) ∧
    built hhdm (x_pg x) s2 uroot own ∧
    (∀ i, 256 ≤ i < 512 → load64 (mem (pg_mach s2)) (entry_at (page_va hhdm uroot) i) =
       load64 (mem (machine_of (heap (x_fs x)))) (entry_at (page_va hhdm kroot) i)) ∧
    match o with
    | Some im => process_ready hhdm uroot file g args envs path s2 im
    | None => populate_fails hhdm file g args envs path s2
    end.
Proof.
  intros Ho Hk Hb Hh Hby Hlen Hv Ha He. pose proof (owns_kernel P _ L kroot _ Ho Hk Hb Hh) as Hks. fold (x_pg x) in Hks.
  destruct (create_built hhdm (x_pg x) kroot Hks) as [[Hc He0]|(uroot & s1 & Hc & Hr & Hbt & Hva & Hkh)].
  { left. split; [|done]. rewrite (x_on_pg_ret _ _ _ _ Hc). by rewrite set_x_pg_same. }
  right. destruct (cpu_has_nx_ret (set_x_pg s1 x)) as (nx & m & Hnx).
  destruct (populate_spec hhdm uroot s1 nx file g args envs path (bt_inv _ _ _ _ _ Hbt) Hby Hlen Hv Ha He)
    as (o & s2 & own & Hp & Hev & Hres).
  exists uroot, s1, s2, own, o, nx, m. split; [done|]. split; [by apply x_on_pg_ret|]. split; [done|]. split.
  { rewrite (x_on_pg_ret _ _ o s2).
    - unfold set_x_msr, set_x_pg. cbn. by rewrite set_machine_set.
    - change (x_pg (set_x_msr m (set_x_pg s1 x))) with (x_pg (set_x_pg s1 x)). by rewrite x_pg_set. }
  split; [by eapply built_evolves|]. split; [|done].
  intros i Hi. rewrite (ev_kernel _ _ _ _ _ _ Hev) by done. by apply Hkh.
Qed.

(** Why a file is not loaded, [h1] being the heap once it is read. *)
Definition load_failure (h1 : A) base file args envs path (r : Z) : Prop :=
  r = -8 ∧ validate file = Ret None ∨ r = -12 ∧ free_of h1 = ∅ ∨
  r = -8 ∧ ∃ g uroot s own, validate file = Ret (Some g) ∧
    built hhdm (PagingState (machine_of h1) base) s uroot own ∧ populate_fails hhdm file g args envs path s.

(** What load_file ends in, from the heap [h1]. *)
Definition load_failed P kids root kroot (h1 : A) x' : Prop :=
  loader_ready P kids root kroot x' ∧ keeps hhdm P h1 (heap (x_fs x')) ∧ free_of h1 ⊆ free_of (heap (x_fs x')).
Definition load_done P kids root kroot (h1 : A) x' file args envs path (im : ExecImage) : Prop :=
  ∃ g uroot own, validate file = Ret (Some g) ∧ root_phys im = uroot * PAGE_SIZE ∧ x_entry im = g_entry g ∧
    space_inv hhdm (x_pg x') uroot own ∧ dom own ⊆ free_of h1 ∧ P ## dom own ∧
    (∀ i, 256 ≤ i < 512 → load64 (mem (machine_of (heap (x_fs x')))) (entry_at (page_va hhdm uroot) i) =
       load64 (mem (machine_of (heap (x_fs x')))) (entry_at (page_va hhdm kroot) i)) ∧
    process_ready hhdm uroot file g args envs path (x_pg x') im ∧
    keeps hhdm P h1 (heap (x_fs x')) ∧ loader_ready (P ∪ dom own) kids root kroot x'.
Definition load_outcome P kids root kroot (h1 : A) x x' file args envs path (r : Z) (im : ExecImage) : Prop :=
  (r < 0 ∧ im = no_image ∧ load_failed P kids root kroot h1 x' ∧ load_failure h1 (x_pml4 x) file args envs path r) ∨
  (r = 0 ∧ load_done P kids root kroot h1 x' file args envs path im).

(** *** The bytes are in the buffer *)

Section File.
Context (P : gset Z) (kids : Z → list Z) (root kroot : Z) (x x1 : xstate A) (L : gmap Z Z) (h1 : A) (fd : Z) (file : list Z).
Context (Hx : loader_ready P kids root kroot x) (HA : accounted (x_fs x) L).
Context (Ex1 : x1 = set_x_fs (set_heap h1 (x_fs x)) x).
Context (Ho : owns P h1 (<[fd := blen file]> L)) (Hfd : L !! fd = None).

(** Building leaves the others' pages alone. *)
Lemma built_keeps s2 uroot own p a : built hhdm (x_pg x1) s2 uroot own → p ∈ P → in_page hhdm p a →
  mem (pg_mach s2) a = mem (machine_of h1) a.
Proof.
  intros Hbt Hp Ha. destruct (owns_others _ _ _ _ Ho Hp) as [_ Hn Hc]. subst x1. apply (bt_out _ _ _ _ _ Hbt); [|by apply Hc].
  intros q Hq Hqa. by rewrite (in_page_inj hhdm p q a Ha Hqa) in Hn.
Qed.

(** From [x1], pages were taken for a space: the state when the buffer is
    given back, and the space then. *)
Lemma release_space s2 m uroot own : built hhdm (x_pg x1) s2 uroot own →
  ∃ h, x_on_fs (free fd (blen file)) (set_x_msr m (set_x_pg s2 x1)) =
      Ret (tt, set_x_fs (set_heap h (x_fs x)) (set_x_msr m (set_x_pg s2 x1))) ∧
    owns (P ∪ dom own) h L ∧ free_set hhdm (pg_mach s2) ⊆ free_of h ∧
    space_inv hhdm (PagingState (machine_of h) (pml4_base s2)) uroot own ∧
    (∀ va, 0 ≤ va < USER_TOP → ubyte hhdm (PagingState (machine_of h) (pml4_base s2)) uroot va = ubyte hhdm s2 uroot va) ∧
    (∀ p a, p ∈ P ∪ dom own → in_page hhdm p a → mem (machine_of h) a = mem (pg_mach s2) a).
Proof.
  intros Hbt. assert (HP : ∀ p, p ∈ P → page_in_use hhdm (machine_of h1) p) by (intros p; by eapply owns_others).
  assert (Ho2 : owns (P ∪ dom own) (set_machine (pg_mach s2) h1) (<[fd := blen file]> L)).
  { apply (owns_moved P); [done|]. subst x1. by apply (built_moved hhdm P) in Hbt. }
  destruct (release_ret (P ∪ dom own) (set_x_msr m (set_x_pg s2 x1)) L fd (blen file)) as (h & Hr & Ho3 & Hk & Hf);
    [by subst x1|done|].
  assert (Em : machine_of (heap (x_fs (set_x_msr m (set_x_pg s2 x1)))) = pg_mach s2) by apply machine_of_set.
  assert (Hmem : ∀ p a, p ∈ P ∪ dom own → in_page hhdm p a → mem (machine_of h) a = mem (pg_mach s2) a).
  { intros p a Hp Ha. rewrite <- Em. by apply (Hk p a). }
  rewrite Em in Hf. exists h. split; [by subst x1|]. split; [done|]. split; [done|].
  destruct (owns_phys _ _ _ Ho3) as [Hph Hsm].
  destruct (space_kept hhdm s2 uroot own (machine_of h) (pml4_base s2) (bt_inv _ _ _ _ _ Hbt) Hph Hsm) as [Hi Hu].
  - intros p Hp. eapply owns_others; [done|]. apply elem_of_union_r. by apply elem_of_dom.
  - intros p a Hp. apply Hmem. apply elem_of_union_r. by apply elem_of_dom.
  - done.
Qed.

Lemma fail_space h m s2 uroot own : built hhdm (x_pg x1) s2 uroot own → owns (P ∪ dom own) h L →
  free_set hhdm (pg_mach s2) ⊆ free_of h → space_inv hhdm (PagingState (machine_of h) (pml4_base s2)) uroot own →
  (∀ p a, p ∈ P ∪ dom own → in_page hhdm p a → mem (machine_of h) a = mem (pg_mach s2) a) →
  ∃ x', x_on_pg (destroy_address_space hhdm (uroot * PAGE_SIZE)) (set_x_fs (set_heap h (x_fs x)) (set_x_msr m (set_x_pg s2 x1)))
      = Ret (tt, x') ∧ same_rest x x' ∧ load_failed P kids root kroot h1 x'.
Proof.
  intros Hbt Ho3 Hf Hi Hmem. destruct (destroy_spec hhdm Hi) as (s5 & Hd & Hfr).
  set (x4 := set_x_fs _ _). exists (set_x_pg s5 x4). split; [by apply x_on_pg_ret|].
  assert (Eb : pml4_base s5 = x_pml4 x).
  { rewrite (fd_base _ _ _ Hfr). cbn [pml4_base]. rewrite (bt_base _ _ _ _ _ Hbt). by subst x1. }
  assert (Hin : dom own ⊆ free_of h1).
  { intros p Hp%elem_of_dom. pose proof (proj2 (bt_free _ _ _ _ _ Hbt p) (or_intror Hp)) as Hq. by subst x1. }
  split; [by subst x1|]. split; [|split].
  - apply (ready_heap P P kids root kroot x (set_x_pg s5 x4) (set_machine (pg_mach s5) h) L); try done; [|apply (lr_kroot _ _ _ _ _ Hx)].
    apply (owns_moved (P ∪ dom own)); [done|]. apply (freed_moved hhdm P _ own) in Hfr; [done| |].
    + intros p Hp. by apply (owns_others _ _ _ _ Ho3).
    + intros p Hp Hq%Hin. by apply (owns_others _ _ _ _ Ho Hp).
  - intros p a Hp Ha. cbn. rewrite machine_of_set, (ob_mem _ _ _ (fd_only _ _ _ Hfr)).
    + cbn [pg_mach]. rewrite (Hmem p) by (done || by apply elem_of_union_l). by eapply built_keeps.
    + by apply (owns_others _ _ _ _ Ho3 (elem_of_union_l _ _ _ Hp)).
  - cbn. rewrite machine_of_set. intros p Hp. apply (fd_free _ _ _ Hfr). cbn [pg_mach].
    subst x1. apply (bt_free _ _ _ _ _ Hbt) in Hp as [Hp|Hp]; [left; by apply Hf|by right].
Qed.

Lemma done_space h m s2 uroot own g args envs path im : built hhdm (x_pg x1) s2 uroot own → owns (P ∪ dom own) h L →
  space_inv hhdm (PagingState (machine_of h) (pml4_base s2)) uroot own → validate file = Ret (Some g) →
  (∀ va, 0 ≤ va < USER_TOP → ubyte hhdm (PagingState (machine_of h) (pml4_base s2)) uroot va = ubyte hhdm s2 uroot va) →
  (∀ p a, p ∈ P ∪ dom own → in_page hhdm p a → mem (machine_of h) a = mem (pg_mach s2) a) →
  (∀ i, 256 ≤ i < 512 → load64 (mem (pg_mach s2)) (entry_at (page_va hhdm uroot) i) =
     load64 (mem (machine_of (heap (x_fs x1)))) (entry_at (page_va hhdm kroot) i)) →
  process_ready hhdm uroot file g args envs path s2 im →
  load_done P kids root kroot h1 (set_x_fs (set_heap h (x_fs x)) (set_x_msr m (set_x_pg s2 x1))) file args envs path
    (MkImage (uroot * PAGE_SIZE) (g_entry g) (x_stack im) (x_argc im) (x_argv im) (x_envp im)).
Proof.
  intros Hbt Ho3 Hi Hv Hu Hmem Hkern Hpr. set (x4 := set_x_fs _ _).
  assert (Hk : kroot ∈ P ∪ dom own) by (apply elem_of_union_l, (lr_kroot _ _ _ _ _ Hx)).
  assert (Hin : dom own ⊆ free_of h1).
  { intros p Hp%elem_of_dom. pose proof (proj2 (bt_free _ _ _ _ _ Hbt p) (or_intror Hp)) as Hq. by subst x1. }
  exists g, uroot, own. do 3 (split; [done|]). split; [done|]. split; [done|].
  split; [intros p Hp Hq%Hin; by apply (owns_others _ _ _ _ Ho Hp)|].
  split; [|split; [|split]].
  - intros i Hir. assert (Hi0 : 0 ≤ i < 512) by lia. change (heap (x_fs x4)) with h. rewrite !(load64_frame (mem (pg_mach s2)) (mem (machine_of h))).
    + rewrite Hkern by done. symmetry. apply load64_frame. intros a Ha.
      rewrite (built_keeps s2 uroot own kroot a); [by subst x1|done|apply Hx|by apply (entry_in_page _ _ i)].
    + intros a Ha. apply (Hmem kroot); [done|]. by apply (entry_in_page _ _ i).
    + intros a Ha. apply (Hmem uroot); [|by apply (entry_in_page _ _ i)]. apply elem_of_union_r, elem_of_dom.
      eexists. apply (own_root hhdm Hi).
  - by apply (process_ready_view hhdm uroot s2 (x_pg x4) Hu file g args envs path im).
  - intros p a Hp Ha. change (heap (x_fs x4)) with h. rewrite (Hmem p) by (done || by apply elem_of_union_l). by eapply built_keeps.
  - apply (ready_heap P _ kids root kroot x x4 h L); try done. cbn. rewrite (bt_base _ _ _ _ _ Hbt). by subst x1.
Qed.

Lemma load_file_spec args envs path : Forall is_byte file → sizeof_ElfHeader ≤ blen file →
  (length args ≤ 128)%nat → (length envs ≤ 128)%nat →
  ∃ r im x', load_file hhdm query fd file args envs path x1 = Ret ((r, im), x') ∧ same_rest x x' ∧
    load_outcome P kids root kroot h1 x x' file args envs path r im.
Proof.
  intros Hb Hlen Ha He. unfold load_file. cbv zeta. destruct (validate_spec file Hb Hlen) as (v & Hv & _).
  rewrite (K_bind_ret _ _ x1 v x1) by (unfold k_lift; by rewrite Hv).
  (* nothing was built *)
  assert (Hno : ∀ e, e < 0 → load_failure h1 (x_pml4 x) file args envs path e →
    ∃ r im x', (x_on_fs (free fd (blen file)) ≫= λ _, mret (e, no_image)) x1 = Ret ((r, im), x') ∧ same_rest x x' ∧
      load_outcome P kids root kroot h1 x x' file args envs path r im).
  { intros e Hneg Hwhy. destruct (release_ret P x1 L fd (blen file)) as (h & Hr & Ho2 & Hkp & Hf); [by subst x1|done|].
    rewrite (K_bind_ret _ _ _ _ _ Hr). eexists e, no_image, _. split; [done|]. split; [by subst x1|]. left.
    do 2 (split; [done|]). split; [|done]. split; [|by subst x1].
    apply (ready_heap P P kids root kroot x _ h L); try done; [apply (lr_kroot _ _ _ _ _ Hx)|by subst x1|by subst x1]. }
  destruct v as [g|]; [|apply Hno; [done|by left]].
  destruct (build_space P kroot x1 (<[fd := blen file]> L) file g args envs path)
    as [[Hc Hfree]|(uroot & s1 & s2 & own & o & nx & m & Hr0 & Hc & Hnx & Hp & Hbt & Hkern & Hres)]; try done.
  1,2,3,4: subst x1; try done; apply Hx.
  { rewrite (K_bind_ret _ _ _ _ _ Hc), Z.eqb_refl. apply Hno; [done|]. right. left. by subst x1. }
  rewrite (K_bind_ret _ _ _ _ _ Hc), (proj2 (Z.eqb_neq _ 0)) by (unfold PAGE_SIZE; lia).
  rewrite (K_bind_ret _ _ _ _ _ Hnx), (K_bind_ret _ _ _ _ _ Hp).
  destruct (release_space s2 m uroot own Hbt) as (h & Hr & Ho3 & Hf & Hi & Hu & Hmem). rewrite (K_bind_ret _ _ _ _ _ Hr).
  destruct o as [im|].
  - eexists 0, _, _. split; [done|]. split; [split; [|by subst x1]|right; split; [done|by eapply done_space]].
    cbn. rewrite (bt_base _ _ _ _ _ Hbt). by subst x1.
  - destruct (fail_space h m s2 uroot own Hbt Ho3 Hf Hi Hmem) as (x' & Hd & Hs & Hfail). rewrite (K_bind_ret _ _ _ _ _ Hd).
    exists (-8), no_image, x'. split; [done|]. split; [done|]. left. do 2 (split; [done|]). split; [done|].
    right. right. split; [done|]. exists g, uroot, s2, own. by subst x1.
Qed.
End File.

(** The file the path leads to, and what became of it. *)
Lemma load_image_spec P kids root kroot x path p fname argv argc envp envc args envs : loader_ready P kids root kroot x →
  good_name path → Z.of_nat (length path) < NAME_SIZE → head path = Some SLASH → split_path path = (SLASH :: p, fname) →
  argc ≤ 128 → envc ≤ 128 → (argv = None → argc = 0) → (envp = None → envc = 0) →
  vector_strings argv argc = Ret args → vector_strings envp envc = Ret envs →
  ∃ got h1 r im x', read_file ramfs_vt path (x_fs x) = Ret (got, set_heap h1 (x_fs x)) ∧ keeps hhdm P (heap (x_fs x)) h1 ∧
    load_image ramfs_vt hhdm query (Some path) argv argc envp envc x = Ret ((r, im), x') ∧ same_rest x x' ∧
    match got with
    | inl e => r = e ∧ e < 0 ∧ im = no_image ∧ load_failed P kids root kroot h1 x'
    | inr (_, file) => file_holds (x_fs x) kids root p fname file ∧ load_outcome P kids root kroot h1 x x' file args envs path r im
    end.
Proof.
  intros Hx Hg Hlen Hh Hsp Hac Hec Hav Hev Ha He. pose proof Hx as [Hfs Hr Hm Hct Hk Hb Hkb].
  destruct (wf_heap _ _ Hfs) as (L & HL & HA).
  destruct (@read_file_spec A Halloc (paged_spec hhdm (heap (x_fs x)) P) (x_fs x) kids root path p fname L)
    as (got & h1 & Hrd & Hres); try done.
  assert (Hn : ∀ (v : option (list (list Z))) n l, vector_strings v n = Ret l → n ≤ 128 → (length l ≤ 128)%nat).
  { intros v n l Hv Hn. unfold vector_strings in Hv. destruct v as [v|]; [|injection Hv as <-; cbn; lia].
    destruct (_ <=? _)%nat; [|done]. injection Hv as <-. rewrite length_take. lia. }
  unfold load_image. rewrite (proj2 (Z.ltb_ge 128 argc)), (proj2 (Z.ltb_ge 128 envc)) by done.
  assert (Hz : ∀ (v : option (list (list Z))) n, (v = None → n = 0) → negb (n =? 0) && bool_decide (v = None) = false).
  { intros v n Hv. case_bool_decide; [|by rewrite andb_false_r]. by rewrite Hv. }
  rewrite !Hz by done. cbn [orb]. rewrite (K_bind_ret _ _ x args x) by (unfold k_lift; by rewrite Ha).
  rewrite (K_bind_ret _ _ x envs x) by (unfold k_lift; by rewrite He).
  rewrite (K_bind_ret _ _ _ _ _ (x_on_fs_ret _ _ _ _ Hrd)). destruct got as [e|[fd file]]; cbn [read_result] in Hres.
  - destruct Hres as [Hneg Hwf]. destruct (wf_heap _ _ Hwf) as (L' & [HL' Hkp] & HA'). destruct HA'.
    exists (inl e), h1. eexists e, no_image, _. do 4 (split; [done|]).
    do 3 (split; [done|]). split; [|done].
    by apply (ready_heap P P kids root kroot x _ h1 L').
  - destruct Hres as (Hf & [Hsz _] & Hby & Hn' & [Ho Hkp]).
    destruct (load_file_spec P kids root kroot x _ L h1 fd file Hx HA eq_refl Ho Hn' args envs path Hby Hsz) as (r & im & x' & Hrun & Hs & Hout);
      [by eapply Hn|by eapply Hn|]. exists (inr (fd, file)), h1, r, im, x'. done.
Qed.

(** C6: load_image on the shared memory. For a path of the mounted tree and
    any argument and environment strings it returns. It fails with the error
    of reading the file, or the file is no valid executable, or no page is
    free for the new address space, or building it failed for a stated reason;
    then no image is given, the file system is well formed with its tree
    unchanged, every page that was free once the file was read is free again,
    and the pages of others hold what they held. Or it succeeds: the file of
    that path is in the new address space, whose pages were free, with the
    stack, arguments and auxiliary vector the program starts with, the
    kernel's half is the kernel's own, and the file system is as before. *)
Theorem load_image_builds_process (P : gset Z) (kids : Z → list Z) (root kroot : Z) (x : xstate A) (path p fname : list Z)
    (argv envp : option (list (list Z))) (argc envc : Z) (args envs : list (list Z))
    (Hx : loader_ready P kids root kroot x)
    (Hgood : good_name path) (Hlen : Z.of_nat (length path) < NAME_SIZE) (Habs : head path = Some SLASH)
    (Hsplit : split_path path = (SLASH :: p, fname)) (Hargc : argc ≤ 128) (Henvc : envc ≤ 128)
    (Hargv : argv = None → argc = 0) (Henvp : envp = None → envc = 0)
    (Hargs : vector_strings argv argc = Ret args) (Henvs : vector_strings envp envc = Ret envs) :
  ∃ got h1 r im x', read_file ramfs_vt path (x_fs x) = Ret (got, set_heap h1 (x_fs x)) ∧ keeps hhdm P (heap (x_fs x)) h1 ∧
    load_image ramfs_vt hhdm query (Some path) argv argc envp envc x = Ret ((r, im), x') ∧ same_rest x x' ∧
    match got with
    | inl e => r = e ∧ e < 0 ∧ im = no_image ∧ load_failed P kids root kroot h1 x'
    | inr (_, file) => file_holds (x_fs x) kids root p fname file ∧ load_outcome P kids root kroot h1 x x' file args envs path r im
    end.
Proof. by apply load_image_spec. Qed.

(** *** The first program *)

Context (percpu syscall_entry : Z).
(** The processor takes the system calls of the program to syscall_entry, on
    the stack of the task state segment. *)
Record syscalls_on x : Prop := {
  so_lstar : x_msr x MSR_LSTAR = u64 syscall_entry;
  so_star : x_msr x MSR_STAR = STAR_VALUE;
  so_fmask : x_msr x MSR_FMASK = SYSCALL_FMASK;
  so_gs : x_msr x MSR_GS_BASE = 0 ∧ x_msr x MSR_KERNEL_GS_BASE = u64 percpu;
  so_efer : Z.testbit (x_msr x MSR_EFER) 0 = true;
  so_stack : syscall_kernel_rsp (x_cpu x) = rsp0 (tss (x_cpu x))
}.
Lemma syscall_init_ret x : ∃ x', syscall_init percpu syscall_entry x = Ret (tt, x') ∧ syscalls_on x' ∧
  x_fs x' = x_fs x ∧ x_pml4 x' = x_pml4 x.
Proof.
  unfold syscall_init, write_msr, rdmsr. krun. eexists. split; [reflexivity|]. split; [|done].
  assert (Hb : ∀ v, Z.testbit (u64 (Z.lor v EFER_SCE)) 0 = true).
  { intros v. unfold u64. rewrite Z.mod_pow2_bits_low, Z.lor_spec by lia. apply orb_true_r. }
  split; try done. apply Hb.
Qed.

Lemma load_done_same P kids root kroot h1 x x' file args envs path im : x_fs x' = x_fs x → x_pml4 x' = x_pml4 x →
  load_done P kids root kroot h1 x file args envs path im → load_done P kids root kroot h1 x' file args envs path im.
Proof.
  intros E E' (g & uroot & own & Hd). exists g, uroot, own. revert Hd. unfold x_pg. rewrite E, E'.
  intros (? & ? & ? & ? & ? & ? & ? & ? & ? & []). split_and!; try done. split; by rewrite ?E, ?E'.
Qed.

(** The program runs: the processor is to enter it at [entry] on [stack]. *)
Record launched P kids root kroot (fs : fs_state A) path p fname x' (entry stack : Z) : Prop := {
  la_mode : syscalls_on x';
  la_cr3 : x_cr3 x' = active_root_phys x';
  la_image : ∃ h1 file im, file_holds fs kids root p fname file ∧ load_done P kids root kroot h1 x' file [] [] path im ∧
    active_root_phys x' = root_phys im ∧ entry = x_entry im ∧ stack = x_stack im ∧
    keeps hhdm P (heap fs) (heap (x_fs x'))
}.
Lemma launch_static_spec P kids root kroot x path p fname : loader_ready P kids root kroot x →
  good_name path → Z.of_nat (length path) < NAME_SIZE → head path = Some SLASH → split_path path = (SLASH :: p, fname) →
  (∃ e x', launch_static ramfs_vt hhdm query percpu syscall_entry (Some path) x = Ret (inl e, x') ∧ e < 0 ∧
     loader_ready P kids root kroot x' ∧ same_rest x x') ∨
  ∃ entry stack x', launch_static ramfs_vt hhdm query percpu syscall_entry (Some path) x = Ret (inr (entry, stack), x') ∧
    launched P kids root kroot (x_fs x) path p fname x' entry stack.
Proof.
  intros Hx Hg Hlen Hh Hsp. unfold launch_static, prepare.
  destruct (load_image_spec P kids root kroot x path p fname None 0 None 0 [] [])
    as (got & h1 & r & im & x1 & Hrd & Hkp & Hrun & Hs & Hgot); try done.
  rewrite (K_bind_ret _ _ _ _ _ Hrun).
  assert (Hout : (r < 0 ∧ loader_ready P kids root kroot x1) ∨
    r = 0 ∧ ∃ file, file_holds (x_fs x) kids root p fname file ∧ load_done P kids root kroot h1 x1 file [] [] path im).
  { destruct got as [e|[fd file]].
    - destruct Hgot as (-> & He & _ & [Hr _]). by left.
    - destruct Hgot as (Hf & [(He & _ & [Hr _] & _)|[-> Hd]]); [by left|right; split; [done|by exists file]]. }
  destruct Hout as [[He Hr]|(-> & file & Hf & Hd)].
  - left. rewrite (proj2 (Z.ltb_lt r 0)) by done. by exists r, x1.
  - right. cbn [Z.ltb Z.compare]. destruct (syscall_init_ret x1) as (x2 & Hi & Hon & E1 & E2).
    rewrite (K_bind_ret _ _ _ _ _ Hi). krun. eexists _, _, _. split; [reflexivity|]. destruct Hon. split; [by split|done|].
    exists h1, file, im. split; [done|]. split; [by eapply load_done_same|]. do 3 (split; [done|]).
    cbn. rewrite E1. destruct Hd as (g & uroot & own & _ & _ & _ & _ & _ & _ & _ & _ & Hk & _). by etrans.
Qed.
End LoadImage.

(** ** A tree with a program, on the sample machine *)

Definition sample_archive : list Z :=
  cpio_entry [98; 105; 110; 47; 115; 104] 33261 sample_exec ++ cpio_entry CPIO_TRAILER 0 [].
Lemma sample_archive_ok : archive_ok sample_archive.
Proof. split; [|vm_compute; done]. apply bytes_of_bool. vm_compute. reflexivity. Qed.
Definition sample_modules : list (option (option (list Z))) := [Some (Some sample_archive)].
Definition sample_heap : Alloc.bump * machine := (Bump 64 0, pg_mach stack_sample).
#[local] Instance sample_paged : PagedAllocator 0 (Alloc.bump * machine) := beside_paged 0.
Definition sample_spec : AllocatorSpec (Alloc.bump * machine) := paged_spec 0 sample_heap {[2]}.

(** Memory does not run out while the tree is made. *)
Definition has_page {B} (o : outcome (B * fs_state (Alloc.bump * machine))) : bool :=
  match o with Ret (_, s) => bool_decide (3 ∈ free_set 0 (machine_of (heap s))) | _ => false end.
Definition rooted {B C} (o : outcome (B * fs_state C)) : bool :=
  match o with
  | Ret (_, s) => match mounts s !! g_root_mount s with Some m => negb (m_mount_point m =? 0) | None => false end
  | _ => false
  end.
Lemma sample_mounts : rooted (mount_root (fs_boot sample_heap)) = true.
Proof. vm_compute. reflexivity. Qed.
Lemma sample_made : has_page (init_fs (Some sample_modules) (fs_boot sample_heap)) = true.
Proof. vm_compute. reflexivity. Qed.

Lemma sample_owned : owns {[2]} sample_heap ∅.
Proof.
  destruct kernel_stack_sample as [Hph Hsm _ _ Hu Hc]. split; [split; [cbn; lia|done]|]. split; [done|]. split; [done|].
  intros p ->%elem_of_singleton. split; [vm_compute; done|done|done].
Qed.
Lemma sample_ready : ∃ x kids root, loader_ready 0 {[2]} kids root 2 x ∧ 3 ∈ free_set 0 (machine_of (heap (x_fs x))).
Proof.
  pose proof sample_mounts as Hm. pose proof sample_made as Hr.
  destruct (@init_fs_spec _ _ sample_spec sample_heap (Some sample_modules)) as [[w E]|[(root & fs & E & kids & Hwf & Hrf & Hmt & Hct)|(sb & s & m & E & Hs & Hz)]].
  - split; [apply sample_owned|done].
  - intros archive E%list_elem_of_singleton. assert (archive = sample_archive) as -> by congruence. apply sample_archive_ok.
  - exfalso. rewrite E in Hr. discriminate Hr.
  - rewrite E in Hr. apply bool_decide_eq_true_1 in Hr. clear Hm E. exists (MkX fs 8192 0 8192 (λ _, 0) (MkPerCpu [] 0 0 (MkTss 0 0 0 [] 0) 0 0)), kids, root.
    destruct (wf_heap _ _ Hwf) as (L & [HL _] & HA). split; [|exact Hr].
    split; cbn [x_fs x_pml4]; [|done|done|done|by apply elem_of_singleton|done|done].
    destruct Hwf as [? ? ? ? ? ? ? ? _]. split; try done. exists L. by split.
  - exfalso. rewrite E in Hm. cbn [rooted] in Hm. rewrite Hs, Hz in Hm. discriminate Hm.
Qed.

Lemma load_image_builds_process_witness : ∃ x kids root (got : Z + Z * list Z) h1 r im x',
  loader_ready 0 {[2]} kids root 2 x ∧
  load_image ramfs_vt 0 (λ _, MkCpuid 0 0 0 0) (Some sample_path) (Some sample_argv) 1 None 0 x = Ret ((r, im), x') ∧
  match got with
  | inl e => r = e ∧ e < 0 ∧ im = no_image ∧ load_failed 0 {[2]} kids root 2 h1 x'
  | inr (_, file) => file_holds (x_fs x) kids root [98; 105; 110] [115; 104] file ∧
      load_outcome 0 {[2]} kids root 2 h1 x x' file sample_argv [] sample_path r im
  end.
Proof.
  destruct sample_ready as (x & kids & root & Hx & _).
  destruct (load_image_builds_process 0 (λ _, MkCpuid 0 0 0 0) {[2]} kids root 2 x sample_path [98; 105; 110] [115; 104]
    (Some sample_argv) None 1 0 sample_argv [] Hx) as (got & h1 & r & im & x' & _ & _ & Hrun & _ & Hgot).
  - repeat constructor; lia.
  - vm_compute. reflexivity.
  - reflexivity.
  - vm_compute. reflexivity.
  - lia.
  - lia.
  - discriminate.
  - reflexivity.
  - reflexivity.
  - reflexivity.
  - exists x, kids, root, got, h1, r, im, x'. split; [exact Hx|]. split; [exact Hrun|exact Hgot].
Defined.
