(* ===== verification/SwitchSpec.v ===== *)
(** * One program after another

    activate and terminate_current of proc/elf_exec.cpp switch the processor to
    another address space and give the old one's pages back: what exec does
    with the image load_image made, and what exit does. *)

From S2P Require Import Prelude Bytes Mem KString Errno Pmm Pages Paging PagingSpec Alloc Vfs Ramfs VfsTree RamfsSpec FileSpec PagedAlloc.
From S2P Require Import Gdt Elf Apic UserCopy UserCopySpec ElfExec Exec ExecSpec SpaceSpec SpaceMap LoadSpec StackSpec SpaceFree.
From S2P Require Import RelocSpec ReadSpec ImageSpec LaunchSpec.

Section Switch.
Context (hhdm : Z) {A : Type} {Halloc : Allocator A} {Hmach : OnMachine A} {Hpaged : PagedAllocator hhdm A}.
Context (query : Z → cpuid_result).
Implicit Types (x : xstate A) (P : gset Z) (own : gmap Z (Z * Z)).
Abbreviation free_of a := (free_set hhdm (machine_of a)).

(** The pages [own] of the space at [uroot] are the process's. *)
Record process_space P kroot x uroot own : Prop := {
  ps_space : space_inv hhdm (x_pg x) uroot own;
  ps_pages : dom own ⊆ P;
  ps_kernel : kroot ∉ dom own
}.
(** Its space is the active one. *)
Record active_process P kroot x uroot own : Prop := {
  ap_space : process_space P kroot x uroot own;
  ap_active : active_root_phys x = uroot * PAGE_SIZE;
  ap_cr3 : x_cr3 x = active_root_phys x
}.
(** Everything the process sees. *)
Definition same_view uroot x x' : Prop :=
  ∀ va, 0 ≤ va < USER_TOP → ubyte hhdm (x_pg x') uroot va = ubyte hhdm (x_pg x) uroot va.

(** A space whose pages others leave alone. *)
Lemma process_kept P P' kids root kroot x x' uroot own : process_space P kroot x uroot own →
  loader_ready hhdm P' kids root kroot x' → dom own ⊆ P' →
  (∀ p a, p ∈ dom own → in_page hhdm p a → mem (machine_of (heap (x_fs x'))) a = mem (machine_of (heap (x_fs x))) a) →
  process_space P' kroot x' uroot own ∧ same_view uroot x x'.
Proof.
  intros [Hs HP Hk] Hr HP' Hm. destruct (wf_heap _ _ (lr_files _ _ _ _ _ _ Hr)) as (L & [Ho _] & _).
  destruct (owns_phys _ _ _ Ho) as [Hph Hsm].
  destruct (space_kept hhdm (x_pg x) uroot own (machine_of (heap (x_fs x'))) (x_pml4 x') Hs Hph Hsm) as [Hi Hu].
  - intros p Hp%elem_of_dom. apply (owns_others _ _ _ _ Ho). by apply HP'.
  - intros p a Hp%elem_of_dom. by apply Hm.
  - by split.
Qed.

(** Destroying a space gives exactly its pages back. *)
Lemma space_gone P kids root kroot x uroot own : loader_ready hhdm P kids root kroot x → process_space P kroot x uroot own →
  ∃ x', x_on_pg (destroy_address_space hhdm (uroot * PAGE_SIZE)) x = Ret (tt, x') ∧ same_rest x x' ∧
    loader_ready hhdm (P ∖ dom own) kids root kroot x' ∧
    free_of (heap (x_fs x')) = free_of (heap (x_fs x)) ∪ dom own ∧
    ∀ p a, p ∈ P → in_page hhdm p a → mem (machine_of (heap (x_fs x'))) a = mem (machine_of (heap (x_fs x))) a.
Proof.
  intros Hr [Hs HP Hk]. destruct (wf_heap _ _ (lr_files _ _ _ _ _ _ Hr)) as (L & [Ho _] & HA).
  destruct (destroy_spec hhdm Hs) as (s' & Hd & Hfr). exists (set_x_pg s' x). split; [by apply x_on_pg_ret|].
  assert (Eb : pml4_base s' = x_pml4 x) by (by rewrite (fd_base _ _ _ Hfr)).
  assert (E : P = P ∖ dom own ∪ dom own) by (rewrite difference_union_L; set_solver).
  split; [done|]. split; [|split].
  - apply (ready_heap hhdm P (P ∖ dom own) kids root kroot x _ (set_machine (pg_mach s') (heap (x_fs x))) L); try done.
    + apply (owns_moved P); [done|]. rewrite E at 1. apply (freed_moved hhdm (P ∖ dom own) (x_pg x) own s' Hfr).
      * rewrite <- E. intros p Hp. by apply (owns_others _ _ _ _ Ho).
      * set_solver.
    + apply elem_of_difference. split; [apply Hr|done].
  - cbn. rewrite machine_of_set. apply set_eq. intros q. rewrite elem_of_union, elem_of_dom. apply (fd_free _ _ _ Hfr).
  - intros p a Hp Ha. cbn. rewrite machine_of_set. apply (ob_mem _ _ _ (fd_only _ _ _ Hfr)).
    by apply (owns_others _ _ _ _ Ho Hp).
Qed.

(** The registers the program starts with. *)
Definition started_frame (im : ExecImage) (frame frame' : RegisterFrame) : Prop :=
  rip frame' = x_entry im ∧ rsp frame' = x_stack im ∧ rflags frame' = 514 ∧
  rdi frame' = x_argc im ∧ rsi frame' = x_argv im ∧ rdx frame' = x_envp im ∧
  rax frame' = rax frame ∧ rcx frame' = rcx frame ∧ r11 frame' = r11 frame ∧
  [rbx frame'; rbp frame'; r8 frame'; r9 frame'; r10 frame'; r12 frame'; r13 frame'; r14 frame'; r15 frame'] = replicate 9 0.

Lemma activate_spec P kids root kroot x oroot oown nroot nown im frame : loader_ready hhdm P kids root kroot x →
  process_space P kroot x oroot oown → active_root_phys x = oroot * PAGE_SIZE →
  process_space P kroot x nroot nown → root_phys im = nroot * PAGE_SIZE → dom nown ## dom oown →
  ∃ im' frame' x', activate hhdm im frame x = Ret ((im', frame'), x') ∧ root_phys im' = 0 ∧ started_frame im frame frame' ∧
    loader_ready hhdm (P ∖ dom oown) kids root kroot x' ∧ active_process (P ∖ dom oown) kroot x' nroot nown ∧
    same_view nroot x x' ∧ free_of (heap (x_fs x')) = free_of (heap (x_fs x)) ∪ dom oown.
Proof.
  intros Hr Ho Hact Hn Him Hd. unfold activate.
  assert (Hpos : ∀ r w, process_space P kroot x r w → 0 < r).
  { intros r w [Hs _ _]. destruct (sp_used _ _ _ _ Hs r 0 0 (own_root hhdm Hs)) as (_ & ? & _). lia. }
  rewrite Him, (proj2 (Z.eqb_neq _ 0)) by (pose proof (Hpos _ _ Hn); unfold PAGE_SIZE; lia). krun.
  rewrite Hact, (proj2 (Z.eqb_neq _ 0)) by (pose proof (Hpos _ _ Ho); unfold PAGE_SIZE; lia).
  set (x1 := set_active _ _).
  assert (Hr1 : loader_ready hhdm P kids root kroot x1) by (by destruct Hr; split).
  assert (Ho1 : process_space P kroot x1 oroot oown) by (by destruct Ho; split).
  assert (Hn1 : process_space P kroot x1 nroot nown) by (by destruct Hn; split).
  destruct (space_gone P kids root kroot x1 oroot oown Hr1 Ho1) as (x2 & Hrun & (E1 & E2 & E3 & E4) & Hr2 & Hf & Hm).
  rewrite (K_bind_ret _ _ _ _ _ Hrun). eexists _, _, x2. split; [reflexivity|]. split; [done|]. split; [done|]. split; [done|].
  pose proof (ps_pages _ _ _ _ _ Hn) as HnP.
  destruct (process_kept P (P ∖ dom oown) kids root kroot x1 x2 nroot nown Hn1 Hr2) as [Hn2 Hv]; [set_solver| |].
  { intros p a Hp. apply Hm. by apply HnP. }
  split; [|by split]. split; [done|by rewrite E2|by rewrite E3, E2].
Qed.

Lemma terminate_spec P kids root kroot x uroot own : loader_ready hhdm P kids root kroot x →
  active_process P kroot x uroot own →
  ∃ x', terminate_current hhdm x = Ret (tt, x') ∧ active_root_phys x' = 0 ∧ x_cr3 x' = kroot * PAGE_SIZE ∧
    loader_ready hhdm (P ∖ dom own) kids root kroot x' ∧ free_of (heap (x_fs x')) = free_of (heap (x_fs x)) ∪ dom own.
Proof.
  intros Hr [Hs Hact Hcr]. unfold terminate_current. krun. rewrite Hact.
  destruct (sp_used _ _ _ _ (ps_space _ _ _ _ _ Hs) uroot 0 0 (own_root hhdm (ps_space _ _ _ _ _ Hs))) as (_ & Hpos & _).
  rewrite (proj2 (Z.eqb_neq _ 0)) by (unfold PAGE_SIZE; lia). krun. set (x1 := set_active _ _).
  destruct (space_gone P kids root kroot x1 uroot own) as (x2 & Hrun & (E1 & E2 & E3 & E4) & Hr2 & Hf & _);
    [by destruct Hr; split|by destruct Hs; split|].
  exists x2. split; [done|]. split; [done|]. split; [|by split]. rewrite E3. cbn.
  rewrite (lr_base _ _ _ _ _ _ Hr). destruct (wf_heap _ _ (lr_files _ _ _ _ _ _ Hr)) as (L & [Ho _] & _).
  destruct (owns_others _ _ _ _ Ho (lr_kroot _ _ _ _ _ _ Hr)) as [Hk _ _].
  apply (virt_to_phys_page hhdm (machine_of (heap (x_fs x)))); [apply (owns_phys _ _ _ Ho)|lia].
Qed.

(** C5: one program after another. While a process is active, load_image
    fails and the process sees exactly what it saw; or it succeeds, and
    activate then starts the new program: its registers are the image's, the
    processor uses its space, in which the process finds the file, its stack
    and its auxiliary vector, every page of the old program's space is free
    again, and the file system is well formed. When the new program ends,
    terminate_current switches to the kernel's tables and every page of its
    space is free again too, so that the pages others hold are those held
    before the first of the two started. *)
Theorem exec_replaces_program (P : gset Z) (kids : Z → list Z) (root kroot oroot : Z) (oown : gmap Z (Z * Z))
    (x : xstate A) (path p fname : list Z) (argv envp : option (list (list Z))) (argc envc : Z) (args envs : list (list Z))
    (frame : RegisterFrame)
    (Hx : loader_ready hhdm P kids root kroot x) (Hold : active_process P kroot x oroot oown)
    (Hgood : good_name path) (Hlen : Z.of_nat (length path) < NAME_SIZE) (Habs : head path = Some SLASH)
    (Hsplit : split_path path = (SLASH :: p, fname)) (Hargc : argc ≤ 128) (Henvc : envc ≤ 128)
    (Hargv : argv = None → argc = 0) (Henvp : envp = None → envc = 0)
    (Hargs : vector_strings argv argc = Ret args) (Henvs : vector_strings envp envc = Ret envs) :
  ∃ r im x1, load_image ramfs_vt hhdm query (Some path) argv argc envp envc x = Ret ((r, im), x1) ∧
    ((r < 0 ∧ im = no_image ∧ loader_ready hhdm P kids root kroot x1 ∧ active_process P kroot x1 oroot oown ∧ same_view oroot x x1) ∨
     (r = 0 ∧ ∃ file g nroot nown im' frame' x2 x3,
        file_holds (x_fs x) kids root p fname file ∧ validate file = Ret (Some g) ∧
        activate hhdm im frame x1 = Ret ((im', frame'), x2) ∧ started_frame im frame frame' ∧ x_entry im = g_entry g ∧
        process_ready hhdm nroot file g args envs path (x_pg x2) im ∧
        loader_ready hhdm (P ∖ dom oown ∪ dom nown) kids root kroot x2 ∧
        active_process (P ∖ dom oown ∪ dom nown) kroot x2 nroot nown ∧ dom oown ⊆ free_of (heap (x_fs x2)) ∧
        terminate_current hhdm x2 = Ret (tt, x3) ∧ active_root_phys x3 = 0 ∧ x_cr3 x3 = kroot * PAGE_SIZE ∧
        loader_ready hhdm (P ∖ dom oown) kids root kroot x3 ∧ dom nown ⊆ free_of (heap (x_fs x3)))).
Proof.
  destruct (load_image_spec hhdm query P kids root kroot x path p fname argv argc envp envc args envs)
    as (got & h1 & r & im & x1 & _ & Hk1 & Hrun & (E1 & E2 & E3 & _) & Hgot); try done.
  exists r, im, x1. split; [done|]. destruct Hold as [Hos Hact Hcr]. pose proof (ps_pages _ _ _ _ _ Hos) as HoP.
  assert (Hfail : im = no_image → r < 0 → load_failed hhdm P kids root kroot h1 x1 → r < 0 ∧ im = no_image ∧
    loader_ready hhdm P kids root kroot x1 ∧ active_process P kroot x1 oroot oown ∧ same_view oroot x x1).
  { intros -> Hr (Hready & Hk2 & _). destruct (process_kept P P kids root kroot x x1 oroot oown Hos Hready HoP) as [Hos1 Hv].
    { intros q a Hq%HoP Ha. by rewrite (Hk2 q a Hq Ha), (Hk1 q a Hq Ha). }
    do 3 (split; [done|]). split; [split; [done|by rewrite E2|by rewrite E3, E2]|done]. }
  destruct got as [e|[fd file]]; [left; destruct Hgot as (-> & ? & ? & ?); by apply Hfail|].
  destruct Hgot as (Hfile & [(? & ? & ? & _)|[-> Hd]]); [left; by apply Hfail|]. right. split; [done|].
  destruct Hd as (g & nroot & nown & Hv & Hroot & Hent & Hsp & _ & Hdis & _ & Hpr & Hk2 & Hready).
  assert (HnP : dom nown ⊆ P ∪ dom nown) by set_solver.
  assert (Hns : process_space (P ∪ dom nown) kroot x1 nroot nown).
  { split; [done|done|]. intros Hq. apply (Hdis kroot); [apply Hx|done]. }
  destruct (process_kept P (P ∪ dom nown) kids root kroot x x1 oroot oown Hos Hready) as [Hos1 _]; [set_solver| |].
  { intros q a Hq%HoP Ha. by rewrite (Hk2 q a Hq Ha), (Hk1 q a Hq Ha). }
  destruct (activate_spec (P ∪ dom nown) kids root kroot x1 oroot oown nroot nown im frame)
    as (im' & frame' & x2 & Hra & _ & Hfr & Hready2 & Hap & Hview & Hf2); [done|done|by rewrite E2|done|done|set_solver|].
  assert (Eq : (P ∪ dom nown) ∖ dom oown = P ∖ dom oown ∪ dom nown) by set_solver. rewrite Eq in Hready2, Hap.
  destruct (terminate_spec _ kids root kroot x2 nroot nown Hready2 Hap) as (x3 & Hrt & Ha3 & Hc3 & Hready3 & Hf3).
  assert (Eq3 : (P ∖ dom oown ∪ dom nown) ∖ dom nown = P ∖ dom oown) by set_solver. rewrite Eq3 in Hready3.
  exists file, g, nroot, nown, im', frame', x2, x3. do 5 (split; [done|]).
  split; [by eapply (process_ready_view hhdm nroot (x_pg x1) (x_pg x2) Hview)|]. split; [done|]. split; [done|]. split; [set_solver|].
  do 4 (split; [done|]). set_solver.
Qed.
End Switch.

(** ** An active process on the sample machine: an empty space *)

#[local] Instance switch_paged : PagedAllocator 0 (Alloc.bump * machine) := beside_paged 0.
Lemma sample_process : ∃ x P kids root oroot oown, loader_ready 0 P kids root 2 x ∧ active_process 0 P 2 x oroot oown.
Proof.
  destruct sample_ready as (x & kids & root & Hx & Hfree). destruct (wf_heap _ _ (lr_files _ _ _ _ _ _ Hx)) as (L & [Ho _] & HA).
  destruct Hx as [Hf Hrf Hmt Hct Hk Hb Hh].
  pose proof (owns_kernel 0 {[2]} _ L 2 (x_pml4 x) Ho Hk Hb Hh) as Hks.
  destruct (create_built 0 _ 2 Hks) as [[_ He]|(uroot & s1 & _ & _ & Hbt & _)].
  { exfalso. cbn [pg_mach] in He. rewrite He in Hfree. by apply not_elem_of_empty in Hfree. }
  set (own := {[uroot := (0, 0)]} : gmap Z (Z * Z)) in *.
  set (x' := set_cr3 (uroot * PAGE_SIZE) (set_active (uroot * PAGE_SIZE) (set_x_pg s1 x))).
  exists x', ({[2]} ∪ dom own), kids, root, uroot, own.
  assert (HP : ∀ p, p ∈ ({[2]} : gset Z) → page_in_use 0 (machine_of (heap (x_fs x))) p) by (intros p; by eapply owns_others).
  split; [apply (ready_heap 0 {[2]} _ kids root 2 x x' (set_machine (pg_mach s1) (heap (x_fs x))) L); try done|].
  - apply (owns_moved {[2]}); [done|]. by apply (built_moved 0 {[2]} _ s1 uroot own) in Hbt.
  - by apply elem_of_union_l.
  - apply (bt_base _ _ _ _ _ Hbt).
  - split; [split|done|done].
    + change (x_pg x') with (x_pg (set_x_pg s1 x)). rewrite x_pg_set. apply (bt_inv _ _ _ _ _ Hbt).
    + set_solver.
    + intros Hq%elem_of_dom. apply (pu_used _ _ _ (HP 2 Hk)). apply (proj2 (bt_free _ _ _ _ _ Hbt 2)). by right.
Qed.

Lemma exec_replaces_program_witness : ∃ x P kids root oroot oown r im x1,
  loader_ready 0 P kids root 2 x ∧ active_process 0 P 2 x oroot oown ∧
  load_image ramfs_vt 0 (λ _, MkCpuid 0 0 0 0) (Some sample_path) (Some sample_argv) 1 None 0 x = Ret ((r, im), x1) ∧
  (r < 0 ∧ active_process 0 P 2 x1 oroot oown ∧ same_view 0 oroot x x1 ∨
   r = 0 ∧ ∃ nroot nown im' frame' x2,
     activate 0 im (MkFrame 0 0 0 0 0 0 0 0 0 0 0 0 0 0 0 0 0 0) x1 = Ret ((im', frame'), x2) ∧ rip frame' = x_entry im ∧
     active_process 0 (P ∖ dom oown ∪ dom nown) 2 x2 nroot nown ∧ dom oown ⊆ free_set 0 (machine_of (heap (x_fs x2)))).
Proof.
  destruct sample_process as (x & P & kids & root & oroot & oown & Hx & Hold).
  destruct (exec_replaces_program 0 (λ _, MkCpuid 0 0 0 0) P kids root 2 oroot oown x sample_path [98; 105; 110] [115; 104]
    (Some sample_argv) None 1 0 sample_argv [] (MkFrame 0 0 0 0 0 0 0 0 0 0 0 0 0 0 0 0 0 0) Hx Hold) as (r & im & x1 & Hrun & Hcase).
  - repeat constructor; lia.
  - vm_compute. reflexivity.
  - reflexivity.
  - vm_compute. reflexivity.
  - lia.
  - lia.
  - discriminate.
  - reflexivity.
  - reflexivity.
  - reflexivity.
  - exists x, P, kids, root, oroot, oown, r, im, x1. split; [exact Hx|]. split; [exact Hold|]. split; [exact Hrun|].
    destruct Hcase as [(? & _ & _ & ? & ?)|(-> & file & g & nroot & nown & im' & frame' & x2 & x3 & _ & _ & Ha & [Hrip _] & _ & _ & _ & Hap & Hfree & _)];
      [left; done|right; split; [done|]]. by exists nroot, nown, im', frame', x2.
Defined.
