(* ===== verification/Kernel.v ===== *)
(** * The start of the kernel: kernel_main of src/kernel_main.cpp

    kernel_main checks what the boot loader hands over and brings the parts
    up one after the other: descriptors, the page allocator, the page tables,
    the slab allocator, the keyboard, the interrupt controllers and the timer,
    the other processors, the scheduler, the root file system. The page
    allocator, the tables and the slab allocator work on one memory, so the
    memory is handed from call to call. The boot loader's responses are a
    parameter, and so is what the devices answer. The sequence ends where
    the processor enters the first program; log lines are left out. *)

From S2P Require Import Prelude Mem KString Errno Alloc Pmm Paging.
From S2P Require Import Vfs Ramfs Boot Keyboard Gdt Idt Apic Madt Ioapic Font Console.
From S2P Require Import Sched SchedInit Slab SlabHeap SlabPaged Smp Elf UserCopy ElfExec Exec.

(** What the boot loader answered; [None] is a null response. *)
Record limine := Limine {
  base_revision_supported : bool;
  framebuffers : option (list framebuffer);
  hhdm_offset : option Z;
  memmap : list memmap_entry;
  rsdp : Z;                                      (** 0 when there is none *)
  mp : option (Z * list mp_info);                (** bsp_lapic_id, cpus *)
  modules : option (list (option (option (list Z))))
}.
(** The machine at the start. *)
Record hardware := Hardware {
  hw_mem : ram;
  hw_cr3 : Z;
  hw_lapic : Z → Z;
  hw_msr : Z → Z;
  hw_pit : list Z;                               (** what port 0x61 answers *)
  hw_ps2 : ports;
  hw_select : Z → Z; hw_iodev : Z → Z → Z;       (** the I/O APICs *)
  hw_online : list Z                             (** what ap_online_count is read as, poll by poll *)
}.
(** The state when the devices are up. *)
Record devices := Devices {
  d_idt : Z → IDTEntry;
  d_percpu : gmap Z PerCpuData;
  d_pml4 : Z;                                    (** pml4_base *)
  d_ps2 : ports;
  d_apic : apic_state;
  d_info : ApicInfo;
  d_ioapic : ioapic_state;
  d_slab : slab_state                            (** with the memory *)
}.
(** The state when the processors are up; the interrupt flag is the boot
    processor's. *)
Record kernel := Kernel {
  k_dev : devices;
  k_smp : smp_state;
  k_sched : sched_state slab_state;
  k_scheduler_ready : bool;
  k_if : bool
}.
(** hcf stops the processor. *)
Inductive progress_to (A : Type) := Halted | Up (a : A).
Arguments Halted {A}. Arguments Up {A}.

Section Kernel.
(** The addresses of per_cpu_data, ap_entry, the idle loop, the stack's top,
    syscall_entry and the interrupt stubs; the contents of fresh memory and registers; the
    CPUID instruction and what the timer does while the kernel waits. *)
Context (table ap_entry idle kernel_stack_top syscall_entry : Z) (st : stubs) (junk : Task) (regs0 : Regs).
Context (query : Z → cpuid_result) (elapse : Z → (Z → Z) → (Z → Z)).

(** ** The devices *)

Definition boot_apic (w : hardware) : apic_state :=
  MkApic 0 (hw_lapic w) (hw_msr w) (hw_pit w) [] (MkBaseInfo 0 false) 0 0 0 0 (PagingState (Machine (hw_mem w) 0 0 0) 0).

(** The check for the local APIC: the enable bit is set if it was not. *)
Definition check_lapic : K apic_state unit :=
  apic_base_msr ← msr_read 27;
  let lapic_enabled := negb (Z.land (Z.shiftr apic_base_msr 11) 1 =? 0) in
  if lapic_enabled then mret tt else msr_write 27 (Z.lor apic_base_msr (Z.shiftl 1 11)).

(** The loop over info.ioapics. *)
Fixpoint ioapic_loop (hhdm : Z) (l : list IoApicDesc) : K ioapic_state unit :=
  match l with
  | [] => mret tt
  | d :: l' => Ioapic.init hhdm (phys_base d) (gsi_base d) ≫= λ _, ioapic_loop hhdm l'
  end.

(** ** The other processors *)

(** The wait for them; [seen] is what the counter is read as. *)
Fixpoint wait_online (seen : list Z) (expected timeout : Z) : outcome unit :=
  match seen with
  | [] => Diverge
  | n :: seen' =>
      if n <? expected then
        let timeout := u64 (timeout - 1) in
        if timeout =? 0 then Panic "smp: Timeout waiting for APs to come online."
        else wait_online seen' expected timeout
      else Ret tt
  end.

Definition start_others (hhdm bsp_lapic_id : Z) (cpus : list mp_info) (percpu : gmap Z PerCpuData) (seen : list Z)
    (h : slab_state) : outcome smp_state :=
  let s := Smp h percpu cpus 0 in
  if Z.of_nat (length cpus) <=? 1 then Ret s
  else
    '(_, s') ← start_aps hhdm table ap_entry bsp_lapic_id (length cpus) s;
    _ ← wait_online seen (expected_aps s') AP_TIMEOUT;
    Ret s'.

(** The default arguments of scheduler::init_all_cpus. *)
Definition idle_stack_size : Z := 4096.
Definition start_sched (hhdm : Z) (cpus : list mp_info) (h : slab_state) : outcome (sched_state slab_state) :=
  let _ := slab_allocator hhdm in
  '(_, sc) ← init_all_cpus junk idle idle_stack_size (lapic_id <$> cpus) (sched_boot regs0 h);
  Ret sc.

(** ** The sequence *)

(** From gdt::init_bsp to the end of the devices' initialisation. *)
Definition start_devices (hhdm : Z) (b : limine) (w : hardware) (a : apic_state) : outcome devices :=
  percpu ← Gdt.init_cpu table 0 kernel_stack_top ∅;
  let idt := Idt.init_bsp st in
  M ← pmm_init hhdm (memmap b) (hw_mem w);
  '(_, pg) ← paging_init hhdm (hw_cr3 w) (PagingState M 0);
  '(_, h) ← slab_init hhdm (slab_boot (pg_mach pg));
  '(ok, ps2) ← ps2_init (hw_ps2 w);
  if negb ok then Panic "Failed to initialize PS/2 keyboard." else
  '(_, a) ← Apic.init hhdm query (set_ap_paging (PagingState (mach h) (pml4_base pg)) a);
  info ← parse hhdm (mem (pg_mach (ap_paging a))) (rsdp b) no_apic_info;
  '(id, a) ← get_lapic_id a;
  let info := MkInfo (lapic_phys_base info) (u8 id) (ioapics info) (isos info) in
  '(_, io) ← ioapic_loop hhdm (ioapics info) (MkIo [] (hw_select w) (hw_iodev w) (ap_paging a));
  '(_, a) ← timer_init elapse 32 true 0 (set_ap_paging (io_paging io) a);
  Ret (Devices idt percpu (pml4_base pg) ps2 a info io (SlabState (pg_mach (ap_paging a)) (slab_caches h))).

(** From the processors' start to sti. *)
Definition start_cpus (hhdm : Z) (b : limine) (w : hardware) (d : devices) : outcome kernel :=
  match mp b with
  | None => Panic "smp: limine_mp_request.response is null!"
  | Some (bsp_lapic_id, cpus) =>
      sm ← start_others hhdm bsp_lapic_id cpus (d_percpu d) (hw_online w) (d_slab d);
      sc ← start_sched hhdm cpus (sm_slab sm);
      Ret (Kernel d sm sc true true)
  end.

(** Everything before init_fs. *)
Definition kernel_init (b : limine) (w : hardware) : outcome (progress_to kernel) :=
  if negb (base_revision_supported b) then Ret Halted else
  if match framebuffers b with None => true | Some l => Z.of_nat (length l) <? 1 end then Ret Halted else
  match hhdm_offset b with
  | None => Panic "HHDM not available"
  | Some hhdm =>
      if hhdm =? 0 then Panic "HHDM not available" else
      '(_, a) ← check_lapic (boot_apic w);
      d ← start_devices hhdm b w a;
      k ← start_cpus hhdm b w d;
      Ret (Up k)
  end.

(** Up to the launch of the first program. *)
Definition kernel_boot (b : limine) (w : hardware) : outcome (progress_to (kernel * fs_state slab_state)) :=
  r ← kernel_init b w;
  match r with
  | Halted => Ret Halted
  | Up k =>
      let _ := slab_allocator (default 0 (hhdm_offset b)) in
      '(_, fs) ← init_fs (modules b) (fs_boot (s_heap (k_sched k)));
      Ret (Up (k, fs))
  end.

(** The loader's state: the processor runs on the boot loader's tables, no
    program is active. *)
Definition launch_state (w : hardware) (k : kernel) (fs : fs_state slab_state) : xstate slab_state :=
  MkX fs (d_pml4 (k_dev k)) 0 (hw_cr3 w) (msr (d_apic (k_dev k)))
    (default (MkPerCpu [] 0 0 (MkTss 0 0 0 [] 0) 0 0) (sm_percpu (k_smp k) !! 0)).
(** "/sbin/init" *)
Definition init_path : list Z := [47; 115; 98; 105; 110; 47; 105; 110; 105; 116].

(** kernel_main: the processor is about to enter the first program at an
    address, on a stack, in a state. *)
Definition kernel_main (b : limine) (w : hardware) : outcome (progress_to (kernel * xstate slab_state * (Z * Z))) :=
  r ← kernel_boot b w;
  match r with
  | Halted => Ret Halted
  | Up (k, fs) =>
      let hhdm := default 0 (hhdm_offset b) in
      let _ := slab_allocator hhdm in
      '(r, x) ← launch_static ramfs_vt hhdm query table syscall_entry (Some init_path) (launch_state w k fs);
      match r with
      | inl launch_error => Panic "failed to launch static user ELF"
      | inr (entry, stack) => Ret (Up (k, x, (entry, stack)))
      end
  end.
End Kernel.
