(* ===== verification/KernelMem.v ===== *)
(** * The kernel's memory at boot

    The page tables and the slab allocator take their pages from one page
    allocator. [shared] joins their invariants: the tables are pages of the
    others, which the slab allocator leaves alone, and mapping a page takes
    free pages and writes tables only, so neither disturbs the other. The
    initialisation of the interrupt controllers, which map their registers,
    keeps it. *)

From S2P Require Import Prelude Mem KString Errno Alloc Pmm Pages PagedAlloc Slab SlabInv SlabSpec SlabHeap SlabPaged.
From S2P Require Import Paging PagingSpec Apic Madt Ioapic Kernel.

Section Mem.
Context (hhdm root : Z).
Implicit Types (pg : paging_state) (own : gmap Z (Z * Z)) (L : gmap Z Z).

(** ** Tables whose pages are kept *)

Lemma walk_same pg own m' ix p l x : pt_inv hhdm pg root own →
  (∀ q a, is_Some (own !! q) → in_page hhdm q a → m' a = mem (pg_mach pg) a) →
  own !! p = Some (l, x) → 0 ≤ l → l + Z.of_nat (length ix) = 4 → Forall (λ i, 0 ≤ i < 512) ix →
  walk hhdm m' (page_va hhdm p) ix = walk hhdm (mem (pg_mach pg)) (page_va hhdm p) ix.
Proof.
  intros Hinv Hm Hp Hl Hlen Hr. revert p l x Hp Hl Hlen. induction Hr as [|i ix Hi Hr IH]; intros p l x Hp Hl Hlen; [done|].
  cbn [walk length] in *. rewrite (load64_frame (mem (pg_mach pg)) m')
    by (intros a Ha; apply (Hm p); [by eexists|by eapply entry_in_page]).
  destruct (present _) eqn:Hpr; [|done]. destruct ix as [|j ix]; [done|].
  destruct (pi_entry _ _ _ _ Hinv p l x i Hp ltac:(cbn [length] in Hlen; lia) Hi Hpr) as (q & Hq & ->).
  destruct (pi_used _ _ _ _ Hinv _ _ _ Hq) as (? & _). erewrite phys_to_virt_page by (apply Hinv || lia).
  eapply IH; [exact Hq|lia|lia].
Qed.

Lemma tables_moved pg own (mc : machine) : pt_inv hhdm pg root own → phys_ok hhdm mc →
  (∀ p, is_Some (own !! p) → 0 < p < total_pages mc ∧ (p ∉ free_set hhdm mc) ∧ clear_page hhdm mc p) →
  (∀ p a, is_Some (own !! p) → in_page hhdm p a → mem mc a = mem (pg_mach pg) a) →
  pt_inv hhdm (PagingState mc (pml4_base pg)) root own ∧ ∀ va, pte_of hhdm (PagingState mc (pml4_base pg)) va = pte_of hhdm pg va.
Proof.
  intros Hinv Hph Hu Hm. split.
  - destruct Hinv as [_ Hb Hr _ He]. split; cbn [pg_mach pml4_base]; try done.
    + intros p l x Hp. apply Hu. by eexists.
    + intros p l x i Hp Hl Hi. rewrite (load64_frame (mem (pg_mach pg)) (mem mc))
        by (intros a Ha; apply (Hm p); [by eexists|by eapply entry_in_page]). by apply (He p l x).
  - intros va. unfold pte_of. cbn [pg_mach pml4_base]. rewrite (pi_base _ _ _ _ Hinv).
    eapply walk_same; [done|done|apply (pi_root _ _ _ _ Hinv)|done|done|apply indices_range].
Qed.

(** ** The tables and the slab allocator on one memory *)

(** The others' pages include the tables. *)
Record shared (P : gset Z) (pg : paging_state) (caches : list Z) (own : gmap Z (Z * Z)) (L : gmap Z Z) : Prop := {
  sh_tables : pt_inv hhdm pg root own;
  sh_slab : slab_live hhdm (foreign_now P (pg_mach pg)) (SlabState (pg_mach pg) caches) L;
  sh_own : ∀ p, is_Some (own !! p) → p ∈ P
}.

(** The slab allocator's work leaves the tables as they are. *)
Lemma slab_keeps_tables P pg own s L : pt_inv hhdm pg root own → (∀ p, is_Some (own !! p) → p ∈ P) →
  slab_live hhdm (foreign_now P (pg_mach pg)) s L →
  pt_inv hhdm (PagingState (mach s) (pml4_base pg)) root own ∧
  ∀ va, pte_of hhdm (PagingState (mach s) (pml4_base pg)) va = pte_of hhdm pg va.
Proof.
  intros Hinv Hown (G & cs & Hi). apply tables_moved; [done|apply Hi| |].
  - intros p Hp%Hown. by destruct (si_foreign _ _ _ _ _ _ Hi p Hp) as [? ? ? _ _].
  - intros p a Hp%Hown. apply (ut_mem _ _ _ _ _ (si_foreign _ _ _ _ _ _ Hi p Hp)).
Qed.

(** Tables were added: the slab allocator's pages are as they were. *)
Lemma slab_extended P mc mc' caches own own' L : phys_ok hhdm mc' → extended hhdm mc mc' own own' →
  (∀ p, is_Some (own !! p) → p ∈ P) → slab_live hhdm (foreign_now P mc) (SlabState mc caches) L →
  (∀ p, is_Some (own' !! p) → 0 < p < total_pages mc' ∧ (p ∉ free_set hhdm mc') ∧ clear_page hhdm mc' p) →
  slab_live hhdm (foreign_now (P ∪ dom own') mc') (SlabState mc' caches) L.
Proof.
  intros Hph [Ht Hb Hfr Hs Ho Hm] Hown Hl Hu'. pose proof Hl as (G & cs & Hi). exists G, cs. eapply moved_inv; [exact Hi|].
  split; [done|done|done| | |].
  - intros p Hp. destruct (decide (p ∈ P)) as [HP|HP].
    + split; [|by left]. destruct (foreign_in_use hhdm _ _ _ _ p Hl HP) as [Hr Hu Hc]. cbn [mach] in *.
      split; [by rewrite Ht|set_solver|]. intros a Ha. unfold in_bitmap. rewrite Hb, Ht. by apply Hc.
    + assert (Hp' : is_Some (own' !! p)) by (apply elem_of_dom; set_solver). destruct (Hu' p Hp') as (? & ? & ?).
      split; [by split|]. destruct (Ho p Hp') as [Hq%Hown|Hq]; [by left|by right].
  - intros p Hp. left. set_solver.
  - intros p a Hf HP Hc Ha. apply (Hm p); try done. apply eq_None_not_Some. by intros Hq%Hown.
Qed.

(** At most [n] pages were taken for tables; the others' pages that are no
    tables keep their bytes. *)
Record widens (n : Z) (P : gset Z) pg own (P' : gset Z) pg' own' : Prop := {
  wd_base : pml4_base pg' = pml4_base pg;
  wd_free : free_pages (pg_mach pg) - n ≤ free_pages (pg_mach pg');
  wd_sub : P ⊆ P';
  wd_own : ∀ p, p ∈ P → own' !! p = own !! p;
  wd_mem : ∀ p a, p ∈ P → own !! p = None → in_page hhdm p a → mem (pg_mach pg') a = mem (pg_mach pg) a
}.
Lemma widens_refl P pg own : widens 0 P pg own P pg own.
Proof. split; done || lia. Qed.
Lemma widens_trans n1 n2 P1 pg1 own1 P2 pg2 own2 P3 pg3 own3 :
  widens n1 P1 pg1 own1 P2 pg2 own2 → widens n2 P2 pg2 own2 P3 pg3 own3 → widens (n1 + n2) P1 pg1 own1 P3 pg3 own3.
Proof.
  intros [B1 F1 S1 O1 M1] [B2 F2 S2 O2 M2]. split; [congruence|lia|set_solver| |].
  - intros p Hp. rewrite O2 by set_solver. by apply O1.
  - intros p a Hp Hn Ha. rewrite (M2 p) by (rewrite ?O1; set_solver). by apply (M1 p).
Qed.

(** The view of the hardware after a page was mapped. *)
Definition with_pte (virt e : Z) (f : Z → option Z) (va : Z) : option Z := if decide (vpn va = vpn virt) then Some e else f va.

(** paging::map_page beside the slab allocator. *)
Lemma shared_map P pg caches own L virt phys flags : shared P pg caches own L → 3 ≤ free_pages (pg_mach pg) →
  0 ≤ Z.lor phys flags < 2 ^ 64 → present (Z.lor phys flags) = true →
  ∃ P' pg' own', map_page hhdm virt phys flags pg = Ret (tt, pg') ∧ shared P' pg' caches own' L ∧ widens 3 P pg own P' pg' own' ∧
    ∀ va, pte_of hhdm pg' va = with_pte virt (Z.lor phys flags) (pte_of hhdm pg) va.
Proof.
  intros [Ht Hs Ho] Hf Hv Hpr. destruct (map_page_spec hhdm pg root virt phys flags own Ht Hf Hv) as (pg' & own' & E & Ht' & Hw & Hx & Hf').
  destruct Hs as (G & cs & Hi). pose proof (si_foreign _ _ _ _ _ _ Hi) as Hfg. cbn [mach fg_pages foreign_now] in Hfg.
  exists (P ∪ dom own'), pg', own'. split; [done|]. split; [|split].
  - split; [done| |intros p Hp%elem_of_dom; set_solver]. eapply slab_extended; [apply Ht'|done|done|by exists G, cs|].
    intros p [[l x] Hp]. by apply (pi_used _ _ _ _ Ht' p l x).
  - split; [by rewrite (pi_base _ _ _ _ Ht'), (pi_base _ _ _ _ Ht)|done|set_solver| |].
    + intros p Hp. destruct (own !! p) as [lx|] eqn:Eo; [by apply (lookup_weaken own), (ex_sub _ _ _ _ _ Hx)|].
      apply eq_None_not_Some. intros [Hq|Hq]%(ex_own _ _ _ _ _ Hx); [rewrite Eo in Hq; by destruct Hq|].
      by apply (ut_used _ _ _ _ _ (Hfg p Hp)).
    + intros p a Hp Hn Ha. destruct (Hfg p Hp) as [_ Hu Hc _ _]. by apply (ex_mem _ _ _ _ _ Hx p).
  - intros va. rewrite Hw, Hpr. done.
Qed.

(** The entry of a device's registers. *)
Definition device_pte (phys : Z) : Z := Z.lor (clear_low12 phys) (Z.lor (Z.lor PTE_PRESENT PTE_WRITABLE) PTE_UNCACHEABLE).
Lemma device_pte_ok phys : 0 ≤ device_pte phys < 2 ^ 64 ∧ present (device_pte phys) = true.
Proof.
  assert (E : device_pte phys = Z.land (Z.lor phys 27) (2 ^ 64 - 4096 + 27)).
  { unfold device_pte, clear_low12. change (u64 (Z.lnot 4095)) with (2 ^ 64 - 4096).
    change (Z.lor (Z.lor PTE_PRESENT PTE_WRITABLE) PTE_UNCACHEABLE) with 27. apply Z.bits_inj'. intros i Hi.
    change (2 ^ 64 - 4096 + 27) with (Z.lor (2 ^ 64 - 4096) 27). rewrite !Z.land_spec, !Z.lor_spec, Z.land_spec.
    destruct (Z.testbit phys i), (Z.testbit (2 ^ 64 - 4096) i), (Z.testbit 27 i); done. }
  split.
  - assert (Em : device_pte phys = u64 (device_pte phys)).
    { rewrite E. unfold u64. rewrite <- Z.land_ones, <- Z.land_assoc by lia. done. }
    rewrite Em. unfold u64. apply Z.mod_pos_bound. lia.
  - rewrite E. unfold present, PTE_PRESENT. rewrite <- Z.land_assoc. change (Z.land (2 ^ 64 - 4096 + 27) 1) with 1.
    rewrite Z.land_lor_distr_l. apply negb_true_iff, Z.eqb_neq. intros [_ ?]%Z.lor_eq_0_iff. done.
Qed.
Lemma shared_device P pg caches own L virt phys : shared P pg caches own L → 3 ≤ free_pages (pg_mach pg) →
  ∃ P' pg' own', map_ioapic hhdm phys virt pg = Ret (tt, pg') ∧ shared P' pg' caches own' L ∧ widens 3 P pg own P' pg' own' ∧
    ∀ va, pte_of hhdm pg' va = with_pte virt (device_pte phys) (pte_of hhdm pg) va.
Proof. intros Hs Hf. unfold map_ioapic. by apply shared_map; [done|done|apply device_pte_ok..]. Qed.

(** ** apic::init *)

(** The registers are mapped at LAPIC_VIRT_BASE; the machine may not have a
    local APIC. *)
Lemma apic_init_spec P a caches own L query : shared P (ap_paging a) caches own L → 3 ≤ free_pages (pg_mach (ap_paging a)) →
  (∃ w, Apic.init hhdm query a = Panic w) ∨
  ∃ P' a' own' phys, Apic.init hhdm query a = Ret (tt, a') ∧ shared P' (ap_paging a') caches own' L ∧
    widens 3 P (ap_paging a) own P' (ap_paging a') own' ∧
    (∀ va, pte_of hhdm (ap_paging a') va = with_pte LAPIC_VIRT_BASE (device_pte phys) (pte_of hhdm (ap_paging a)) va) ∧
    phys = mmio_base (base_info a') ∧ apic_mmio_base a' = LAPIC_VIRT_BASE ∧ pit_in a' = pit_in a ∧ timer_ticks_per_ms a' = timer_ticks_per_ms a.
Proof.
  intros Hs Hf. unfold Apic.init. destruct (has_apic query); cbn [negb]; [|left; by eexists].
  set (v := Z.lor (msr a IA32_APIC_BASE_MSR) APIC_BASE_ENABLE).
  set (a1 := set_msr (λ i, if i =? IA32_APIC_BASE_MSR then u64 v else msr a i) a).
  set (info := MkBaseInfo (Z.land (msr a1 IA32_APIC_BASE_MSR) 4294963200) (negb (Z.land (Z.shiftr (msr a1 IA32_APIC_BASE_MSR) 8) 1 =? 0))).
  rewrite (K_bind_ret _ _ a info a1) by reflexivity. destruct (_ || _); [left; by eexists|]. right.
  destruct (shared_device P (ap_paging a) caches own L LAPIC_VIRT_BASE (mmio_base info) Hs Hf) as (P' & pg' & own' & E & Hs' & Hg & Hw).
  rewrite (K_bind_ret _ _ a1 tt (set_ap_paging pg' a1)).
  2: { unfold on_paging, map_lapic. unfold map_ioapic in E. change (ap_paging a1) with (ap_paging a). by rewrite E. }
  krun. eexists P', _, own', (mmio_base info). split; [reflexivity|]. done.
Qed.

(** ** The loop over the I/O APICs *)

Lemma mask_loop_ret k i inst s : ∃ s', mask_loop k i inst s = Ret (tt, s') ∧ g_ioapics s' = g_ioapics s ∧ io_paging s' = io_paging s.
Proof.
  revert i s. induction k as [|k IH]; intros i s; cbn [mask_loop]; [by exists s|].
  do 2 (erewrite K_bind_ret by reflexivity). edestruct IH as (s' & E & Hg & Hp). exists s'. split; [exact E|]. by rewrite Hg, Hp.
Qed.

(** Where the registers of controller [n] are mapped. *)
Definition ioapic_va (n : nat) : Z := IOAPIC_VIRT_BASE + Z.of_nat n * 4096.
Lemma ioapic_vpn n m : (n < 8)%nat → (m < 8)%nat → vpn (ioapic_va n) = vpn (ioapic_va m) → n = m.
Proof.
  intros Hn Hm. assert (E : ∀ k, (k < 8)%nat → vpn (ioapic_va k) = vpn IOAPIC_VIRT_BASE + Z.of_nat k).
  { intros k Hk. assert (Hb : forallb (λ k, vpn (ioapic_va k) =? vpn IOAPIC_VIRT_BASE + Z.of_nat k) (seq 0 8) = true) by (vm_compute; reflexivity).
    rewrite forallb_forall in Hb. apply Z.eqb_eq, Hb, in_seq. lia. }
  rewrite !E by done. lia.
Qed.
Lemma ioapic_lapic_vpn n : (n < 8)%nat → vpn (ioapic_va n) ≠ vpn LAPIC_VIRT_BASE.
Proof.
  intros Hn. assert (Hb : forallb (λ k, negb (vpn (ioapic_va k) =? vpn LAPIC_VIRT_BASE)) (seq 0 8) = true) by (vm_compute; reflexivity).
  rewrite forallb_forall in Hb. specialize (Hb n ltac:(apply in_seq; lia)). apply negb_true_iff, Z.eqb_neq in Hb. done.
Qed.

Lemma ioapic_kernel_half n : (n < 8)%nat → 256 ≤ PGD_INDEX (ioapic_va n).
Proof.
  intros Hn. assert (Hb : forallb (λ k, 256 <=? PGD_INDEX (ioapic_va k)) (seq 0 8) = true) by (vm_compute; reflexivity).
  rewrite forallb_forall in Hb. apply Z.leb_le, Hb, in_seq. lia.
Qed.

Lemma ioapic_init_spec P io caches own L phys gsi : shared P (io_paging io) caches own L → 3 ≤ free_pages (pg_mach (io_paging io)) →
  (length (g_ioapics io) < 8)%nat →
  ∃ P' io' own' rte, Ioapic.init hhdm phys gsi io = Ret (tt, io') ∧ shared P' (io_paging io') caches own' L ∧
    widens 3 P (io_paging io) own P' (io_paging io') own' ∧
    (∀ va, pte_of hhdm (io_paging io') va =
       with_pte (ioapic_va (length (g_ioapics io))) (device_pte phys) (pte_of hhdm (io_paging io)) va) ∧
    g_ioapics io' = g_ioapics io ++ [MkInst (ioapic_va (length (g_ioapics io))) (u32 phys) gsi rte].
Proof.
  intros Hs Hf Hn. unfold Ioapic.init. krun. unfold Ioapic.MAX_IOAPICS.
  destruct (Z.leb_spec 8 (Z.of_nat (length (g_ioapics io)))) as [|_]; [lia|]. cbv zeta.
  fold (ioapic_va (length (g_ioapics io))). set (va0 := ioapic_va _).
  destruct (shared_device P (io_paging io) caches own L va0 phys Hs Hf) as (P' & pg' & own' & E & Hs' & Hg & Hw).
  rewrite (K_bind_ret _ _ io tt (MkIo (g_ioapics io) (select_reg io) (iodev io) pg')) by (unfold map_regs; by rewrite E).
  krun. match goal with |- context [mask_loop ?k ?i ?inst] => set (inst0 := inst) end.
  match goal with |- context [(mask_loop ?k ?i ?inst ≫= _) ?s] => destruct (mask_loop_ret k i inst s) as (s' & Em & Hgi & Hpg) end.
  rewrite (K_bind_ret _ _ _ _ _ Em). eexists P', _, own', (max_rte inst0). split; [reflexivity|]. cbn [io_paging g_ioapics].
  rewrite Hgi, Hpg. done.
Qed.

(** Controller [n] of [l] is mapped and recorded. *)
Definition ioapic_ready (io : ioapic_state) (n : nat) (d : IoApicDesc) : Prop :=
  pte_of hhdm (io_paging io) (ioapic_va n) = Some (device_pte (phys_base d)) ∧
  ∃ inst, g_ioapics io !! n = Some inst ∧ virt_base inst = ioapic_va n ∧ inst_gsi inst = gsi_base d.

Lemma ioapic_loop_spec l P io caches own L : shared P (io_paging io) caches own L →
  3 * Z.of_nat (length l) ≤ free_pages (pg_mach (io_paging io)) → (length (g_ioapics io) + length l ≤ 8)%nat →
  ∃ P' io' own', ioapic_loop hhdm l io = Ret (tt, io') ∧ shared P' (io_paging io') caches own' L ∧
    widens (3 * Z.of_nat (length l)) P (io_paging io) own P' (io_paging io') own' ∧
    (∀ va, (∀ n, (length (g_ioapics io) ≤ n < length (g_ioapics io) + length l)%nat → vpn va ≠ vpn (ioapic_va n)) →
       pte_of hhdm (io_paging io') va = pte_of hhdm (io_paging io) va) ∧
    (∃ new, g_ioapics io' = g_ioapics io ++ new ∧ length new = length l) ∧
    ∀ n d, l !! n = Some d → ioapic_ready io' (length (g_ioapics io) + n) d.
Proof.
  revert P io own. induction l as [|d l IH]; intros P io own Hs Hf Hn; cbn [ioapic_loop length] in *.
  { exists P, io, own. split; [done|]. split; [done|]. split; [apply widens_refl|]. split; [done|].
    split; [exists []; by rewrite app_nil_r|done]. }
  destruct (ioapic_init_spec P io caches own L (phys_base d) (gsi_base d) Hs) as (P1 & io1 & own1 & rte & E & Hs1 & Hg1 & Hw1 & Hl1); [lia|lia|].
  rewrite (K_bind_ret _ _ _ _ _ E). pose proof (wd_free _ _ _ _ _ _ _ Hg1) as Hf1. assert (Hlen : length (g_ioapics io1) = S (length (g_ioapics io))).
  { rewrite Hl1, length_app. simpl. lia. }
  destruct (IH P1 io1 own1 Hs1) as (P2 & io2 & own2 & E2 & Hs2 & Hg2 & Hw2 & (new & Hnew & Hln) & Hr2); [lia|lia|].
  rewrite Hlen in Hw2, Hr2. exists P2, io2, own2. split; [done|]. split; [done|]. split.
  { replace (3 * Z.of_nat (S (length l))) with (3 + 3 * Z.of_nat (length l)) by lia. by eapply widens_trans. }
  split; [|split].
  - intros va Hva. rewrite Hw2, Hw1 by (intros n Hr; apply Hva; lia). unfold with_pte. rewrite decide_False; [done|]. apply Hva. lia.
  - exists (MkInst (ioapic_va (length (g_ioapics io))) (u32 (phys_base d)) (gsi_base d) rte :: new).
    rewrite Hnew, Hl1, <- app_assoc. split; [done|]. simpl. lia.
  - intros [|n] d0 Hd; cbn [lookup list_lookup] in Hd.
    + injection Hd as <-. rewrite Nat.add_0_r. split.
      * rewrite Hw2, Hw1; [unfold with_pte; by rewrite decide_True|]. intros n Hr Heq. apply ioapic_vpn in Heq; lia.
      * eexists. rewrite Hnew, Hl1, <- app_assoc. cbn [app]. rewrite list_lookup_middle by done. done.
    + replace (length (g_ioapics io) + S n)%nat with (S (length (g_ioapics io)) + n)%nat by lia. by apply Hr2.
Qed.
End Mem.
