(* ===== verification/KernelSpec.v ===== *)
(** * The kernel comes up

    kernel_main composes the parts through the invariants they share: the
    page allocator's memory is divided between the tables, the slab
    allocator's blocks and the pages of others ([KernelMem.shared]), and the
    scheduler and the file system work on the slab allocator through the
    allocator's contract, beside the stacks of the other processors. *)

From S2P Require Import Prelude Mem KString Errno Alloc Pmm Pages PagedAlloc.
From S2P Require Import Bytes Vfs Ramfs VfsTree RamfsSpec Initramfs InitramfsSpec Boot Elf UserCopy ElfExec Exec ExecSpec SpaceSpec LaunchSpec.
From S2P Require Import Sched SchedSpec SchedInit.
From S2P Require Import Slab SlabInv SlabSpec SlabHeap SlabPaged Paging PagingSpec Keyboard Gdt Idt Apic Madt Ioapic Font Console Smp Kernel KernelMem.

(** ** The other processors, the scheduler and the file system *)

Section Start.
Context (hhdm : Z) (fg : foreign) (table ap_entry idle bsp_lapic_id : Z) (junk : Task) (regs0 : Regs).
#[local] Instance kernel_allocator : Allocator slab_state := slab_allocator hhdm.

(** The wait ends when the counter is seen high enough, or with the timeout. *)
Lemma wait_online_ends seen expected timeout : (∃ n, n ∈ seen ∧ expected ≤ n) →
  wait_online seen expected timeout = Ret tt ∨ ∃ w, wait_online seen expected timeout = Panic w.
Proof.
  intros (n & Hn & He). revert timeout Hn. induction seen as [|v seen IH]; intros timeout Hn; [by apply not_elem_of_nil in Hn|].
  cbn [wait_online]. destruct (Z.ltb_spec v expected) as [Hv|]; [|by left]. cbv zeta.
  destruct (_ =? 0); [right; by eexists|]. apply IH. apply elem_of_cons in Hn as [->|Hn]; [lia|done].
Qed.

(** Processors with a stack each, of which the objects [F] include the stacks. *)
Record others_ready (cpus : list mp_info) (sm : smp_state) (F : gmap Z Z) : Prop := {
  or_live : slab_live hhdm fg (sm_slab sm) F;
  or_stack : ∀ j cpu, (1 < length cpus)%nat → cpus !! j = Some cpu → lapic_id cpu ≠ bsp_lapic_id → ∃ b info,
    F !! b = Some AP_STACK_SIZE ∧ sm_cpus sm !! j = Some info ∧ goto_address info = ap_entry ∧
    b < extra_argument info - 16368 ∧ extra_argument info ≤ b + AP_STACK_SIZE ∧
    ∀ a, b ≤ a < b + AP_STACK_SIZE → mem (mach (sm_slab sm)) a = 0
}.

Lemma start_others_spec cpus percpu seen h : slab_live hhdm fg h ∅ → cpus_ok cpus →
  (∃ n, n ∈ seen ∧ others bsp_lapic_id cpus ≤ n) →
  (∃ w, start_others table ap_entry hhdm bsp_lapic_id cpus percpu seen h = Panic w) ∨
  ∃ sm F, start_others table ap_entry hhdm bsp_lapic_id cpus percpu seen h = Ret sm ∧ others_ready cpus sm F.
Proof.
  intros Hl Hok Hseen. unfold start_others. destruct (Z.leb_spec (Z.of_nat (length cpus)) 1) as [H1|H1].
  { right. eexists _, ∅. split; [done|]. split; [done|]. intros; lia. }
  destruct (start_loop_spec hhdm fg table ap_entry bsp_lapic_id cpus h ∅ (length cpus) 0 (Smp h percpu cpus 0) ∅ ∅ Hok)
    as [E|(sm & F & S & E & Hp)]; [by apply progress_init|done| |]; unfold start_aps, mbind, outcome_bind; cbv zeta; rewrite E; cbv beta iota.
  { left. by eexists. }
  destruct Hp as [Hlv _ _ _ Ha Hs _ _ He]. rewrite Nat.add_0_l, take_ge in He by done. rewrite <- He in Hseen.
  destruct (wait_online_ends _ _ AP_TIMEOUT Hseen) as [->|[w ->]]; [right|left; by eexists].
  exists sm, F. split; [done|]. split; [done|]. intros j cpu _ Hc Hn.
  destruct (Ha j cpu) as (b & HS & Hi & _); [by apply lookup_lt_Some in Hc|done|done|].
  destruct (Hs j b HS) as (_ & _ & HF & Hk & Hz).
  destruct (stack_top_range b Hk) as (Hr & _); [pose proof (live_bound hhdm fg _ _ b _ Hlv HF); lia|].
  eexists b, _. split; [done|]. split; [exact Hi|]. cbn [goto_address extra_argument]. unfold AP_STACK_SIZE in *. split_and!; done || lia.
Qed.

(** [framed h F] is the contract of a part started in the state [h], while
    the objects [F] belong to others. *)
Abbreviation framed h F := (slab_frame_spec hhdm fg h F).
Lemma framed_start h F : slab_live hhdm fg h F → @live _ _ (framed h F) h ∅.
Proof. intros Hl. split; [apply map_disjoint_empty_l|]. rewrite map_empty_union. split; [done|apply kept_refl]. Qed.

Lemma sched_start cpus h F : slab_live hhdm fg h F → NoDup (lapic_id <$> cpus) →
  (∃ w, start_sched idle junk regs0 hhdm cpus h = Panic w) ∨
  ∃ sc l L f, start_sched idle junk regs0 hhdm cpus h = Ret sc ∧
    @sched_inv _ _ (framed h F) sc l L f ∧ started sc l idle (rev (lapic_id <$> cpus)).
Proof.
  intros Hl Hnd. unfold start_sched.
  destruct (@init_all_cpus_spec _ _ (framed h F) junk regs0 idle idle_stack_size (lapic_id <$> cpus) h ∅)
    as [[w E]|(sc & l & L & f & E & Hi & _ & Hs & _)]; [by apply framed_start|done|unfold idle_stack_size; lia| |];
    cbv zeta; unfold kernel_allocator in E; rewrite E; [left; by eexists|]. right. by exists sc, l, L, f.
Qed.

(** The root's own dentry could not be allocated. *)
Definition root_unmounted (h : slab_state) : Prop :=
  ∃ sb s m, mount_root (fs_boot h) = Ret (sb, s) ∧ mounts s !! g_root_mount s = Some m ∧ m_mount_point m = 0.

Lemma fs_start h F modules : slab_live hhdm fg h F → modules_ok (default [] modules) →
  (∃ w, init_fs modules (fs_boot h) = Panic w) ∨ root_unmounted h ∨
  ∃ fs root, init_fs modules (fs_boot h) = Ret (tt, fs) ∧ @fs_ok _ _ (framed h F) root fs.
Proof.
  intros Hl Hm. destruct (@init_fs_spec _ _ (framed h F) h modules (framed_start h F Hl) Hm) as [Hp|[(root & fs & E & Hok)|Hz]].
  - by left.
  - right; right. by exists fs, root.
  - right; by left.
Qed.
Lemma fs_live fg' h F root fs : @fs_ok _ _ (slab_frame_spec hhdm fg' h F) root fs →
  kept h (heap fs) F ∧ ∃ L, slab_live hhdm fg' (heap fs) L.
Proof. intros (kids & Hwf & _). destruct (@wf_heap _ _ (slab_frame_spec hhdm fg' h F) _ _ Hwf) as (L & (_ & Hl & Hk) & _). split; [exact Hk|by exists (L ∪ F)]. Qed.

(** What the start leaves. *)
Record kernel_up (cpus : list mp_info) (sm : smp_state) (sc : sched_state slab_state) (fs : fs_state slab_state) : Prop := {
  (* every other processor has its start address and a zeroed stack, still untouched *)
  ku_stacks : ∀ j cpu, (1 < length cpus)%nat → cpus !! j = Some cpu → lapic_id cpu ≠ bsp_lapic_id → ∃ info,
    sm_cpus sm !! j = Some info ∧ goto_address info = ap_entry ∧
    ∀ a, extra_argument info - 16368 ≤ a < extra_argument info → mem (mach (heap fs)) a = 0;
  (* every processor runs an idle task of its own, and can schedule *)
  ku_tasks : ∀ id, id ∈ lapic_id <$> cpus → cpu_started sc idle (current_task sc id) ∧ schedule id sc = Ret (tt, sc);
  ku_own : ∀ id id', id ∈ lapic_id <$> cpus → id' ∈ lapic_id <$> cpus → current_task sc id = current_task sc id' → id = id';
  (* the root file system is a well-formed tree *)
  ku_fs : ∃ fg h F root, @fs_ok _ _ (slab_frame_spec hhdm fg h F) root fs
}.

Lemma all_up cpus sm F sc l L f fg' fs root : others_ready cpus sm F → @sched_inv _ _ (framed (sm_slab sm) F) sc l L f →
  started sc l idle (rev (lapic_id <$> cpus)) → @fs_ok _ _ (slab_frame_spec hhdm fg' (s_heap sc) (L ∪ F)) root fs → kernel_up cpus sm sc fs.
Proof.
  intros [_ Hstk] Hi Hs Hfs. destruct (@sv_live _ _ (framed (sm_slab sm) F) _ _ _ _ Hi) as (Hd & _ & Hk2).
  destruct (fs_live _ _ _ _ _ Hfs) as [Hk3 _].
  assert (Hrev : ∀ id, id ∈ lapic_id <$> cpus → id ∈ rev (lapic_id <$> cpus)).
  { intros id. rewrite !list_elem_of_In. apply in_rev. }
  split.
  - intros j cpu H1 Hc Hn. destruct (Hstk j cpu H1 Hc Hn) as (b & info & HF & Hinfo & Hg & Hlo & Hhi & Hz).
    exists info. split; [done|]. split; [done|]. intros a Ha.
    assert (Hba : b ≤ a < b + AP_STACK_SIZE) by lia.
    rewrite (Hk3 b AP_STACK_SIZE a) by (done || by apply lookup_union_Some_r).
    rewrite (Hk2 b AP_STACK_SIZE a) by done. by apply Hz.
  - intros id Hid. split; [by apply (sd_current _ _ _ _ Hs), Hrev|].
    eapply (@idle_schedule _ _ (framed (sm_slab sm) F)); [exact Hi|exact Hs|by apply Hrev].
  - intros id id' H1 H2. apply (sd_own _ _ _ _ Hs); by apply Hrev.
  - by exists fg', (s_heap sc), (L ∪ F), root.
Qed.
End Start.

(** ** The devices *)

(** The tables and the registers' address, which the timer's setup leaves alone. *)
Definition same_map (a a' : apic_state) : Prop := ap_paging a' = ap_paging a ∧ base_info a' = base_info a.
#[export] Instance same_map_preorder : PreOrder same_map.
Proof. split; [by intros a|]. intros a b c [? ?] [? ?]. split; congruence. Qed.

Ltac keeps_map := repeat first
  [ assumption | apply stable_ret; apply _ | apply stable_gets; apply _ | apply stable_modify; by intros
  | match goal with |- stable _ (if ?b then _ else _) => destruct b end
  | apply stable_bind; [apply _| |intros ?] ].
Lemma write_reg_map reg v : stable same_map (Apic.write_reg reg v).
Proof. unfold Apic.write_reg. keeps_map. Qed.
Lemma read_reg_map reg : stable same_map (Apic.read_reg reg).
Proof. unfold Apic.read_reg. keeps_map. Qed.
Lemma in_61_map : stable same_map in_61.
Proof. intros a b a'. unfold in_61. by destruct (pit_in a); [|intros [= _ <-]]. Qed.
Lemma pit_poll_map fuel : stable same_map (pit_poll fuel).
Proof. pose proof in_61_map. induction fuel as [|f IH]; cbn [pit_poll]; [by intros a b a'|]. keeps_map. Qed.
Lemma timer_init_map elapse v periodic c : stable same_map (timer_init elapse v periodic c).
Proof.
  pose proof write_reg_map as Hw. pose proof read_reg_map as Hr. pose proof in_61_map as Hi.
  assert (Hp : stable same_map (λ s, pit_poll (S (length (pit_in s))) s)) by (intros a b a'; apply pit_poll_map).
  assert (Hc : stable same_map (calibrate_timer elapse)).
  { unfold calibrate_timer, pit_wait_ms, io_wait, Apic.outb. keeps_map; apply Hw || apply Hr. }
  unfold timer_init. keeps_map; apply Hw.
Qed.

(** What the boot loader and the firmware leave. [P] are pages the page
    allocator does not own: the tables, the firmware's tables, the kernel. *)
Record boot_ok (b : limine) (w : hardware) (hhdm : Z) (M : machine) (root : Z) (own : gmap Z (Z * Z)) (P : gset Z) (info : ApicInfo) (q : Z) : Prop := {
  bo_pmm : pmm_init hhdm (memmap b) (hw_mem w) = Ret M;
  bo_map : map_ok hhdm M;
  (* sixteen pages in a row for the slabs, three for the tables of each of nine devices *)
  bo_run : free_run hhdm M q 16;
  bo_free : 43 ≤ free_pages M;
  bo_tables : pt_inv hhdm (PagingState M (phys_to_virt hhdm (clear_low12 (hw_cr3 w)))) root own;
  bo_own : ∀ p, is_Some (own !! p) → p ∈ P;
  bo_pages : ∀ p, p ∈ P → 0 < p < total_pages M ∧ (p ∉ free_set hhdm M) ∧ clear_page hhdm M p;
  (* the interrupt controllers are listed in the pages [P] *)
  bo_madt : ∀ m, (∀ p a, p ∈ P → own !! p = None → in_page hhdm p a → m a = mem M a) →
    parse hhdm m (rsdp b) no_apic_info = Ret info
}.
(** The devices answer: the keyboard controller, the PIT after some polls; the
    timer counts down [e] in ten milliseconds. *)
Record answers (elapse : Z → (Z → Z) → (Z → Z)) (w : hardware) (e : Z) : Prop := {
  an_ps2 : ∃ ok p, ps2_init (hw_ps2 w) = Ret (ok, p);
  an_pit : ∃ gate waits st rest, hw_pit w = gate :: waits ++ st :: rest ∧ Forall (λ x, Z.land x 32 = 0) waits ∧ Z.land st 32 ≠ 0;
  an_timer : ∀ r, u32 (4294967295 - elapse 10 r (reg_offset TIMER_CUR_CNT)) = e;
  an_rate : 10 ≤ e < 2 ^ 28
}.

Section Devices.
Context (table kernel_stack_top : Z) (st : stubs) (query : Z → cpuid_result) (elapse : Z → (Z → Z) → (Z → Z)).
Context (b : limine) (w : hardware) (hhdm : Z) (M : machine) (root : Z) (own : gmap Z (Z * Z)) (P : gset Z) (info : ApicInfo) (q e : Z).
Context (Hb : boot_ok b w hhdm M root own P info q) (Hw : answers elapse w e).
Abbreviation shared := (shared hhdm root).
Abbreviation pte := (pte_of hhdm).

Let pg0 : paging_state := PagingState M (phys_to_virt hhdm (clear_low12 (hw_cr3 w))).

(** After slab::init the tables are as the boot loader left them. *)
Lemma slab_shared : ∃ h, slab_init hhdm (slab_boot M) = Ret (tt, h) ∧
  let pg := PagingState (mach h) (pml4_base pg0) in
  shared P pg (slab_caches h) own ∅ ∧ widens hhdm 16 P pg0 own P pg own.
Proof.
  destruct Hb as [_ Hmap Hrun _ Htab Hown Hpages _].
  destruct (slab_init_spec hhdm (foreign_now P M) M q Hmap) as (h & E & Hl & Hf); [|done|].
  { intros p Hp. destruct (Hpages p Hp) as (? & ? & ?). by split. }
  exists h. split; [done|]. destruct (slab_keeps_tables hhdm root P pg0 own h ∅ Htab Hown Hl) as [Ht _]. split.
  - split; [exact Ht| |done]. apply foreign_renew in Hl. by destruct h.
  - split; try done. intros p a Hp _ Ha. apply (live_foreign hhdm _ _ _ Hl p Hp a Ha).
Qed.

(** What the initialisation of the devices leaves. *)
Record devices_up (d : devices) (P' : gset Z) (own' : gmap Z (Z * Z)) : Prop := {
  du_shared : shared P' (PagingState (mach (d_slab d)) (d_pml4 d)) (slab_caches (d_slab d)) own' ∅;
  du_others : P ⊆ P';
  du_kept : ∀ p a, p ∈ P → own !! p = None → in_page hhdm p a → mem (mach (d_slab d)) a = mem M a;
  du_lapic : pte (PagingState (mach (d_slab d)) (d_pml4 d)) LAPIC_VIRT_BASE = Some (device_pte (mmio_base (base_info (d_apic d))));
  du_ioapic : ∀ n x, ioapics info !! n = Some x →
    pte (PagingState (mach (d_slab d)) (d_pml4 d)) (ioapic_va n) = Some (device_pte (phys_base x)) ∧
    ∃ inst, g_ioapics (d_ioapic d) !! n = Some inst ∧ virt_base inst = ioapic_va n ∧ inst_gsi inst = gsi_base x;
  du_timer : timer_ticks_per_ms (d_apic d) = e / 10 ∧ lapic (d_apic d) (reg_offset LVT_TIMER) = 32 + 2 ^ 17
}.

Lemma ioapic_count : (length (ioapics info) ≤ 8)%nat.
Proof. apply (parse_counts hhdm (mem M) (rsdp b)), (bo_madt _ _ _ _ _ _ _ _ _ Hb). done. Qed.

Lemma start_devices_spec a : pit_in a = hw_pit w → timer_ticks_per_ms a = 0 →
  (∃ why, start_devices table kernel_stack_top st query elapse hhdm b w a = Panic why) ∨
  ∃ d P' own', start_devices table kernel_stack_top st query elapse hhdm b w a = Ret d ∧ devices_up d P' own'.
Proof.
  intros Hpit Hticks. unfold start_devices, mbind, outcome_bind. cbn [Gdt.init_cpu Z.ltb Z.compare MAX_CPUS].
  rewrite (bo_pmm _ _ _ _ _ _ _ _ _ Hb). cbv beta iota zeta delta [paging_init k_modify]. cbn [pg_mach pml4_base].
  destruct slab_shared as (h & -> & Hs1 & Hg1). cbv beta iota zeta. fold pg0. change (phys_to_virt _ _) with (pml4_base pg0).
  set (pg1 := PagingState (mach h) (pml4_base pg0)) in *. pose proof (bo_free _ _ _ _ _ _ _ _ _ Hb) as Hfree.
  pose proof (wd_free _ _ _ _ _ _ _ _ Hg1) as Hf1. cbn [pg0 pg_mach] in Hf1.
  destruct (an_ps2 _ _ _ Hw) as (ok & ps2 & ->). destruct ok; cbn [negb]; [|left; by eexists].
  destruct (apic_init_spec hhdm root P (set_ap_paging pg1 a) (slab_caches h) own ∅ query Hs1) as [[why ->]|(P2 & a2 & own2 & phys & -> & Hs2 & Hg2 & Hw2 & -> & Hm2 & Hp2 & Ht2)];
    [cbn [ap_paging set_ap_paging]; lia|left; by eexists|]. cbn [ap_paging set_ap_paging pit_in timer_ticks_per_ms] in *.
  right. cbv beta iota.
  pose proof (widens_trans _ _ _ _ _ _ _ _ _ _ _ _ Hg1 Hg2) as Hg12. pose proof (wd_free _ _ _ _ _ _ _ _ Hg12) as Hf2. cbn [pg0 pg_mach] in Hf2.
  rewrite (bo_madt _ _ _ _ _ _ _ _ _ Hb) by apply (wd_mem _ _ _ _ _ _ _ _ Hg12). cbv beta iota.
  assert (Hid : ∃ id, get_lapic_id a2 = Ret (id, a2)).
  { unfold get_lapic_id. krun. rewrite Hm2. change (LAPIC_VIRT_BASE =? 0) with false. cbv iota.
    rewrite (K_bind_ret _ _ _ _ _ (apic_read_ret APIC_ID a2 ltac:(by rewrite Hm2))). by eexists. }
  destruct Hid as [id ->]. cbv beta iota. cbn [ioapics]. pose proof ioapic_count as Hn.
  destruct (ioapic_loop_spec hhdm root (ioapics info) P2 (MkIo [] (hw_select w) (hw_iodev w) (ap_paging a2)) (slab_caches h) own2 ∅ Hs2)
    as (P3 & io & own3 & -> & Hs3 & Hg3 & Hw3 & _ & Hr3); [cbn [io_paging]; lia|cbn [g_ioapics length]; lia|].
  cbn [g_ioapics length io_paging] in *. cbv beta iota. rewrite Hpit in Hp2. rewrite Hticks in Ht2.
  destruct (an_pit _ _ _ Hw) as (gate & waits & sta & rest & Hin & Hwt & Hst).
  destruct (timer_init_ret elapse (set_ap_paging (io_paging io) a2) gate waits sta rest e) as (a3 & Et & _ & Hrate & _ & _ & _ & _ & _ & Hlvt);
    [cbn; by rewrite Hm2|done|cbn; by rewrite Hp2|done|done|apply Hw|apply Hw|].
  destruct (timer_init_map elapse 32 true 0 _ _ _ Et) as [Hmap Hinfo]. rewrite Et. cbv beta iota. cbn [ap_paging base_info set_ap_paging] in Hmap, Hinfo.
  pose proof (widens_trans _ _ _ _ _ _ _ _ _ _ _ _ Hg12 Hg3) as Hg. pose proof (wd_base _ _ _ _ _ _ _ _ Hg) as Hbase.
  assert (Epg : PagingState (pg_mach (ap_paging a3)) (pml4_base pg0) = io_paging io) by (rewrite Hmap, <- Hbase; by destruct (io_paging io)).
  eexists _, P3, own3. split; [reflexivity|]. split; cbn [d_slab d_pml4 d_apic d_ioapic mach slab_caches]; rewrite ?Epg.
  - exact Hs3.
  - apply (wd_sub _ _ _ _ _ _ _ _ Hg).
  - rewrite Hmap. apply (wd_mem _ _ _ _ _ _ _ _ Hg).
  - rewrite Hw3, Hw2, Hinfo; [unfold with_pte; by rewrite decide_True|]. intros n Hr Ev. symmetry in Ev. apply ioapic_lapic_vpn in Ev; [done|lia].
  - intros n x Hx. exact (Hr3 n x Hx).
  - done.
Qed.
End Devices.

(** ** The first program *)

Section First.
Context (hhdm : Z) (h : slab_state) (F : gmap Z Z).
#[local] Instance first_allocator : Allocator slab_state := slab_allocator hhdm.
#[local] Instance first_paged : PagedAllocator hhdm slab_state := slab_paged hhdm h F.
Implicit Types x : xstate slab_state.

(** The mounted tree is one programs are loaded from, and stays one. *)
Lemma fs_ok_ready P M root kroot x : @fs_ok _ _ (slab_frame_spec hhdm (foreign_now P M) h F) root (x_fs x) → kroot ∈ P →
  x_pml4 x = page_va hhdm kroot → ∃ kids, loader_ready hhdm P kids root kroot x.
Proof.
  intros (kids & Hwf & Hr & Hm & Hc) HP Hb. exists kids.
  destruct (@wf_heap _ _ (slab_frame_spec hhdm (foreign_now P M) h F) _ _ Hwf) as (L & Hl & HA).
  pose proof Hl as (_ & Hlv & _). pose proof (foreign_in_use hhdm P M (heap (x_fs x)) _ kroot Hlv HP) as [Hk _ _].
  split; try done.
  - destruct Hwf as [? ? ? ? ? ? ? ? _]. split; try done. exists L. split; [|done]. split; [by eapply slab_live_owns|done].
  - destruct Hlv as (G & cs & Hi). destruct (si_range _ _ _ _ _ _ Hi). unfold KERNEL_BASE, PAGE_SIZE in *. lia.
Qed.
Lemma ready_fs_ok P kids root kroot x : loader_ready hhdm P kids root kroot x →
  @fs_ok _ _ (slab_frame_spec hhdm (foreign_now P (mach (heap (x_fs x)))) h F) root (x_fs x) ∧
  phys_ok hhdm (mach (heap (x_fs x))) ∧ ∀ p, p ∈ P → page_in_use hhdm (mach (heap (x_fs x))) p.
Proof.
  intros [Hwf Hr Hm Hc _ _ _]. destruct (wf_heap _ _ Hwf) as (L & [Ho _] & HA). split.
  - exists kids. split; [|done]. destruct Hwf as [? ? ? ? ? ? ? ? _]. split; try done. exists L. by split.
  - split; [by apply (owns_phys P _ L Ho)|]. intros p. apply (owns_others P _ L _ Ho).
Qed.
End First.

(** A root table with the kernel's half leads where the kernel's does. *)
Lemma pte_shared hhdm M a a' va :
  (∀ i, 256 ≤ i < 512 → load64 (mem M) (Paging.entry_at a' i) = load64 (mem M) (Paging.entry_at a i)) → 256 ≤ PGD_INDEX va →
  pte_of hhdm (PagingState M a') va = pte_of hhdm (PagingState M a) va.
Proof.
  intros He Hva. unfold pte_of, indices. cbn [pg_mach pml4_base walk]. rewrite He; [done|]. split; [done|apply index_range].
Qed.

(** ** kernel_main *)

Section Main.
Context (table ap_entry idle kernel_stack_top syscall_entry : Z) (st : stubs) (junk : Task) (regs0 : Regs).
Context (query : Z → cpuid_result) (elapse : Z → (Z → Z) → (Z → Z)).
Abbreviation main := (kernel_main table ap_entry idle kernel_stack_top syscall_entry st junk regs0 query elapse).
Abbreviation boot := (kernel_boot table ap_entry idle kernel_stack_top st junk regs0 query elapse).
Abbreviation init := (kernel_init table ap_entry idle kernel_stack_top st junk regs0 query elapse).
Implicit Types x : xstate slab_state.

Lemma check_lapic_ret w : ∃ a, check_lapic (boot_apic w) = Ret (tt, a) ∧ pit_in a = hw_pit w ∧ timer_ticks_per_ms a = 0.
Proof. unfold check_lapic. krun. destruct (negb _); by eexists. Qed.

(** The processors the boot loader found. *)
Definition cpus_found (b : limine) (w : hardware) : Prop := ∀ bsp cpus, mp b = Some (bsp, cpus) →
  cpus_ok cpus ∧ NoDup (lapic_id <$> cpus) ∧ ∃ n, n ∈ hw_online w ∧ others bsp cpus ≤ n.

(** The tables the processor uses. *)
Definition active_tables hhdm x : paging_state := PagingState (mach (heap (x_fs x))) (phys_to_virt hhdm (x_cr3 x)).

(** The running kernel, with the memory and the tables the launch has left. *)
Record running (b : limine) (hhdm : Z) (M : machine) (own : gmap Z (Z * Z)) (P : gset Z) (info : ApicInfo) (e : Z)
    (k : kernel) x : Prop := {
  rn_cpus : ∃ bsp cpus, mp b = Some (bsp, cpus) ∧ kernel_up hhdm ap_entry idle bsp cpus (k_smp k) (k_sched k) (x_fs x);
  (* the hardware finds the registers of the interrupt controllers *)
  rn_lapic : pte_of hhdm (active_tables hhdm x) LAPIC_VIRT_BASE =
    Some (device_pte (mmio_base (base_info (d_apic (k_dev k)))));
  rn_ioapic : ∀ n d, ioapics info !! n = Some d →
    pte_of hhdm (active_tables hhdm x) (ioapic_va n) = Some (device_pte (phys_base d)) ∧
    ∃ inst, g_ioapics (d_ioapic (k_dev k)) !! n = Some inst ∧ virt_base inst = ioapic_va n ∧ inst_gsi inst = gsi_base d;
  (* what belongs to nobody's allocator is as the boot loader left it *)
  rn_kept : ∀ p a, p ∈ P → own !! p = None → in_page hhdm p a → mem (mach (heap (x_fs x))) a = mem M a;
  rn_timer : timer_ticks_per_ms (d_apic (k_dev k)) = e / 10 ∧ lapic (d_apic (k_dev k)) (reg_offset LVT_TIMER) = 32 + 2 ^ 17
}.

(** The pages [P] are in use and hold what they held in [M0]; the active
    tables have the kernel's half of the table at [base]. *)
Record beside hhdm (P : gset Z) (M0 : machine) (base : Z) x : Prop := {
  bs_phys : phys_ok hhdm (mach (heap (x_fs x)));
  bs_use : ∀ p, p ∈ P → page_in_use hhdm (mach (heap (x_fs x))) p;
  bs_mem : ∀ p a, p ∈ P → in_page hhdm p a → mem (mach (heap (x_fs x))) a = mem M0 a;
  bs_half : ∀ i, 256 ≤ i < 512 →
    load64 (mem (mach (heap (x_fs x)))) (Paging.entry_at (phys_to_virt hhdm (x_cr3 x)) i) =
    load64 (mem (mach (heap (x_fs x)))) (Paging.entry_at base i)
}.
Lemma beside_pte hhdm root P' pg own' x va : pt_inv hhdm pg root own' → (∀ p, is_Some (own' !! p) → p ∈ P') →
  beside hhdm P' (pg_mach pg) (pml4_base pg) x → 256 ≤ PGD_INDEX va →
  pte_of hhdm (active_tables hhdm x) va = pte_of hhdm pg va.
Proof.
  intros Ht Ho [Hph Hu Hm Hh] Hva. unfold active_tables. rewrite (pte_shared hhdm _ (pml4_base pg)) by done.
  apply (tables_moved hhdm root pg own'); [done|done| |].
  - intros p Hp%Ho. by destruct (Hu p Hp).
  - intros p a Hp%Ho. by apply Hm.
Qed.

(** The kernel that has started goes on running while programs are loaded
    beside it. *)
Definition goes_on b hhdm M own P info e k (P' : gset Z) (kroot : Z) (h : slab_state) (F : gmap Z Z) : Prop :=
  kroot ∈ P' ∧ d_pml4 (k_dev k) = page_va hhdm kroot ∧
  ∀ x fg root, @fs_ok _ _ (slab_frame_spec hhdm fg h F) root (x_fs x) →
    beside hhdm P' (mach (d_slab (k_dev k))) (d_pml4 (k_dev k)) x → running b hhdm M own P info e k x.

(** From the devices on. *)
Lemma start_cpus_spec b w hhdm M root own P info e d P' own' :
  devices_up hhdm M root own P info e d P' own' → (length (ioapics info) ≤ 8)%nat → cpus_found b w → modules_ok (default [] (modules b)) →
  let fs_of (k : kernel) := @init_fs _ (slab_allocator hhdm) (modules b) (fs_boot (s_heap (k_sched k))) in
  (∃ why, start_cpus table ap_entry idle junk regs0 hhdm b w d = Panic why) ∨
  ∃ k, start_cpus table ap_entry idle junk regs0 hhdm b w d = Ret k ∧
    ((∃ why, fs_of k = Panic why) ∨ root_unmounted hhdm (s_heap (k_sched k)) ∨
     ∃ fs root' h F, fs_of k = Ret (tt, fs) ∧
       @fs_ok _ _ (slab_frame_spec hhdm (foreign_now P' (mach (d_slab (k_dev k)))) h F) root' fs ∧
       goes_on b hhdm M own P info e k P' root h F).
Proof.
  intros [[Ht Hl Ho] Hsub Hkept Hlap Hio Htim] Hn8 Hcpus Hmods fs_of. unfold start_cpus, mbind, outcome_bind.
  destruct (mp b) as [[bsp cpus]|] eqn:Emp; [|left; by eexists]. destruct (Hcpus bsp cpus Emp) as (Hok & Hids & Hseen).
  set (fg := foreign_now P' _) in Hl. replace (SlabState _ _) with (d_slab d) in Hl by (by destruct (d_slab d)).
  destruct (start_others_spec hhdm fg table ap_entry bsp cpus (d_percpu d) (hw_online w) (d_slab d) Hl Hok Hseen)
    as [[why ->]|(sm & F & -> & Hor)]; [left; by eexists|]. cbv beta iota.
  destruct (sched_start hhdm fg idle junk regs0 cpus (sm_slab sm) F (or_live _ _ _ _ _ _ _ Hor) Hids)
    as [[why ->]|(sc & l & L & f & -> & Hi & Hs)]; [left; by eexists|]. cbv beta iota. right. eexists. split; [reflexivity|].
  destruct (@sv_live _ _ (slab_frame_spec hhdm fg (sm_slab sm) F) _ _ _ _ Hi) as (_ & Hl2 & _).
  destruct (fs_start hhdm fg (s_heap sc) (L ∪ F) (modules b) Hl2 Hmods) as [Hp|[Hz|(fs & root' & E & Hfs)]]; [by left|right; by left|].
  right; right. exists fs, root', (s_heap sc), (L ∪ F). split; [exact E|]. split; [done|].
  split; [apply Ho; by rewrite (pi_root _ _ _ _ Ht)|]. split; [apply (pi_base _ _ _ _ Ht)|]. intros x fg' root'' Hfs' Hbs.
  pose proof (λ va, beside_pte hhdm root P' (PagingState (mach (d_slab d)) (d_pml4 d)) own' x va Ht Ho Hbs) as Hw.
  split; cbn [k_dev k_smp k_sched]; [| |intros n y Hy| |done].
  - exists bsp, cpus. split; [done|]. by eapply all_up.
  - rewrite Hw; [done|vm_compute; discriminate].
  - rewrite Hw; [by apply Hio|]. apply ioapic_kernel_half. apply lookup_lt_Some in Hy. lia.
  - intros p a Hp Hn Ha. rewrite (bs_mem _ _ _ _ _ Hbs p a (Hsub p Hp) Ha). by apply (Hkept p).
Qed.

(** The program of "/sbin/init" in the tree [fs] is in memory, its address
    space is active, and the processor is to enter it. *)
Definition first_program hhdm (fs : fs_state slab_state) x (entry stack : Z) : Prop := ∃ h F P kids root kroot,
  @launched hhdm _ (slab_allocator hhdm) slab_machine (slab_paged hhdm h F) table syscall_entry
    P kids root kroot fs init_path [115; 98; 105; 110] [105; 110; 105; 116] x entry stack.

Lemma first_launch b w hhdm M own P info e k P' kroot h F fs root : goes_on b hhdm M own P info e k P' kroot h F →
  @fs_ok _ _ (slab_frame_spec hhdm (foreign_now P' (mach (d_slab (k_dev k)))) h F) root fs →
  let launch := @launch_static _ (slab_allocator hhdm) slab_machine ramfs_vt hhdm query
    table syscall_entry (Some init_path) (launch_state w k fs) in
  (∃ e x, launch = Ret (inl e, x)) ∨
  ∃ entry stack x, launch = Ret (inr (entry, stack), x) ∧ running b hhdm M own P info e k x ∧ first_program hhdm fs x entry stack.
Proof.
  intros (HP & Hb & Hgo) Hfs launch. destruct (fs_ok_ready hhdm h F P' _ root kroot (launch_state w k fs) Hfs HP Hb) as [kids Hr].
  destruct (@launch_static_spec hhdm _ (slab_allocator hhdm) slab_machine (slab_paged hhdm h F) query table syscall_entry P' kids root kroot
    (launch_state w k fs) init_path [115; 98; 105; 110] [105; 110; 105; 116])
    as [(er & x & E & _)|(entry & stack & x & E & Hl)]; [done|by repeat constructor|done|done|vm_compute; reflexivity|left; by exists er, x|].
  right. exists entry, stack, x. split; [done|]. split; [|by exists h, F, P', kids, root, kroot].
  destruct Hl as [_ Hcr (h1 & file & im & _ & Hd & Hact & _ & _ & Hk)].
  destruct Hd as (g & uroot & own2 & _ & Hroot & _ & Hsp & _ & _ & Hhalf & _ & _ & Hready).
  destruct (ready_fs_ok hhdm h F _ _ _ _ _ Hready) as (Hfs' & Hph & Hu). apply (Hgo x _ root Hfs'). split; [done| | |].
  - intros p Hp. apply Hu. by apply elem_of_union_l.
  - intros p a Hp Ha. destruct (fs_live hhdm _ _ _ _ _ Hfs) as [_ [Lf Hlf]].
    transitivity (mem (mach (heap fs)) a); [by apply (Hk p a)|]. by apply (live_foreign hhdm _ _ _ Hlf p).
  - intros i Hi. rewrite Hcr, Hact, Hroot, Hb, (own_page hhdm Hsp uroot 0 0) by apply (own_root hhdm Hsp). by apply Hhalf.
Qed.

End Main.

(** ** A machine that boots *)

(** Sixty-four pages: the first is not usable, the next fifty-six are; the
    boot loader's root table is page 57, the firmware's tables are in page 58. *)
Definition boot_map : list memmap_entry := [MemmapEntry 4096 (56 * 4096) LIMINE_MEMMAP_USABLE; MemmapEntry (57 * 4096) (7 * 4096) 1].
(** RSDP, RSDT and MADT, with one I/O APIC. *)
Definition firmware : ram := λ a,
  let put (off : Z) (l : list Z) := let x := a - (KERNEL_BASE + 58 * 4096 + off) in
    if (0 <=? x) && (x <? Z.of_nat (length l)) then nth (Z.to_nat x) l 0 else 0 in
  put 80 [128; 160; 3; 0] + put 132 [40; 0; 0; 0] + put 164 [0; 161; 3; 0] +
  put 256 [65; 80; 73; 67; 56; 0; 0; 0] + put 292 [0; 0; 224; 254] + put 300 [1; 12; 2; 0; 0; 0; 192; 254; 0; 0; 0; 0].
(** The module: an archive with sbin/init. *)
Definition boot_archive : list Z :=
  cpio_entry [115; 98; 105; 110; 47; 105; 110; 105; 116] 33261 sample_exec ++ cpio_entry CPIO_TRAILER 0 [].
Lemma boot_archive_ok : archive_ok boot_archive.
Proof. split; [|vm_compute; done]. apply bytes_of_bool. vm_compute. reflexivity. Qed.
Definition boot_limine : limine :=
  Limine true (Some [MkFb 0 640 480 2560]) (Some KERNEL_BASE) boot_map (KERNEL_BASE + 58 * 4096 + 64) (Some (0, two_cpus)) (Some [Some (Some boot_archive)]).
Definition boot_hardware : hardware :=
  Hardware firmware (57 * 4096) (λ _, 0) (λ i, if i =? 27 then 4276092928 else 0) [0; 0; 32]
    (Ports prompt_status [0; 250; 250; 250; 170] []) (λ _, 0) (λ _ _, 0) [0; 1].
Definition boot_machine : machine :=
  match pmm_init KERNEL_BASE boot_map firmware with Ret M => M | _ => heap_machine end.
Definition boot_info : ApicInfo := MkInfo 4276092928 0 [MkDesc 4273995776 0 2] [].

Lemma boot_pmm : pmm_init KERNEL_BASE boot_map firmware = Ret boot_machine.
Proof.
  assert (E : match pmm_init KERNEL_BASE boot_map firmware with Ret _ => true | _ => false end = true) by (vm_compute; reflexivity).
  unfold boot_machine. by destruct (pmm_init KERNEL_BASE boot_map firmware).
Qed.
Lemma boot_layout : bitmap boot_machine = 4096 ∧ total_pages boot_machine = 64 ∧ free_pages boot_machine = 55.
Proof. vm_compute. done. Qed.
Lemma boot_free : free_set KERNEL_BASE boot_machine = list_to_set (seqZ 2 55).
Proof. vm_compute. reflexivity. Qed.
#[local] Opaque boot_machine.

Lemma boot_bitmap a : in_bitmap KERNEL_BASE boot_machine a → in_page KERNEL_BASE 1 a.
Proof.
  destruct boot_layout as (Eb & Et & _). unfold in_bitmap, in_page, page_va, PAGE_SIZE. rewrite Eb, Et.
  change (phys_to_virt KERNEL_BASE 4096) with (KERNEL_BASE + 4096). change ((64 + 7) / 8) with 8. lia.
Qed.
Lemma boot_clear p : p ≠ 1 → clear_page KERNEL_BASE boot_machine p.
Proof. intros Hp a Ha Hb%boot_bitmap. by apply Hp, (in_page_inj KERNEL_BASE p 1 a). Qed.
Lemma boot_phys : phys_ok KERNEL_BASE boot_machine.
Proof.
  destruct boot_layout as (_ & Et & Ef). split; [done|rewrite Et; done| |].
  - split; rewrite ?boot_free, ?Et, ?Ef; [vm_compute; reflexivity|lia|]. rewrite elem_of_list_to_set, elem_of_seqZ. lia.
  - intros p Hp. rewrite boot_free, elem_of_list_to_set, elem_of_seqZ in Hp. apply boot_clear. lia.
Qed.
Lemma boot_used p : p = 57 ∨ p = 58 → 0 < p < total_pages boot_machine ∧ (p ∉ free_set KERNEL_BASE boot_machine) ∧ clear_page KERNEL_BASE boot_machine p.
Proof.
  destruct boot_layout as (_ & Et & _). intros Hp. rewrite Et, boot_free, elem_of_list_to_set, elem_of_seqZ.
  split; [lia|]. split; [lia|]. apply boot_clear. lia.
Qed.
Lemma boot_tables : pt_inv KERNEL_BASE (PagingState boot_machine (phys_to_virt KERNEL_BASE (clear_low12 (57 * 4096)))) 57 {[57 := (0, 0)]}.
Proof.
  split; cbn [pg_mach pml4_base].
  - apply boot_phys.
  - vm_compute. reflexivity.
  - apply lookup_singleton_eq.
  - intros p l x Hp. apply boot_used. left. by apply lookup_singleton_Some in Hp as [<- _].
  - intros p l x i Hp _ Hi. apply lookup_singleton_Some in Hp as [<- _]. cbv zeta. intros He. exfalso.
    assert (Hz : forallb (λ i, negb (present (load64 (mem boot_machine) (Paging.entry_at (page_va KERNEL_BASE 57) i)))) (seqZ 0 512) = true)
      by (vm_compute; reflexivity).
    rewrite forallb_forall in Hz. specialize (Hz i ltac:(apply list_elem_of_In, elem_of_seqZ; lia)). by rewrite He in Hz.
Qed.

(** A word of the firmware's page. *)
Lemma firmware_word m x n : (∀ a, in_page KERNEL_BASE 58 a → m a = mem boot_machine a) →
  0 ≤ x → x + Z.of_nat n ≤ 4096 → load_le m (KERNEL_BASE + 58 * 4096 + x) n = load_le (mem boot_machine) (KERNEL_BASE + 58 * 4096 + x) n.
Proof. intros Hm Hx Hn. apply load_le_agree. intros y Hy. apply Hm. unfold in_page, page_va, PAGE_SIZE. lia. Qed.
Ltac in_firmware :=
  lazymatch goal with |- load_le (mem boot_machine) _ _ = _ => vm_compute; reflexivity | |- mem boot_machine _ = _ => vm_compute; reflexivity | _ => cbv delta [sizeof_SdtHeader sizeof_MadtHeader]; lia end.
Lemma boot_parse m : (∀ a, in_page KERNEL_BASE 58 a → m a = mem boot_machine a) →
  parse KERNEL_BASE m (KERNEL_BASE + 58 * 4096 + 64) no_apic_info = Ret boot_info.
Proof.
  intros Hm.
  assert (Hw : ∀ x n v a, 0 ≤ x → x + Z.of_nat n ≤ 4096 → a = KERNEL_BASE + 58 * 4096 + x →
    load_le (mem boot_machine) (KERNEL_BASE + 58 * 4096 + x) n = v → load_le m a n = v).
  { intros x n v a Hx Hn -> <-. by apply firmware_word. }
  assert (Hb : ∀ x v a, 0 ≤ x < 4096 → a = KERNEL_BASE + 58 * 4096 + x → mem boot_machine (KERNEL_BASE + 58 * 4096 + x) = v → m a = v).
  { intros x v a Hx -> <-. apply Hm. unfold in_page, page_va, PAGE_SIZE. lia. }
  assert (Hf : find_madt KERNEL_BASE m (KERNEL_BASE + 58 * 4096 + 64) = Ret (KERNEL_BASE + 58 * 4096 + 256)).
  { unfold find_madt, rsdp_revision, rsdt_address, sdt_length, load32.
    change (KERNEL_BASE + 58 * 4096 + 64 =? 0) with false. rewrite (Hw 79 1%nat 0) by in_firmware. change (2 <=? 0) with false.
    cbn [andb]. cbv iota zeta. rewrite (Hw 80 4%nat 237696) by in_firmware. change (negb (237696 =? 0)) with true. cbv iota.
    change (u64 (237696 + KERNEL_BASE)) with (KERNEL_BASE + 58 * 4096 + 128).
    rewrite (Hw 132 4%nat 40) by in_firmware.
    change (Z.to_nat ((40 - sizeof_SdtHeader) / Z.of_nat 4)) with 1%nat. change (40 <? sizeof_SdtHeader) with false. cbn [find_table].
    rewrite (Hw 164 4%nat 237824) by in_firmware.
    change (u64 (237824 + KERNEL_BASE)) with (KERNEL_BASE + 58 * 4096 + 256).
    rewrite (Hb 256 65), (Hb 257 80), (Hb 258 73), (Hb 259 67) by in_firmware. done. }
  unfold parse, mbind, outcome_bind. rewrite Hf. change (KERNEL_BASE + 58 * 4096 + 256 =? 0) with false. cbv beta iota.
  unfold sdt_length, madt_local_apic_address, load32.
  rewrite (Hw 260 4%nat 56), (Hw 292 4%nat 4276092928) by in_firmware.
  change (KERNEL_BASE + 58 * 4096 + 256 + 56) with (KERNEL_BASE + 58 * 4096 + 256 + sizeof_MadtHeader + entries_size [EIoApic 2 4273995776 0]).
  rewrite parse_loop_spec; [done| |split; cbn; unfold Madt.MAX_IOAPICS, MAX_ISOS; lia|done].
  split; [|done]. unfold Madt.entry_at, load32. split_and!; [apply (Hw 300)|apply (Hw 301)|apply (Hw 302)|apply (Hw 304)|apply (Hw 308)]; in_firmware.
Qed.

Lemma boot_ok_sample : boot_ok boot_limine boot_hardware KERNEL_BASE boot_machine 57 {[57 := (0, 0)]} {[57; 58]} boot_info 2.
Proof.
  destruct boot_layout as (_ & Et & Ef). split; cbn [memmap rsdp hw_mem hw_cr3 boot_limine boot_hardware].
  - apply boot_pmm.
  - split; [apply boot_phys|]. rewrite Et. unfold KERNEL_BASE, PAGE_SIZE. lia.
  - intros p. rewrite boot_free, elem_of_list_to_set, elem_of_seqZ, elem_of_page_range. lia.
  - lia.
  - apply boot_tables.
  - intros p [lx Hp]. apply lookup_singleton_Some in Hp as [<- _]. by apply elem_of_union_l, elem_of_singleton.
  - intros p Hp. apply boot_used. by rewrite elem_of_union, !elem_of_singleton in Hp.
  - intros m Hm. apply boot_parse. intros a. apply Hm; [by apply elem_of_union_r, elem_of_singleton|]. by apply lookup_singleton_ne.
Qed.
Definition boot_elapse (ms : Z) (r : Z → Z) : Z → Z := λ _, 4294966295.
Lemma boot_answers : answers boot_elapse boot_hardware 1000.
Proof.
  split; [|exists 0, [0], 32, []; split_and!; [done|by repeat constructor|done]|intros r; vm_compute; reflexivity|lia].
  assert (E : ∃ p, ps2_init (hw_ps2 boot_hardware) = Ret (true, p)) by (eexists; vm_compute; reflexivity). destruct E as [p E]. by exists true, p.
Qed.

