(* ===== verification/Syscall.v ===== *)
(** * System calls: proc/syscall_fs.cpp, syscall_io.cpp, syscall_info.cpp, and
    resolve_user_path of proc/syscall_user.cpp

    The state of the calls is the file system, the memory with the page
    tables, the descriptor table, the working directory, the keyboard and the
    console. A local buffer of a call lives on the kernel stack, at [kstack];
    its contents are used only between the copy that fills it and the next
    statement, so one address serves all of them. A call returns what the
    register rax holds afterwards, as a signed number. *)

From S2P Require Import Prelude Bytes Mem KString Errno Pmm Paging Alloc Vfs Ramfs Keyboard Apic UserCopy ElfExec Exec.

Definition O_CLOEXEC : Z := 524288.
Definition FD_CLOEXEC : Z := 1.

Record kernel (A : Type) := MkKernel {
  k_x : xstate A;               (** file system, memory, processor *)
  open_files : list Z;          (** MAX_OPEN_FILES pointers *)
  fd_flags : list Z;
  current_directory : list Z;   (** a buffer of 256 bytes *)
  file_creation_mask : Z;
  k_kbd : kbd;
  k_ports : ports;
  console : list Z;
  k_apic : apic_state
}.
Arguments MkKernel {A}. Arguments k_x {A}.
Arguments open_files {A}. Arguments fd_flags {A}. Arguments current_directory {A}.
Arguments file_creation_mask {A}. Arguments k_kbd {A}. Arguments k_ports {A}. Arguments console {A}.
Arguments k_apic {A}.

Section Syscall.
Context {A : Type} `{Allocator A} `{OnMachine A} (vt : vtables (fs_state A)) (hhdm kstack : Z).
Abbreviation M := (K (kernel A)).
Implicit Types s : kernel A.

Definition k_fs s : fs_state A := x_fs (k_x s).
Definition k_mem s : ram := mem (pg_mach (x_pg (k_x s))).
Definition k_cr3 s : Z := x_cr3 (k_x s).
Definition set_k_x x s : kernel A :=
  MkKernel x (open_files s) (fd_flags s) (current_directory s) (file_creation_mask s)
    (k_kbd s) (k_ports s) (console s) (k_apic s).
Definition set_k_fs f s : kernel A := set_k_x (set_x_fs f (k_x s)) s.
Definition set_k_mem m s : kernel A :=
  set_k_x (set_x_pg (PagingState (set_mem m (pg_mach (x_pg (k_x s)))) (pml4_base (x_pg (k_x s)))) (k_x s)) s.
Definition set_fds o f s : kernel A :=
  MkKernel (k_x s) o f (current_directory s) (file_creation_mask s)
    (k_kbd s) (k_ports s) (console s) (k_apic s).
Definition set_cwd d s : kernel A :=
  MkKernel (k_x s) (open_files s) (fd_flags s) d (file_creation_mask s)
    (k_kbd s) (k_ports s) (console s) (k_apic s).
Definition set_mask u s : kernel A :=
  MkKernel (k_x s) (open_files s) (fd_flags s) (current_directory s) u
    (k_kbd s) (k_ports s) (console s) (k_apic s).
Definition set_input k p s : kernel A :=
  MkKernel (k_x s) (open_files s) (fd_flags s) (current_directory s) (file_creation_mask s)
    k p (console s) (k_apic s).
Definition set_console c s : kernel A :=
  MkKernel (k_x s) (open_files s) (fd_flags s) (current_directory s) (file_creation_mask s)
    (k_kbd s) (k_ports s) c (k_apic s).

(** A call of the file system. *)
Definition on_fs {B} (m : K (fs_state A) B) : M B := λ s,
  match m (k_fs s) with
  | Ret (b, f) => Ret (b, set_k_fs f s)
  | Panic w => Panic w | Fault => Fault | Diverge => Diverge
  end.

(** copy_user between a local buffer and user memory. *)
Definition user_out (bytes : list Z) (user_address : Z) : M bool := λ s,
  match copy_user hhdm (k_cr3 s) kstack user_address (blen bytes) true (store_bytes (k_mem s) kstack bytes) with
  | Ret (ok, m) => Ret (ok, set_k_mem m s)
  | Panic w => Panic w | Fault => Fault | Diverge => Diverge
  end.
Definition user_in (n user_address : Z) : M (option (list Z)) := λ s,
  match copy_user hhdm (k_cr3 s) kstack user_address n false (k_mem s) with
  | Ret (ok, m) => Ret (if ok : bool then Some (load_bytes m kstack (Z.to_nat n)) else None, set_k_mem m s)
  | Panic w => Panic w | Fault => Fault | Diverge => Diverge
  end.
Definition user_path_in (user_path : Z) : M (Z * list Z) := λ s,
  match copy_user_path hhdm (k_cr3 s) user_path kstack 256 (k_mem s) with
  | Ret (r, m) => Ret ((r, buf_str (load_bytes m kstack 256)), set_k_mem m s)
  | Panic w => Panic w | Fault => Fault | Diverge => Diverge
  end.

(** open_files[fd], null when fd is out of range. *)
Definition fd_file (fd : Z) : M Z :=
  k_gets (λ s, if MAX_OPEN_FILES <=? fd then 0 else default 0 (open_files s !! Z.to_nat fd)).
Definition set_fd (fd file flags : Z) : M unit :=
  k_modify (λ s, set_fds (<[Z.to_nat fd := file]> (open_files s)) (<[Z.to_nat fd := flags]> (fd_flags s)) s).

(** ** Paths *)

(** The inode's type, for a dentry that may be null. *)
Definition is_directory_dentry (dentry : Z) : K (fs_state A) bool :=
  if dentry =? 0 then mret false else
  d ← get_dentry dentry;
  if d_inode d =? 0 then mret false else
  i ← get_inode (d_inode d);
  mret (bool_decide (i_type i = Directory)).

(** [inl] the error, [inr] the absolute path. *)
Definition resolve_user_path (dirfd user_path capacity : Z) : M (Z + list Z) :=
  rp ← user_path_in user_path;
  let '(result, path) := rp in
  if result <? 0 then mret (inl result) else
  if bool_decide (head path = Some SLASH) then
    mret (if capacity <=? blen path then inl ERR_NAMETOOLONG else inr path)
  else
    base ←
      (if s32 dirfd =? AT_FDCWD then cwd ← k_gets current_directory; mret (inr (buf_str cwd))
       else
         file ← fd_file dirfd;
         if file =? 0 then mret (inl ERR_BADF) else
         f ← on_fs (get_file file);
         dir ← on_fs (is_directory_dentry (f_dentry f));
         if negb dir then mret (inl ERR_NOTDIR) else
         rb ← on_fs (dentry_path (f_dentry f) (replicate 256 0));
         let '(result, base) := rb in
         mret (if result <? 0 then inl result else inr (buf_str base)));
    match base with
    | inl e => mret (inl e)
    | inr base =>
        let separator := if 1 <? blen base then 1 else 0 in
        if capacity <? blen base + separator + blen path + 1 then mret (inl ERR_NAMETOOLONG)
        else mret (inr (base ++ (if 1 <? blen base then [SLASH] else []) ++ path))
    end.

(** ** Descriptors *)

Fixpoint free_fd_loop (k : nat) (fd : Z) : M (option Z) :=
  match k with
  | O => mret None
  | S k' => file ← fd_file fd; if file =? 0 then mret (Some fd) else free_fd_loop k' (fd + 1)
  end.

Definition sys_openat (dirfd user_path flags : Z) : M Z :=
  fd ← free_fd_loop (Z.to_nat (MAX_OPEN_FILES - 3)) 3;
  match fd with
  | None => mret ERR_NFILE
  | Some fd =>
      path ← resolve_user_path dirfd user_path 256;
      match path with
      | inl e => mret e
      | inr path =>
          file ← on_fs (open vt path (Z.land (u32 flags) (u32 (Z.lnot O_CLOEXEC))));
          if file =? 0 then mret (-2)
          else if IS_ERR file then mret (PTR_ERR file)
          else
            set_fd fd file (if Z.land flags O_CLOEXEC =? 0 then 0 else FD_CLOEXEC) ≫= λ _, mret fd
      end
  end.

Definition sys_close (fd : Z) : M Z :=
  file ← fd_file fd;
  if (fd <? 3) || (file =? 0) then mret ERR_BADF else
  on_fs (close vt file) ≫= λ _,
  set_fd fd 0 0 ≫= λ _, mret 0.

Definition find_free_fd (minimum : Z) : M Z :=
  if MAX_OPEN_FILES <=? minimum then mret ERR_BADF
  else
    fd ← free_fd_loop (Z.to_nat (MAX_OPEN_FILES - minimum)) minimum;
    mret (default ERR_NFILE fd).

Definition duplicate_fd (old_fd new_fd : Z) (exact close_on_exec : bool) : M Z :=
  old ← fd_file old_fd;
  if old =? 0 then mret ERR_BADF else
  target ←
    (if negb exact then find_free_fd new_fd
     else mret (if MAX_OPEN_FILES <=? new_fd then ERR_BADF else new_fd));
  if target <? 0 then mret target else
  if old_fd =? target then mret (if exact && close_on_exec then ERR_INVAL else target) else
  current ← fd_file target;
  (if current =? 0 then mret tt else on_fs (close vt current)) ≫= λ _,
  old ← fd_file old_fd;
  f ← on_fs (get_file old);
  on_fs (put_file old (file_with_ref f (atomic_inc (f_ref_count f)))) ≫= λ _,
  set_fd target old (if close_on_exec then FD_CLOEXEC else 0) ≫= λ _,
  mret target.

Definition sys_lseek (fd raw_offset whence : Z) : M Z :=
  file ← fd_file fd;
  if file =? 0 then mret ERR_BADF else
  let offset := s64 raw_offset in
  f ← on_fs (get_file file);
  base ←
    (if whence =? 0 then mret (inr 0)
     else if whence =? 1 then
       mret (if INT64_MAX <? f_offset f then inl ERR_RANGE else inr (f_offset f))
     else if whence =? 2 then
       d ← on_fs (get_dentry (f_dentry f));
       i ← on_fs (get_inode (d_inode d));
       mret (if INT64_MAX <? i_size i then inl ERR_RANGE else inr (i_size i))
     else mret (inl ERR_INVAL));
  match base with
  | inl e => mret e
  | inr base =>
      if ((0 <? offset) && (INT64_MAX - offset <? base)) ||
         ((offset <? 0) && ((offset =? INT64_MIN) || (base <? - offset)))
      then mret ERR_RANGE
      else
        let result := base + offset in
        if result <? 0 then mret ERR_INVAL
        else on_fs (put_file file (file_with_offset f result)) ≫= λ _, mret result
  end.

Definition sys_fcntl (fd command argument : Z) : M Z :=
  file ← fd_file fd;
  if file =? 0 then mret ERR_BADF
  else if command =? 0 then duplicate_fd fd argument false false
  else if command =? 1 then k_gets (λ s, default 0 (fd_flags s !! Z.to_nat fd))
  else if command =? 2 then
    if negb (Z.land argument (u64 (u32 (Z.lnot FD_CLOEXEC))) =? 0) then mret ERR_INVAL
    else k_modify (λ s, set_fds (open_files s) (<[Z.to_nat fd := u32 argument]> (fd_flags s)) s) ≫= λ _, mret 0
  else if command =? 3 then f ← on_fs (get_file file); mret (f_flags f)
  else if command =? 4 then
    f ← on_fs (get_file file);
    on_fs (put_file file (file_with_flags f
      (Z.lor (Z.land (f_flags f) (u32 (Z.lnot O_APPEND))) (Z.land (u32 argument) O_APPEND)))) ≫= λ _,
    mret 0
  else mret ERR_INVAL.

(** ** Directories *)

Definition sys_getcwd (user_buffer size : Z) : M Z :=
  cwd ← k_gets current_directory;
  let length := blen (buf_str cwd) + 1 in
  if size <? length then mret ERR_RANGE else
  ok ← user_out (buf_str cwd ++ [0]) user_buffer;
  mret (if ok : bool then length else ERR_FAULT).

(** dentry_path into current_directory. *)
Definition store_cwd (dentry : Z) : M Z :=
  cwd ← k_gets current_directory;
  rp ← on_fs (dentry_path dentry cwd);
  let '(result, path) := rp in
  k_modify (set_cwd path) ≫= λ _, mret result.

Definition sys_chdir (user_path : Z) : M Z :=
  path ← resolve_user_path AT_FDCWD user_path 256;
  match path with
  | inl e => mret e
  | inr path =>
      dentry ← on_fs (path_walk vt path);
      if IS_ERR dentry then mret (PTR_ERR dentry) else
      if dentry =? 0 then mret ERR_NOENT else
      d ← on_fs (get_dentry dentry);
      if d_inode d =? 0 then mret ERR_NOENT else
      i ← on_fs (get_inode (d_inode d));
      if negb (bool_decide (i_type i = Directory)) then on_fs (dput vt dentry) ≫= λ _, mret ERR_NOTDIR else
      result ← store_cwd dentry;
      on_fs (dput vt dentry) ≫= λ _, mret result
  end.

Definition sys_fchdir (fd : Z) : M Z :=
  file ← fd_file fd;
  if file =? 0 then mret ERR_BADF else
  f ← on_fs (get_file file);
  dir ← on_fs (is_directory_dentry (f_dentry f));
  if negb dir then mret ERR_NOTDIR else store_cwd (f_dentry f).

Definition sys_accessat (dirfd user_path mode flags : Z) : M Z :=
  if negb (Z.land mode (u64 (Z.lnot 7)) =? 0) then mret ERR_INVAL else
  if negb (Z.land flags (u64 (Z.lnot 512)) =? 0) then mret ERR_INVAL else
  path ← resolve_user_path dirfd user_path 256;
  match path with
  | inl e => mret e
  | inr path =>
      dentry ← on_fs (path_walk vt path);
      if IS_ERR dentry then mret (PTR_ERR dentry) else
      if dentry =? 0 then mret ERR_NOENT else
      on_fs (dput vt dentry) ≫= λ _, mret 0
  end.

(** struct LinuxDirent64Header, 19 bytes, and the name, padded to 8 bytes. *)
Definition dirent_bytes (ino off reclen type : Z) (name : list Z) : list Z :=
  let raw := le_bytes 8 ino ++ le_bytes 8 off ++ le_bytes 2 reclen ++ le_bytes 1 type ++ name ++ [0] in
  raw ++ replicate (Z.to_nat reclen - length raw) 0.
Definition record_length (name : list Z) : Z := Z.land (u64 (19 + (blen name + 1) + 7)) (u64 (Z.lnot 7)).

Definition seek_file (file off : Z) : M unit :=
  f ← on_fs (get_file file); on_fs (put_file file (file_with_offset f off)).

Fixpoint getdents_loop (entries : list (Z * list Z)) (file i old_offset written count user_buffer : Z) : M Z :=
  match entries with
  | [] => mret written
  | (ino, name) :: rest =>
      let reclen := record_length name in
      if count - written <? reclen then
        seek_file file (u64 (old_offset + i)) ≫= λ _,
        mret (if written =? 0 then ERR_INVAL else written)
      else
        f ← on_fs (get_file file);
        child ← on_fs (d_lookup (f_dentry f) name);
        dir ← on_fs (is_directory_dentry child);
        ok ← user_out (dirent_bytes ino (u64 (old_offset + i + 1)) reclen (if dir : bool then 4 else 8) name)
               (u64 (user_buffer + written));
        if negb ok then
          seek_file file (u64 (old_offset + i)) ≫= λ _,
          mret (if written =? 0 then ERR_FAULT else written)
        else getdents_loop rest file (i + 1) old_offset (written + reclen) count user_buffer
  end.

Definition sys_getdents64 (fd user_buffer count : Z) : M Z :=
  file ← fd_file fd;
  if file =? 0 then mret ERR_BADF else
  if MAX_IO_SIZE <? count then mret ERR_INVAL else
  if count =? 0 then mret 0 else
  f ← on_fs (get_file file);
  r ← match vt_fops vt (f_ops f) ≫= op_readdir with
      | Some readdir => on_fs (readdir file 8)
      | None => mret (VFS_ERR_NOTDIR, [])
      end;
  let '(entry_count, entries) := r in
  if entry_count <? 0 then mret entry_count
  else getdents_loop entries file 0 (f_offset f) 0 count user_buffer.

(** ** File status *)

(** Subdirectories of a directory, for the link count. *)
Fixpoint count_dirs (fuel : nat) (child n : Z) : K (fs_state A) Z :=
  match fuel with
  | O => k_diverge
  | S f =>
      if child =? 0 then mret n else
      d ← get_dentry child;
      dir ← is_directory_dentry child;
      count_dirs f (d_sibling d) (if dir : bool then n + 1 else n)
  end.

(** struct Stat *)
Definition stat_bytes (ino nlink mode size blocks : Z) : list Z :=
  le_bytes 8 1 ++ le_bytes 8 ino ++ le_bytes 8 nlink ++ le_bytes 4 mode ++ le_bytes 4 0 ++ le_bytes 4 0 ++
  le_bytes 4 0 ++ le_bytes 8 0 ++ le_bytes 8 size ++ le_bytes 8 PAGE_SIZE ++ le_bytes 8 blocks ++
  replicate 72 0.

Definition fill_stat (dentry : Z) : M (list Z) :=
  mask ← k_gets file_creation_mask;
  d ← on_fs (get_dentry dentry);
  i ← on_fs (get_inode (d_inode d));
  let blocks := u64 (i_size i + 511) / 512 in
  if bool_decide (i_type i = Directory) then
    nlink ← on_fs (with_fuel (λ k, count_dirs k (d_child d) 2));
    mret (stat_bytes (i_ino i) nlink (Z.lor 16384 (Z.land 511 (u32 (Z.lnot mask)))) (i_size i) blocks)
  else mret (stat_bytes (i_ino i) 1 (Z.lor 32768 (Z.land 438 (u32 (Z.lnot mask)))) (i_size i) blocks).

Definition sys_stat_dentry (dentry user_statbuf : Z) : M Z :=
  if dentry =? 0 then mret ERR_NOENT else
  d ← on_fs (get_dentry dentry);
  if d_inode d =? 0 then mret ERR_NOENT else
  st ← fill_stat dentry;
  ok ← user_out st user_statbuf;
  mret (if ok : bool then 0 else ERR_FAULT).

Definition sys_stat_path (path : list Z) (user_statbuf : Z) : M Z :=
  if negb (bool_decide (head path = Some SLASH)) then mret ERR_INVAL else
  dentry ← on_fs (path_walk vt path);
  if IS_ERR dentry then mret (PTR_ERR dentry) else
  if dentry =? 0 then mret ERR_NOENT else
  result ← sys_stat_dentry dentry user_statbuf;
  on_fs (dput vt dentry) ≫= λ _, mret result.

Definition sys_stat (user_path user_statbuf : Z) : M Z :=
  path ← resolve_user_path AT_FDCWD user_path 256;
  match path with inl e => mret e | inr path => sys_stat_path path user_statbuf end.

Definition sys_fstat (fd user_statbuf : Z) : M Z :=
  file ← fd_file fd;
  if (fd <? 3) || (file =? 0) then mret ERR_BADF else
  f ← on_fs (get_file file);
  sys_stat_dentry (f_dentry f) user_statbuf.

Definition sys_newfstatat (dirfd user_path user_statbuf flags : Z) : M Z :=
  if negb (flags =? 0) then mret ERR_INVAL else
  path ← resolve_user_path dirfd user_path 256;
  match path with inl e => mret e | inr path => sys_stat_path path user_statbuf end.

(** ** Input and output *)

(** One look at the keyboard controller when no event is queued. *)
Definition poll_controller : M unit := λ s,
  match inb_status (k_ports s) with
  | Ret (st, p) =>
      if Z.land st STATUS_OUTPUT_FULL =? 0 then Ret (tt, set_input (k_kbd s) p s)
      else match inb_data p with
           | Ret (b, p) => Ret (tt, set_input (decode_and_push b (k_kbd s)) p s)
           | Panic w => Panic w | Fault => Fault | Diverge => Diverge
           end
  | Panic w => Panic w | Fault => Fault | Diverge => Diverge
  end.
Definition poll_event : M (option KeyEvent) := λ s,
  let '(ev, k) := poll (k_kbd s) in Ret (ev, set_input k (k_ports s) s).

(** The loop waits for keys: it goes on as long as the controller is polled. *)
Fixpoint stdin_loop (fuel : nat) (buffer count read_count : Z) : M Z :=
  match fuel with
  | O => k_diverge
  | S f =>
      if read_count <? count then
        ev ← poll_event;
        match ev with
        | None => poll_controller ≫= λ _, stdin_loop f buffer count read_count
        | Some ev =>
            if negb (pressed ev) || (ascii ev =? 0) then stdin_loop f buffer count read_count else
            ok ← user_out [ascii ev] (u64 (buffer + read_count));
            if negb ok then mret (if read_count =? 0 then ERR_FAULT else read_count)
            else if ascii ev =? 10 then mret (read_count + 1)
            else stdin_loop f buffer count (read_count + 1)
        end
      else mret read_count
  end.

Definition CHUNK : Z := 128.
Fixpoint read_loop (fuel : nat) (file buffer count read_count : Z) : M Z :=
  match fuel with
  | O => k_diverge
  | S f =>
      if read_count <? count then
        let amount := if count - read_count <? CHUNK then count - read_count else CHUNK in
        rb ← on_fs (read vt file amount);
        let '(result, chunk) := rb in
        if result <? 0 then mret (if read_count =? 0 then result else read_count)
        else if result =? 0 then mret read_count
        else
          ok ← user_out (take (Z.to_nat result) chunk) (u64 (buffer + read_count));
          if negb ok then mret (if read_count =? 0 then ERR_FAULT else read_count)
          else if result <? amount then mret (read_count + result)
          else read_loop f file buffer count (read_count + result)
      else mret read_count
  end.

(** Every whole chunk is 128 bytes; a shorter one ends the loop. *)
Definition io_fuel (count : Z) : nat := S (S (Z.to_nat (count / CHUNK))).
(** Each key consumes an event or a look at the controller. *)
Definition stdin_fuel (s : kernel A) : nat := S (2 * length (status_in (k_ports s)) + 64).

Definition sys_read (fd buffer count : Z) : M Z :=
  file ← fd_file fd;
  if (2 <? fd) && (file =? 0) then mret ERR_BADF else
  if negb (fd =? 0) && (fd <? 3) then mret ERR_BADF else
  if count =? 0 then mret 0 else
  if MAX_IO_SIZE <? count then mret ERR_INVAL else
  if fd =? 0 then
    ok ← user_out [0] buffer;
    if negb ok then mret ERR_FAULT
    else (λ s, stdin_loop (stdin_fuel s) buffer count 0 s)
  else read_loop (io_fuel count) file buffer count 0.

Fixpoint write_loop (fuel : nat) (fd file buffer count written : Z) : M Z :=
  match fuel with
  | O => k_diverge
  | S f =>
      if written <? count then
        let amount := if count - written <? CHUNK then count - written else CHUNK in
        chunk ← user_in amount (u64 (buffer + written));
        match chunk with
        | None => mret (if written =? 0 then ERR_FAULT else written)
        | Some chunk =>
            if (fd =? 1) || (fd =? 2) then
              k_modify (λ s, set_console (console s ++ chunk) s) ≫= λ _,
              write_loop f fd file buffer count (written + amount)
            else
              result ← on_fs (write vt file chunk);
              if result <? 0 then mret (if written =? 0 then result else written)
              else if result =? 0 then mret written
              else if result <? amount then mret (written + result)
              else write_loop f fd file buffer count (written + result)
        end
      else mret written
  end.

Definition sys_write (fd buffer count : Z) : M Z :=
  file ← fd_file fd;
  if (2 <? fd) && (file =? 0) then mret ERR_BADF else
  if fd =? 0 then mret ERR_BADF else
  if count =? 0 then mret 0 else
  if MAX_IO_SIZE <? count then mret ERR_INVAL else
  write_loop (io_fuel count) fd file buffer count 0.

Fixpoint vector_loop (k : nat) (i fd user_iov total : Z) (write_to_file : bool) : M Z :=
  match k with
  | O => mret total
  | S k' =>
      let offset := i * 16 in
      let fail e := mret (if total =? 0 then e else total) in
      if (USER_TOP - user_iov <? offset) || (USER_TOP - user_iov - offset <? 16) then fail ERR_FAULT else
      iov ← user_in 16 (user_iov + offset);
      match iov with
      | None => fail ERR_FAULT
      | Some b =>
          let base := field 0 8 b in
          let length := field 8 8 b in
          if MAX_IO_SIZE - total <? length then fail ERR_INVAL else
          if length =? 0 then vector_loop k' (i + 1) fd user_iov total write_to_file else
          result ← (if write_to_file then sys_write fd base length else sys_read fd base length);
          if result <? 0 then fail result
          else if result <? length then mret (total + result)
          else vector_loop k' (i + 1) fd user_iov (total + result) write_to_file
      end
  end.

Definition sys_vector_io (fd user_iov iov_count : Z) (write_to_file : bool) : M Z :=
  if MAX_IOVEC_COUNT <? iov_count then mret ERR_INVAL else
  if (USER_TOP <=? user_iov) && negb (iov_count =? 0) then mret ERR_FAULT else
  fd_result ← (if write_to_file then sys_write fd 0 0 else sys_read fd 0 0);
  if fd_result <? 0 then mret fd_result
  else if iov_count =? 0 then mret 0
  else vector_loop (Z.to_nat iov_count) 0 fd user_iov 0 write_to_file.

(** ** Information *)

Definition on_apic {B} (m : K apic_state B) : M B := λ s,
  match m (k_apic s) with
  | Ret (b, a) =>
      Ret (b, MkKernel (k_x s) (open_files s) (fd_flags s) (current_directory s)
                (file_creation_mask s) (k_kbd s) (k_ports s) (console s) a)
  | Panic w => Panic w | Fault => Fault | Diverge => Diverge
  end.

Definition timespec_bytes (seconds nanoseconds : Z) : list Z := le_bytes 8 seconds ++ le_bytes 8 nanoseconds.
Definition sys_clock_gettime (clock_id user_time : Z) (get_resolution : bool) : M Z :=
  if negb (clock_id =? 1) then mret ERR_NOTSUP else
  if get_resolution && (user_time =? 0) then mret 0 else
  value ←
    (if get_resolution then mret (timespec_bytes 0 1000)
     else
       uptime_us ← on_apic get_uptime_us;
       mret (timespec_bytes (uptime_us / 1000000) (uptime_us mod 1000000 * 1000)));
  ok ← user_out value user_time;
  mret (if ok : bool then 0 else ERR_FAULT).

(** A field of struct UtsName: 65 bytes, the string cut at 64. *)
Definition set_field (value : list Z) : list Z :=
  let v := take 64 value in v ++ replicate (65 - length v) 0.
(** [version] is "SMP " with the compiler's date and time. *)
Definition sys_uname (version : list Z) (user_buffer : Z) : M Z :=
  let kernel_name := [83; 121; 110; 120] in
  let name := set_field kernel_name ++ set_field kernel_name ++ set_field [48; 46; 48; 46; 48] ++
              set_field version ++ set_field [120; 56; 54; 95; 54; 52] ++
              set_field [40; 110; 111; 110; 101; 41] in
  ok ← user_out name user_buffer;
  mret (if ok : bool then 0 else ERR_FAULT).

End Syscall.
