(* ===== verification/Dispatch.v ===== *)
(** * Processes and the dispatcher: proc/syscall_process.cpp, syscall_dispatch
    of proc/syscall.cpp

    execve copies its arguments into kernel memory, prepares the new image,
    switches to it and closes the descriptors marked close-on-exec; exit
    closes them all, leaves the address space and halts. The dispatcher maps
    the number in rax to a call. The local arrays of execve lie on the kernel
    stack behind the path buffer. *)

From S2P Require Import Prelude Bytes Mem KString Errno Pmm Paging Alloc Vfs Apic UserCopy ElfExec Exec Syscall.

Definition F_DUPFD_CLOEXEC : Z := 1030.

Definition SYS_READ : Z := 0.
Definition SYS_WRITE : Z := 1.
Definition SYS_OPEN : Z := 2.
Definition SYS_CLOSE : Z := 3.
Definition SYS_STAT : Z := 4.
Definition SYS_FSTAT : Z := 5.
Definition SYS_LSEEK : Z := 8.
Definition SYS_READV : Z := 19.
Definition SYS_WRITEV : Z := 20.
Definition SYS_ACCESS : Z := 21.
Definition SYS_DUP : Z := 32.
Definition SYS_DUP2 : Z := 33.
Definition SYS_GETPID : Z := 39.
Definition SYS_EXECVE : Z := 59.
Definition SYS_EXIT : Z := 60.
Definition SYS_UNAME : Z := 63.
Definition SYS_FCNTL : Z := 72.
Definition SYS_FSYNC : Z := 74.
Definition SYS_FDATASYNC : Z := 75.
Definition SYS_GETCWD : Z := 79.
Definition SYS_CHDIR : Z := 80.
Definition SYS_FCHDIR : Z := 81.
Definition SYS_UMASK : Z := 95.
Definition SYS_GETUID : Z := 102.
Definition SYS_GETGID : Z := 104.
Definition SYS_GETEUID : Z := 107.
Definition SYS_GETEGID : Z := 108.
Definition SYS_GETPPID : Z := 110.
Definition SYS_GETPGRP : Z := 111.
Definition SYS_GETTID : Z := 186.
Definition SYS_GETDENTS64 : Z := 217.
Definition SYS_CLOCK_GETTIME : Z := 228.
Definition SYS_CLOCK_GETRES : Z := 229.
Definition SYS_EXIT_GROUP : Z := 231.
Definition SYS_OPENAT : Z := 257.
Definition SYS_NEWFSTATAT : Z := 262.
Definition SYS_FACCESSAT : Z := 269.
Definition SYS_DUP3 : Z := 292.
Definition SYS_FACCESSAT2 : Z := 439.

Section Dispatch.
Context {A : Type} `{Allocator A} `{OnMachine A} (vt : vtables (fs_state A)) (hhdm kstack : Z) (query : Z → cpuid_result)
  (version : list Z).
Abbreviation M := (K (kernel A)).
Implicit Types s : kernel A.

Definition on_x {B} (m : K (xstate A) B) : M B := λ s,
  match m (k_x s) with
  | Ret (b, x) => Ret (b, set_k_x x s)
  | Panic w => Panic w | Fault => Fault | Diverge => Diverge
  end.

(** ** execve and exit *)

(** copy_user_vector into the pointers at [strings]: the result, the fill of
    the storage. *)
Definition vector_in (user_vector strings storage used : Z) : M (Z * Z) := λ s,
  match copy_user_vector hhdm (k_cr3 s) user_vector strings MAX_EXEC_STRINGS storage MAX_EXEC_STRING_BYTES
          (kstack + 1280) (kstack + 1288) used (k_mem s) with
  | Ret (r, used, m) => Ret ((r, used), set_k_mem m s)
  | Panic w => Panic w | Fault => Fault | Diverge => Diverge
  end.
(** The strings that [n] pointers name. *)
Fixpoint pointed_strings (m : ram) (strings : Z) (n : nat) : list (list Z) :=
  match n with
  | O => []
  | S n' => buf_str (load_bytes m (load64 m strings) (Z.to_nat MAX_EXEC_STRING_BYTES)) ::
            pointed_strings m (strings + 8) n'
  end.

(** Close the descriptors [close_it] selects, from [fd] on. *)
Fixpoint close_loop (k : nat) (fd : Z) (close_it : Z → bool) : M unit :=
  match k with
  | O => mret tt
  | S k' =>
      file ← fd_file fd;
      flags ← k_gets (λ s, default 0 (fd_flags s !! Z.to_nat fd));
      (if negb (file =? 0) && close_it flags
       then on_fs (close vt file) ≫= λ _, set_fd fd 0 0 else mret tt) ≫= λ _,
      close_loop k' (fd + 1) close_it
  end.
Definition close_fds (close_it : Z → bool) : M unit := close_loop (Z.to_nat (MAX_OPEN_FILES - 3)) 3 close_it.

Definition sys_execve (user_path user_argv user_envp : Z) (frame : RegisterFrame) : M (Z * RegisterFrame) :=
  rp ← user_path_in hhdm kstack user_path;
  let '(result, path) := rp in
  if result <? 0 then mret (result, frame) else
  storage ← on_fs (alloc MAX_EXEC_STRING_BYTES);
  if storage =? 0 then mret (ERR_NOMEM, frame) else
  let release := on_fs (free storage MAX_EXEC_STRING_BYTES) in
  let argv := kstack + 256 in
  let envp := kstack + 768 in
  ra ← vector_in user_argv argv storage 0;
  let '(argc, storage_used) := ra in
  if argc <? 0 then release ≫= λ _, mret (argc, frame) else
  re ← vector_in user_envp envp storage storage_used;
  let '(envc, storage_used) := re in
  if envc <? 0 then release ≫= λ _, mret (envc, frame) else
  m ← k_gets k_mem;
  ri ← on_x (prepare vt hhdm query (Some path) (Some (pointed_strings m argv (Z.to_nat argc))) argc
               (Some (pointed_strings m envp (Z.to_nat envc))) envc);
  let '(result, image) := ri in
  release ≫= λ _,
  if result <? 0 then mret (result, frame) else
  ia ← on_x (activate hhdm image frame);
  close_fds (λ flags, negb (Z.land flags FD_CLOEXEC =? 0)) ≫= λ _,
  mret (0, ia.2).

(** Afterwards the processor halts for good. *)
Definition sys_exit : M unit := close_fds (λ _, true) ≫= λ _, on_x (terminate_current hhdm).

(** ** The dispatcher *)

Definition sys_umask (mask : Z) : M Z :=
  previous ← k_gets file_creation_mask;
  k_modify (set_mask (Z.land (u32 mask) 511)) ≫= λ _, mret previous.
Definition sys_fsync (fd : Z) : M Z :=
  file ← fd_file fd; mret (if file =? 0 then ERR_BADF else 0).

(** The calls that neither change the frame nor end the process. *)
Definition plain_call (f : RegisterFrame) : M Z :=
  let n := rax f in
  if n =? SYS_READ then sys_read vt hhdm kstack (rdi f) (rsi f) (rdx f)
  else if n =? SYS_WRITE then sys_write vt hhdm kstack (rdi f) (rsi f) (rdx f)
  else if n =? SYS_READV then sys_vector_io vt hhdm kstack (rdi f) (rsi f) (rdx f) false
  else if n =? SYS_WRITEV then sys_vector_io vt hhdm kstack (rdi f) (rsi f) (rdx f) true
  else if n =? SYS_OPEN then sys_openat vt hhdm kstack AT_FDCWD (rdi f) (rsi f)
  else if n =? SYS_CLOSE then sys_close vt (rdi f)
  else if n =? SYS_LSEEK then sys_lseek (rdi f) (rsi f) (rdx f)
  else if n =? SYS_DUP then duplicate_fd vt (rdi f) 3 false false
  else if n =? SYS_DUP2 then duplicate_fd vt (rdi f) (rsi f) true false
  else if n =? SYS_DUP3 then
    if negb (Z.land (rdx f) (u32 (Z.lnot O_CLOEXEC)) =? 0) then mret ERR_INVAL
    else duplicate_fd vt (rdi f) (rsi f) true (negb (Z.land (rdx f) O_CLOEXEC =? 0))
  else if n =? SYS_FCNTL then
    if rsi f =? F_DUPFD_CLOEXEC then duplicate_fd vt (rdi f) (rdx f) false true
    else sys_fcntl vt (rdi f) (rsi f) (rdx f)
  else if (n =? SYS_FSYNC) || (n =? SYS_FDATASYNC) then sys_fsync (rdi f)
  else if n =? SYS_GETCWD then sys_getcwd hhdm kstack (rdi f) (rsi f)
  else if n =? SYS_CHDIR then sys_chdir vt hhdm kstack (rdi f)
  else if n =? SYS_FCHDIR then sys_fchdir (rdi f)
  else if n =? SYS_ACCESS then sys_accessat vt hhdm kstack AT_FDCWD (rdi f) (rsi f) 0
  else if (n =? SYS_FACCESSAT) || (n =? SYS_FACCESSAT2)
    then sys_accessat vt hhdm kstack (rdi f) (rsi f) (rdx f) (r10 f)
  else if n =? SYS_GETDENTS64 then sys_getdents64 vt hhdm kstack (rdi f) (rsi f) (rdx f)
  else if n =? SYS_STAT then sys_stat vt hhdm kstack (rdi f) (rsi f)
  else if n =? SYS_FSTAT then sys_fstat hhdm kstack (rdi f) (rsi f)
  else if (n =? SYS_GETPID) || (n =? SYS_GETTID) || (n =? SYS_GETPGRP) then mret 1
  else if (n =? SYS_GETUID) || (n =? SYS_GETGID) || (n =? SYS_GETEUID) || (n =? SYS_GETEGID) ||
          (n =? SYS_GETPPID) then mret 0
  else if n =? SYS_UMASK then sys_umask (rdi f)
  else if n =? SYS_UNAME then sys_uname hhdm kstack version (rdi f)
  else if n =? SYS_CLOCK_GETTIME then sys_clock_gettime hhdm kstack (rdi f) (rsi f) false
  else if n =? SYS_CLOCK_GETRES then sys_clock_gettime hhdm kstack (rdi f) (rsi f) true
  else if n =? SYS_OPENAT then sys_openat vt hhdm kstack (rdi f) (rsi f) (rdx f)
  else if n =? SYS_NEWFSTATAT then sys_newfstatat vt hhdm kstack (rdi f) (rsi f) (rdx f) (r10 f)
  else mret ERR_NOSYS.

(** The value of rax and the frame; [None]: the process has ended and the
    processor is halted. *)
Definition syscall_dispatch (frame : RegisterFrame) : M (option Z * RegisterFrame) :=
  if rax frame =? SYS_EXECVE then
    rf ← sys_execve (rdi frame) (rsi frame) (rdx frame) frame;
    mret (Some (u64 rf.1), rf.2)
  else if (rax frame =? SYS_EXIT) || (rax frame =? SYS_EXIT_GROUP) then
    sys_exit ≫= λ _, mret (None, frame)
  else
    r ← plain_call frame; mret (Some (u64 r), frame).

End Dispatch.
