(* ===== verification/FdSpec.v ===== *)
(** * The descriptor table

    Descriptors share open files: dup makes two entries point to one file, and
    the file goes away with its last entry. [files_ok table fs] says that the
    reference count of every open file is the number of its entries. The
    theorem shows that closing and duplicating keep this, whatever sequence of
    calls a process makes, and that no call touches a file that is gone. *)

From S2P Require Import Prelude Bytes Mem KString Errno Pmm Paging Alloc Vfs VfsTree FileSpec Keyboard Gdt Apic UserCopy ElfExec Exec.
From S2P Require Import Syscall Dispatch.

Definition refs (f : Z) (table : list Z) : Z := Z.of_nat (length (filter (λ x, x = f) table)).
Definition users (d : Z) (fm : gmap Z File) : Z := Z.of_nat (size (filter (λ kv, f_dentry kv.2 = d) fm)).

Lemma refs_insert f table i a b : table !! i = Some a →
  refs f (<[i := b]> table) = refs f table - (if decide (a = f) then 1 else 0) + (if decide (b = f) then 1 else 0).
Proof.
  unfold refs. intros Hi. rewrite <- (take_drop_middle table i a Hi) at 2.
  rewrite insert_take_drop by (by eapply lookup_lt_Some).
  rewrite !filter_app, !filter_cons, !length_app. repeat case_decide; simpl; lia.
Qed.
Lemma refs_pos f table i : table !! i = Some f → 0 < refs f table.
Proof.
  intros Hi. unfold refs. assert (Hin : f ∈ filter (λ x, x = f) table).
  { apply list_elem_of_filter. split; [done|]. by eapply list_elem_of_lookup_2. }
  destruct (filter _ _); [by apply not_elem_of_nil in Hin|simpl; lia].
Qed.
Lemma refs_le f table : refs f table ≤ Z.of_nat (length table).
Proof. unfold refs. pose proof (length_filter (λ x, x = f) table). lia. Qed.

Lemma users_delete d fm f F : fm !! f = Some F →
  users d (delete f fm) = users d fm - (if decide (f_dentry F = d) then 1 else 0).
Proof.
  intros Hf. unfold users. rewrite map_filter_delete.
  destruct (decide (f_dentry F = d)) as [E|E].
  - assert (Hn : filter (λ kv : Z * File, f_dentry kv.2 = d) fm !! f = Some F) by (by apply map_lookup_filter_Some).
    rewrite map_size_delete_Some by (by eexists).
    assert (size (filter (λ kv : Z * File, f_dentry kv.2 = d) fm) ≠ 0%nat); [|lia].
    intros H0. apply map_size_empty_iff in H0. by rewrite H0 in Hn.
  - rewrite delete_id; [lia|]. apply map_lookup_filter_None. right. intros x Hx. cbn [snd]. congruence.
Qed.
Lemma users_insert d fm f F F' : fm !! f = Some F → f_dentry F' = f_dentry F → users d (<[f := F']> fm) = users d fm.
Proof.
  intros Hf He. unfold users. rewrite map_filter_insert. cbn [snd]. rewrite He. case_decide as E.
  - rewrite map_size_insert_Some; [done|]. exists F. by apply map_lookup_filter_Some.
  - rewrite map_filter_delete, delete_id; [done|]. apply map_lookup_filter_None. right. intros x Hx. cbn [snd]. congruence.
Qed.

Section Fd.
Context {A : Type} {Halloc : Allocator A} {Hmach : OnMachine A} {Hspec : AllocatorSpec A} (vt : vtables (fs_state A)).
Implicit Types (fs : fs_state A) (k : kernel A) (table : list Z).

Record files_ok table fs : Prop := {
  fo_len : (length table = 32)%nat;
  fo_open : ∀ f, f ≠ 0 → f ∈ table → is_Some (files fs !! f);
  fo_count : ∀ f F, files fs !! f = Some F → f ≠ 0 ∧ f_ref_count F = refs f table ∧ 0 < refs f table;
  fo_dentry : ∀ f F, files fs !! f = Some F →
    f_dentry F ≠ 0 ∧ ∃ d, dentries fs !! f_dentry F = Some d ∧ users (f_dentry F) (files fs) < d_ref_count d < 2 ^ 31;
  fo_heap : ∃ L, live (heap fs) L ∧ ∀ f, is_Some (files fs !! f) → L !! f = Some sizeof_File
}.

(** Dropping one entry of the table together with its reference. *)
Lemma drop_entry table fs i f : files_ok table fs → table !! i = Some f → f ≠ 0 →
  ∃ fs', close vt f fs = Ret (tt, fs') ∧ files_ok (<[i := 0]> table) fs'.
Proof.
  intros [Hlen Hopen Hcount Hdent (L & Hl & HL)] Hi Hf.
  destruct (Hopen f Hf) as [F HF]; [by eapply list_elem_of_lookup_2|].
  destruct (Hcount f F HF) as (_ & Hc & Hpos). destruct (Hdent f F HF) as (Hd0 & d & Hd & Hdr).
  pose proof (refs_le f table) as Hle. rewrite Hlen in Hle.
  assert (Href : ∀ g, refs g (<[i := 0]> table) = refs g table - (if decide (f = g) then 1 else 0) + (if decide (0 = g) then 1 else 0))
    by (intros g; by apply refs_insert).
  assert (Hin : ∀ g, g ≠ 0 → g ∈ <[i := 0]> table → g ∈ table).
  { intros g Hg (j & Hj)%list_elem_of_lookup_1. apply list_lookup_insert_Some in Hj as [(-> & <- & _)|[_ Hj]]; [done|].
    by eapply list_elem_of_lookup_2. }
  destruct (decide (refs f table = 1)) as [E1|E1].
  - assert (Hu : 0 < users (f_dentry F) (files fs)).
    { unfold users. destruct (size _) eqn:Es; [|lia]. apply map_size_empty_iff in Es.
      assert (Hn : filter (λ kv : Z * File, f_dentry kv.2 = f_dentry F) (files fs) !! f = Some F)
        by (by apply map_lookup_filter_Some). by rewrite Es in Hn. }
    destruct (close_last vt fs f F d L) as (h & Hl' & Hrun); [done|done|lia|done|done|lia|done|apply HL; by eexists|].
    eexists. split; [exact Hrun|]. split; cbn [files set_files heap set_heap dentries bump set_dentries].
    + by rewrite length_insert.
    + intros g Hg Hgt. rewrite lookup_delete_ne; [by apply Hopen; [|apply Hin]|]. intros <-.
      assert (Hz : 0 < refs f (<[i := 0]> table)).
      { apply list_elem_of_lookup_1 in Hgt as (j & Hj). by eapply refs_pos. }
      rewrite Href in Hz. rewrite decide_True in Hz by done. rewrite (decide_False (P := 0 = f)) in Hz by done. lia.
    + intros g G HG. apply lookup_delete_Some in HG as [Hne HG]. destruct (Hcount g G HG) as (Hg & Hgc & Hgp).
      rewrite Href, (decide_False (P := f = g)), (decide_False (P := 0 = g)) by done. split; [done|lia].
    + intros g G HG. apply lookup_delete_Some in HG as [Hne HG]. destruct (Hdent g G HG) as (Hg0 & dg & Hdg & Hgr).
      split; [done|]. rewrite (users_delete _ _ f F HF). destruct (decide (f_dentry F = f_dentry G)) as [E|E].
      * rewrite E, lookup_alter_eq, Hdg. eexists. split; [done|]. cbn [with_ref d_ref_count]. lia.
      * rewrite lookup_alter_ne by done. exists dg. split; [done|lia].
    + exists (delete f L). split; [done|]. intros g [G HG]. apply lookup_delete_Some in HG as [Hne HG].
      rewrite lookup_delete_ne by done. apply HL. by eexists.
  - assert (H2 : 1 < f_ref_count F < 2 ^ 31) by lia.
    eexists. split; [by apply (close_shared vt)|]. split; cbn [files set_files heap dentries].
    + by rewrite length_insert.
    + intros g Hg Hgt. destruct (decide (g = f)) as [->|Hne]; [rewrite lookup_insert_eq; by eexists|].
      rewrite lookup_insert_ne by done. by apply Hopen; [|apply Hin].
    + intros g G HG. rewrite Href. apply lookup_insert_Some in HG as [[<- <-]|[Hne HG]].
      * rewrite decide_True, (decide_False (P := 0 = f)) by done. cbn [file_with_ref f_ref_count]. split; [done|lia].
      * destruct (Hcount g G HG) as (Hg & Hgc & Hgp).
        rewrite (decide_False (P := f = g)), (decide_False (P := 0 = g)) by done. split; [done|lia].
    + intros g G HG. rewrite (users_insert _ _ f F) by done.
      apply lookup_insert_Some in HG as [[<- <-]|[Hne HG]]; [by apply (Hdent f F HF)|by apply (Hdent g G HG)].
    + exists L. split; [done|]. intros g [G HG]. apply HL.
      apply lookup_insert_Some in HG as [[<- _]|[_ HG]]; by eexists.
Qed.

(** Pointing a free entry to a file in use. *)
Lemma share_entry table fs i f F : files_ok table fs → table !! i = Some 0 → f ∈ table → files fs !! f = Some F →
  files_ok (<[i := f]> table) (set_files (<[f := file_with_ref F (atomic_inc (f_ref_count F))]> (files fs)) fs).
Proof.
  intros [Hlen Hopen Hcount Hdent (L & Hl & HL)] Hi Hin HF. destruct (Hcount f F HF) as (Hf & Hc & Hpos).
  pose proof (refs_le f table) as Hle. rewrite Hlen in Hle. unfold atomic_inc. rewrite s32_small by lia.
  assert (Href : ∀ g, g ≠ 0 → refs g (<[i := f]> table) = refs g table + (if decide (f = g) then 1 else 0)).
  { intros g Hg. rewrite (refs_insert g table i 0 f Hi), (decide_False (P := 0 = g)) by done. lia. }
  split; cbn [files set_files heap dentries].
  - by rewrite length_insert.
  - intros g Hg Hgt. destruct (decide (g = f)) as [->|Hne]; [rewrite lookup_insert_eq; by eexists|].
    rewrite lookup_insert_ne by done. apply Hopen; [done|]. apply list_elem_of_lookup_1 in Hgt as (j & Hj).
    apply list_lookup_insert_Some in Hj as [(_ & <- & _)|[_ Hj]]; [done|]. by eapply list_elem_of_lookup_2.
  - intros g G HG. apply lookup_insert_Some in HG as [[<- <-]|[Hne HG]].
    + rewrite Href, decide_True by done. cbn [file_with_ref f_ref_count]. split; [done|lia].
    + destruct (Hcount g G HG) as (Hg & Hgc & Hgp). rewrite Href, decide_False by done. split; [done|lia].
  - intros g G HG. rewrite (users_insert _ _ f F) by done.
    apply lookup_insert_Some in HG as [[<- <-]|[Hne HG]]; [by apply (Hdent f F HF)|by apply (Hdent g G HG)].
  - exists L. split; [done|]. intros g [G HG]. apply HL.
    apply lookup_insert_Some in HG as [[<- _]|[_ HG]]; by eexists.
Qed.

(** ** The table a process sees

    Per descriptor the file (0 when closed) and the close-on-exec flag. *)

Abbreviation fd_table := (list (Z * Z)).
Definition entry (t : fd_table) (fd : Z) : Z * Z :=
  if MAX_OPEN_FILES <=? fd then (0, 0) else default (0, 0) (t !! Z.to_nat fd).
(** The lowest closed descriptor from [fd] on, among [n]. *)
Fixpoint lowest_closed (t : fd_table) (n : nat) (fd : Z) : option Z :=
  match n with
  | O => None
  | S n' => if (entry t fd).1 =? 0 then Some fd else lowest_closed t n' (fd + 1)
  end.

Inductive fd_call :=
| CClose (fd : Z)                                     (** close *)
| CDupTo (old new : Z) (cloexec : bool)               (** dup2, dup3 *)
| CDupFrom (old minimum : Z) (cloexec : bool)         (** dup, fcntl F_DUPFD *)
| CCloseAll (on_exec : bool).                         (** exit, or execve's close-on-exec *)

Definition flag (cloexec : bool) : Z := if cloexec then FD_CLOEXEC else 0.
Definition dup_spec (t : fd_table) (old target : Z) (exact cloexec : bool) : Z * fd_table :=
  if (entry t old).1 =? 0 then (ERR_BADF, t)
  else if target <? 0 then (target, t)
  else if old =? target then (if exact && cloexec then ERR_INVAL else target, t)
  else (target, <[Z.to_nat target := ((entry t old).1, flag cloexec)]> t).
Definition closed_by (on_exec : bool) (i : nat) (e : Z * Z) : bool :=
  (3 <=? i)%nat && negb (e.1 =? 0) && (negb on_exec || negb (Z.land e.2 FD_CLOEXEC =? 0)).
Definition call_spec (c : fd_call) (t : fd_table) : Z * fd_table :=
  match c with
  | CClose fd => if (fd <? 3) || ((entry t fd).1 =? 0) then (ERR_BADF, t) else (0, <[Z.to_nat fd := (0, 0)]> t)
  | CDupTo old new cloexec => dup_spec t old (if MAX_OPEN_FILES <=? new then ERR_BADF else new) true cloexec
  | CDupFrom old minimum cloexec =>
      dup_spec t old
        (if MAX_OPEN_FILES <=? minimum then ERR_BADF
         else default ERR_NFILE (lowest_closed t (Z.to_nat (MAX_OPEN_FILES - minimum)) minimum)) false cloexec
  | CCloseAll on_exec => (0, imap (λ i e, if closed_by on_exec i e then (0, 0) else e) t)
  end.

(** The calls of the kernel. *)
Definition run_call (c : fd_call) : K (kernel A) Z :=
  match c with
  | CClose fd => sys_close vt fd
  | CDupTo old new cloexec => duplicate_fd vt old new true cloexec
  | CDupFrom old minimum cloexec => duplicate_fd vt old minimum false cloexec
  | CCloseAll on_exec =>
      close_fds vt (λ flags, negb on_exec || negb (Z.land flags FD_CLOEXEC =? 0)) ≫= λ _, mret 0
  end.
Fixpoint run_calls (cs : list fd_call) : K (kernel A) (list Z) :=
  match cs with
  | [] => mret []
  | c :: cs' => r ← run_call c; rs ← run_calls cs'; mret (r :: rs)
  end.
Fixpoint calls_spec (cs : list fd_call) (t : fd_table) : list Z * fd_table :=
  match cs with
  | [] => ([], t)
  | c :: cs' => let '(r, t) := call_spec c t in let '(rs, t) := calls_spec cs' t in (r :: rs, t)
  end.
(** Arguments are unsigned. *)
Definition call_args (c : fd_call) : Prop :=
  match c with
  | CClose fd => 0 ≤ fd
  | CDupTo a b _ | CDupFrom a b _ => 0 ≤ a ∧ 0 ≤ b
  | CCloseAll _ => True
  end.

Definition view k : fd_table := zip (open_files k) (fd_flags k).
Record fd_inv k : Prop := {
  fd_files : files_ok (open_files k) (k_fs k);
  fd_len : (length (fd_flags k) = 32)%nat
}.

Lemma view_entry k fd : fd_inv k → 0 ≤ fd →
  fd_file fd k = Ret ((entry (view k) fd).1, k) ∧
  (fd < 32 → open_files k !! Z.to_nat fd = Some (entry (view k) fd).1 ∧
             fd_flags k !! Z.to_nat fd = Some (entry (view k) fd).2).
Proof.
  intros [Hf Hl] H0. pose proof (fo_len _ _ Hf) as Ho. unfold fd_file, k_gets, entry, view, MAX_OPEN_FILES.
  destruct (Z.leb_spec 32 fd) as [|Hlt]; [split; [done|lia]|].
  destruct (lookup_lt_is_Some_2 (open_files k) (Z.to_nat fd)) as [f Ef]; [lia|].
  destruct (lookup_lt_is_Some_2 (fd_flags k) (Z.to_nat fd)) as [g Eg]; [lia|].
  rewrite lookup_zip_with, Ef, Eg. done.
Qed.

Lemma view_len k : fd_inv k → length (view k) = 32%nat.
Proof. intros [Hf Hl]. unfold view. rewrite length_zip_with, Hl, (fo_len _ _ Hf). done. Qed.
Lemma view_set k i f g o fl : open_files k = o → fd_flags k = fl →
  zip (<[i := f]> o) (<[i := g]> fl) = <[i := (f, g)]> (view k).
Proof. intros <- <-. unfold view. by rewrite <- insert_zip_with. Qed.

(** *** Each call *)

Definition refines {B} (m : K (kernel A) B) k (b : B) (t : fd_table) : Prop :=
  ∃ k', m k = Ret (b, k') ∧ fd_inv k' ∧ view k' = t.

Lemma on_fs_ret {B} (m : K (fs_state A) B) k b fs : m (k_fs k) = Ret (b, fs) → on_fs m k = Ret (b, set_k_fs fs k).
Proof. intros E. unfold on_fs. by rewrite E. Qed.

Lemma close_entry k fd : fd_inv k → 0 ≤ fd < 32 → (entry (view k) fd).1 ≠ 0 →
  refines (on_fs (close vt (entry (view k) fd).1) ≫= λ _, set_fd fd 0 0) k tt (<[Z.to_nat fd := (0, 0)]> (view k)).
Proof.
  intros Hinv Hfd Hne. destruct (view_entry k fd Hinv ltac:(lia)) as [_ He]. destruct (He ltac:(lia)) as [Ho _].
  destruct (drop_entry _ _ _ _ (fd_files _ Hinv) Ho Hne) as (fs' & Hr & Hok).
  eexists. split; [rewrite (K_bind_ret _ _ _ _ _ (on_fs_ret _ _ _ _ Hr)); done|]. split.
  - split; cbn; [exact Hok|]. rewrite length_insert. apply (fd_len _ Hinv).
  - by apply view_set.
Qed.

Lemma sys_close_refines k fd : fd_inv k → 0 ≤ fd →
  refines (run_call (CClose fd)) k (call_spec (CClose fd) (view k)).1 (call_spec (CClose fd) (view k)).2.
Proof.
  intros Hinv H0. unfold refines. cbn [run_call call_spec]. unfold sys_close.
  destruct (view_entry k fd Hinv H0) as [Hr _]. rewrite (K_bind_ret _ _ _ _ _ Hr).
  destruct (_ || _) eqn:E; [by exists k|]. apply orb_false_iff in E as [E1%Z.ltb_ge E2%Z.eqb_neq].
  assert (Hlt : fd < 32).
  { destruct (decide (fd < 32)); [done|]. exfalso. apply E2. unfold entry, MAX_OPEN_FILES.
    by rewrite (proj2 (Z.leb_le 32 fd)) by lia. }
  destruct (close_entry k fd Hinv) as (k' & Hrun & Hi & Hv); [lia|done|].
  exists k'. split; [|done]. apply K_bind_inv in Hrun as ([] & k1 & H1 & H2).
  rewrite (K_bind_ret _ _ _ _ _ H1), (K_bind_ret _ _ _ _ _ H2). done.
Qed.

Lemma free_fd_loop_spec k n fd : fd_inv k → 0 ≤ fd → free_fd_loop n fd k = Ret (lowest_closed (view k) n fd, k).
Proof.
  intros Hinv. revert fd. induction n as [|n IH]; intros fd H0; [done|]. cbn [free_fd_loop lowest_closed].
  destruct (view_entry k fd Hinv H0) as [Hr _]. rewrite (K_bind_ret _ _ _ _ _ Hr).
  destruct (_ =? 0); [done|]. apply IH. lia.
Qed.
Lemma lowest_closed_range t n fd r : lowest_closed t n fd = Some r → fd ≤ r < fd + Z.of_nat n.
Proof.
  revert fd. induction n as [|n IH]; intros fd; simpl; [done|]. destruct (_ =? 0); [intros [= <-]; lia|].
  intros Hr%IH. lia.
Qed.

(** Making room at a descriptor. *)
Lemma make_room k fd : fd_inv k → 0 ≤ fd < 32 →
  ∃ fs, (if (entry (view k) fd).1 =? 0 then mret tt else on_fs (close vt (entry (view k) fd).1)) k
        = Ret (tt, set_k_fs fs k) ∧ files_ok (<[Z.to_nat fd := 0]> (open_files k)) fs.
Proof.
  intros Hinv Hfd. destruct (view_entry k fd Hinv ltac:(lia)) as [_ He]. destruct (He ltac:(lia)) as [Ho _].
  destruct (Z.eqb_spec (entry (view k) fd).1 0) as [E|E].
  - exists (k_fs k). split; [by destruct k as [[]]|]. rewrite E in Ho. rewrite list_insert_id by done. apply (fd_files _ Hinv).
  - destruct (drop_entry _ _ _ _ (fd_files _ Hinv) Ho E) as (fs' & Hr & Hok). exists fs'. split; [|done].
    by apply on_fs_ret.
Qed.

(** duplicate_fd from the point where the target is known. *)
Definition dup_at (old_fd target : Z) (exact close_on_exec : bool) : K (kernel A) Z :=
  if target <? 0 then mret target else
  if old_fd =? target then mret (if exact && close_on_exec then ERR_INVAL else target) else
  current ← fd_file target;
  (if current =? 0 then mret tt else on_fs (close vt current)) ≫= λ _,
  old ← fd_file old_fd;
  f ← on_fs (get_file old);
  on_fs (put_file old (file_with_ref f (atomic_inc (f_ref_count f)))) ≫= λ _,
  set_fd target old (if close_on_exec then FD_CLOEXEC else 0) ≫= λ _,
  mret target.

Lemma dup_at_refines k old target exact cloexec : fd_inv k → 0 ≤ old → target < 32 → (entry (view k) old).1 ≠ 0 →
  let r := dup_spec (view k) old target exact cloexec in
  refines (dup_at old target exact cloexec) k r.1 r.2.
Proof.
  intros Hinv H0 Ht Hne r. unfold r, dup_spec, dup_at, refines. rewrite (proj2 (Z.eqb_neq _ 0)) by done.
  destruct (Z.ltb_spec target 0); [by exists k|]. destruct (Z.eqb_spec old target) as [|Hot]; [by exists k|].
  destruct (view_entry k target Hinv ltac:(lia)) as [Hrt _]. rewrite (K_bind_ret _ _ _ _ _ Hrt).
  destruct (make_room k target Hinv ltac:(lia)) as (fs & Hr & Hok). rewrite (K_bind_ret _ _ _ _ _ Hr).
  destruct (view_entry k old Hinv ltac:(lia)) as [Hro Heo]. set (f := (entry (view k) old).1) in *.
  assert (Hold : old < 32).
  { destruct (decide (old < 32)); [done|]. exfalso. apply Hne. unfold f, entry, MAX_OPEN_FILES.
    by rewrite (proj2 (Z.leb_le 32 old)) by lia. }
  destruct (Heo Hold) as [Hfo _].
  assert (Hro' : fd_file old (set_k_fs fs k) = Ret (f, set_k_fs fs k)).
  { revert Hro. unfold fd_file, k_gets. cbn [set_k_fs set_k_x open_files]. intros [= ->]. done. }
  rewrite (K_bind_ret _ _ _ _ _ Hro').
  assert (Hlen : (length (open_files k) = 32)%nat) by apply (fo_len _ _ (fd_files _ Hinv)).
  assert (Hin : f ∈ <[Z.to_nat target := 0]> (open_files k)).
  { apply (list_elem_of_lookup_2 _ (Z.to_nat old)). by rewrite list_lookup_insert_ne by lia. }
  destruct (fo_open _ _ Hok f Hne Hin) as [F HF].
  rewrite (K_bind_ret _ _ _ F (set_k_fs fs k))
    by (unfold on_fs, get_file; cbn [set_k_fs set_k_x k_fs k_x x_fs set_x_fs]; rewrite HF; by destruct k as [[]]).
  pose proof (share_entry _ _ (Z.to_nat target) f F Hok
    ltac:(apply list_lookup_insert_eq; lia) Hin HF) as Hsh.
  rewrite list_insert_insert_eq in Hsh.
  eexists. split; [erewrite K_bind_ret by reflexivity; erewrite K_bind_ret by reflexivity; done|]. split.
  - split; cbn; [exact Hsh|]. rewrite length_insert. apply (fd_len _ Hinv).
  - by apply view_set.
Qed.

Lemma dup_refines k old new exact cloexec : fd_inv k → 0 ≤ old → 0 ≤ new →
  let c := if exact : bool then CDupTo old new cloexec else CDupFrom old new cloexec in
  refines (run_call c) k (call_spec c (view k)).1 (call_spec c (view k)).2.
Proof.
  intros Hinv H0 Hn c.
  set (target := if exact then (if MAX_OPEN_FILES <=? new then ERR_BADF else new)
    else (if MAX_OPEN_FILES <=? new then ERR_BADF
          else default ERR_NFILE (lowest_closed (view k) (Z.to_nat (MAX_OPEN_FILES - new)) new))).
  assert (Hcs : call_spec c (view k) = dup_spec (view k) old target exact cloexec) by (by destruct exact).
  assert (Hrun : run_call c = duplicate_fd vt old new exact cloexec) by (by destruct exact).
  rewrite Hcs, Hrun. unfold refines, duplicate_fd.
  destruct (view_entry k old Hinv H0) as [Hr _]. rewrite (K_bind_ret _ _ _ _ _ Hr).
  destruct (Z.eqb_spec (entry (view k) old).1 0) as [E|E].
  { exists k. unfold dup_spec. by rewrite E. }
  assert (Htgt : (if negb exact then find_free_fd new
    else mret (if MAX_OPEN_FILES <=? new then ERR_BADF else new)) k = Ret (target, k)).
  { unfold target. destruct exact; [done|]. cbn [negb]. unfold find_free_fd.
    destruct (MAX_OPEN_FILES <=? new) eqn:El; [done|]. by rewrite (K_bind_ret _ _ _ _ _ (free_fd_loop_spec _ _ _ Hinv Hn)). }
  rewrite (K_bind_ret _ _ _ _ _ Htgt). fold (dup_at old target exact cloexec).
  apply dup_at_refines; try done. unfold target, MAX_OPEN_FILES, ERR_BADF, ERR_NFILE.
  destruct (Z.leb_spec 32 new); [by destruct exact|]. destruct exact; [lia|].
  destruct (lowest_closed _ _ _) as [x|] eqn:Ex; [|done]. apply lowest_closed_range in Ex. unfold MAX_OPEN_FILES in Ex. change (x < 32). lia.
Qed.

Lemma close_loop_refines sel n k fd : fd_inv k → 0 ≤ fd → fd + Z.of_nat n ≤ 32 →
  ∃ k', close_loop vt n fd sel k = Ret (tt, k') ∧ fd_inv k' ∧
    ∀ j, view k' !! j =
      (λ e, if (Z.to_nat fd <=? j)%nat && (j <? Z.to_nat fd + n)%nat && (negb (e.1 =? 0) && sel e.2) then (0, 0) else e)
        <$> view k !! j.
Proof.
  revert k fd. induction n as [|n IH]; intros k fd Hinv H0 Hn; cbn [close_loop].
  { exists k. split; [done|]. split; [done|]. intros j. destruct (view k !! j) as [e|]; [|done]. simpl.
    destruct (Z.to_nat fd <=? j)%nat eqn:E1, (j <? Z.to_nat fd + 0)%nat eqn:E2; try done.
    apply Nat.leb_le in E1. apply Nat.ltb_lt in E2. lia. }
  destruct (view_entry k fd Hinv H0) as [Hr He]. destruct (He ltac:(lia)) as [Ho Hg].
  rewrite (K_bind_ret _ _ _ _ _ Hr). rewrite (K_bind_ret _ _ k (entry (view k) fd).2 k) by (unfold k_gets; by rewrite Hg).
  set (c := negb ((entry (view k) fd).1 =? 0) && sel (entry (view k) fd).2).
  assert (Hstep : refines (if c then on_fs (close vt (entry (view k) fd).1) ≫= λ _, set_fd fd 0 0 else mret tt) k tt
    (if c then <[Z.to_nat fd := (0, 0)]> (view k) else view k)).
  { destruct c eqn:Ec; [|by exists k]. apply close_entry; [done|lia|]. unfold c in Ec. zbool. done. }
  destruct Hstep as (k1 & Hr1 & Hinv1 & Hv1). rewrite (K_bind_ret _ _ _ _ _ Hr1).
  destruct (IH k1 (fd + 1) Hinv1) as (k' & Hr' & Hinv' & Hv'); [lia|lia|].
  exists k'. split; [done|]. split; [done|]. intros j. rewrite Hv', Hv1.
  assert (Hcur : view k !! Z.to_nat fd = Some (entry (view k) fd)).
  { unfold view at 1. rewrite lookup_zip_with, Ho, Hg. simpl. by destruct (entry (view k) fd). }
  assert (Hlv : length (view k) = 32%nat) by (by apply view_len).
  destruct (decide (j = Z.to_nat fd)) as [->|Hj].
  - rewrite Hcur. cbn [fmap option_fmap option_map].
    replace (Z.to_nat fd <=? Z.to_nat fd)%nat with true by (symmetry; by apply Nat.leb_le).
    replace (Z.to_nat fd <? Z.to_nat fd + S n)%nat with true by (symmetry; apply Nat.ltb_lt; lia).
    cbn [andb]. fold c. destruct c; [rewrite list_lookup_insert_eq by lia|rewrite Hcur]; cbn [fmap option_fmap option_map];
      replace (Z.to_nat (fd + 1) <=? Z.to_nat fd)%nat with false by (symmetry; apply Nat.leb_gt; lia); done.
  - assert (E : (if c then <[Z.to_nat fd := (0, 0)]> (view k) else view k) !! j = view k !! j).
    { destruct c; [|done]. by rewrite list_lookup_insert_ne by congruence. }
    rewrite E. destruct (view k !! j) as [e|]; [|done]. cbn [fmap option_fmap option_map]. f_equal.
    assert (((Z.to_nat (fd + 1) <=? j) && (j <? Z.to_nat (fd + 1) + n))%nat =
            ((Z.to_nat fd <=? j) && (j <? Z.to_nat fd + S n))%nat) as ->; [|done].
    destruct (Nat.leb_spec (Z.to_nat (fd + 1)) j), (Nat.leb_spec (Z.to_nat fd) j),
      (Nat.ltb_spec j (Z.to_nat (fd + 1) + n)), (Nat.ltb_spec j (Z.to_nat fd + S n)); try done; lia.
Qed.

Lemma run_call_refines k c : fd_inv k → call_args c →
  refines (run_call c) k (call_spec c (view k)).1 (call_spec c (view k)).2.
Proof.
  intros Hinv Ha. destruct c as [fd|old new ce|old new ce|oe].
  - by apply sys_close_refines.
  - destruct Ha. by apply (dup_refines k old new true).
  - destruct Ha. by apply (dup_refines k old new false).
  - destruct (close_loop_refines (λ flags, negb oe || negb (Z.land flags FD_CLOEXEC =? 0)) 29 k 3 Hinv)
      as (k' & Hr & Hinv' & Hv); [lia|lia|]. exists k'. cbn [run_call call_spec fst snd]. unfold close_fds.
    change (Z.to_nat (MAX_OPEN_FILES - 3)) with 29%nat. rewrite (K_bind_ret _ _ _ _ _ Hr). split; [done|]. split; [done|].
    apply list_eq. intros j. rewrite Hv, list_lookup_imap. destruct (view k !! j) as [e|] eqn:Ej; [|done].
    cbn [fmap option_fmap option_map]. f_equal. unfold closed_by. change (Z.to_nat 3) with 3%nat.
    apply lookup_lt_Some in Ej. rewrite (view_len _ Hinv) in Ej.
    replace (j <? 3 + 29)%nat with true by (symmetry; by apply Nat.ltb_lt). by rewrite andb_true_r, andb_assoc.
Qed.

(** C7: the descriptor calls. From a state in which every open file's
    reference count is the number of its descriptors, any sequence of close,
    dup, dup2, dup3, fcntl duplication and the closing loops of execve and
    exit returns (no call touches a freed file), gives the results and the
    descriptor table of the specification [call_spec], in which a descriptor
    is just a table entry, and ends in such a state again. *)
Theorem descriptor_calls_refine (k : kernel A) (calls : list fd_call) (Hinv : fd_inv k) (Hargs : Forall call_args calls) :
  ∃ k', run_calls calls k = Ret ((calls_spec calls (view k)).1, k') ∧ fd_inv k' ∧
    view k' = (calls_spec calls (view k)).2.
Proof.
  revert k Hinv. induction Hargs as [|c calls Hc Hcs IH]; intros k Hinv; cbn [run_calls calls_spec]; [by exists k|].
  destruct (run_call_refines k c Hinv Hc) as (k1 & Hr & Hinv1 & Hv1). rewrite (K_bind_ret _ _ _ _ _ Hr).
  destruct (IH k1 Hinv1) as (k2 & Hr2 & Hinv2 & Hv2). rewrite (K_bind_ret _ _ _ _ _ Hr2).
  exists k2. rewrite Hv1 in *. destruct (call_spec c (view k)) as [r t]. cbn [fst snd] in *.
  destruct (calls_spec calls t) as [rs t']. done.
Qed.
End Fd.

(** One open file, at descriptor 3. *)
Definition sample_file : Z := KERNEL_BASE.
Definition sample_fs : fs_state (Alloc.bump * machine) :=
  MkFs {[KERNEL_BASE + 8192 := MkInode 1 Regular 100 1 0 0 0 0]}
    {[KERNEL_BASE + 4096 := MkDentry [] (KERNEL_BASE + 8192) 0 0 0 2]} {[sample_file := MkFile (KERNEL_BASE + 4096) 0 0 0 1]}
    ∅ ∅ ∅ ∅ 0 0 0 0 (Bump 10 3, Machine (λ _, 0) 0 0 0).
Definition sample_kernel : kernel (Alloc.bump * machine) :=
  MkKernel (MkX sample_fs 0 0 0 (λ _, 0) (setup_descriptors 0 0))
    (replicate 3 0 ++ [sample_file] ++ replicate 28 0) (replicate 32 0) [47] 18 kbd_boot (Ports [] [] []) [] sample_apic.

Lemma sample_kernel_inv : fd_inv sample_kernel.
Proof.
  assert (Hfile : ∀ f F, files sample_fs !! f = Some F → f = sample_file ∧ F = MkFile (KERNEL_BASE + 4096) 0 0 0 1).
  { intros f F HF. cbn [sample_fs files] in HF. by apply lookup_singleton_Some in HF as [<- <-]. }
  split; [|done]. split.
  - done.
  - intros f Hf Hin. exists (MkFile (KERNEL_BASE + 4096) 0 0 0 1). assert (f = sample_file) as ->; [|apply lookup_singleton_eq].
    cbn in Hin. rewrite !elem_of_cons, elem_of_nil in Hin. naive_solver.
  - intros f F [-> ->]%Hfile. split; [vm_compute; discriminate|]. vm_compute. done.
  - intros f F [-> ->]%Hfile. split; [vm_compute; discriminate|]. exists (MkDentry [] (KERNEL_BASE + 8192) 0 0 0 2). vm_compute. done.
  - exists {[sample_file := sizeof_File]}. split.
    + split; [vm_compute; discriminate|]. intros p n Hp. apply lookup_singleton_Some in Hp as [<- _].
      vm_compute. done.
    + intros f [F [-> _]%Hfile]. apply lookup_singleton_eq.
Qed.

(** Duplicate 3 to 7, close 3 and 7, close 7 again. *)
Lemma descriptor_calls_refine_witness :
  ∃ k', run_calls (MkVt (λ _, None) (λ _, None) (λ _, None)) [CDupTo 3 7 true; CClose 3; CClose 7; CClose 7] sample_kernel
        = Ret ([7; 0; 0; -9], k') ∧ fd_inv k'.
Proof.
  destruct (descriptor_calls_refine (MkVt (λ _, None) (λ _, None) (λ _, None)) sample_kernel
    [CDupTo 3 7 true; CClose 3; CClose 7; CClose 7]) as (k' & Hr & Hinv & _).
  - exact sample_kernel_inv.
  - rewrite !Forall_cons, Forall_nil. cbn [call_args]. lia.
  - exists k'. split; [exact Hr|exact Hinv].
Defined.
